(* ===== verification/_CoqProject ===== *)
-Q . S2P
Prelude.v
PyText.v
Json.v
World.v
PyPath.v
Models.v
Invariants.v
Scheduler.v
SchedulerAdmin.v
Demo.v
SchedulerFacts.v
SchedulerSpec.v
SchedulerTheorems.v
Delivery.v
DeliveryTheorems.v
DeliveryInvariant.v
DeliveryExamples.v
ReviewResults.v
Reconciliation.v
FindingsTheorems.v
ReviewRuns.v
ReviewRequests.v
Webhooks.v
ReviewRunFacts.v
LifecycleTheorems.v
ReportTheorems.v
ServiceTheorems.v
ServiceExamples.v
PyRegex.v
Observability.v
PiAgent.v
SessionArchives.v
AgentSessions.v
AgentSessionTheorems.v
ArchiveTheorems.v
AgentSessionExamples.v
Views.v
Listings.v
ViewTheorems.v
Diffs.v
DiffTheorems.v
PlatformClient.v
GitHubClient.v
GitLabClient.v
ProviderCore.v
Comments.v
GitHub.v
GitLab.v
Registry.v
Platforms.v
PlatformWebhooks.v
CommentTheorems.v
CommentHost.v
PlatformTheorems.v
Workspaces.v
WorkspaceTheorems.v
WorkspaceExamples.v
WorkerCommon.v
WorkerPlatforms.v
AgentWorker.v
ReviewWorker.v
WorkerLoop.v
WorkerInvariants.v
PlatformDiagnostics.v
Schemas.v
Api.v
ApiInvariants.v
SystemInvariants.v
ApiErrors.v
ApiTheorems.v
WorkerTheorems.v
WorkerExamples.v
ApiExamples.v
Migrations.v
MigrationTheorems.v
DiagnosticsTheorems.v
PermissionCheck.v
Startup.v
GitHubAuth.v
GitHubAuthTheorems.v
