(* ===== verification/Prelude.v ===== *)
(** * Review Orchestrator: a verification library

    Review Orchestrator (Python, [src/src/review_orchestrator/]) receives webhooks of GitHub
    and GitLab, turns them into review runs and command tasks, lets worker processes claim
    those under a priority scheduler, drives an agent runtime over a working copy of the
    pull request, compares and stores the findings, and publishes the results through an
    outbox.  The service and its workers share nothing but the database.

    ** How the program is modelled

    A function of the program is a computation [SM A] of the monad of this file over the state
    [Session] of Models.v: the committed database, the database the open transaction sees,
    the clock, the requests sent to the code platforms and the journal of what was done to
    files and processes.  It ends in [Return] or in [Raise e] with an exception of the
    inductive [exn]; [try_except], [finally], [begin_nested], [commit] and [rollback] are what
    the Python statements of those names do.  A table is the list of its rows in insertion
    order, a row is a record with one field per column the code reads or writes
    ([<Model>.t]), [r .[ f := v ]] is an assignment to a column.  Names are those of the code;
    a definition that models a part of a longer function is named after what it does.

    What is outside the repository is a type class that the definitions take as an argument:
    [Runtime] (clock, uuid4, hashing, which rows another transaction has locked),
    [ResultSchema] (json and pydantic on agent results), [PiAgentRuntime] (the agent runtime
    over HTTP), [GitWorkspace] and [Host] (git processes and the file system), [PlatformHttp]
    and [DiagnosticsHttp] (the code platforms over HTTP), [WebhookLibrary] (json.loads, HMAC,
    dates), [GitHubApp] (PyGithub), [Deployment] and [CheckLibrary] (what the processes and the
    permission check run on).  Theorems hold for every instance, under the hypotheses they
    state; the witnesses use concrete ones (Demo.v and the [*Examples] files).

    Interfaces between components are classes too: [ProviderRegistry] (what the outbox asks of
    an adapter; implemented in Platforms.v by the two platforms), [CheckoutRegistry] and
    [WorkerProviders] (what workspaces and workers ask of a platform; WorkerPlatforms.v),
    [TableInvariant] and [Kept] (what an invariant promises to the worker; Invariants.v and
    WorkerInvariants.v), [PlatformsKeep] and [Readable] (what the platforms and the reading
    routes promise to an invariant; WorkerPlatforms.v and ApiInvariants.v).

    ** Where each part is

    Foundations.  Prelude.v: record update, the monad and its rules, lists and options.
    PyText.v, PyPath.v, PyRegex.v: the parts of [str], [pathlib] and [re] the code uses.
    Json.v, World.v: JSON values, exchanges and the machine.  Models.v:
    [domain/models.py] and the database session.

    Scheduling.  Scheduler.v: [application/scheduler.py], requirements, aging and the three
    operations on claims; SchedulerAdmin.v: rescheduling and pool capacities of
    [application/services.py].  SchedulerFacts.v and SchedulerSpec.v give the effect of a claim,
    SchedulerTheorems.v the properties: no pool is overbooked, a claim takes the best task that
    fits and grants all or nothing, aging bounds the wait, capacities print and parse.

    Outbox.  Delivery.v: [application/delivery.py].  DeliveryTheorems.v: what success, failure
    and a lost lease record, and the order of results on one comment; DeliveryInvariant.v: a
    delivery is locked exactly while it runs, so none is stuck.

    Results.  ReviewResults.v: [domain/review_results.py]; Reconciliation.v:
    [domain/reconciliation.py].  FindingsTheorems.v: fingerprints, and the comparison with the
    previous run against its specification.

    Use cases of [application/services.py].  ReviewRuns.v (the life of a run), ReviewRequests.v
    (retry and rerun), Webhooks.v (the inbox and commands), AgentSessions.v (the agent session
    of a run), Views.v and Listings.v (the read side).  ReviewRunFacts.v: frame
    lemmas and rules for task rows.  LifecycleTheorems.v, ReportTheorems.v,
    ServiceTheorems.v, AgentSessionTheorems.v and ViewTheorems.v: finished
    tasks stay finished, a webhook delivered again changes nothing, requests are idempotent,
    superseding, the latest report wins, the calls of a session refine a state machine, the
    list shows what the detail shows.

    Agent runtime and archive.  PiAgent.v: [integrations/pi_agent.py]; Observability.v:
    redaction of [infrastructure/observability.py]; SessionArchives.v:
    [application/session_archive.py].  ArchiveTheorems.v: redaction hides secrets, the captured
    diff is bounded.

    Platforms.  PlatformClient.v, GitHubClient.v, GitLabClient.v, ProviderCore.v, Comments.v,
    GitHub.v, GitLab.v, Registry.v, PlatformWebhooks.v, Diffs.v: [integrations/github.py],
    [gitlab.py], [providers.py], [provider_plugins.py] and [comments.py]; PlatformDiagnostics.v:
    [platform_diagnostics.py]; GitHubAuth.v: [github_auth.py].  DiffTheorems.v,
    CommentTheorems.v, CommentHost.v, PlatformTheorems.v, DiagnosticsTheorems.v and
    GitHubAuthTheorems.v: which lines take a comment, loops that end, a command leaves at most
    one comment whatever fails, accepted webhooks are authorised, diagnostics only read and
    report health exactly when it was seen, tokens recover from a new installation.

    Workspaces.  Workspaces.v: [infrastructure/workspaces.py].  WorkspaceTheorems.v: ready means
    checked out at the head asked for, no credential in a failure, leased copies are spared.

    Workers.  WorkerCommon.v, AgentWorker.v, ReviewWorker.v: [application/worker.py];
    WorkerLoop.v: [application/worker_cli.py].  WorkerTheorems.v: a pass leaves no claim behind,
    bounded retries, the history of a command, turns.

    Service.  Schemas.v: the bounds of the request bodies of [domain/schemas.py] and
    [integrations/providers.py].  Api.v: [presentation/api.py], [presentation/provider_core.py] and [get_session] of
    [infrastructure/db.py]; a request is a value of [reading] or [changing].  ApiInvariants.v and
    ApiErrors.v walk the routes, ApiTheorems.v: reading changes nothing, a request without its
    credential or with an ill-formed body touches nothing, refusals are answered with their status.  SystemInvariants.v: the
    system as a step relation, requests of the API and passes of workers in any order.
    Migrations.v: the migrations of [infrastructure/db.py]; MigrationTheorems.v: they are
    idempotent and give each legacy row its task.  Startup.v: [presentation/main.py],
    [run_worker] of [application/worker_cli.py], [create_github_client] and the plugins of
    [integrations/provider_plugins.py]: both processes close what they opened, wherever they
    fail, and the registry has the enabled providers.  PermissionCheck.v:
    [src/scripts/check_platform_permissions.py]: its exit code is 0 exactly for a healthy answer.

    ** Bounds and fuel

    Loops and searches are structural recursions, the regular expressions included, but for
    these.  [redact_loop] masks credentials in a text with one more than the length of the text
    as fuel: each round goes on after what it masked, and CommentTheorems.v proves that the fuel
    is not exhausted.  A request that finds its event inserted by another transaction asks
    again, to [recursion_limit], the limit of Python; one round is enough, because the event is
    found then.  The pages of a list are read without a bound in the code: [page_limit] of
    [PlatformHttp] is how many pages a platform may give before the model calls it an error;
    results hold for every limit.  [run_worker] runs a given number of passes of a loop that
    does not end; its theorems hold for every number.

    ** Conventions

    - An object held in a Python variable and a foreign key are the primary key of the row; it
      is read again where the code reads an attribute.  Where the session would not refresh a
      row, the row itself is passed on.
    - Times are microseconds since 1970 in UTC.  SQLite gives back naive times in a fresh
      session, which [elapsed_since] takes into account; elsewhere the code makes them aware.
    - Characters are code points below 256; literals beyond them are their UTF-8 bytes.
    - A flush happens at once; [updated_at] changes only where the code assigns it; a session
      that must be rolled back before use is not modelled.
    - [sent] records the requests to the code platforms, not those to the agent runtime.
    - A request body is the record its schema builds; its bounds are checked by the routes, as
      those of the query parameters are.  Reading JSON into that record is pydantic's.

    ** Not modelled

    The declaration of routes and redirects in [presentation/main.py], the dashboards (constant
    pages), the top-level modules that only alias others, the plain fields of
    [infrastructure/config.py], the response schemas of [domain/schemas.py] that copy a row
    (the row stands for the copy), the protocols and exception classes of
    [integrations/providers.py] (declarations), the constructors of the HTTP clients, the two
    argument parsers, and logging: input and output, or declarations the libraries carry out.
    [RetryJob] of [domain/models.py], [get_review_run_by_head] and [_finding_count_by_severity] of
    [application/services.py] and two payload helpers of [integrations/pi_agent.py] are never
    used. *)
From stdpp Require Export base decidable list strings gmap sorting pretty.
From Stdlib Require Export ZArith Lia.

#[global] Open Scope Z_scope.
#[global] Set Default Goal Selector "!".

Declare Scope orch_scope.
Delimit Scope orch_scope with orch.
#[global] Open Scope orch_scope.

(** ** Functional record update

    [r .[ f := v ]] is [r] with field [f] replaced by [v], the model of the
    Python statement [r.f = v] on a mapped object.  A record opts in with an
    [Eta] instance that rebuilds it field by field; the updater of one field is
    then derived by abstracting that field out of the rebuilt record. *)

Class Eta (R : Type) := rebuild : R → R.
Class Updater {R F : Type} (field : R → F) := update_field : (F → F) → R → R.
Arguments update_field {R F} field {_} _ !_ /.

Ltac derive_updater :=
  lazymatch goal with
  | |- @Updater ?R ?F ?field =>
      let g := fresh "g" in
      let r := fresh "r" in
      intros g r;
      let inst := constr:(_ : Eta R) in
      let body := eval hnf in (@rebuild R inst r) in
      lazymatch eval pattern (field r) in body with
      | ?ctx _ => exact (ctx (g (field r)))
      end
  end.
#[global] Hint Extern 0 (Updater _) => derive_updater : typeclass_instances.

Notation "r .[ f := v ]" := (update_field f (fun _ => v) r)
  (at level 1, left associativity, f at next level, v at level 200,
   format "r .[  f  :=  v  ]") : orch_scope.

(** ** Exceptions and outcomes

    One constructor per exception class the modelled code raises or catches. *)

Inductive exn :=
  | ValueError (message : string)
  | TypeError (message : string)
  | KeyError (message : string)
  | IndexError (message : string)
  | AssertionError (message : string)
  | OSError (message : string)
  | IntegrityError (constraint : string)
  | ProviderError (message : string)
  | ProviderCapabilityError (message : string)
  | ReviewRunTransitionError (message : string) (status_code : Z)
  | ReviewRequestRejected (message code event_id : string)
      (existing_review_run_id : option string)
  | AgentReviewActionRejected (message code : string)
  | ReviewResultInvalid (code message : string)
  | PiAgentClientError (message : string) (infrastructure_failure : bool)
  | GitHubClientError (message : string)
  | GitHubAuthenticationError (message : string)
  | GitLabClientError (message : string)
  | GitCommandError (code message : string)
  | ProviderWebhookError (message error_code : string) (status_code : Z)
  | OtherError (message : string).

(** [str(exc)]. *)
Definition exn_str (e : exn) : string :=
  match e with
  | ValueError m | TypeError m | KeyError m | IndexError m | AssertionError m | OSError m
  | IntegrityError m | ProviderError m | ProviderCapabilityError m | ReviewRunTransitionError m _
  | ReviewRequestRejected m _ _ _ | AgentReviewActionRejected m _ | ReviewResultInvalid _ m
  | PiAgentClientError m _ | GitHubClientError m | GitHubAuthenticationError m | GitLabClientError m
  | GitCommandError _ m | ProviderWebhookError m _ _ | OtherError m => m
  end.

Inductive outcome (A : Type) :=
  | Return (a : A)
  | Raise (e : exn).
Arguments Return {A} a.
Arguments Raise {A} e.

#[export] Instance exn_eq_dec : EqDecision exn.
Proof. solve_decision. Defined.
#[export] Instance outcome_eq_dec {A} `{EqDecision A} : EqDecision (outcome A).
Proof. solve_decision. Defined.

(** Pure code that may raise. *)
#[export] Instance outcome_ret : MRet outcome := λ A a, Return a.
#[export] Instance outcome_bind : MBind outcome := λ A B k o,
  match o with Return a => k a | Raise e => Raise e end.

(** [[f(x) for x in l]] where [f] may raise, with the results concatenated. *)
Fixpoint outcome_concat {A B} (f : A → outcome (list B)) (l : list A) : outcome (list B) :=
  match l with
  | [] => mret []
  | x :: l => ys ← f x; zs ← outcome_concat f l; mret (ys ++ zs)
  end.

Lemma outcome_bind_Return {A B} (o : outcome A) (k : A → outcome B) b :
  (a ← o; k a) = Return b → ∃ a, o = Return a ∧ k a = Return b.
Proof. destruct o as [a|e]; [by exists a|done]. Qed.

Lemma outcome_concat_Return {A B} (f : A → outcome (list B)) l ys y :
  outcome_concat f l = Return ys → y ∈ ys → ∃ x xs, x ∈ l ∧ f x = Return xs ∧ y ∈ xs.
Proof.
  revert ys. induction l as [|x l IH]; simpl; intros ys.
  - intros [= <-]. set_solver.
  - unfold mbind, outcome_bind. destruct (f x) as [xs|e] eqn:Hf; [|done].
    destruct (outcome_concat f l) as [zs|e]; [|done]. intros [= <-].
    rewrite elem_of_app. intros [Hy|Hy].
    + exists x, xs. set_solver.
    + destruct (IH zs eq_refl Hy) as (x' & xs' & ? & ? & ?). exists x', xs'. set_solver.
Qed.

(** ** A state and exception monad

    A computation that raises keeps the state it reached: Python exceptions do
    not undo assignments, only [rollback] does. *)

Definition M (S A : Type) : Type := S → outcome A * S.

#[export] Instance M_ret {S} : MRet (M S) := λ A a s, (Return a, s).
#[export] Instance M_bind {S} : MBind (M S) := λ A B k m s,
  match m s with
  | (Return a, s') => k a s'
  | (Raise e, s') => (Raise e, s')
  end.

Definition raise {S A} (e : exn) : M S A := λ s, (Raise e, s).
Definition gets {S A} (f : S → A) : M S A := λ s, (Return (f s), s).
Definition puts {S} (f : S → S) : M S () := λ s, (Return tt, f s).
Definition when {S} (b : bool) (m : M S ()) : M S () := if b then m else mret tt.
Definition lift {S A} (o : outcome A) : M S A := λ s, (o, s).

(** [try: m  except Exception as exc: h exc]. *)
Definition try_except {S A} (m : M S A) (h : exn → M S A) : M S A := λ s,
  match m s with
  | (Raise e, s') => h e s'
  | r => r
  end.

(** [try: m  finally: cleanup]: an exception of the clean-up replaces the outcome. *)
Definition finally {S A} (m : M S A) (cleanup : M S ()) : M S A := λ s,
  let '(o, s') := m s in
  match cleanup s' with
  | (Return _, s'') => (o, s'')
  | (Raise e, s'') => (Raise e, s'')
  end.

(** A step whose result is not looked at. *)
Definition ignore {S A} (m : M S A) : M S () := _ ← m; mret tt.

(** The rest of a function after a step that may have returned from it. *)
Definition unless_returned {S A B} (m : M S (A + B)) (k : A → M S B) : M S B :=
  r ← m; match r with inl a => k a | inr b => mret b end.

(** [for x in l: body x]. *)
Fixpoint for_each {S A} (l : list A) (body : A → M S ()) : M S () :=
  match l with
  | [] => mret tt
  | x :: l => body x ;; for_each l body
  end.

#[global] Arguments for_each : simpl never.

Definition exec {S A} (m : M S A) (s : S) : S := (m s).2.
Definition result {S A} (m : M S A) (s : S) : outcome A := (m s).1.

Lemma bind_mret_run {S A B} (a : A) (k : A → M S B) s : (mret a ≫= k) s = k a s.
Proof. done. Qed.

Lemma bind_raise_run' {S A B} e (k : A → M S B) s : (raise e ≫= k) s = (Raise e, s).
Proof. done. Qed.

Lemma run_result {S A} (m : M S A) s o : result m s = o → m s = (o, exec m s).
Proof. intros <-. unfold result, exec. by destruct (m s). Qed.

(** *** Rules for computations

    [triple P m Q E]: from a state satisfying [P], [m] returns a value and a
    state related by [Q] or raises leaving a state related by [E]. *)

Definition triple {S A} (P : S → Prop) (m : M S A)
    (Q : A → S → Prop) (E : exn → S → Prop) : Prop :=
  ∀ s, P s → match m s with
             | (Return a, s') => Q a s'
             | (Raise e, s') => E e s'
             end.

(** [keeps I m]: [m] preserves [I], whether it returns or raises. *)
Definition keeps {S A} (I : S → Prop) (m : M S A) : Prop :=
  triple I m (λ _, I) (λ _, I).

Section monad_rules.
Context {S : Type}.
Implicit Types P I : S → Prop.

Lemma triple_ret {A} (a : A) P (Q : A → S → Prop) E :
  (∀ s, P s → Q a s) → triple P (mret a) Q E.
Proof. intros H s Hs. by apply H. Qed.

Lemma triple_raise {A} e P (Q : A → S → Prop) (E : exn → S → Prop) :
  (∀ s, P s → E e s) → triple P (raise e) Q E.
Proof. intros H s Hs. by apply H. Qed.

Lemma triple_bind {A B} (m : M S A) (k : A → M S B) P R Q E :
  triple P m R E → (∀ a, triple (R a) (k a) Q E) → triple P (m ≫= k) Q E.
Proof.
  intros Hm Hk s Hs. specialize (Hm s Hs). unfold mbind, M_bind.
  destruct (m s) as [[a|e] s']; [by apply Hk|done].
Qed.

Lemma triple_conseq {A} (m : M S A) P P' (Q Q' : A → S → Prop) (E E' : exn → S → Prop) :
  triple P m Q E → (∀ s, P' s → P s) → (∀ a s, Q a s → Q' a s) →
  (∀ e s, E e s → E' e s) → triple P' m Q' E'.
Proof.
  intros Hm HP HQ HE s Hs. specialize (Hm s (HP s Hs)).
  destruct (m s) as [[a|e] s']; auto.
Qed.

Lemma triple_Return {A} (m : M S A) P (Q : A → S → Prop) E s a s' :
  triple P m Q E → P s → m s = (Return a, s') → Q a s'.
Proof. intros Hm Hs Hr. specialize (Hm s Hs). by rewrite Hr in Hm. Qed.

Lemma triple_Raise {A} (m : M S A) P (Q : A → S → Prop) (E : exn → S → Prop) s e s' :
  triple P m Q E → P s → m s = (Raise e, s') → E e s'.
Proof. intros Hm Hs Hr. specialize (Hm s Hs). by rewrite Hr in Hm. Qed.

Lemma triple_pre {A} (m : M S A) P P' (Q : A → S → Prop) E :
  (∀ s, P' s → P s) → triple P m Q E → triple P' m Q E.
Proof. intros HP Hm s Hs. by apply Hm, HP. Qed.

Lemma keeps_then {A B} I (m : M S A) (k : A → M S B) Q :
  keeps I m → (∀ a, triple I (k a) Q (λ _, I)) → triple I (m ≫= k) Q (λ _, I).
Proof. intros Hm Hk. by eapply triple_bind. Qed.

(** A step that also tells something of its value. *)
Lemma keeps_bind_value {A B} I (P : A → Prop) (m : M S A) (k : A → M S B) :
  triple I m (λ a s, I s ∧ P a) (λ _, I) → (∀ a, P a → keeps I (k a)) → keeps I (m ≫= k).
Proof.
  intros Hm Hk. eapply triple_bind; [exact Hm|]. intros a s [Hs Ha]. by apply Hk.
Qed.

(** A fact that holds of every state satisfying the precondition. *)
Lemma triple_pure {A} (m : M S A) (φ : Prop) P (Q : A → S → Prop) E :
  (∀ s, P s → φ) → (φ → triple P m Q E) → triple P m Q E.
Proof. intros Hφ Hm s Hs. by apply Hm; [eapply Hφ|]. Qed.

(** A step that preserves [I], with a weaker condition on the error path. *)
Lemma triple_keeps {A} I I' (m : M S A) :
  keeps I m → (∀ s, I s → I' s) → triple I m (λ _, I) (λ _, I').
Proof. intros Hm HI. eapply triple_conseq; [exact Hm|auto..]. Qed.

Lemma keeps_ret {A} I (a : A) : keeps I (mret a).
Proof. by apply triple_ret. Qed.

Lemma keeps_raise {A} I e : keeps I (@raise S A e).
Proof. by apply triple_raise. Qed.

Lemma keeps_gets {A} I (f : S → A) : keeps I (gets f).
Proof. by intros s. Qed.

Lemma keeps_lift {A} I (o : outcome A) : keeps I (lift o).
Proof. intros s Hs. by destruct o. Qed.

Lemma keeps_puts I (f : S → S) : (∀ s, I s → I (f s)) → keeps I (puts f).
Proof. intros H s Hs. by apply H. Qed.

Lemma keeps_bind {A B} I (m : M S A) (k : A → M S B) :
  keeps I m → (∀ a, keeps I (k a)) → keeps I (m ≫= k).
Proof. intros Hm Hk. by eapply triple_bind. Qed.

Lemma keeps_if {A} I (b : bool) (m n : M S A) :
  keeps I m → keeps I n → keeps I (if b then m else n).
Proof. by destruct b. Qed.

Lemma keeps_when I b (m : M S ()) : keeps I m → keeps I (when b m).
Proof. intros. apply keeps_if; [done|apply keeps_ret]. Qed.

Lemma keeps_try {A} I (m : M S A) h :
  keeps I m → (∀ e, keeps I (h e)) → keeps I (try_except m h).
Proof.
  intros Hm Hh s Hs. specialize (Hm s Hs). unfold try_except.
  destruct (m s) as [[a|e] s']; [done|by apply Hh].
Qed.

Lemma keeps_for_each {A} I (l : list A) (body : A → M S ()) :
  (∀ x, keeps I (body x)) → keeps I (for_each l body).
Proof.
  intros H. induction l as [|x l IH]; [apply keeps_ret|].
  by apply keeps_bind.
Qed.

Lemma keeps_exec {A} I (m : M S A) s : keeps I m → I s → I (exec m s).
Proof.
  intros H Hs. specialize (H s Hs). unfold exec.
  by destruct (m s) as [[?|?] ?].
Qed.
End monad_rules.

(** [keeps_step] walks the syntax of a computation; [keeps] holds the lemmas
    of the operations already treated. *)
Create HintDb keeps.
#[export] Hint Resolve keeps_ret keeps_raise keeps_gets keeps_lift : keeps.

Ltac keeps_step :=
  lazymatch goal with
  | |- keeps _ (mbind _ _) => apply keeps_bind; [|intros ?]
  | |- keeps _ (for_each _ _) => apply keeps_for_each; intros ?
  | |- keeps _ (when _ _) => apply keeps_when
  | |- keeps _ (try_except _ _) => apply keeps_try; [|intros ?]
  | |- keeps _ (if ?b then _ else _) => destruct b
  | |- keeps _ (match ?x with _ => _ end) => destruct x
  | |- keeps _ _ => solve [eauto 3 with keeps]
  end.
Ltac keeps_auto := repeat keeps_step; eauto 3 with keeps.

(** [run_bind] exposes the next step of a computation applied to a state. *)
Lemma bind_run {S A B} (m : M S A) (k : A → M S B) s :
  (m ≫= k) s = match m s with
               | (Return a, s') => k a s'
               | (Raise e, s') => (Raise e, s')
               end.
Proof. done. Qed.

Lemma exec_bind {S A B} (m : M S A) (k : A → M S B) s a s' :
  m s = (Return a, s') → exec (m ≫= k) s = exec (k a) s'.
Proof. intros Hm. unfold exec. by rewrite bind_run, Hm. Qed.

Lemma exec_ignore {S A B} (m : M S A) (b : B) s : exec (_ ← m; mret b) s = exec m s.
Proof. unfold exec. rewrite bind_run. by destruct (m s) as [[?|?] ?]. Qed.

Lemma exec_finally {S A} (m : M S A) (cleanup : M S ()) s :
  exec (finally m cleanup) s = exec cleanup (exec m s).
Proof. unfold exec, finally. destruct (m s) as [o s']. cbn. by destruct (cleanup s') as [[[]|e] s'']. Qed.

Lemma exec_raise_bind {S A B} (m : M S A) (k : A → M S B) s e s' :
  m s = (Raise e, s') → exec (m ≫= k) s = s'.
Proof. intros Hm. unfold exec. by rewrite bind_run, Hm. Qed.

Lemma bind_Return {S A B} (m : M S A) (k : A → M S B) s b s2 :
  (m ≫= k) s = (Return b, s2) →
  ∃ a s1, m s = (Return a, s1) ∧ k a s1 = (Return b, s2).
Proof. rewrite bind_run. destruct (m s) as [[a|e] s1]; naive_solver. Qed.

Lemma bind_ret_run {S A B} (m : M S A) (k : A → M S B) s a s' :
  m s = (Return a, s') → (m ≫= k) s = k a s'.
Proof. rewrite bind_run. by intros ->. Qed.

Lemma bind_raise_run {S A B} (m : M S A) (k : A → M S B) s e s' :
  m s = (Raise e, s') → (m ≫= k) s = (Raise e, s').
Proof. rewrite bind_run. by intros ->. Qed.

(** ** ORDER BY

    A sort key is a list of integers compared lexicographically; a descending
    column is negated. *)

Fixpoint lex_le (k1 k2 : list Z) : bool :=
  match k1, k2 with
  | [], _ => true
  | _ :: _, [] => false
  | x :: k1, y :: k2 => (x <? y) || ((x =? y) && lex_le k1 k2)
  end.

Lemma lex_le_refl k : lex_le k k.
Proof. induction k as [|x k IH]; simpl; [done|]. rewrite Z.eqb_refl. by destruct (x <? x). Qed.

Lemma lex_le_total k1 k2 : lex_le k1 k2 ∨ lex_le k2 k1.
Proof.
  revert k2. induction k1 as [|x k1 IH]; intros [|y k2]; simpl; auto.
  destruct (Z.lt_total x y) as [H|[->|H]].
  - left. by rewrite (proj2 (Z.ltb_lt _ _) H).
  - rewrite Z.ltb_irrefl, Z.eqb_refl. simpl. apply IH.
  - right. by rewrite (proj2 (Z.ltb_lt _ _) H).
Qed.

Lemma lex_le_trans k1 k2 k3 : lex_le k1 k2 → lex_le k2 k3 → lex_le k1 k3.
Proof.
  revert k2 k3. induction k1 as [|x k1 IH]; intros [|y k2] [|z k3]; simpl; try done.
  intros H1 H2. apply orb_prop_elim in H1, H2.
  destruct (Z.ltb_spec x z) as [|Hxz]; simpl; [done|].
  destruct H1 as [H1|H1], H2 as [H2|H2]; repeat
    match goal with
    | H : Is_true (_ && _) |- _ => apply andb_prop_elim in H as [? ?]
    | H : Is_true (_ <? _) |- _ => apply Is_true_true, Z.ltb_lt in H
    | H : Is_true (_ =? _) |- _ => apply Is_true_true, Z.eqb_eq in H
    end; subst; try lia.
  rewrite Z.eqb_refl. simpl. eauto.
Qed.

Definition lex_cmp {R} (key : R → list Z) : relation R :=
  λ a b, Is_true (lex_le (key a) (key b)).
#[export] Instance lex_cmp_dec {R} (key : R → list Z) : RelDecision (lex_cmp key).
Proof. intros a b. unfold lex_cmp. apply _. Defined.
#[export] Instance lex_cmp_total {R} (key : R → list Z) : Total (lex_cmp key).
Proof. intros a b. apply lex_le_total. Qed.
#[export] Instance lex_cmp_trans {R} (key : R → list Z) : Transitive (lex_cmp key).
Proof. intros a b c. apply lex_le_trans. Qed.

(** [SELECT ... ORDER BY key]. *)
Definition order_by {R} (key : R → list Z) (l : list R) : list R :=
  merge_sort (lex_cmp key) l.

Lemma order_by_perm {R} (key : R → list Z) l : order_by key l ≡ₚ l.
Proof. apply merge_sort_Permutation. Qed.

Lemma elem_of_order_by {R} (key : R → list Z) l x : x ∈ order_by key l ↔ x ∈ l.
Proof. by rewrite order_by_perm. Qed.

Lemma order_by_sorted {R} (key : R → list Z) l :
  StronglySorted (lex_cmp key) (order_by key l).
Proof. apply StronglySorted_merge_sort; apply _. Qed.

(** The head of a sorted selection is a minimum. *)
Lemma order_by_head {R} (key : R → list Z) l x rest y :
  order_by key l = x :: rest → y ∈ l → lex_le (key x) (key y).
Proof.
  intros Heq Hy. pose proof (order_by_sorted key l) as Hs. rewrite Heq in Hs.
  apply (elem_of_order_by key) in Hy. rewrite Heq in Hy.
  apply elem_of_cons in Hy as [->|Hy]; [apply lex_le_refl|].
  apply StronglySorted_inv in Hs as [_ Hs].
  by eapply Forall_forall in Hs.
Qed.

Lemma order_by_nil_inv {R} (key : R → list Z) l : order_by key l = [] → l = [].
Proof. intros H. apply Permutation_nil. by rewrite <- (order_by_perm key l), H. Qed.

(** ** Lists *)

Definition sum_by {A} (f : A → Z) (l : list A) : Z := foldr (λ x n, f x + n) 0 l.

Section sum_by.
Context {A : Type} (f : A → Z).

Lemma sum_by_app l1 l2 : sum_by f (l1 ++ l2) = sum_by f l1 + sum_by f l2.
Proof. induction l1 as [|x l1 IH]; simpl; lia. Qed.

Lemma sum_by_nonneg l : (∀ x, x ∈ l → 0 ≤ f x) → 0 ≤ sum_by f l.
Proof.
  induction l as [|x l IH]; simpl; intros H; [done|].
  assert (0 ≤ f x) by (apply H; set_solver).
  assert (0 ≤ sum_by f l) by (apply IH; set_solver). lia.
Qed.

Lemma sum_by_elem_of l x : x ∈ l → (∀ y, y ∈ l → 0 ≤ f y) → f x ≤ sum_by f l.
Proof.
  intros [l1 [l2 ->]]%list_elem_of_split H.
  rewrite sum_by_app. simpl.
  assert (0 ≤ sum_by f l1) by (apply sum_by_nonneg; set_solver).
  assert (0 ≤ sum_by f l2) by (apply sum_by_nonneg; set_solver). lia.
Qed.

Lemma sum_by_filter_le (P : A → Prop) `{∀ x, Decision (P x)} l :
  (∀ x, x ∈ l → 0 ≤ f x) → sum_by f (filter P l) ≤ sum_by f l.
Proof.
  induction l as [|x l IH]; intros Hl; [done|].
  assert (0 ≤ f x) by (apply Hl; set_solver).
  assert (sum_by f (filter P l) ≤ sum_by f l) by (apply IH; set_solver).
  rewrite filter_cons. case_decide; simpl; lia.
Qed.

Lemma sum_by_filter_all (P : A → Prop) `{∀ x, Decision (P x)} l :
  (∀ x, x ∈ l → P x) → sum_by f (filter P l) = sum_by f l.
Proof.
  induction l as [|x l IH]; intros Hl; [done|].
  rewrite filter_cons, decide_True by (apply Hl; set_solver).
  simpl. rewrite IH; set_solver.
Qed.
End sum_by.

Lemma sum_by_ext {A} (f g : A → Z) l :
  (∀ x, x ∈ l → f x = g x) → sum_by f l = sum_by g l.
Proof.
  induction l as [|x l IH]; intros H; [done|]. simpl.
  rewrite H, IH; set_solver.
Qed.

Lemma sum_by_fmap {A B} (f : B → Z) (g : A → B) l :
  sum_by f (g <$> l) = sum_by (λ x, f (g x)) l.
Proof. induction l as [|x l IH]; [done|]. rewrite fmap_cons. simpl. by f_equal. Qed.

Lemma filter_agree {A} (P Q : A → Prop) `{∀ x, Decision (P x), ∀ x, Decision (Q x)} (l : list A) :
  (∀ x, x ∈ l → P x ↔ Q x) → filter P l = filter Q l.
Proof.
  induction l as [|x l IH]; intros HPQ; [done|]. rewrite !filter_cons.
  assert (P x ↔ Q x) by (apply HPQ; left). rewrite IH by (intros; apply HPQ; by right).
  repeat case_decide; tauto.
Qed.

Lemma filter_none {A} (P : A → Prop) `{∀ x, Decision (P x)} (l : list A) :
  (∀ x, x ∈ l → ¬ P x) → filter P l = [].
Proof.
  induction l as [|x l IH]; intros HP; [done|]. rewrite filter_cons, decide_False.
  - apply IH. intros y Hy. apply HP. by right.
  - apply HP. left.
Qed.

(** A list without duplicate keys determines an element from its key. *)
Lemma NoDup_key_eq {A} (key : A → string) l x y :
  NoDup (key <$> l) → x ∈ l → y ∈ l → key x = key y → x = y.
Proof.
  induction l as [|z l IH]; [set_solver|].
  rewrite fmap_cons, NoDup_cons. intros [Hz Hl] Hx Hy Heq.
  apply elem_of_cons in Hx as [->|Hx]; apply elem_of_cons in Hy as [->|Hy]; auto.
  - destruct Hz. rewrite Heq. by apply list_elem_of_fmap_2.
  - destruct Hz. rewrite <- Heq. by apply list_elem_of_fmap_2.
Qed.

(** Python truthiness of an optional string: [None] and [""] are false. *)
Definition truthy (o : option string) : bool :=
  match o with Some (String _ _) => true | _ => false end.

(** [o or None]: an empty text counts as missing. *)
Definition or_none (o : option string) : option string :=
  match o with Some (String c s) => Some (String c s) | _ => None end.

(** [a or b] on optional strings. *)
Definition or_else (o : option string) (d : string) : string :=
  match o with Some (String c s) => String c s | _ => d end.

Lemma truthy_spec o : truthy o ↔ ∃ s, o = Some s ∧ s ≠ "".
Proof. destruct o as [[|c s]|]; simpl; naive_solver. Qed.

Lemma Is_true_andb b c : Is_true (b && c) ↔ Is_true b ∧ Is_true c.
Proof. by rewrite andb_True. Qed.

(** ** sorted(values, key=...) on string keys *)

Definition str_cmp {R} (key : R → string) : relation R := λ a b, String.le (key a) (key b).
#[export] Instance str_cmp_dec {R} (key : R → string) : RelDecision (str_cmp key).
Proof. intros a b. unfold str_cmp. apply _. Defined.
#[export] Instance str_cmp_total {R} (key : R → string) : Total (str_cmp key).
Proof. intros a b. unfold str_cmp. apply String.le_total. Qed.
#[export] Instance str_cmp_trans {R} (key : R → string) : Transitive (str_cmp key).
Proof. intros a b c. unfold str_cmp. intros. by etrans. Qed.

Definition sort_by {R} (key : R → string) (l : list R) : list R := merge_sort (str_cmp key) l.

Section sort_by.
Context {R : Type} (key : R → string).

Lemma sort_by_perm l : sort_by key l ≡ₚ l.
Proof. apply merge_sort_Permutation. Qed.

Lemma sort_by_sorted l : StronglySorted (str_cmp key) (sort_by key l).
Proof. apply StronglySorted_merge_sort; apply _. Qed.

Lemma elem_of_sort_by l x : x ∈ sort_by key l ↔ x ∈ l.
Proof. by rewrite sort_by_perm. Qed.

(** With distinct keys the sorted list depends only on the set of elements. *)
Lemma sort_by_unique l1 l2 :
  l1 ≡ₚ l2 → NoDup (key <$> l1) → sort_by key l1 = sort_by key l2.
Proof.
  intros Hp Hnd. eapply StronglySorted_unique_strong; [|apply sort_by_sorted..|].
  - intros x y Hx Hy H1 H2. rewrite elem_of_sort_by in Hx, Hy.
    rewrite <- Hp in Hy. eapply NoDup_key_eq; [done..|].
    apply (anti_symm String.le); done.
  - by rewrite !sort_by_perm.
Qed.
End sort_by.

(** Deciding a closed proposition by computation. *)
Ltac decide_by_computation :=
  lazymatch goal with
  | |- Is_true _ => vm_compute; exact I
  | |- ?P => apply (bool_decide_unpack P); vm_compute; exact I
  end.
