(* ===== verification/PyText.v ===== *)
(** * Python text

    The [str] operations the modelled code uses, on strings whose characters
    are code points below 256 (one [ascii] per code point): case folding,
    white space, [strip], [split], [partition], [replace], [join], substring
    search, the two regular expressions of the fingerprint normaliser, and
    [int].  Decimal printing is stdpp's [pretty]. *)
From Stdlib Require Import Ascii.
From S2P Require Import Prelude.

Definition code (c : ascii) : Z := Z.of_N (N_of_ascii c).
Definition in_range (lo hi : Z) (c : ascii) : bool := (lo <=? code c) && (code c <=? hi).
Definition char_eqb (a b : ascii) : bool := bool_decide (a = b).

(** [str.isspace] of one character. *)
Definition is_space (c : ascii) : bool :=
  in_range 9 13 c || in_range 28 32 c || (code c =? 133) || (code c =? 160).

Definition is_digit (c : ascii) : bool := in_range 48 57 c.

(** The character class [\w]. *)
Definition is_word (c : ascii) : bool :=
  is_digit c || in_range 65 90 c || in_range 97 122 c || (code c =? 95)
  || (code c =? 170) || (code c =? 178) || (code c =? 179) || (code c =? 181)
  || (code c =? 185) || (code c =? 186) || in_range 188 190 c
  || in_range 192 214 c || in_range 216 246 c || in_range 248 255 c.

Definition lower_char (c : ascii) : ascii :=
  if in_range 65 90 c || (in_range 192 222 c && negb (code c =? 215))
  then ascii_of_N (Z.to_N (code c + 32)) else c.

Fixpoint str_map (f : ascii → ascii) (s : string) : string :=
  match s with
  | "" => ""
  | String c s => String (f c) (str_map f s)
  end.

(** [s.lower()]. *)
Definition py_lower : string → string := str_map lower_char.

(** [s.replace(a, b)] for one-character strings. *)
Definition py_replace_char (a b : ascii) : string → string :=
  str_map (λ c, if char_eqb c a then b else c).

Fixpoint str_all (p : ascii → bool) (s : string) : bool :=
  match s with
  | "" => true
  | String c s => p c && str_all p s
  end.

Fixpoint str_rev_app (s acc : string) : string :=
  match s with
  | "" => acc
  | String c s => str_rev_app s (String c acc)
  end.
Definition str_rev (s : string) : string := str_rev_app s "".

Fixpoint lstrip_by (p : ascii → bool) (s : string) : string :=
  match s with
  | "" => ""
  | String c s' => if p c then lstrip_by p s' else s
  end.
Definition rstrip_by (p : ascii → bool) (s : string) : string :=
  str_rev (lstrip_by p (str_rev s)).

(** [s.strip()]. *)
Definition py_strip (s : string) : string := rstrip_by is_space (lstrip_by is_space s).

(** [s.split(sep)] for a one-character separator. *)
Fixpoint py_split (sep : ascii) (s : string) : list string :=
  match s with
  | "" => [""]
  | String c s =>
      if char_eqb c sep then "" :: py_split sep s
      else match py_split sep s with
           | [] => [String c ""]
           | w :: ws => String c w :: ws
           end
  end.

(** [s.partition(sep)]: the text before the separator, whether it occurs, and
    the text after it. *)
Fixpoint py_partition (sep : ascii) (s : string) : string * bool * string :=
  match s with
  | "" => ("", false, "")
  | String c s =>
      if char_eqb c sep then ("", true, s)
      else let '(before, found, after) := py_partition sep s in
           (String c before, found, after)
  end.

(** [sep.join(parts)]. *)
Fixpoint py_join (sep : string) (parts : list string) : string :=
  match parts with
  | [] => ""
  | [w] => w
  | w :: ws => w +:+ sep +:+ py_join sep ws
  end.

Fixpoint starts_with (prefix s : string) : bool :=
  match prefix, s with
  | "", _ => true
  | String a p, String b s => char_eqb a b && starts_with p s
  | _, _ => false
  end.

(** [s.replace(old, new)] for a non-empty [old]: [skip] characters of an occurrence that
    was replaced are still to be passed over. *)
Fixpoint replace_from (old new : string) (skip : nat) (s : string) : string :=
  match s with
  | "" => ""
  | String c s' =>
      match skip with
      | S skip => replace_from old new skip s'
      | O => if starts_with old s
             then new +:+ replace_from old new (String.length old - 1) s'
             else String c (replace_from old new 0 s')
      end
  end.
Definition py_replace (old new : string) : string → string := replace_from old new 0.

(** [sub in s]. *)
Fixpoint py_contains (sub s : string) : bool :=
  starts_with sub s ||
  match s with
  | "" => false
  | String _ s => py_contains sub s
  end.

(** [re.sub("[class]+", " ", s)]: every maximal run of the class becomes one
    space; [in_run] holds when the previous character was in the class. *)
Fixpoint collapse_from (p : ascii → bool) (in_run : bool) (s : string) : string :=
  match s with
  | "" => ""
  | String c s =>
      if p c then
        if in_run then collapse_from p true s
        else String " " (collapse_from p true s)
      else String c (collapse_from p false s)
  end.
Definition re_sub_runs (p : ascii → bool) : string → string := collapse_from p false.

(** [s[n:]]. *)
Fixpoint str_drop (n : nat) (s : string) : string :=
  match n, s with
  | S n, String _ s => str_drop n s
  | _, _ => s
  end.

(** [s.split(sep, 1)]: the text before and after the first occurrence. *)
Fixpoint split_once (sep s : string) : option (string * string) :=
  if starts_with sep s
  then Some ("", str_drop (String.length sep) s)
  else match s with
       | "" => None
       | String c s => '(before, after) ← split_once sep s; Some (String c before, after)
       end.

(** The characters at which [str.splitlines] breaks. *)
Definition is_line_break (c : ascii) : bool :=
  in_range 10 13 c || in_range 28 30 c || (code c =? 133).

(** [s.splitlines()]: a carriage return and the line feed after it are one break. *)
Fixpoint splitlines (s : string) : list string :=
  match s with
  | "" => []
  | String c s' =>
      if is_line_break c then
        "" :: match s' with
              | String d s'' =>
                  if (code c =? 13) && (code d =? 10) then splitlines s'' else splitlines s'
              | "" => []
              end
      else match splitlines s' with
           | [] => [String c ""]
           | l :: ls => String c l :: ls
           end
  end.

(** [int(s)] for a decimal literal: surrounding white space, an optional sign
    and digits with single underscores between them.  On an all-ASCII string
    only the C white space is skipped. *)
Definition is_ascii (c : ascii) : bool := code c <? 128.
Definition int_space (s : string) (c : ascii) : bool :=
  if str_all is_ascii s then in_range 9 13 c || (code c =? 32) else is_space c.

Fixpoint digits_value (acc : Z) (after_digit : bool) (s : string) : option Z :=
  match s with
  | "" => if after_digit then Some acc else None
  | String c s =>
      if is_digit c then digits_value (acc * 10 + (code c - 48)) true s
      else if char_eqb c "_" && after_digit then digits_value acc false s
      else None
  end.

Definition py_int (s : string) : option Z :=
  let body := rstrip_by (int_space s) (lstrip_by (int_space s) s) in
  match body with
  | String c rest =>
      if char_eqb c "-" then option_map Z.opp (digits_value 0 false rest)
      else if char_eqb c "+" then digits_value 0 false rest
      else digits_value 0 false body
  | "" => None
  end.

(** [str(n)]. *)
Definition str_int (n : Z) : string := pretty n.

(** ** Generic facts *)

Lemma char_eqb_eq a b : char_eqb a b ↔ a = b.
Proof. unfold char_eqb. apply bool_decide_spec. Qed.
Lemma char_eqb_refl a : char_eqb a a = true.
Proof. unfold char_eqb. by rewrite bool_decide_true. Qed.
Lemma char_eqb_neq a b : a ≠ b → char_eqb a b = false.
Proof. intros. unfold char_eqb. by rewrite bool_decide_false. Qed.

Lemma str_app_cons c s t : String c s +:+ t = String c (s +:+ t).
Proof. done. Qed.
Lemma str_app_nil_l s : "" +:+ s = s.
Proof. done. Qed.
Lemma str_app_nil_r s : s +:+ "" = s.
Proof. induction s as [|c s IH]; [done|]. by rewrite str_app_cons, IH. Qed.
Lemma str_app_assoc s t u : (s +:+ t) +:+ u = s +:+ (t +:+ u).
Proof. induction s as [|c s IH]; [done|]. by rewrite !str_app_cons, IH. Qed.

Lemma str_all_app p s t : str_all p (s +:+ t) = str_all p s && str_all p t.
Proof. induction s as [|c s IH]; [done|]. rewrite str_app_cons. simpl.
  by rewrite IH, andb_assoc.
Qed.

Lemma str_all_weaken (p q : ascii → bool) s : (∀ c, p c → q c) → str_all p s → str_all q s.
Proof.
  intros H. induction s as [|c s IH]; simpl; [done|].
  rewrite !Is_true_andb. naive_solver.
Qed.

Lemma str_rev_app_spec s acc : str_rev_app s acc = str_rev s +:+ acc.
Proof.
  unfold str_rev. revert acc. induction s as [|c s IH]; intros acc; [done|].
  simpl. by rewrite IH, (IH (String c "")), str_app_assoc.
Qed.

Lemma str_rev_cons c s : str_rev (String c s) = str_rev s +:+ String c "".
Proof. unfold str_rev at 1. simpl. apply str_rev_app_spec. Qed.

Lemma str_rev_app_distr s t : str_rev (s +:+ t) = str_rev t +:+ str_rev s.
Proof.
  induction s as [|c s IH]; [by rewrite str_app_nil_r|].
  rewrite str_app_cons, !str_rev_cons, IH. apply str_app_assoc.
Qed.

Lemma str_rev_involutive s : str_rev (str_rev s) = s.
Proof.
  induction s as [|c s IH]; [done|].
  rewrite str_rev_cons, str_rev_app_distr, IH. done.
Qed.

Lemma str_all_rev p s : str_all p (str_rev s) = str_all p s.
Proof.
  induction s as [|c s IH]; [done|].
  rewrite str_rev_cons, str_all_app, IH. simpl. rewrite andb_true_r. apply andb_comm.
Qed.

(** Stripping does nothing when neither end is in the class. *)
Definition head_not (p : ascii → bool) (s : string) : bool :=
  match s with String c _ => negb (p c) | "" => true end.

Lemma lstrip_by_id p s : head_not p s → lstrip_by p s = s.
Proof. destruct s as [|c s]; [done|]. simpl. by destruct (p c). Qed.

Lemma rstrip_by_id p s : head_not p (str_rev s) → rstrip_by p s = s.
Proof. intros H. unfold rstrip_by. by rewrite lstrip_by_id, str_rev_involutive. Qed.

Lemma head_not_all (p q : ascii → bool) s : (∀ c, q c → negb (p c)) → str_all q s → head_not p s.
Proof. intros H. destruct s as [|c s]; simpl; [done|]. rewrite Is_true_andb. naive_solver. Qed.

Lemma strip_by_all (p q : ascii → bool) s :
  (∀ c, q c → negb (p c)) → str_all q s → rstrip_by p (lstrip_by p s) = s.
Proof.
  intros H Hs. rewrite lstrip_by_id by eauto using head_not_all.
  apply rstrip_by_id, (head_not_all _ q); [done|]. by rewrite str_all_rev.
Qed.

(** [s.split(sep)] undoes [sep.join] on parts free of the separator. *)
Definition free_of (sep : ascii) (s : string) : bool := str_all (λ c, negb (char_eqb c sep)) s.

Lemma py_split_free sep s : free_of sep s → py_split sep s = [s].
Proof.
  induction s as [|c s IH]; simpl; [done|].
  unfold free_of. simpl. rewrite Is_true_andb. intros [Hc Hs].
  destruct (char_eqb c sep); [done|]. by rewrite IH.
Qed.

Lemma py_split_app sep s t :
  free_of sep s → py_split sep (s +:+ String sep t) = s :: py_split sep t.
Proof.
  induction s as [|c s IH]; unfold free_of; rewrite ?str_app_nil_l, ?str_app_cons; simpl.
  - intros _. by rewrite char_eqb_refl.
  - rewrite Is_true_andb. intros [Hc Hs]. rewrite IH by done.
    by destruct (char_eqb c sep).
Qed.

Lemma py_split_join sep parts :
  parts ≠ [] → Forall (λ s, Is_true (free_of sep s)) parts →
  py_split sep (py_join (String sep "") parts) = parts.
Proof.
  intros Hne Hall. induction Hall as [|w ws Hw Hall IH]; [done|].
  destruct ws as [|w' ws]; simpl.
  - by apply py_split_free.
  - change (py_split sep (w +:+ String sep (py_join (String sep "") (w' :: ws)))
      = w :: w' :: ws).
    rewrite py_split_app by done. f_equal. by apply IH.
Qed.

Lemma py_partition_app sep s t :
  free_of sep s → py_partition sep (s +:+ String sep t) = (s, true, t).
Proof.
  induction s as [|c s IH]; unfold free_of; rewrite ?str_app_nil_l, ?str_app_cons; simpl.
  - intros _. by rewrite char_eqb_refl.
  - rewrite Is_true_andb. intros [Hc Hs]. rewrite IH by done.
    by destruct (char_eqb c sep).
Qed.

(** Joining with a separator is injective on lists of equal length whose
    parts are free of it. *)
Lemma py_join_inj sep l1 l2 :
  length l1 = length l2 →
  Forall (λ s, Is_true (free_of sep s)) l1 → Forall (λ s, Is_true (free_of sep s)) l2 →
  py_join (String sep "") l1 = py_join (String sep "") l2 → l1 = l2.
Proof.
  intros Hlen H1 H2 Heq. destruct l1 as [|w1 l1].
  { by destruct l2. }
  destruct l2 as [|w2 l2]; [done|].
  rewrite <- (py_split_join sep (w1 :: l1)), <- (py_split_join sep (w2 :: l2)) by done.
  by rewrite Heq.
Qed.

(** ** Decimal round trip *)

Lemma pretty_char_spec x :
  (x < 10)%N →
  is_digit (pretty_N_char x) = true ∧ code (pretty_N_char x) - 48 = Z.of_N x.
Proof.
  intros Hx. destruct x as [|p]; [done|].
  do 4 (destruct p as [p|p|]; try (by split); try (exfalso; lia)).
Qed.

(** Reading the digits printed in front of [s] continues with [s]. *)
Lemma digits_value_pretty x s acc b :
  (0 < x)%N →
  ∃ k, (0 < k) ∧ (Z.of_N x < k) ∧
    digits_value acc b (pretty_N_go x s) = digits_value (acc * k + Z.of_N x) true s.
Proof.
  revert s acc b. induction (N.lt_wf_0 x) as [x _ IH]; intros s acc b Hx.
  rewrite pretty_N_go_step by done.
  destruct (pretty_char_spec (x `mod` 10)%N) as [Hd Hc]; [by apply N.mod_lt|].
  assert (Hdm : Z.of_N x = 10 * Z.of_N (x `div` 10)%N + Z.of_N (x `mod` 10)%N).
  { pose proof (N.div_mod x 10 ltac:(done)). lia. }
  assert (Hm : (x `mod` 10 < 10)%N) by by apply N.mod_lt.
  destruct (decide (x `div` 10 = 0)%N) as [H0|H0].
  - exists 10. rewrite H0, pretty_N_go_0. simpl. rewrite Hd. split; [lia|].
    split; [lia|]. rewrite H0 in Hdm. by replace (acc * 10 + _) with (acc * 10 + Z.of_N x) by lia.
  - destruct (IH (x `div` 10)%N (N.div_lt _ 10 Hx ltac:(lia))
                (String (pretty_N_char (x `mod` 10)) s) acc b) as (k & Hk & Hlt & ->); [lia|].
    exists (10 * k). split; [lia|]. split; [lia|]. simpl. rewrite Hd.
    by replace ((acc * k + _) * 10 + _) with (acc * (10 * k) + Z.of_N x) by lia.
Qed.

Lemma pretty_N_go_digits x s :
  str_all is_digit s → str_all is_digit (pretty_N_go x s).
Proof.
  revert s. induction (N.lt_wf_0 x) as [x _ IH]; intros s Hs.
  destruct (decide (0 < x)%N) as [Hx|Hx].
  - rewrite pretty_N_go_step by done. apply IH; [by apply N.div_lt|].
    simpl. rewrite (proj1 (pretty_char_spec _ (N.mod_lt x 10 ltac:(done)))). done.
  - replace x with 0%N by lia. by rewrite pretty_N_go_0.
Qed.

Lemma pretty_N_digits (x : N) : str_all is_digit (pretty x).
Proof. unfold pretty, pretty_N. case_decide; [done|]. by apply pretty_N_go_digits. Qed.

Lemma pretty_N_nonempty (x : N) : ∃ c s, pretty x = String c s ∧ is_digit c.
Proof.
  pose proof (pretty_N_digits x) as Hd. destruct (pretty x) as [|c s] eqn:Hp.
  - exfalso. revert Hp. unfold pretty, pretty_N. case_decide; [done|].
    destruct (digits_value_pretty x "" 0 true) as (k & ? & ? & Hv); [lia|].
    intros Hp. rewrite Hp in Hv. simpl in Hv. injection Hv. lia.
  - exists c, s. simpl in Hd. by apply Is_true_andb in Hd as [? ?].
Qed.

Lemma digits_value_pretty_N (x : N) : digits_value 0 false (pretty x) = Some (Z.of_N x).
Proof.
  unfold pretty, pretty_N. case_decide as Hx; [by subst|].
  destruct (digits_value_pretty x "" 0 false) as (k & ? & ? & ->); [lia|].
  simpl. f_equal; lia.
Qed.

Lemma digit_not_space s c : is_digit c → negb (int_space s c).
Proof.
  unfold is_digit, int_space, is_space, in_range. intros H%Is_true_true.
  apply andb_prop in H as [H1%Z.leb_le H2%Z.leb_le]. apply Is_true_true, negb_true_iff.
  destruct (str_all is_ascii s);
    rewrite ?orb_false_iff, ?andb_false_iff, ?Z.leb_gt, ?Z.eqb_neq; lia.
Qed.

(** [int(str(n)) = n] for natural numbers. *)
Lemma py_int_str_int n : 0 ≤ n → py_int (str_int n) = Some n.
Proof.
  intros Hn. assert (str_int n = pretty (Z.to_N n)) as -> by (by destruct n).
  destruct (pretty_N_nonempty (Z.to_N n)) as (c & s & Hp & Hc).
  unfold py_int. rewrite (strip_by_all _ is_digit); [|apply digit_not_space|apply pretty_N_digits].
  rewrite Hp. rewrite !char_eqb_neq by (by intros ->). rewrite <- Hp.
  rewrite digits_value_pretty_N. f_equal. lia.
Qed.
