(* ===== verification/Json.v ===== *)
(** * JSON values

    The payloads, resource contexts and snapshots the program stores.  Objects
    keep their insertion order; floating-point numbers do not occur in the
    modelled payloads and are left out. *)
From Stdlib Require Import Ascii.
From S2P Require Import Prelude PyText.

#[global] Unset Elimination Schemes.
Inductive json :=
  | JNull
  | JBool (b : bool)
  | JInt (n : Z)
  | JStr (s : string)
  | JList (items : list json)
  | JObj (fields : list (string * json)).
#[global] Set Elimination Schemes.

(** [d.get(key)] on the fields of an object. *)
Fixpoint fget (fields : list (string * json)) (key : string) : option json :=
  match fields with
  | [] => None
  | (k, v) :: fields => if bool_decide (k = key) then Some v else fget fields key
  end.

Definition jget (j : json) (key : string) : option json :=
  match j with JObj fields => fget fields key | _ => None end.

(** [value if isinstance(value, str) else None] for a field. *)
Definition jget_str (j : json) (key : string) : option string :=
  match jget j key with Some (JStr s) => Some s | _ => None end.

(** [isinstance(value, int)]: in Python a [bool] is an [int]. *)
Definition jget_int (j : json) (key : string) : option Z :=
  match jget j key with
  | Some (JInt n) => Some n
  | Some (JBool b) => Some (if b then 1 else 0)
  | _ => None
  end.

(** The number a value counts as: in Python [True] equals [1]. *)
Definition number_of (j : json) : option Z :=
  match j with
  | JInt n => Some n
  | JBool b => Some (if b then 1 else 0)
  | _ => None
  end.

(** [a == b]: objects compare without regard to the order of their fields. *)
Fixpoint py_eq (a b : json) : bool :=
  match a, b with
  | JNull, JNull => true
  | JStr s, JStr t => bool_decide (s = t)
  | JList l, JList l' =>
      (fix each (l l' : list json) : bool :=
         match l, l' with
         | [], [] => true
         | x :: l, y :: l' => py_eq x y && each l l'
         | _, _ => false
         end) l l'
  | JObj f, JObj g =>
      (length f =? length g)%nat &&
      (fix each (f : list (string * json)) : bool :=
         match f with
         | [] => true
         | (k, v) :: f => match fget g k with Some w => py_eq v w | None => false end && each f
         end) f
  | _, _ =>
      match number_of a, number_of b with Some n, Some m => n =? m | _, _ => false end
  end.

(** [bool(value)]. *)
Definition json_truthy (j : json) : bool :=
  match j with
  | JNull => false
  | JBool b => b
  | JInt n => negb (n =? 0)
  | JStr s => negb (bool_decide (s = ""))
  | JList items => match items with [] => false | _ => true end
  | JObj fields => match fields with [] => false | _ => true end
  end.

(** ** json.dumps(value, sort_keys=True, separators=(",", ":")) *)

Definition hex_digit (n : Z) : ascii :=
  ascii_of_N (Z.to_N (if n <? 10 then 48 + n else 87 + n)).

(** The escape of one character under [ensure_ascii]. *)
Definition json_escape (c : ascii) : string :=
  if char_eqb c "034" then String "\" (String "034" "")
  else if char_eqb c "\" then String "\" (String "\" "")
  else if code c =? 10 then "\n"
  else if code c =? 13 then "\r"
  else if code c =? 9 then "\t"
  else if code c =? 12 then "\f"
  else if code c =? 8 then "\b"
  else if in_range 32 126 c then String c ""
  else "\u00" +:+ String (hex_digit (code c / 16)) (String (hex_digit (code c mod 16)) "").

Fixpoint json_escapes (s : string) : string :=
  match s with
  | "" => ""
  | String c s => json_escape c +:+ json_escapes s
  end.

Definition json_string (s : string) : string :=
  String "034" (json_escapes s +:+ String "034" "").

Definition obj_member (entry : string * string) : string :=
  json_string entry.1 +:+ ":" +:+ entry.2.

Fixpoint json_dumps (j : json) : string :=
  match j with
  | JNull => "null"
  | JBool b => if b then "true" else "false"
  | JInt n => str_int n
  | JStr s => json_string s
  | JList items => "[" +:+ py_join "," (map json_dumps items) +:+ "]"
  | JObj fields =>
      let entries := map (λ '(k, v), (k, json_dumps v)) fields in
      "{" +:+ py_join "," (map obj_member (sort_by fst entries)) +:+ "}"
  end.

(** The text does not depend on the order in which the keys were inserted. *)
Lemma json_dumps_perm fields fields' :
  fields ≡ₚ fields' → NoDup (fields.*1) → json_dumps (JObj fields) = json_dumps (JObj fields').
Proof.
  intros Hp Hnd. simpl. do 4 f_equal.
  apply sort_by_unique; [by apply Permutation_map|].
  replace (fst <$> _) with (fields.*1); [done|].
  clear. induction fields as [|[k v] l IH]; [done|]. simpl. by f_equal.
Qed.

(** ** str(value) *)

(** [str.isprintable] below code point 256. *)
Definition is_printable (c : ascii) : bool :=
  in_range 32 126 c || (in_range 161 255 c && negb (code c =? 173)).

Definition repr_escape (quote c : ascii) : string :=
  if char_eqb c quote || char_eqb c "\" then String "\" (String c "")
  else if code c =? 10 then "\n"
  else if code c =? 13 then "\r"
  else if code c =? 9 then "\t"
  else if is_printable c then String c ""
  else "\x" +:+ String (hex_digit (code c / 16)) (String (hex_digit (code c mod 16)) "").

Fixpoint repr_escapes (quote : ascii) (s : string) : string :=
  match s with
  | "" => ""
  | String c s => repr_escape quote c +:+ repr_escapes quote s
  end.

Definition repr_string (s : string) : string :=
  let quote : ascii :=
    if py_contains "'" s && negb (py_contains (String "034" "") s)
    then "034"%char else "'"%char in
  String quote (repr_escapes quote s +:+ String quote "").

Fixpoint py_repr (j : json) : string :=
  match j with
  | JNull => "None"
  | JBool b => if b then "True" else "False"
  | JInt n => str_int n
  | JStr s => repr_string s
  | JList items => "[" +:+ py_join ", " (map py_repr items) +:+ "]"
  | JObj fields =>
      "{" +:+ py_join ", " (map (λ '(k, v), repr_string k +:+ ": " +:+ py_repr v) fields) +:+ "}"
  end.

Definition py_str (j : json) : string :=
  match j with JStr s => s | _ => py_repr j end.

(** [payload["key"]]. *)
Definition jindex (j : json) (key : string) : outcome json :=
  match jget j key with Some v => Return v | None => Raise (KeyError key) end.

(** [int(value)]. *)
Definition py_int_of (j : json) : outcome Z :=
  match j with
  | JInt n => Return n
  | JBool b => Return (if b then 1 else 0)
  | JStr s =>
      match py_int s with
      | Some n => Return n
      | None => Raise (ValueError ("invalid literal for int() with base 10: " +:+ repr_string s))
      end
  | JNull | JList _ | JObj _ =>
      Raise (TypeError "int() argument must be a string, a bytes-like object or a real number")
  end.
