(* ===== verification/World.v ===== *)
(** * What the program reaches outside its database

    What the integrations send over HTTP and what they get back: the modelled code reaches
    its services through one HTTP library; a service is known by the replies it gives to
    requests, each of which may depend on the requests sent before.  And what the program does
    to the file system and the processes it starts, kept as a journal: the machine itself is
    the class [Host], each answer of which may depend on everything that was done before. *)
From S2P Require Import Prelude Json.
#[global] Open Scope Z_scope.
#[global] Open Scope orch_scope.

(** ** HTTP exchanges *)

Module HttpRequest.
Record t := mk {
  service : string;
  method : string;
  path : string;
  params : list (string * Z);
  credential : option string;
  body : option json
}.
End HttpRequest.

(** The reply to a request, as the HTTP library reports it: a status outside
    2xx, no reply at all, or the body of a reply. *)
Inductive http_reply :=
  | HTTPStatusError (status_code : Z) (text : string)
  | RequestError (message : string)
  | HttpReply (status_code : Z) (content : string).

(** ** Files and processes *)

(** How [subprocess.run] ends: the time limit was reached, the program could not be
    started, or it exited with a code and an error text. *)
Inductive process_result :=
  | TimeoutExpired
  | NotStarted (message : string)
  | Exited (returncode : Z) (stderr : string).

Inductive shell_action :=
  | MakeDirs (path : string)
  | RemoveTree (path : string)
  | ChangeMode (path : string) (mode : Z)
  | RunProcess (command : list string) (env : gmap string string) (result : process_result).

Class Host := {
  environ : gmap string string;
  path_exists : list shell_action → string → bool;
  is_regular_file : list shell_action → string → bool;
  resolve_path : list shell_action → string → string;
  os_error : list shell_action → shell_action → option string;
  process_outcome : list shell_action → list string → gmap string string → process_result
}.
