(* ===== verification/PyPath.v ===== *)
(** * pathlib

    Model of the part of [PurePosixPath] of the standard library the program uses: a path
    is its root and its components, without the empty ones and the single dots. *)
From Stdlib Require Import Ascii.
From S2P Require Import Prelude PyText.
#[global] Open Scope Z_scope.
#[global] Open Scope orch_scope.

Module Path.
Record t := mk { root : string; parts : list string }.
End Path.

Definition path_root (s : string) : string :=
  match s with
  | String "/" (String "/" (String "/" _)) => "/"
  | String "/" (String "/" _) => "//"
  | String "/" _ => "/"
  | _ => ""
  end.

Definition path_component (s : string) : bool :=
  negb (bool_decide (s = "")) && negb (bool_decide (s = ".")).

(** [Path(s)]. *)
Definition path_of (s : string) : Path.t :=
  Path.mk (path_root s) (filter path_component (py_split "/" s)).

(** [p / s]: an absolute [s] replaces [p]. *)
Definition join_path (p : Path.t) (s : string) : Path.t :=
  let q := path_of s in
  if bool_decide (Path.root q = "") then Path.mk (Path.root p) (Path.parts p ++ Path.parts q)
  else q.

(** [str(p)]. *)
Definition path_str (p : Path.t) : string :=
  if bool_decide (Path.root p = "") && bool_decide (Path.parts p = []) then "."
  else Path.root p +:+ py_join "/" (Path.parts p).

(** [p.parent]. *)
Definition path_parent (p : Path.t) : Path.t := Path.mk (Path.root p) (removelast (Path.parts p)).

(** [p.relative_to(base)] does not raise. *)
Definition is_relative_to (base p : Path.t) : bool :=
  bool_decide (Path.root p = Path.root base)
  && bool_decide (take (length (Path.parts base)) (Path.parts p) = Path.parts base).
