(* ===== verification/Models.v ===== *)
(** * Persistent entities and the database session

    One module per mapped class of [src/src/review_orchestrator/domain/models.py]:
    [t] is a row, with one field per column the modelled code reads or writes.
    [Db] is the database, a table being the list of its rows in insertion order;
    [Session] is an [AsyncSession]: the last committed database, the database
    the session sees, and how many clock readings and UUIDs were drawn.  It also carries
    what the process has done outside the database: [sent], the requests to the code
    platforms, and [shell], the operations on files and processes.

    An object reference is the row's primary key: a Python variable that holds
    a mapped object is a key, reading an attribute reads the row of the key, and
    assigning one changes that row, so two variables that alias one object see
    each other's assignments.  Autoflush makes an assignment visible to the next
    query of the session.

    Times are microseconds since the epoch, in UTC.  Columns the modelled
    operations never touch ([ResourcePool.created_at], [Finding.raw_payload_json]
    and the like) and the [onupdate] refresh of [updated_at] are left out. *)
From Stdlib Require Import QArith.
From S2P Require Import Prelude PyText Json World.
#[global] Open Scope Z_scope.
#[global] Open Scope orch_scope.

Module ReviewRun.
Record t := mk {
  pull_request_context_id : option string;
  provider : string;
  repo_full_name : string;
  pull_request_number : Z;
  base_sha : option string;
  head_sha : string;
  attempt : Z;
  trigger_type : string;
  trigger_event_id : option string;
  summary_comment_id : option string;
  workspace_path : option string;
  agent_session_id : option string;
  agent_status : option string;
  agent_provider : option string;
  agent_model : option string;
  agent_thinking_level : option string;
  review_summary : option string;
  review_conclusion : option string;
  risk_level : option string;
  finding_count_total : Z;
  finding_count_by_severity : option (gmap string Z);
  result_schema_version : option string;
  result_raw_json : option json;
  validation_warnings_json : option (list json);
  validation_errors_json : option (list json);
  failure_code : option string;
  error : option string;
  superseded_by_review_run_id : option string;
  soft_timeout_emitted_at : option Z;
  hard_timeout_emitted_at : option Z
}.
#[global] Instance eta : Eta t := λ r,
  mk (pull_request_context_id r) (provider r) (repo_full_name r)
    (pull_request_number r) (base_sha r) (head_sha r) (attempt r)
    (trigger_type r) (trigger_event_id r) (summary_comment_id r)
    (workspace_path r) (agent_session_id r) (agent_status r)
    (agent_provider r) (agent_model r) (agent_thinking_level r)
    (review_summary r) (review_conclusion r) (risk_level r)
    (finding_count_total r) (finding_count_by_severity r)
    (result_schema_version r) (result_raw_json r)
    (validation_warnings_json r) (validation_errors_json r)
    (failure_code r) (error r) (superseded_by_review_run_id r)
    (soft_timeout_emitted_at r) (hard_timeout_emitted_at r).
End ReviewRun.

Module AgentTask.
Record t := mk {
  provider_event_id : option string;
  pull_request_context_id : option string;
  provider : string;
  repo_full_name : string;
  pull_request_number : Z;
  task_type : string;
  source_kind : option string;
  source_comment_id : option string;
  source_url : option string;
  source_author_login : option string;
  command_text : option string;
  head_sha : option string;
  workspace_path : option string;
  response_comment_id : option string;
  response_body_hash : option string;
  response_published_at : option Z;
  publish_attempts : Z;
  last_publish_error : option string;
  agent_session_id : option string;
  agent_status : option string;
  agent_provider : option string;
  agent_model : option string;
  agent_thinking_level : option string;
  result_text : option string;
  failure_code : option string;
  attempt : Z;
  agent_start_attempts : Z;
  soft_timeout_emitted_at : option Z;
  hard_timeout_emitted_at : option Z;
  input_json : option json;
  result_json : option json;
  error_message : option string
}.
#[global] Instance eta : Eta t := λ r,
  mk (provider_event_id r) (pull_request_context_id r) (provider r)
    (repo_full_name r) (pull_request_number r) (task_type r)
    (source_kind r) (source_comment_id r) (source_url r)
    (source_author_login r) (command_text r) (head_sha r)
    (workspace_path r) (response_comment_id r) (response_body_hash r)
    (response_published_at r) (publish_attempts r) (last_publish_error r)
    (agent_session_id r) (agent_status r) (agent_provider r)
    (agent_model r) (agent_thinking_level r) (result_text r)
    (failure_code r) (attempt r) (agent_start_attempts r)
    (soft_timeout_emitted_at r) (hard_timeout_emitted_at r) (input_json r)
    (result_json r) (error_message r).
End AgentTask.

Module Task.
Inductive subclass :=
  | Plain
  | Review (run : ReviewRun.t)
  | Agent (agent : AgentTask.t).
Record t := mk {
  id : string;
  kind : string;
  capability_id : string;
  status : string;
  stage : option string;
  execution_status : string;
  delivery_status : string;
  queue : string;
  priority : Z;
  effective_priority : Z;
  available_at : Z;
  dedupe_key : option string;
  concurrency_key : option string;
  resource_class : string;
  resource_context_json : option (list (string * json));
  resolved_preset_json : option json;
  max_attempts : Z;
  lock_owner : option string;
  locked_until : option Z;
  started_at : option Z;
  completed_at : option Z;
  deadline_at : option Z;
  created_at : Z;
  updated_at : Z;
  sub : subclass
}.
#[global] Instance eta : Eta t := λ r,
  mk (id r) (kind r) (capability_id r) (status r) (stage r)
    (execution_status r) (delivery_status r) (queue r) (priority r)
    (effective_priority r) (available_at r) (dedupe_key r)
    (concurrency_key r) (resource_class r) (resource_context_json r)
    (resolved_preset_json r) (max_attempts r) (lock_owner r)
    (locked_until r) (started_at r) (completed_at r) (deadline_at r)
    (created_at r) (updated_at r) (sub r).
End Task.

Module ResourcePool.
Record t := mk {
  resource_key : string;
  dimension : string;
  capacity : Z
}.
#[global] Instance eta : Eta t := λ r,
  mk (resource_key r) (dimension r) (capacity r).
End ResourcePool.

Module ResourceLease.
Record t := mk {
  id : string;
  task_id : string;
  stage : string;
  resource_key : string;
  units : Z;
  owner : string;
  expires_at : Z
}.
#[global] Instance eta : Eta t := λ r,
  mk (id r) (task_id r) (stage r) (resource_key r) (units r) (owner r)
    (expires_at r).
End ResourceLease.

Module DeliveryOutbox.
Record t := mk {
  id : string;
  task_id : string;
  provider : string;
  operation : string;
  destination_key : string;
  idempotency_key : string;
  payload_json : json;
  payload_digest : string;
  mandatory : bool;
  status : string;
  queue : string;
  priority : Z;
  available_at : Z;
  attempt : Z;
  max_attempts : Z;
  lock_owner : option string;
  locked_until : option Z;
  provider_message_id : option string;
  last_error : option string;
  delivered_at : option Z;
  created_at : Z;
  updated_at : Z
}.
#[global] Instance eta : Eta t := λ r,
  mk (id r) (task_id r) (provider r) (operation r) (destination_key r)
    (idempotency_key r) (payload_json r) (payload_digest r) (mandatory r)
    (status r) (queue r) (priority r) (available_at r) (attempt r)
    (max_attempts r) (lock_owner r) (locked_until r)
    (provider_message_id r) (last_error r) (delivered_at r) (created_at r)
    (updated_at r).
End DeliveryOutbox.

Module ReviewCommentSlot.
Record t := mk {
  id : string;
  review_run_id : string;
  provider : string;
  repo_full_name : string;
  pull_request_number : Z;
  head_sha : string;
  marker : string;
  provider_comment_id : option string;
  status : string;
  placeholder_version : Z;
  result_version : Z;
  last_error : option string;
  bound_at : option Z;
  finalized_at : option Z
}.
#[global] Instance eta : Eta t := λ r,
  mk (id r) (review_run_id r) (provider r) (repo_full_name r)
    (pull_request_number r) (head_sha r) (marker r)
    (provider_comment_id r) (status r) (placeholder_version r)
    (result_version r) (last_error r) (bound_at r) (finalized_at r).
End ReviewCommentSlot.

Module Finding.
Record t := mk {
  id : string;
  review_run_id : string;
  pull_request_context_id : option string;
  fingerprint : string;
  file_path : string;
  line_start : option Z;
  line_end : option Z;
  severity : string;
  category : option string;
  message : string;
  suggestion : option string;
  confidence : option Q;
  status : string;
  state : string;
  first_seen_run_id : option string;
  last_seen_run_id : option string;
  resolved_run_id : option string;
  outcome : option string
}.
#[global] Instance eta : Eta t := λ r,
  mk (id r) (review_run_id r) (pull_request_context_id r) (fingerprint r)
    (file_path r) (line_start r) (line_end r) (severity r) (category r)
    (message r) (suggestion r) (confidence r) (status r) (state r)
    (first_seen_run_id r) (last_seen_run_id r) (resolved_run_id r)
    (outcome r).
End Finding.

Module ProviderEventInbox.
Record t := mk {
  id : string;
  provider : string;
  delivery_id : string;
  provider_event : string;
  provider_action : option string;
  internal_event : option string;
  repo_full_name : option string;
  pull_request_number : option Z;
  head_sha : option string;
  dedupe_key : string;
  coalesce_key : option string;
  payload_digest : string;
  payload : json;
  status : string;
  error_code : option string;
  error_message : option string;
  review_run_id : option string;
  created_at : Z;
  processed_at : option Z
}.
#[global] Instance eta : Eta t := λ r,
  mk (id r) (provider r) (delivery_id r) (provider_event r)
    (provider_action r) (internal_event r) (repo_full_name r)
    (pull_request_number r) (head_sha r) (dedupe_key r) (coalesce_key r)
    (payload_digest r) (payload r) (status r) (error_code r)
    (error_message r) (review_run_id r) (created_at r) (processed_at r).
End ProviderEventInbox.

Module PullRequestContext.
Record t := mk {
  id : string;
  provider : string;
  repo_full_name : string;
  provider_repo_id : option string;
  pull_request_number : Z;
  provider_pr_id : option string;
  title : option string;
  author_login : option string;
  base_ref : option string;
  base_sha : option string;
  head_ref : option string;
  head_sha : string;
  head_repo_full_name : option string;
  is_fork : bool;
  status : string;
  html_url : option string;
  summary_comment_provider_id : option string;
  latest_review_run_id : option string;
  latest_event_id : option string;
  closed_at : option Z;
  merged_at : option Z;
  created_at : Z
}.
#[global] Instance eta : Eta t := λ r,
  mk (id r) (provider r) (repo_full_name r) (provider_repo_id r)
    (pull_request_number r) (provider_pr_id r) (title r) (author_login r)
    (base_ref r) (base_sha r) (head_ref r) (head_sha r)
    (head_repo_full_name r) (is_fork r) (status r) (html_url r)
    (summary_comment_provider_id r) (latest_review_run_id r)
    (latest_event_id r) (closed_at r) (merged_at r) (created_at r).
End PullRequestContext.

Module ReviewSession.
Record t := mk {
  id : string;
  review_run_id : string;
  agent_session_id : option string;
  status : string;
  skill_name : option string;
  profile_name : option string;
  input_snapshot_json : option json;
  result_ref : option string;
  error_message : option string
}.
#[global] Instance eta : Eta t := λ r,
  mk (id r) (review_run_id r) (agent_session_id r) (status r)
    (skill_name r) (profile_name r) (input_snapshot_json r) (result_ref r)
    (error_message r).
End ReviewSession.

Module TaskAttempt.
Record t := mk {
  id : string;
  task_id : string;
  attempt_no : Z;
  status : string;
  stage : option string;
  agent_run_id : option string;
  workspace_id : option string;
  workspace_path : option string;
  resolved_preset_json : option json;
  usage_json : option json;
  failure_category : option string;
  error_message : option string;
  started_at : Z;
  completed_at : option Z
}.
#[global] Instance eta : Eta t := λ r,
  mk (id r) (task_id r) (attempt_no r) (status r) (stage r)
    (agent_run_id r) (workspace_id r) (workspace_path r)
    (resolved_preset_json r) (usage_json r) (failure_category r)
    (error_message r) (started_at r) (completed_at r).
End TaskAttempt.

Module SessionArchive.
Record t := mk {
  id : string;
  task_id : string;
  task_attempt_id : option string;
  agent_run_id : string;
  session_json : json;
  task_metadata_json : json;
  workspace_diff : option string;
  workspace_diff_truncated : bool;
  redaction_version : string;
  created_at : Z;
  updated_at : Z
}.
#[global] Instance eta : Eta t := λ r,
  mk (id r) (task_id r) (task_attempt_id r) (agent_run_id r)
    (session_json r) (task_metadata_json r) (workspace_diff r)
    (workspace_diff_truncated r) (redaction_version r) (created_at r)
    (updated_at r).
End SessionArchive.

Module ReviewConfig.
Record t := mk {
  id : string;
  provider : string;
  repo_full_name : string;
  line_comments_enabled : bool;
  default_review_skill : string;
  agent_commands_enabled : bool;
  default_agent_command_skill : string
}.
#[global] Instance eta : Eta t := λ r,
  mk (id r) (provider r) (repo_full_name r) (line_comments_enabled r)
    (default_review_skill r) (agent_commands_enabled r) (default_agent_command_skill r).
End ReviewConfig.

Module ReviewCommentRef.
Record t := mk {
  id : string;
  provider : string;
  repo_full_name : string;
  pull_request_number : Z;
  review_run_id : option string;
  finding_id : option string;
  comment_type : string;
  provider_comment_id : string;
  provider_thread_id : option string;
  status : string;
  last_published_body_hash : option string
}.
#[global] Instance eta : Eta t := λ r,
  mk (id r) (provider r) (repo_full_name r) (pull_request_number r)
    (review_run_id r) (finding_id r) (comment_type r)
    (provider_comment_id r) (provider_thread_id r) (status r)
    (last_published_body_hash r).
End ReviewCommentRef.

Module Workspace.
Record t := mk {
  id : string;
  workspace_id : string;
  provider : string;
  repository : string;
  repository_clone_url : string;
  repo_hash : string;
  pull_request_number : Z;
  base_sha : string;
  head_sha : string;
  workspace_path : string;
  cache_path : option string;
  status : string;
  failure_code : option string;
  failure_message : option string;
  created_at : Z;
  ready_at : option Z;
  last_used_at : option Z;
  expires_at : option Z;
  updated_at : Z
}.
#[global] Instance eta : Eta t := λ r,
  mk (id r) (workspace_id r) (provider r) (repository r)
    (repository_clone_url r) (repo_hash r) (pull_request_number r)
    (base_sha r) (head_sha r) (workspace_path r) (cache_path r) (status r)
    (failure_code r) (failure_message r) (created_at r) (ready_at r)
    (last_used_at r) (expires_at r) (updated_at r).
End Workspace.

Module WorkspaceLease.
Record t := mk {
  id : string;
  workspace_id : string;
  review_run_id : option string;
  session_id : option string;
  leased_at : Z;
  released_at : option Z
}.
#[global] Instance eta : Eta t := λ r,
  mk (id r) (workspace_id r) (review_run_id r) (session_id r) (leased_at r) (released_at r).
End WorkspaceLease.


(** ** The database *)

Record Db := mkDb {
  tasks : list Task.t;
  pools : list ResourcePool.t;
  leases : list ResourceLease.t;
  outbox : list DeliveryOutbox.t;
  slots : list ReviewCommentSlot.t;
  findings : list Finding.t;
  events : list ProviderEventInbox.t;
  contexts : list PullRequestContext.t;
  review_sessions : list ReviewSession.t;
  attempts : list TaskAttempt.t;
  archives : list SessionArchive.t;
  configs : list ReviewConfig.t;
  comment_refs : list ReviewCommentRef.t;
  workspaces : list Workspace.t;
  workspace_leases : list WorkspaceLease.t
}.
#[export] Instance Db_eta : Eta Db := λ d,
  mkDb (tasks d) (pools d) (leases d) (outbox d) (slots d) (findings d)
    (events d) (contexts d) (review_sessions d)
    (attempts d) (archives d) (configs d) (comment_refs d) (workspaces d)
    (workspace_leases d).

Definition empty_db : Db := mkDb [] [] [] [] [] [] [] [] [] [] [] [] [] [] [].

(** A table: where its rows are, their primary key and its UNIQUE constraints. *)
Class Table (R : Type) := {
  rows : Db → list R;
  with_rows : list R → Db → Db;
  row_key : R → string;
  uniques : list (string * (R → R → bool))
}.

(** The interface the operations below rely on. *)
Class TableLaws (R : Type) `{Table R} := {
  rows_with_rows l d : rows (with_rows l d) = l;
  with_rows_rows d : with_rows (rows d) d = d;
  with_rows_twice l l' d : with_rows l (with_rows l' d) = with_rows l d
}.

(** Two nullable columns clash only when both hold the same value. *)
Definition clash (a b : option string) : bool :=
  match a, b with Some x, Some y => bool_decide (x = y) | _, _ => false end.

Definition review_of (t : Task.t) : option ReviewRun.t :=
  match Task.sub t with Task.Review r => Some r | _ => None end.
Definition agent_of (t : Task.t) : option AgentTask.t :=
  match Task.sub t with Task.Agent a => Some a | _ => None end.

(** Assignments to the columns of a subclass. *)
Definition set_review (f : ReviewRun.t → ReviewRun.t) (t : Task.t) : Task.t :=
  match Task.sub t with Task.Review r => t .[ Task.sub := Task.Review (f r) ] | _ => t end.
Definition set_agent (f : AgentTask.t → AgentTask.t) (t : Task.t) : Task.t :=
  match Task.sub t with Task.Agent a => t .[ Task.sub := Task.Agent (f a) ] | _ => t end.

(** [uq_review_run_head]. *)
Definition same_review_attempt (a b : Task.t) : bool :=
  match review_of a, review_of b with
  | Some x, Some y =>
      bool_decide (ReviewRun.provider x = ReviewRun.provider y)
      && bool_decide (ReviewRun.repo_full_name x = ReviewRun.repo_full_name y)
      && (ReviewRun.pull_request_number x =? ReviewRun.pull_request_number y)
      && bool_decide (ReviewRun.head_sha x = ReviewRun.head_sha y)
      && (ReviewRun.attempt x =? ReviewRun.attempt y)
  | _, _ => false
  end.

(** [uq_review_comment_slot_provider_comment]. *)
Definition same_provider_comment (a b : ReviewCommentSlot.t) : bool :=
  bool_decide (ReviewCommentSlot.provider a = ReviewCommentSlot.provider b)
  && bool_decide (ReviewCommentSlot.repo_full_name a = ReviewCommentSlot.repo_full_name b)
  && (ReviewCommentSlot.pull_request_number a =? ReviewCommentSlot.pull_request_number b)
  && clash (ReviewCommentSlot.provider_comment_id a) (ReviewCommentSlot.provider_comment_id b).

#[export] Instance task_table : Table Task.t := {
  rows := tasks; with_rows l d := d .[ tasks := l ]; row_key := Task.id;
  uniques :=
    [("uq_task_dedupe_key", λ a b, clash (Task.dedupe_key a) (Task.dedupe_key b));
     ("uq_review_run_head", same_review_attempt)] }.
#[export] Instance pool_table : Table ResourcePool.t := {
  rows := pools; with_rows l d := d .[ pools := l ];
  row_key := ResourcePool.resource_key; uniques := [] }.
#[export] Instance lease_table : Table ResourceLease.t := {
  rows := leases; with_rows l d := d .[ leases := l ]; row_key := ResourceLease.id;
  uniques :=
    [("uq_task_resource_lease", λ a b,
        bool_decide (ResourceLease.task_id a = ResourceLease.task_id b)
        && bool_decide (ResourceLease.stage a = ResourceLease.stage b)
        && bool_decide (ResourceLease.resource_key a = ResourceLease.resource_key b))] }.
#[export] Instance outbox_table : Table DeliveryOutbox.t := {
  rows := outbox; with_rows l d := d .[ outbox := l ]; row_key := DeliveryOutbox.id;
  uniques :=
    [("uq_delivery_idempotency_key", λ a b,
        bool_decide (DeliveryOutbox.idempotency_key a = DeliveryOutbox.idempotency_key b))] }.
#[export] Instance slot_table : Table ReviewCommentSlot.t := {
  rows := slots; with_rows l d := d .[ slots := l ]; row_key := ReviewCommentSlot.id;
  uniques :=
    [("uq_review_comment_slot_run", λ a b,
        bool_decide (ReviewCommentSlot.review_run_id a = ReviewCommentSlot.review_run_id b));
     ("uq_review_comment_slot_marker", λ a b,
        bool_decide (ReviewCommentSlot.marker a = ReviewCommentSlot.marker b));
     ("uq_review_comment_slot_provider_comment", same_provider_comment)] }.
#[export] Instance finding_table : Table Finding.t := {
  rows := findings; with_rows l d := d .[ findings := l ]; row_key := Finding.id;
  uniques :=
    [("uq_finding_run", λ a b,
        bool_decide (Finding.review_run_id a = Finding.review_run_id b)
        && bool_decide (Finding.fingerprint a = Finding.fingerprint b))] }.
#[export] Instance event_table : Table ProviderEventInbox.t := {
  rows := events; with_rows l d := d .[ events := l ]; row_key := ProviderEventInbox.id;
  uniques :=
    [("uq_provider_delivery", λ a b,
        bool_decide (ProviderEventInbox.provider a = ProviderEventInbox.provider b)
        && bool_decide (ProviderEventInbox.delivery_id a = ProviderEventInbox.delivery_id b))] }.
#[export] Instance context_table : Table PullRequestContext.t := {
  rows := contexts; with_rows l d := d .[ contexts := l ]; row_key := PullRequestContext.id;
  uniques :=
    [("uq_pull_request_context", λ a b,
        bool_decide (PullRequestContext.provider a = PullRequestContext.provider b)
        && bool_decide (PullRequestContext.repo_full_name a = PullRequestContext.repo_full_name b)
        && (PullRequestContext.pull_request_number a =? PullRequestContext.pull_request_number b))] }.
#[export] Instance review_session_table : Table ReviewSession.t := {
  rows := review_sessions; with_rows l d := d .[ review_sessions := l ];
  row_key := ReviewSession.id;
  uniques :=
    [("review_session_review_run_id_key", λ a b,
        bool_decide (ReviewSession.review_run_id a = ReviewSession.review_run_id b))] }.
#[export] Instance attempt_table : Table TaskAttempt.t := {
  rows := attempts; with_rows l d := d .[ attempts := l ]; row_key := TaskAttempt.id;
  uniques :=
    [("uq_task_attempt", λ a b,
        bool_decide (TaskAttempt.task_id a = TaskAttempt.task_id b)
        && (TaskAttempt.attempt_no a =? TaskAttempt.attempt_no b))] }.
#[export] Instance archive_table : Table SessionArchive.t := {
  rows := archives; with_rows l d := d .[ archives := l ]; row_key := SessionArchive.id;
  uniques :=
    [("uq_session_archive_agent_run", λ a b,
        bool_decide (SessionArchive.task_id a = SessionArchive.task_id b)
        && bool_decide (SessionArchive.agent_run_id a = SessionArchive.agent_run_id b))] }.
#[export] Instance config_table : Table ReviewConfig.t := {
  rows := configs; with_rows l d := d .[ configs := l ]; row_key := ReviewConfig.id;
  uniques :=
    [("uq_review_config_repo", λ a b,
        bool_decide (ReviewConfig.provider a = ReviewConfig.provider b)
        && bool_decide (ReviewConfig.repo_full_name a = ReviewConfig.repo_full_name b))] }.
#[export] Instance comment_ref_table : Table ReviewCommentRef.t := {
  rows := comment_refs; with_rows l d := d .[ comment_refs := l ]; row_key := ReviewCommentRef.id;
  uniques :=
    [("uq_provider_comment", λ a b,
        bool_decide (ReviewCommentRef.provider a = ReviewCommentRef.provider b)
        && bool_decide (ReviewCommentRef.repo_full_name a = ReviewCommentRef.repo_full_name b)
        && (ReviewCommentRef.pull_request_number a =? ReviewCommentRef.pull_request_number b)
        && bool_decide (ReviewCommentRef.provider_comment_id a = ReviewCommentRef.provider_comment_id b))] }.
#[export] Instance workspace_table : Table Workspace.t := {
  rows := workspaces; with_rows l d := d .[ workspaces := l ]; row_key := Workspace.id;
  uniques :=
    [("ix_workspace_workspace_id", λ a b,
        bool_decide (Workspace.workspace_id a = Workspace.workspace_id b));
     ("uq_workspace_head", λ a b,
        bool_decide (Workspace.provider a = Workspace.provider b)
        && bool_decide (Workspace.repository a = Workspace.repository b)
        && (Workspace.pull_request_number a =? Workspace.pull_request_number b)
        && bool_decide (Workspace.head_sha a = Workspace.head_sha b))] }.
#[export] Instance workspace_lease_table : Table WorkspaceLease.t := {
  rows := workspace_leases; with_rows l d := d .[ workspace_leases := l ];
  row_key := WorkspaceLease.id; uniques := [] }.

Ltac table_laws := split; intros; by repeat match goal with d : Db |- _ => destruct d end.
#[export] Instance task_table_laws : TableLaws Task.t. Proof. table_laws. Qed.
#[export] Instance pool_table_laws : TableLaws ResourcePool.t. Proof. table_laws. Qed.
#[export] Instance lease_table_laws : TableLaws ResourceLease.t. Proof. table_laws. Qed.
#[export] Instance outbox_table_laws : TableLaws DeliveryOutbox.t. Proof. table_laws. Qed.
#[export] Instance slot_table_laws : TableLaws ReviewCommentSlot.t. Proof. table_laws. Qed.
#[export] Instance finding_table_laws : TableLaws Finding.t. Proof. table_laws. Qed.
#[export] Instance event_table_laws : TableLaws ProviderEventInbox.t. Proof. table_laws. Qed.
#[export] Instance context_table_laws : TableLaws PullRequestContext.t. Proof. table_laws. Qed.
#[export] Instance review_session_table_laws : TableLaws ReviewSession.t.
Proof. table_laws. Qed.
#[export] Instance attempt_table_laws : TableLaws TaskAttempt.t. Proof. table_laws. Qed.
#[export] Instance archive_table_laws : TableLaws SessionArchive.t. Proof. table_laws. Qed.
#[export] Instance config_table_laws : TableLaws ReviewConfig.t. Proof. table_laws. Qed.
#[export] Instance comment_ref_table_laws : TableLaws ReviewCommentRef.t. Proof. table_laws. Qed.
#[export] Instance workspace_table_laws : TableLaws Workspace.t. Proof. table_laws. Qed.
#[export] Instance workspace_lease_table_laws : TableLaws WorkspaceLease.t.
Proof. table_laws. Qed.

(** ** The session *)

Record Session := mkSession {
  committed : Db;
  work : Db;
  ticks : nat;
  uuids : nat;
  sent : list HttpRequest.t;
  shell : list shell_action
}.
#[export] Instance Session_eta : Eta Session := λ s,
  mkSession (committed s) (work s) (ticks s) (uuids s) (sent s) (shell s).

Abbreviation SM := (M Session).

(** A session that has just started on a database, before anything was done outside it. *)
Definition open_session (d : Db) (n m : nat) : Session := mkSession d d n m [] [].

(** What the operations take from outside the repository: the successive
    readings of the clock, [uuid4], SHA-256, the database dialect, and which
    rows other transactions hold locked ([FOR UPDATE SKIP LOCKED]). *)
Class Runtime := {
  clock : nat → Z;
  fresh_uuid : nat → string;
  sha256_hexdigest : string → string;
  dialect : string;
  row_locked : string → bool
}.

Definition second : Z := 1000000.

Section session.
Context `{Runtime}.

Definition utc_now : SM Z := λ s,
  (Return (clock (ticks s)), s .[ ticks := S (ticks s) ]).
Definition uuid4 : SM string := λ s,
  (Return (fresh_uuid (uuids s)), s .[ uuids := S (uuids s) ]).
(** [now or utc_now()]. *)
Definition or_now (now : option Z) : SM Z :=
  match now with Some t => mret t | None => utc_now end.
End session.

Definition commit : SM () := puts (λ s, s .[ committed := work s ]).
Definition rollback : SM () := puts (λ s, s .[ work := committed s ]).
(** [session.flush()]: pending changes are always visible in [work]. *)
Definition flush : SM () := mret tt.

(** [async with session.begin_nested(): m]. *)
Definition begin_nested {A} (m : SM A) : SM A := λ s,
  match m s with
  | (Raise e, s') => (Raise e, s' .[ work := work s ])
  | r => r
  end.

Section table.
Context {R : Type} `{Table R}.

Definition on_rows (f : list R → list R) (s : Session) : Session :=
  s .[ work := with_rows (f (rows (work s))) (work s) ].

Definition select (P : R → bool) : SM (list R) :=
  gets (λ s, filter P (rows (work s))).

Definition find_row (key : string) (l : list R) : option R :=
  head (filter (λ r, row_key r = key) l).

(** [session.get(Entity, key)]. *)
Definition fetch (key : string) : SM (option R) :=
  gets (λ s, find_row key (rows (work s))).

(** Reading an object the program already holds. *)
Definition load (key : string) : SM R :=
  o ← fetch key;
  match o with
  | Some r => mret r
  | None => raise (OtherError "ObjectDeletedError")
  end.

Definition update_rows (P : R → bool) (f : R → R) (l : list R) : list R :=
  (λ r, if P r then f r else r) <$> l.

(** [UPDATE ... WHERE P], returning the row count. *)
Definition update_where (P : R → bool) (f : R → R) : SM Z :=
  n ← gets (λ s, Z.of_nat (length (filter P (rows (work s)))));
  puts (on_rows (update_rows P f)) ;;
  mret n.

(** Assignments to the object of a primary key. *)
Definition modify (key : string) (f : R → R) : SM () :=
  puts (on_rows (update_rows (λ r, bool_decide (row_key r = key)) f)).

Definition delete_where (P : R → bool) : SM () :=
  puts (on_rows (filter (λ r, negb (P r)))).

(** The primary key and the UNIQUE constraints. *)
Definition constraints : list (string * (R → R → bool)) :=
  ("primary key", λ a b, bool_decide (row_key a = row_key b)) :: uniques.

(** The first constraint a row would violate among others. *)
Definition violation (r : R) (others : list R) : option string :=
  fst <$> head (filter (λ c, existsb (c.2 r) others) constraints).

(** [session.add(r)] and its flush. *)
Definition insert (r : R) : SM () :=
  l ← gets (λ s, rows (work s));
  match violation r l with
  | Some c => raise (IntegrityError c)
  | None => puts (on_rows (λ l, l ++ [r]))
  end.

(** Assignments that touch a column under a UNIQUE constraint. *)
Definition modify_unique (key : string) (f : R → R) : SM () :=
  l ← gets (λ s, rows (work s));
  match find_row key l with
  | None => mret tt
  | Some r =>
      match violation (f r) (filter (λ r', row_key r' ≠ key) l) with
      | Some c => raise (IntegrityError c)
      | None => modify key f
      end
  end.
End table.

(** [result.scalar_one_or_none()]. *)
Definition scalar_one_or_none {R} (l : list R) : SM (option R) :=
  match l with
  | [] => mret None
  | [r] => mret (Some r)
  | _ => raise (OtherError "Multiple rows were found when one or none was required")
  end.

(** ** Facts about the operations of a table *)

Section table_facts.
Context {R : Type} `{TableLaws R}.
Implicit Types (l : list R) (k : string).

Lemma find_row_Some k l r : find_row k l = Some r → r ∈ l ∧ row_key r = k.
Proof.
  unfold find_row. intros Hr%head_Some_elem_of.
  apply list_elem_of_filter in Hr. tauto.
Qed.

Lemma find_row_None k l : find_row k l = None → k ∉ row_key <$> l.
Proof.
  unfold find_row. intros Hn%head_None Hk.
  apply list_elem_of_fmap in Hk as (r & -> & Hr).
  assert (r ∈ filter (λ r', row_key r' = row_key r) l) as Hf
    by by apply list_elem_of_filter.
  rewrite Hn in Hf. set_solver.
Qed.

Lemma find_row_elem_of k l r :
  NoDup (row_key <$> l) → r ∈ l → row_key r = k → find_row k l = Some r.
Proof.
  intros Hnd Hr Hk. destruct (find_row k l) as [r'|] eqn:Hf.
  - apply find_row_Some in Hf as [Hr' Hk']. f_equal.
    eapply NoDup_key_eq; [done..|]. congruence.
  - apply find_row_None in Hf. destruct Hf. subst k. by apply list_elem_of_fmap_2.
Qed.

Lemma filter_key_unique k l r :
  NoDup (row_key <$> l) → find_row k l = Some r → filter (λ r, row_key r = k) l = [r].
Proof.
  intros Hnd Hf. unfold find_row in Hf.
  assert (Hall : ∀ x, x ∈ filter (λ r, row_key r = k) l → x = r).
  { apply head_Some_elem_of in Hf. apply list_elem_of_filter in Hf as [Hk Hr].
    intros x [Hxk Hx]%list_elem_of_filter.
    eapply (NoDup_key_eq row_key); [done..|]. congruence. }
  assert (Hnd' : NoDup (filter (λ r, row_key r = k) l))
    by by apply NoDup_filter, (NoDup_fmap_1 row_key).
  destruct (filter _ l) as [|x [|y l']]; [done|by injection Hf as ->|].
  apply NoDup_cons in Hnd' as [Hx _]. destruct Hx.
  rewrite (Hall x), (Hall y) by set_solver. left.
Qed.

Lemma find_row_app_absent k l r :
  k ∉ row_key <$> l → row_key r = k → find_row k (l ++ [r]) = Some r.
Proof.
  intros Hk Hr. unfold find_row. rewrite filter_app.
  destruct (filter (λ r', row_key r' = k) l) as [|r' l'] eqn:Hf; simpl.
  - by rewrite filter_cons, decide_True by done.
  - destruct Hk. assert (r' ∈ filter (λ r', row_key r' = k) l) as Hr'
      by (rewrite Hf; left).
    apply list_elem_of_filter in Hr' as [<- Hr']. by apply list_elem_of_fmap_2.
Qed.

Lemma elem_of_update_rows (P : R → bool) f l r :
  r ∈ update_rows P f l ↔ ∃ r0, r0 ∈ l ∧ r = if P r0 then f r0 else r0.
Proof. unfold update_rows. rewrite list_elem_of_fmap. naive_solver. Qed.

(** Updates that keep the keys keep their order. *)
Lemma update_rows_keys (key : R → string) (P : R → bool) f l :
  (∀ r, key (f r) = key r) → key <$> update_rows P f l = key <$> l.
Proof.
  intros Hf. unfold update_rows. rewrite <- list_fmap_compose.
  apply list_fmap_ext. intros i r _. simpl. by destruct (P r).
Qed.

Lemma update_rows_ext (P Q : R → bool) f l :
  (∀ r, r ∈ l → P r = Q r) → update_rows P f l = update_rows Q f l.
Proof.
  intros HP. apply list_fmap_ext. intros i r Hr%list_elem_of_lookup_2. by rewrite HP.
Qed.

Lemma update_rows_id (P : R → bool) l : update_rows P (λ r, r) l = l.
Proof.
  unfold update_rows. rewrite <- (list_fmap_id l) at 2.
  apply list_fmap_ext. intros i r _. by destruct (P r).
Qed.

Lemma update_rows_none (P : R → bool) f l :
  (∀ r, r ∈ l → P r = false) → update_rows P f l = l.
Proof.
  intros HP. unfold update_rows. rewrite <- (list_fmap_id l) at 2.
  apply list_fmap_ext. intros i r Hr%list_elem_of_lookup_2. by rewrite HP.
Qed.

Lemma update_rows_compose (P Q : R → bool) f g l :
  (∀ r, P (if Q r then g r else r) = P r) →
  update_rows P f (update_rows Q g l) =
  (λ r, let r' := if Q r then g r else r in if P r then f r' else r') <$> l.
Proof.
  intros HP. unfold update_rows. rewrite <- list_fmap_compose.
  apply list_fmap_ext. intros i r _. simpl. by rewrite HP.
Qed.

Lemma violation_None (r : R) l :
  violation r l = None ↔
  (row_key r ∉ row_key <$> l) ∧ ∀ c, c ∈ uniques → ∀ r', r' ∈ l → c.2 r r' = false.
Proof.
  assert (Hall : violation r l = None ↔
    ∀ c, c ∈ constraints → ∀ r', r' ∈ l → c.2 r r' = false).
  { unfold violation. split.
    - intros Hv c Hc r' Hr'. destruct (c.2 r r') eqn:E; [|done].
      assert (c ∈ filter (λ c, existsb (c.2 r) l) constraints) as Hin.
      { apply list_elem_of_filter. split; [|done].
        apply Is_true_true, existsb_exists. exists r'.
        split; [by apply list_elem_of_In|done]. }
      destruct (filter _ constraints); [set_solver|done].
    - intros Hv. destruct (filter _ constraints) as [|c cs] eqn:Hf; [done|].
      assert (c ∈ filter (λ c, existsb (c.2 r) l) constraints) as Hin by (rewrite Hf; left).
      apply list_elem_of_filter in Hin as [He Hc].
      apply Is_true_true, existsb_exists in He as (r' & Hr' & E).
      rewrite (Hv c Hc r') in E; [done|]. by apply list_elem_of_In. }
  rewrite Hall. unfold constraints. split.
  - intros Hv. split; [|intros c Hc; apply Hv; by right].
    intros (r' & Hk & Hr')%list_elem_of_fmap.
    specialize (Hv _ (list_elem_of_here _ _) r' Hr'). simpl in Hv.
    by rewrite bool_decide_true in Hv.
  - intros [Hk Hu] c [->|Hc]%elem_of_cons r' Hr'; [|by apply Hu].
    apply bool_decide_false. intros Heq. apply Hk. rewrite Heq. by apply list_elem_of_fmap_2.
Qed.

(** An insertion keeps the primary keys distinct. *)
Lemma insert_keys (r : R) l :
  violation r l = None → NoDup (row_key <$> l) → NoDup (row_key <$> (l ++ [r])).
Proof.
  intros [Hk _]%violation_None Hnd. rewrite fmap_app. apply NoDup_app. split; [done|].
  split; [|apply NoDup_singleton]. intros k Hin ->%list_elem_of_singleton. done.
Qed.

(** *** Running the operations *)

Lemma fetch_run k s : fetch k s = (Return (find_row k (rows (work s))), s).
Proof. done. Qed.

Lemma load_run k s r :
  find_row k (rows (work s)) = Some r → load k s = (Return r, s).
Proof. intros Hr. unfold load. rewrite bind_run, fetch_run, Hr. done. Qed.

Lemma modify_run k f s :
  modify k f s =
  (Return tt, on_rows (update_rows (λ r, bool_decide (row_key r = k)) f) s).
Proof. done. Qed.

Lemma insert_run (r : R) s :
  violation r (rows (work s)) = None →
  insert r s = (Return tt, on_rows (λ l, l ++ [r]) s).
Proof. intros Hv. unfold insert. rewrite bind_run. simpl. by rewrite Hv. Qed.

Lemma work_on_rows f s : work (on_rows f s) = with_rows (f (rows (work s))) (work s).
Proof. done. Qed.
Lemma rows_on_rows (f : list R → list R) s : rows (work (on_rows f s)) = f (rows (work s)).
Proof. rewrite work_on_rows. apply rows_with_rows. Qed.
Lemma committed_on_rows f s : committed (on_rows f s) = committed s.
Proof. done. Qed.
Lemma on_rows_ext (f g : list R → list R) s :
  f (rows (work s)) = g (rows (work s)) → on_rows f s = on_rows g s.
Proof. unfold on_rows. by intros ->. Qed.
Lemma on_rows_id (f : list R → list R) s : f (rows (work s)) = rows (work s) → on_rows f s = s.
Proof. unfold on_rows. intros ->. rewrite with_rows_rows. by destruct s. Qed.
Lemma on_rows_twice (f g : list R → list R) s :
  on_rows f (on_rows g s) = on_rows (λ l, f (g l)) s.
Proof.
  unfold on_rows at 1 3. rewrite rows_on_rows, work_on_rows, with_rows_twice.
  by destruct s.
Qed.
End table_facts.

Lemma NoDup_keys_filter {A} (key : A → string) (P : A → Prop) `{∀ x, Decision (P x)} l :
  NoDup (key <$> l) → NoDup (key <$> filter P l).
Proof.
  induction l as [|x l IH]; [done|]. rewrite fmap_cons, filter_cons.
  intros [Hx Hnd]%NoDup_cons. case_decide; [|by apply IH]. rewrite fmap_cons.
  apply NoDup_cons. split; [|by apply IH]. intros (y & Hk & Hy)%list_elem_of_fmap.
  apply list_elem_of_filter in Hy as [_ Hy]. apply Hx. rewrite Hk. by apply list_elem_of_fmap_2.
Qed.

(** Two rounds of assignments to one object. *)
Lemma update_key_twice {R} (key : R → string) k (f g : R → R) l :
  (∀ r, key (f r) = key r) →
  update_rows (λ r, bool_decide (key r = k)) g (update_rows (λ r, bool_decide (key r = k)) f l) =
  update_rows (λ r, bool_decide (key r = k)) (λ r, g (f r)) l.
Proof.
  intros Hf. unfold update_rows. rewrite <- list_fmap_compose.
  apply list_fmap_ext. intros i r _. simpl.
  destruct (bool_decide (key r = k)) eqn:E; rewrite ?Hf, E; done.
Qed.

(** A loop that rewrites the rows of a selection one by one rewrites them all. *)
Lemma for_each_modify {R} `{TableLaws R} (c : R → bool) (f : R → R → R) L s :
  NoDup (row_key <$> L) →
  (∀ r r0, row_key (f r r0) = row_key r0) →
  for_each L (λ r, when (c r) (modify (row_key r) (f r))) s =
  (Return tt, on_rows (fmap (λ r0,
     match find_row (row_key r0) L with
     | Some r => if c r then f r r0 else r0
     | None => r0
     end)) s).
Proof.
  intros Hnd Hf. revert s. induction L as [|r L IH]; intros s.
  - rewrite on_rows_id; [done|]. apply list_fmap_id.
  - rewrite fmap_cons in Hnd. apply NoDup_cons in Hnd as [Hr Hnd].
    change (for_each (r :: L) ?g) with (g r ;; for_each L g).
    assert (Hstep : when (c r) (modify (row_key r) (f r)) s =
      (Return tt, on_rows (update_rows (λ r0, bool_decide (row_key r0 = row_key r) && c r) (f r)) s)).
    { unfold when. destruct (c r).
      - rewrite modify_run. f_equal. apply on_rows_ext.
        apply update_rows_ext. intros r0 _. by rewrite andb_true_r.
      - rewrite on_rows_id; [done|].
        apply update_rows_none. intros; by rewrite andb_false_r. }
    rewrite (bind_ret_run _ _ _ _ _ Hstep), IH by done. f_equal.
    rewrite on_rows_twice. apply on_rows_ext.
    unfold update_rows. rewrite <- list_fmap_compose. apply list_fmap_ext.
    intros i r0 _. simpl. unfold find_row at 2. rewrite filter_cons.
    destruct (decide (row_key r = row_key r0)) as [Heq|Hne].
    + rewrite bool_decide_true by done. simpl.
      assert (Hno : find_row (row_key r0) L = None).
      { destruct (find_row (row_key r0) L) as [r'|] eqn:E; [|done].
        apply find_row_Some in E as [Hr' Hk]. destruct Hr. rewrite Heq, <- Hk.
        by apply list_elem_of_fmap_2. }
      destruct (c r); [rewrite Hf|]; by rewrite Hno.
    + rewrite bool_decide_false by congruence. done.
Qed.

(** The same assignments on every row of a selection. *)
Lemma for_each_select_modify {R} `{TableLaws R} (P : R → bool) (f : R → R) s :
  NoDup (row_key <$> rows (work s)) → (∀ r, row_key (f r) = row_key r) →
  for_each (filter P (rows (work s))) (λ r, modify (row_key r) f) s =
  (Return tt, on_rows (update_rows P f) s).
Proof.
  intros Hnd Hf. set (L := filter P (rows (work s))).
  change (for_each L (λ r, when ((λ _, true) r) (modify (row_key r) ((λ _, f) r))) s =
    (Return tt, on_rows (update_rows P f) s)).
  rewrite for_each_modify by (done || by apply NoDup_keys_filter).
  f_equal. apply on_rows_ext, list_fmap_ext. intros i r Hr%list_elem_of_lookup_2.
  destruct (find_row (row_key r) L) as [r'|] eqn:E.
  - apply find_row_Some in E as [Hr' Hk]. apply list_elem_of_filter in Hr' as [HP Hr'].
    assert (r' = r) as -> by by eapply (NoDup_key_eq row_key).
    by destruct (P r).
  - destruct (P r) eqn:HP; [|done]. apply find_row_None in E. destruct E.
    apply list_elem_of_fmap_2, list_elem_of_filter. by rewrite HP.
Qed.

(** The lookup of a key after an update of another row, or of the same row. *)
Lemma find_update {R} `{Table R} k k' (f : R → R) l :
  (∀ r, row_key (f r) = row_key r) →
  find_row k (update_rows (λ r, bool_decide (row_key r = k')) f l) =
  if decide (k = k') then f <$> find_row k l else find_row k l.
Proof.
  intros Hf. unfold find_row, update_rows.
  induction l as [|r l IH]; [by case_decide|]. rewrite fmap_cons, !filter_cons.
  destruct (decide (row_key r = k')) as [Hr|Hr];
    [rewrite bool_decide_true by done|rewrite bool_decide_false by done].
  - rewrite Hf. destruct (decide (k = k')) as [->|Hk].
    + by rewrite !decide_True by done.
    + by rewrite !decide_False by congruence.
  - destruct (decide (row_key r = k)) as [Hrk|Hrk]; [|done].
    by rewrite (decide_False (P := k = k')) by congruence.
Qed.

(** The row of an object after assignments to it. *)
Lemma find_updated {R} `{TableLaws R} (f : R → R) l r :
  NoDup (row_key <$> l) → r ∈ l → (∀ r, row_key (f r) = row_key r) →
  find_row (row_key r) (update_rows (λ x, bool_decide (row_key x = row_key r)) f l) = Some (f r).
Proof.
  intros Hnd Hr Hf. rewrite find_update, decide_True by done.
  by rewrite (find_row_elem_of _ _ r).
Qed.

(** Runs the primitive steps at the head of a computation, leaving the row
    updates folded. *)
Ltac run_steps :=
  repeat (rewrite bind_run;
    cbn [mret M_ret gets puts raise lift when utc_now uuid4 or_now commit rollback flush
         fetch select]).
