(* ===== verification/Invariants.v ===== *)
(** * Invariants of a few tables

    Most operations of the program write tables an invariant says nothing about.  A
    [TableInvariant] depends on the resource pools, their leases and the outbox alone; whatever
    is done to the other tables keeps it, so its proof is left with the operations that write
    those three. *)
From S2P Require Import Prelude World Models.
#[global] Open Scope Z_scope.
#[global] Open Scope orch_scope.

(** The tables such an invariant does not depend on. *)
Class UseCaseTable (R : Type) `{Table R} : Prop := {
  pools_apart (l : list R) d : pools (with_rows l d) = pools d;
  leases_apart (l : list R) d : leases (with_rows l d) = leases d;
  outbox_apart (l : list R) d : outbox (with_rows l d) = outbox d
}.
#[export] Instance task_use_case : UseCaseTable Task.t. Proof. by split. Qed.
#[export] Instance slot_use_case : UseCaseTable ReviewCommentSlot.t. Proof. by split. Qed.
#[export] Instance ref_use_case : UseCaseTable ReviewCommentRef.t. Proof. by split. Qed.
#[export] Instance finding_use_case : UseCaseTable Finding.t. Proof. by split. Qed.
#[export] Instance event_use_case : UseCaseTable ProviderEventInbox.t. Proof. by split. Qed.
#[export] Instance context_use_case : UseCaseTable PullRequestContext.t. Proof. by split. Qed.
#[export] Instance session_use_case : UseCaseTable ReviewSession.t. Proof. by split. Qed.
#[export] Instance attempt_use_case : UseCaseTable TaskAttempt.t. Proof. by split. Qed.
#[export] Instance archive_use_case : UseCaseTable SessionArchive.t. Proof. by split. Qed.
#[export] Instance config_use_case : UseCaseTable ReviewConfig.t. Proof. by split. Qed.
#[export] Instance workspace_use_case : UseCaseTable Workspace.t. Proof. by split. Qed.
#[export] Instance workspace_lease_use_case : UseCaseTable WorkspaceLease.t. Proof. by split. Qed.
#[export] Hint Extern 1 (UseCaseTable _) => apply _ : keeps.

(** ** Operations on a table an invariant does not depend on *)

Section apart.
Context (I : Session → Prop) {R : Type} `{Table R}.
Context (Hrows : ∀ f, keeps I (puts (on_rows (R := R) f))).
Lemma apart_modify k (f : R → R) : keeps I (modify k f).
Proof. apply Hrows. Qed.
Lemma apart_update (P : R → bool) (f : R → R) : keeps I (update_where P f).
Proof. unfold update_where. keeps_auto. Qed.
Lemma apart_delete (P : R → bool) : keeps I (delete_where P).
Proof. apply Hrows. Qed.
Lemma apart_insert (r : R) : keeps I (insert r).
Proof. unfold insert. keeps_auto. Qed.
Lemma apart_modify_unique k (f : R → R) : keeps I (modify_unique k f).
Proof. unfold modify_unique. pose proof apart_modify. keeps_auto. Qed.
Lemma apart_load k : keeps I (load (R := R) k).
Proof. unfold load, fetch. keeps_auto. Qed.
End apart.

(** ** Invariants of pools, leases and the outbox *)

Class TableInvariant (I : Session → Prop) `{Runtime} : Prop := {
  kept_clock : keeps I utc_now;
  kept_uuid : keeps I uuid4;
  kept_commit : keeps I commit;
  kept_rollback : keeps I rollback;
  kept_nested {A} (m : SM A) : keeps I m → keeps I (begin_nested m);
  kept_rows {R} `{UseCaseTable R} (f : list R → list R) : keeps I (puts (on_rows f));
  kept_shell (f : Session → list shell_action) : keeps I (puts (λ s, s .[ shell := f s ]));
  kept_sent (f : Session → list HttpRequest.t) : keeps I (puts (λ s, s .[ sent := f s ]))
}.

(** What holds of the visible rows and of the committed ones. *)
Lemma table_invariant_both `{Runtime} (P : Db → Prop) :
  (∀ d d', pools d' = pools d → leases d' = leases d → outbox d' = outbox d → P d → P d') →
  TableInvariant (λ s, P (work s) ∧ P (committed s)).
Proof.
  intros HP. split; try by (intros; intros s [? ?]; split).
  - intros A m Hm s Hs. pose proof (Hm s Hs) as Hm'. unfold begin_nested.
    destruct Hs as [Hw Hc]. destruct (m s) as [[a|e] s']; [done|]. split; [done|apply Hm'].
  - intros R HR HU f s [Hw Hc]. split; [|done]. revert Hw. apply HP;
      [apply pools_apart|apply leases_apart|apply outbox_apart].
Qed.

Section invariant.
Context (I : Session → Prop) `{TableInvariant I}.
Section tables.
Context {R : Type} `{UseCaseTable R}.
Lemma kept_modify k (f : R → R) : keeps I (modify k f).
Proof. apply apart_modify. intros g. by apply kept_rows. Qed.
Lemma kept_modify_unique k (f : R → R) : keeps I (modify_unique k f).
Proof. apply apart_modify_unique. intros g. by apply kept_rows. Qed.
Lemma kept_insert (r : R) : keeps I (insert r).
Proof. apply apart_insert. intros f. by apply kept_rows. Qed.
End tables.
Lemma kept_fetch {R} `{Table R} k : keeps I (fetch (R := R) k).
Proof. apply keeps_gets. Qed.
Lemma kept_load {R} `{Table R} k : keeps I (load (R := R) k).
Proof. unfold load, fetch. keeps_auto. Qed.
Lemma kept_select {R} `{Table R} (P : R → bool) : keeps I (select P).
Proof. apply keeps_gets. Qed.
Lemma kept_one {R} (l : list R) : keeps I (scalar_one_or_none l).
Proof. unfold scalar_one_or_none. keeps_auto. Qed.
Lemma kept_or_now now : keeps I (or_now now).
Proof. destruct now; [apply keeps_ret|apply kept_clock]. Qed.
Lemma kept_finally {A} (m : SM A) c : keeps I m → keeps I c → keeps I (finally m c).
Proof.
  intros Hm Hc s Hs. specialize (Hm s Hs). unfold finally.
  destruct (m s) as [o s1]. assert (Hs1 : I s1) by by destruct o.
  specialize (Hc s1 Hs1). destruct (c s1) as [[?|e] s2]; [by destruct o|done].
Qed.
Lemma kept_unless {A B} (m : SM (A + B)) k :
  keeps I m → (∀ a, keeps I (k a)) → keeps I (unless_returned m k).
Proof. intros Hm Hk. unfold unless_returned. apply keeps_bind; [done|]. intros [a|b]; [done|apply keeps_ret]. Qed.
End invariant.
#[export] Hint Resolve kept_clock kept_uuid kept_commit kept_rollback kept_shell kept_sent
  kept_modify kept_modify_unique kept_insert kept_fetch kept_load kept_select kept_one
  kept_or_now : keeps.
#[export] Hint Extern 1 (TableInvariant _) => apply _ : keeps.

(** Walks a computation that uses the other tables. *)
Ltac kept_step :=
  lazymatch goal with
  | |- keeps _ (begin_nested _) => apply kept_nested
  | |- keeps _ (finally _ _) => apply kept_finally
  | |- keeps _ (unless_returned _ _) => apply kept_unless; [|intros ?]
  | _ => keeps_step
  end.
Ltac kept_auto := repeat kept_step; eauto 3 with keeps.
