(* ===== verification/Scheduler.v ===== *)
(** * The database-backed priority scheduler

    Model of [src/src/review_orchestrator/application/scheduler.py]: what a task
    demands of the resource pools ([SchedulerPolicy.requirements]), priority
    aging, and the three operations on the task lock and its resource leases
    ([claim_next_task], [release_task_claim], [renew_task_claim]). *)
From Stdlib Require Import Ascii.
From S2P Require Import Prelude PyText Json Models.
#[global] Open Scope Z_scope.
#[global] Open Scope orch_scope.

Definition DEFAULT_RESOURCE_CAPACITIES : gmap string Z :=
  list_to_map [("user", 4); ("repository", 4); ("pr", 1); ("pr_head", 1);
               ("comment", 1); ("model", 4); ("concurrency", 1)].

Module ResourceRequirement.
Record t := mk { key : string; dimension : string; units : Z; capacity : Z }.
End ResourceRequirement.
Abbreviation requirement := ResourceRequirement.t.

Module SchedulerPolicy.
Record t := mk {
  resource_capacities : gmap string Z;
  aging_interval_seconds : Z;
  scan_limit : nat
}.
Definition default : t := mk DEFAULT_RESOURCE_CAPACITIES 300 64.
End SchedulerPolicy.

(** ** Demands *)

Definition non_empty (s : string) : bool := bool_decide (s ≠ "").

Definition _resource_values (value : json) : list string :=
  match value with
  | JNull => []
  | JList items => filter non_empty (map py_str items)
  | _ => filter non_empty [py_str value]
  end.

Definition _resource_demands (value : json) : outcome (list (string * Z)) :=
  match value with
  | JNull => mret []
  | JObj fields =>
      let raw_values :=
        default (default (default JNull (fget fields "value")) (fget fields "values"))
          (fget fields "keys") in
      units ← py_int_of (default (JInt 1) (fget fields "units"));
      if units <=? 0
      then Raise (ValueError "Resource request units must be positive.")
      else mret (map (λ item, (item, units)) (_resource_values raw_values))
  | _ => mret (map (λ item, (item, 1)) (_resource_values value))
  end.

(** [int(self.resource_capacities.get(dimension, 1))]. *)
Definition capacity_of (policy : SchedulerPolicy.t) (dimension : string) : Z :=
  default 1 (SchedulerPolicy.resource_capacities policy !! dimension).

(** The requirements of one entry of the resource context. *)
Definition dimension_requirements (policy : SchedulerPolicy.t)
    (entry : string * json) : outcome (list requirement) :=
  let dimension := entry.1 in
  demands ← _resource_demands entry.2;
  mret (map (λ demand, ResourceRequirement.mk (dimension +:+ ":" +:+ demand.1) dimension
                         demand.2 (capacity_of policy dimension)) demands).

(** [unique[requirement.key] = requirement] for each requirement in turn. *)
Definition dedupe_requirements (l : list requirement) : gmap string requirement :=
  foldl (λ m r, <[ResourceRequirement.key r := r]> m) ∅ l.

Definition requirements (policy : SchedulerPolicy.t) (task : Task.t) : outcome (list requirement) :=
  let values := default [] (Task.resource_context_json task) in
  context ← outcome_concat (dimension_requirements policy) (sort_by fst values);
  let concurrency :=
    if truthy (Task.concurrency_key task) then
      [ResourceRequirement.mk ("concurrency:" +:+ or_else (Task.concurrency_key task) "")
         "concurrency" 1 (capacity_of policy "concurrency")]
    else [] in
  let unique := dedupe_requirements (context ++ concurrency) in
  mret (sort_by ResourceRequirement.key (map_to_list unique).*2).

(** [parse_resource_capacities]. *)
Fixpoint parse_capacity_items (items : list string) (capacities : gmap string Z)
    : outcome (gmap string Z) :=
  match items with
  | [] => mret capacities
  | item :: items =>
      let '(dimension, separator, raw_capacity) := py_partition "=" (py_strip item) in
      if negb separator || negb (non_empty dimension) then
        Raise (ValueError ("Invalid task resource capacity: " +:+ item))
      else
        capacity ← py_int_of (JStr raw_capacity);
        if capacity <=? 0 then
          Raise (ValueError ("Resource capacity must be positive: " +:+ item))
        else parse_capacity_items items (<[dimension := capacity]> capacities)
  end.

Definition parse_resource_capacities (value : option string) : outcome (gmap string Z) :=
  if truthy value
  then parse_capacity_items (py_split "," (or_else value "")) DEFAULT_RESOURCE_CAPACITIES
  else mret DEFAULT_RESOURCE_CAPACITIES.

(** ** Claiming, releasing and renewing *)

Section operations.
Context `{Runtime}.

Definition _apply_priority_aging (now : Z) (policy : SchedulerPolicy.t) : SM () :=
  if SchedulerPolicy.aging_interval_seconds policy <=? 0 then mret tt
  else
    queued ← select (λ t, bool_decide (Task.status t = "queued"));
    for_each queued (λ task,
      let waited_seconds := Z.max 0 (Z.quot (now - Task.created_at task) second) in
      let boost := waited_seconds / SchedulerPolicy.aging_interval_seconds policy in
      let effective := Z.min 100 (Task.priority task + boost) in
      when (negb (Task.effective_priority task =? effective))
        (modify (Task.id task) (λ t, t .[ Task.effective_priority := effective ]))).

(** [IS NULL OR column < now]. *)
Definition null_or_before (column : option Z) (now : Z) : bool :=
  match column with None => true | Some x => x <? now end.

Definition in_filter (allowed : list string) (x : string) : bool :=
  bool_decide (allowed = []) || bool_decide (x ∈ allowed).

(** The WHERE clause of the candidate query. *)
Definition claimable (now : Z) (task_kinds resource_classes : list string)
    (t : Task.t) : bool :=
  bool_decide (Task.status t ∈ ["queued"; "running"])
  && (Task.available_at t <=? now)
  && match Task.deadline_at t with None => true | Some d => now <? d end
  && null_or_before (Task.locked_until t) now
  && in_filter task_kinds (Task.kind t)
  && in_filter resource_classes (Task.resource_class t)
  && negb (bool_decide (dialect = "postgresql") && row_locked (Task.id t)).

(** Its ORDER BY clause. *)
Definition claim_order (t : Task.t) : list Z :=
  [- Task.effective_priority t;
   if bool_decide (Task.status t = "queued") then 0 else 1;
   Task.available_at t; Task.created_at t].

Definition _compare_and_swap_task_lock (task_id worker_id : string)
    (expires_at now : Z) : SM bool :=
  if negb (bool_decide (dialect = "sqlite")) then mret true
  else
    rowcount ← update_where
      (λ t, bool_decide (Task.id t = task_id) && null_or_before (Task.locked_until t) now)
      (λ t, t .[ Task.lock_owner := Some worker_id ]
              .[ Task.locked_until := Some expires_at ]
              .[ Task.updated_at := now ]);
    mret (rowcount =? 1).

(** [INSERT ... ON CONFLICT DO NOTHING] of one row. *)
Definition insert_if_absent (p : ResourcePool.t) : SM () :=
  puts (on_rows (λ l,
    match find_row (ResourcePool.resource_key p) l with
    | Some _ => l
    | None => l ++ [p]
    end)).

Definition pool_of (r : requirement) : ResourcePool.t :=
  ResourcePool.mk (ResourceRequirement.key r) (ResourceRequirement.dimension r)
    (ResourceRequirement.capacity r).

Definition _ensure_resource_pools (reqs : list requirement) : SM () :=
  let values := map pool_of reqs in
  if bool_decide (dialect = "postgresql") || bool_decide (dialect = "sqlite") then
    for_each values insert_if_absent
  else
    for_each values (λ value,
      existing ← fetch (R := ResourcePool.t) (ResourcePool.resource_key value);
      match existing with
      | None => insert value
      | Some _ => mret tt
      end).

(** Units of a resource under an unexpired lease. *)
Definition used_units (key : string) (now : Z) (l : list ResourceLease.t) : Z :=
  sum_by ResourceLease.units
    (filter (λ x, ResourceLease.resource_key x = key ∧ now < ResourceLease.expires_at x) l).

(** The first loop of [_acquire_resources]: does every pool have room? *)
Fixpoint capacity_available (reqs : list requirement) (now : Z) : SM bool :=
  match reqs with
  | [] => mret true
  | r :: reqs =>
      pool ← fetch (R := ResourcePool.t) (ResourceRequirement.key r);
      match pool with
      | None => raise (KeyError (ResourceRequirement.key r))
      | Some pool =>
          used ← gets (λ s, used_units (ResourceRequirement.key r) now (leases (work s)));
          if ResourcePool.capacity pool <? used + ResourceRequirement.units r
          then mret false
          else capacity_available reqs now
      end
  end.

(** The lease of one requirement. *)
Definition grant (task_id worker_id stage : string) (expires_at : Z) (r : requirement)
    : SM () :=
  id ← uuid4;
  insert (ResourceLease.mk id task_id stage (ResourceRequirement.key r)
            (ResourceRequirement.units r) worker_id expires_at).

Definition _acquire_resources (task_id worker_id stage : string) (expires_at now : Z)
    (reqs : list requirement) : SM bool :=
  match reqs with
  | [] => mret true
  | _ =>
      _ensure_resource_pools reqs ;;
      room ← capacity_available reqs now;
      if negb room then mret false
      else
        for_each reqs (grant task_id worker_id stage expires_at) ;;
        mret true
  end.

(** What [claim_next_task] writes on the task it returns. *)
Definition mark_claimed (worker_id : string) (expires_at now : Z) (t : Task.t) : Task.t :=
  let t :=
    if bool_decide (Task.status t = "queued") then
      t .[ Task.status := "running" ]
        .[ Task.execution_status := "running" ]
        .[ Task.started_at :=
             Some (default now (Task.started_at t)) ]
        .[ Task.stage := Some (or_else (Task.stage t) "start") ]
    else t in
  t .[ Task.lock_owner := Some worker_id ]
    .[ Task.locked_until := Some expires_at ]
    .[ Task.updated_at := now ].

Fixpoint try_candidates (worker_id : string) (expires_at now : Z)
    (policy : SchedulerPolicy.t) (candidate_ids : list string) : SM (option string) :=
  match candidate_ids with
  | [] => commit ;; mret None
  | task_id :: candidate_ids =>
      found ← fetch (R := Task.t) task_id;
      match found with
      | None => try_candidates worker_id expires_at now policy candidate_ids
      | Some task =>
          swapped ← _compare_and_swap_task_lock task_id worker_id expires_at now;
          if negb swapped then try_candidates worker_id expires_at now policy candidate_ids
          else
            reqs ← lift (requirements policy task);
            acquired ← _acquire_resources task_id worker_id
              (or_else (Task.stage task) "start") expires_at now reqs;
            if negb acquired then
              modify task_id (λ t, t .[ Task.lock_owner := None ]
                                     .[ Task.locked_until := None ]
                                     .[ Task.updated_at := now ]) ;;
              flush ;;
              try_candidates worker_id expires_at now policy candidate_ids
            else
              modify task_id (mark_claimed worker_id expires_at now) ;;
              commit ;;
              mret (Some task_id)
      end
  end.

Definition candidates (now : Z) (task_kinds resource_classes : list string)
    (policy : SchedulerPolicy.t) (l : list Task.t) : list string :=
  Task.id <$> take (SchedulerPolicy.scan_limit policy)
    (order_by claim_order (filter (claimable now task_kinds resource_classes) l)).

Definition claim_next_task (worker_id : string) (task_kinds resource_classes : list string)
    (lock_seconds : Z) (now : option Z) (policy : option SchedulerPolicy.t)
    : SM (option string) :=
  now ← or_now now;
  let policy := default SchedulerPolicy.default policy in
  delete_where (R := ResourceLease.t) (λ l, ResourceLease.expires_at l <=? now) ;;
  _apply_priority_aging now policy ;;
  candidate_ids ← gets (λ s, candidates now task_kinds resource_classes policy
                               (tasks (work s)));
  let expires_at := now + lock_seconds * second in
  try_candidates worker_id expires_at now policy candidate_ids.

Definition release_task_claim (task_id : string) (owner : option string)
    (retry_after : option Z) (now : option Z) : SM (option string) :=
  now ← or_now now;
  delete_where (λ l, bool_decide (ResourceLease.task_id l = task_id)
    && match owner with
       | None => true
       | Some o => bool_decide (ResourceLease.owner l = o)
       end) ;;
  found ← fetch (R := Task.t) task_id;
  match found with
  | None => commit ;; mret None
  | Some task =>
      when (match owner with
            | None => true
            | Some o => bool_decide (Task.lock_owner task = Some o)
            end)
        (modify task_id (λ t,
           let t := t .[ Task.lock_owner := None ] .[ Task.locked_until := None ] in
           let t :=
             match retry_after with
             | Some delay =>
                 if bool_decide (Task.status t ∈ ["queued"; "running"])
                 then t .[ Task.available_at := now + delay ] else t
             | None => t
             end in
           t .[ Task.updated_at := now ])) ;;
      commit ;;
      mret (Some task_id)
  end.

Definition renew_task_claim (task_id owner : string) (lock_seconds : Z)
    (now : option Z) : SM bool :=
  now ← or_now now;
  found ← fetch (R := Task.t) task_id;
  match found with
  | None => mret false
  | Some task =>
      if negb (bool_decide (Task.lock_owner task = Some owner)) then mret false
      else
        let expires_at := now + lock_seconds * second in
        modify task_id (λ t, t .[ Task.locked_until := Some expires_at ]
                               .[ Task.updated_at := now ]) ;;
        owned ← select (λ l, bool_decide (ResourceLease.task_id l = task_id)
                             && bool_decide (ResourceLease.owner l = owner));
        for_each owned (λ lease,
          modify (ResourceLease.id lease) (λ l, l .[ ResourceLease.expires_at := expires_at ])) ;;
        commit ;;
        mret true
  end.
End operations.
