(* ===== verification/SchedulerAdmin.v ===== *)
(** * Operator control over scheduling

    Model of the scheduling endpoints of
    [src/src/review_orchestrator/application/services.py]: rescheduling a task or
    a delivery, and setting the capacity of a resource pool.  The summaries
    these functions return are views and are replaced by the row's key. *)
From Stdlib Require Import Ascii.
From S2P Require Import Prelude PyText Json Models Scheduler.
#[global] Open Scope Z_scope.
#[global] Open Scope orch_scope.

Definition TERMINAL_STATUSES : list string := ["completed"; "failed"; "cancelled"; "superseded"].
Definition CANCELLABLE_STATUSES : list string := ["queued"; "running"; "awaiting_delivery"].
Definition ACTIVE_REVIEW_STATUSES : list string := ["queued"; "running"; "awaiting_delivery"].
Definition RERUN_SOURCE_STATUSES : list string := ["completed"; "cancelled"].

(** The validated request bodies, [None] for an absent or null field. *)
Module TaskSchedulingUpdate.
Record t := mk {
  queue : option string;
  priority : option Z;
  available_at : option Z;
  resource_class : option string;
  resource_context : option (list (string * json))
}.
End TaskSchedulingUpdate.

Module DeliverySchedulingUpdate.
Record t := mk {
  queue : option string;
  priority : option Z;
  available_at : option Z;
  max_attempts : option Z
}.
End DeliverySchedulingUpdate.

(** [if "field" in values: f values["field"]]. *)
Definition if_given {A R} (value : option A) (f : A → R → R) (r : R) : R :=
  match value with Some x => f x r | None => r end.

Section admin.
Context `{Runtime}.

Definition _is_past (value : Z) : SM bool :=
  now ← utc_now; mret (value <=? now).

Definition update_task_scheduling (task_id : string) (payload : TaskSchedulingUpdate.t)
    : SM (option string) :=
  found ← fetch (R := Task.t) task_id;
  match found with
  | None => mret None
  | Some task =>
      if bool_decide (Task.status task ∈ TERMINAL_STATUSES) then
        raise (ReviewRunTransitionError
          ("Task is already " +:+ Task.status task +:+ "; scheduling cannot be changed.") 409)
      else
        leased ← (match Task.lock_owner task, Task.locked_until task with
                  | Some _, Some until => past ← _is_past until; mret (negb past)
                  | _, _ => mret false
                  end);
        if (leased : bool) then
          raise (ReviewRunTransitionError
            "Task scheduling cannot be changed while a worker lease is active." 409)
        else
          now ← utc_now;
          modify task_id (λ t,
            let t := if_given (TaskSchedulingUpdate.queue payload)
                       (λ v t, t .[ Task.queue := v ]) t in
            let t := if_given (TaskSchedulingUpdate.priority payload)
                       (λ v t, t .[ Task.priority := v ] .[ Task.effective_priority := v ]) t in
            let t := if_given (TaskSchedulingUpdate.available_at payload)
                       (λ v t, t .[ Task.available_at := v ]) t in
            let t := if_given (TaskSchedulingUpdate.resource_class payload)
                       (λ v t, t .[ Task.resource_class := v ]) t in
            let t := if_given (TaskSchedulingUpdate.resource_context payload)
                       (λ v t, t .[ Task.resource_context_json := Some v ]) t in
            t .[ Task.updated_at := now ]) ;;
          commit ;;
          mret (Some task_id)
  end.

(** Returns the units in use under the pool's key. *)
Definition set_resource_pool_capacity (resource_key : string) (capacity : Z)
    (dimension : option string) : SM Z :=
  found ← fetch (R := ResourcePool.t) resource_key;
  (match found with
   | None =>
       let inferred_dimension := (py_partition ":"%char resource_key).1.1 in
       insert (ResourcePool.mk resource_key
         (or_else dimension (or_else (Some inferred_dimension) "custom")) capacity)
   | Some pool =>
       when (match dimension with
             | Some d => negb (bool_decide (d = ResourcePool.dimension pool))
             | None => false
             end)
         (raise (ReviewRunTransitionError
            "An existing Resource Pool dimension cannot be changed." 409))
   end) ;;
  updated_at ← utc_now;
  modify resource_key (λ p, p .[ ResourcePool.capacity := capacity ]) ;;
  commit ;;
  now ← utc_now;
  gets (λ s, used_units resource_key now (leases (work s))).

Definition update_delivery_scheduling (delivery_id : string)
    (payload : DeliverySchedulingUpdate.t) : SM (option string) :=
  found ← fetch (R := DeliveryOutbox.t) delivery_id;
  match found with
  | None => mret None
  | Some delivery =>
      if negb (bool_decide (DeliveryOutbox.status delivery ∈ ["queued"; "failed"])) then
        raise (ReviewRunTransitionError
          ("Delivery is " +:+ DeliveryOutbox.status delivery
           +:+ "; scheduling cannot be changed.") 409)
      else
        now ← utc_now;
        modify delivery_id (λ d,
          let d := if_given (DeliverySchedulingUpdate.queue payload)
                     (λ v d, d .[ DeliveryOutbox.queue := v ]) d in
          let d := if_given (DeliverySchedulingUpdate.priority payload)
                     (λ v d, d .[ DeliveryOutbox.priority := v ]) d in
          let d := if_given (DeliverySchedulingUpdate.available_at payload)
                     (λ v d, d .[ DeliveryOutbox.available_at := v ]) d in
          let d := if_given (DeliverySchedulingUpdate.max_attempts payload)
                     (λ v d, d .[ DeliveryOutbox.max_attempts := v ]) d in
          let d := if bool_decide (DeliveryOutbox.status d = "failed") then
                     d .[ DeliveryOutbox.status := "queued" ]
                       .[ DeliveryOutbox.last_error := None ]
                   else d in
          d .[ DeliveryOutbox.lock_owner := None ]
            .[ DeliveryOutbox.locked_until := None ]
            .[ DeliveryOutbox.updated_at := now ]) ;;
        commit ;;
        mret (Some delivery_id)
  end.
End admin.
