(* ===== verification/Demo.v ===== *)
(** * Concrete inputs

    A runtime and rows on which the theorems are exercised. *)
From S2P Require Import Prelude PyText Json Models Scheduler.
#[global] Open Scope Z_scope.
#[global] Open Scope orch_scope.

(** A clock that ticks once per reading, numbered identifiers, a digest that is
    its argument (hence collision-free), SQLite, and no other transaction. *)
Definition demo_runtime : Runtime := {|
  clock n := Z.of_nat n * second;
  fresh_uuid n := "uuid-" +:+ pretty n;
  sha256_hexdigest s := s;
  dialect := "sqlite";
  row_locked _ := false
|}.

(** A queued task demanding the given resources. *)
Definition demo_task (id : string) (priority : Z) (concurrency_key : option string)
    (context : list (string * json)) : Task.t :=
  Task.mk id "review" "core.review" "queued" None "queued" "not_required" "default"
    priority priority 0 None concurrency_key "standard" (Some context) None 0
    None None None None None 0 0 Task.Plain.

Definition with_tasks (l : list Task.t) : Db := empty_db .[ tasks := l ].

(** Two tasks of one pull request, and a third of another. *)
Definition demo_high : Task.t := demo_task "high" 80 (Some "pr-1") [].
Definition demo_mid : Task.t := demo_task "mid" 60 (Some "pr-1") [].
Definition demo_low : Task.t := demo_task "low" 10 (Some "pr-2") [("user", JStr "eve")].
Definition demo_db : Db := with_tasks [demo_low; demo_mid; demo_high].

Definition demo_policy : SchedulerPolicy.t := SchedulerPolicy.default.

(** A bound on the identifiers already drawn for the rows of a database. *)
Definition drawn (d : Db) : nat :=
  length (leases d) + length (outbox d) + length (slots d) + length (findings d)
  + length (events d) + length (contexts d) + length (review_sessions d) + length (tasks d).

Definition demo_session (d : Db) : Session := open_session d 0 (drawn d).

(** The database after a computation run in a session of its own. *)
Definition after {A} (act : SM A) (d : Db) : Db := committed (exec act (demo_session d)).

(** A review run and its comment slot. *)
Definition demo_run (head_sha : string) (attempt : Z) : ReviewRun.t :=
  ReviewRun.mk None "github" "octo/app" 7 (Some "base000") head_sha attempt "manual" None
    None None None None None None None None None None 0 None None None None None None None
    None None None.

Definition demo_review (id status execution_status : string) (run : ReviewRun.t) : Task.t :=
  Task.mk id "review" "core.review" status None execution_status "pending" "default"
    50 50 0 None None "standard" None None 0 None None None None None 0 0 (Task.Review run).

Definition demo_slot (id run_id status : string) (comment : option string) (version : Z)
    : ReviewCommentSlot.t :=
  ReviewCommentSlot.mk id run_id "github" "octo/app" 7 "head111" ("marker-" +:+ id) comment
    status 1 version None None None.

(** A queued delivery of a review comment. *)
Definition demo_delivery (id task_id operation : string) (payload : list (string * json))
    (max_attempts : Z) : DeliveryOutbox.t :=
  DeliveryOutbox.mk id task_id "github" operation "dest" ("key-" +:+ id) (JObj payload) "digest"
    true "queued" "provider-github" 50 0 0 max_attempts None None None None None 0 0.
