(* ===== verification/SchedulerFacts.v ===== *)
(** * Facts about the scheduler

    Lemmas the scheduler's theorems share: what a requirement list looks like,
    what aging does to the task table, and the effect of acquiring resources. *)
From S2P Require Import Prelude PyText Json Models Scheduler.
#[global] Open Scope Z_scope.
#[global] Open Scope orch_scope.

(** ** Requirements *)

Lemma _resource_demands_positive value demands d :
  _resource_demands value = Return demands → d ∈ demands → 0 < d.2.
Proof.
  assert (Hone : ∀ l : list string, d ∈ map (λ item, (item, 1)) l → 0 < d.2).
  { intros l Hd. apply list_elem_of_fmap in Hd as (x & -> & _). simpl. lia. }
  destruct value as [| | | | |fields]; simpl;
    try (intros [= <-] Hd; solve [set_solver | by eapply Hone]).
  destruct (py_int_of _) as [u|e]; simpl; [|done].
  destruct (Z.leb_spec u 0); [done|]. intros [= <-] Hd.
  apply list_elem_of_fmap in Hd as (x & -> & _). simpl. lia.
Qed.

Lemma dimension_requirements_positive policy entry reqs r :
  dimension_requirements policy entry = Return reqs → r ∈ reqs →
  0 < ResourceRequirement.units r.
Proof.
  unfold dimension_requirements. simpl.
  destruct (_resource_demands _) as [demands|e] eqn:Hd; simpl; [|done].
  intros [= <-] Hr. apply list_elem_of_fmap in Hr as (d & -> & Hin). simpl.
  by eapply _resource_demands_positive.
Qed.

Lemma dedupe_lookup l (m : gmap string requirement) k r :
  foldl (λ m r, <[ResourceRequirement.key r := r]> m) m l !! k = Some r →
  (r ∈ l ∧ ResourceRequirement.key r = k) ∨ m !! k = Some r.
Proof.
  revert m. induction l as [|x l IH]; intros m; simpl; [by right|].
  intros [[Hr Hk]|Hm]%IH; [left; set_solver|].
  apply lookup_insert_Some in Hm as [[Hk ->]|[_ Hm]]; [left; set_solver|by right].
Qed.

Lemma elem_of_dedupe_values l r :
  r ∈ (map_to_list (dedupe_requirements l)).*2 → r ∈ l.
Proof.
  intros ([k r'] & -> & Hin)%list_elem_of_fmap. apply elem_of_map_to_list in Hin.
  apply dedupe_lookup in Hin as [[? _]|Hin]; [done|by rewrite lookup_empty in Hin].
Qed.

Lemma dedupe_values_keys l :
  ResourceRequirement.key <$> (map_to_list (dedupe_requirements l)).*2 =
  (map_to_list (dedupe_requirements l)).*1.
Proof.
  rewrite <- list_fmap_compose. apply list_fmap_ext.
  intros i [k r] Hi%list_elem_of_lookup_2. apply elem_of_map_to_list in Hi. simpl.
  apply dedupe_lookup in Hi as [[_ ?]|Hi]; [done|by rewrite lookup_empty in Hi].
Qed.

(** The shape of a requirement list: locked in increasing key order, each
    resource once, positive units. *)
Lemma requirements_shape policy task reqs :
  requirements policy task = Return reqs →
  StronglySorted (str_cmp ResourceRequirement.key) reqs ∧
  NoDup (ResourceRequirement.key <$> reqs) ∧
  ∀ r, r ∈ reqs → 0 < ResourceRequirement.units r.
Proof.
  unfold requirements.
  destruct (outcome_concat _ _) as [context|e] eqn:Hc; simpl; [|done].
  intros [= <-]. split; [apply sort_by_sorted|]. split.
  - rewrite sort_by_perm, dedupe_values_keys. apply NoDup_fst_map_to_list.
  - intros r Hr. apply elem_of_sort_by, elem_of_dedupe_values, elem_of_app in Hr as [Hr|Hr].
    + eapply outcome_concat_Return in Hc as (entry & xs & _ & Hf & Hx); [|done].
      by eapply dimension_requirements_positive.
    + destruct (truthy _); [|set_solver].
      apply list_elem_of_singleton in Hr as ->. done.
Qed.

(** ** The capacity invariant *)

(** All units leased on a resource, expired leases included. *)
Definition leased_units (key : string) (l : list ResourceLease.t) : Z :=
  sum_by ResourceLease.units (filter (λ x, ResourceLease.resource_key x = key) l).

(** Pools have distinct keys, leases are positive and point to a pool, and no
    pool is leased beyond its capacity. *)
Record within_capacity (ps : list ResourcePool.t) (ls : list ResourceLease.t) : Prop := {
  wc_pools : NoDup (ResourcePool.resource_key <$> ps);
  wc_units : ∀ l, l ∈ ls → 0 < ResourceLease.units l;
  wc_fk : ∀ l, l ∈ ls → ResourceLease.resource_key l ∈ ResourcePool.resource_key <$> ps;
  wc_cap : ∀ p, p ∈ ps →
    leased_units (ResourcePool.resource_key p) ls ≤ Z.max 0 (ResourcePool.capacity p)
}.

Lemma leased_units_app key l1 l2 :
  leased_units key (l1 ++ l2) = leased_units key l1 + leased_units key l2.
Proof. unfold leased_units. by rewrite filter_app, sum_by_app. Qed.

Lemma leased_units_one key l :
  leased_units key [l] =
  if decide (ResourceLease.resource_key l = key) then ResourceLease.units l else 0.
Proof. unfold leased_units. rewrite filter_cons, filter_nil. case_decide; simpl; lia. Qed.

Lemma leased_units_filter key (P : ResourceLease.t → Prop) `{∀ x, Decision (P x)} ls :
  (∀ l, l ∈ ls → 0 < ResourceLease.units l) →
  leased_units key (filter P ls) ≤ leased_units key ls.
Proof.
  intros Hpos. unfold leased_units. rewrite list_filter_filter.
  rewrite (list_filter_iff _ (λ x, P x ∧ ResourceLease.resource_key x = key)) by naive_solver.
  rewrite <- list_filter_filter. apply sum_by_filter_le.
  intros x Hx%list_elem_of_filter. apply Z.lt_le_incl, Hpos. tauto.
Qed.

Lemma leased_units_absent key ls :
  (∀ l, l ∈ ls → ResourceLease.resource_key l ≠ key) → leased_units key ls = 0.
Proof.
  intros Hne. unfold leased_units.
  destruct (filter _ ls) as [|x xs] eqn:Hf; [done|].
  assert (x ∈ filter (λ x, ResourceLease.resource_key x = key) ls) as Hx
    by (rewrite Hf; left).
  apply list_elem_of_filter in Hx as [? ?]. by destruct (Hne x).
Qed.

Lemma within_capacity_filter ps ls (P : ResourceLease.t → Prop) `{∀ x, Decision (P x)} :
  within_capacity ps ls → within_capacity ps (filter P ls).
Proof.
  intros [Hnd Hu Hfk Hcap]. split; [done|..].
  - intros l Hl%list_elem_of_filter. apply Hu. tauto.
  - intros l Hl%list_elem_of_filter. apply Hfk. tauto.
  - intros p Hp. etrans; [by apply leased_units_filter|by apply Hcap].
Qed.

Lemma within_capacity_app_pool ps ls p :
  ResourcePool.resource_key p ∉ ResourcePool.resource_key <$> ps →
  within_capacity ps ls → within_capacity (ps ++ [p]) ls.
Proof.
  intros Hp [Hnd Hu Hfk Hcap]. split; [|done|..].
  - rewrite fmap_app. apply NoDup_app. split; [done|]. split; [|apply NoDup_singleton].
    intros k Hk ->%list_elem_of_singleton. done.
  - intros l Hl. rewrite fmap_app. apply elem_of_app. left. by apply Hfk.
  - intros p' [Hp'| ->%list_elem_of_singleton]%elem_of_app; [by apply Hcap|].
    rewrite leased_units_absent; [lia|]. intros l Hl Heq. apply Hp.
    rewrite <- Heq. by apply Hfk.
Qed.

(** A lease for which the pool has room. *)
Lemma within_capacity_app_lease ps ls l p :
  within_capacity ps ls → p ∈ ps →
  ResourceLease.resource_key l = ResourcePool.resource_key p →
  0 < ResourceLease.units l →
  leased_units (ResourcePool.resource_key p) ls + ResourceLease.units l
    ≤ ResourcePool.capacity p →
  within_capacity ps (ls ++ [l]).
Proof.
  intros [Hnd Hu Hfk Hcap] Hp Hk Hl Hroom. split; [done|..].
  - intros l' [?| ->%list_elem_of_singleton]%elem_of_app; auto.
  - intros l' [?| ->%list_elem_of_singleton]%elem_of_app; [auto|].
    rewrite Hk. by apply list_elem_of_fmap_2.
  - intros p' Hp'. rewrite leased_units_app, leased_units_one.
    specialize (Hcap p' Hp'). case_decide as Heq; [|lia].
    assert (p' = p) as ->; [|lia].
    eapply (NoDup_key_eq ResourcePool.resource_key); [done..|]. congruence.
Qed.

(** Extending the term of leases changes no count. *)
Lemma within_capacity_update ps ls (P : ResourceLease.t → bool) f :
  (∀ l, ResourceLease.resource_key (f l) = ResourceLease.resource_key l) →
  (∀ l, ResourceLease.units (f l) = ResourceLease.units l) →
  within_capacity ps ls → within_capacity ps (update_rows P f ls).
Proof.
  intros Hk Hun [Hnd Hu Hfk Hcap].
  assert (Hsum : ∀ k, leased_units k (update_rows P f ls) = leased_units k ls).
  { intros k. unfold leased_units, update_rows. clear -Hk Hun.
    induction ls as [|l ls IH]; [done|]. rewrite fmap_cons, !filter_cons.
    assert (Heq : ResourceLease.resource_key (if P l then f l else l)
                  = ResourceLease.resource_key l) by (destruct (P l); auto).
    rewrite Heq. case_decide; [|done]. simpl. rewrite IH.
    destruct (P l); [by rewrite Hun|done]. }
  split; [done|..].
  - intros l (l0 & Hl0 & ->)%elem_of_update_rows. destruct (P l0); [rewrite Hun|]; auto.
  - intros l (l0 & Hl0 & ->)%elem_of_update_rows. destruct (P l0); [rewrite Hk|]; auto.
  - intros p Hp. rewrite Hsum. auto.
Qed.

(** A pool under a new key violates no constraint. *)
Lemma pool_fits (p : ResourcePool.t) l :
  find_row (ResourcePool.resource_key p) l = None → violation p l = None.
Proof.
  intros Hp. apply violation_None. split; [by apply find_row_None in Hp|].
  by intros c []%elem_of_nil.
Qed.

(** ** The invariant on sessions *)

(** [P] of the resource tables the session sees; the committed tables are
    within capacity. *)
Definition on_resources (P : list ResourcePool.t → list ResourceLease.t → Prop)
    (s : Session) : Prop :=
  P (pools (work s)) (leases (work s)) ∧
  within_capacity (pools (committed s)) (leases (committed s)).

Abbreviation resources_ok := (on_resources within_capacity).

(** Within a claim no expired lease is left. *)
Definition purged (now : Z) (ps : list ResourcePool.t) (ls : list ResourceLease.t) : Prop :=
  within_capacity ps ls ∧ ∀ l, l ∈ ls → now < ResourceLease.expires_at l.

Lemma on_resources_weaken (P Q : list ResourcePool.t → list ResourceLease.t → Prop) s :
  (∀ ps ls, P ps ls → Q ps ls) → on_resources P s → on_resources Q s.
Proof. intros H [? ?]. split; auto. Qed.

Lemma purged_ok now s : on_resources (purged now) s → resources_ok s.
Proof. apply on_resources_weaken. by intros ?? []. Qed.

Lemma keeps_modify_task P k f : keeps (on_resources P) (modify (R := Task.t) k f).
Proof. by intros s Hs. Qed.
Lemma keeps_update_task P Q f : keeps (on_resources P) (update_where (R := Task.t) Q f).
Proof. by intros s Hs. Qed.
Lemma keeps_resources_commit : keeps resources_ok commit.
Proof. by intros s [Hs _]. Qed.
Lemma keeps_purged_commit now : keeps (on_resources (purged now)) commit.
Proof. intros s [Hs _]. by split; [|apply Hs]. Qed.
Lemma keeps_fetch {R} `{Table R} I k : keeps I (fetch (R := R) k).
Proof. by intros s Hs. Qed.
Lemma keeps_select {R} `{Table R} I (P : R → bool) : keeps I (select P).
Proof. by intros s Hs. Qed.
Lemma keeps_flush I : keeps I flush.
Proof. apply keeps_ret. Qed.
Lemma keeps_utc_now `{Runtime} P : keeps (on_resources P) utc_now.
Proof. by intros s Hs. Qed.
Lemma keeps_uuid4 `{Runtime} P : keeps (on_resources P) uuid4.
Proof. by intros s Hs. Qed.
Lemma keeps_or_now `{Runtime} P now : keeps (on_resources P) (or_now now).
Proof. destruct now; [apply keeps_ret|apply keeps_utc_now]. Qed.
#[export] Hint Resolve keeps_modify_task keeps_update_task keeps_resources_commit
  keeps_purged_commit keeps_fetch keeps_select keeps_flush keeps_utc_now keeps_uuid4
  keeps_or_now : keeps.

Section claim_facts.
Context `{Runtime}.

Lemma keeps_aging P now policy : keeps (on_resources P) (_apply_priority_aging now policy).
Proof. unfold _apply_priority_aging. keeps_auto. Qed.

Lemma keeps_cas P task_id worker_id expires_at now :
  keeps (on_resources P) (_compare_and_swap_task_lock task_id worker_id expires_at now).
Proof. unfold _compare_and_swap_task_lock. keeps_auto. Qed.

Lemma keeps_insert_if_absent now p : keeps (on_resources (purged now)) (insert_if_absent p).
Proof.
  apply keeps_puts. intros s [[Hw Hx] Hc]. split; [|done]. split; [|done].
  change (within_capacity (match find_row (ResourcePool.resource_key p) (pools (work s)) with
                           | Some _ => pools (work s)
                           | None => pools (work s) ++ [p]
                           end) (leases (work s))).
  destruct (find_row _ _) eqn:Hf; [done|].
  apply within_capacity_app_pool; [|done]. by apply find_row_None in Hf.
Qed.

Lemma keeps_fetch_insert now (p : ResourcePool.t) :
  keeps (on_resources (purged now))
    (existing ← fetch (R := ResourcePool.t) (ResourcePool.resource_key p);
     match existing with None => insert p | Some _ => mret tt end).
Proof.
  intros s Hs. rewrite bind_run, fetch_run.
  destruct (find_row _ _) eqn:Hf; [done|].
  assert (Hv : violation p (rows (work s)) = None) by by apply pool_fits.
  rewrite (insert_run _ _ Hv). destruct Hs as [[Hw Hx] Hc]. split; [|done]. split; [|done].
  apply within_capacity_app_pool; [|done]. by apply find_row_None in Hf.
Qed.

Lemma keeps_ensure_pools now reqs :
  keeps (on_resources (purged now)) (_ensure_resource_pools reqs).
Proof.
  unfold _ensure_resource_pools.
  destruct (_ || _); apply keeps_for_each; intros p;
    [apply keeps_insert_if_absent|apply keeps_fetch_insert].
Qed.

(** Every requirement finds a pool with room. *)
Definition has_room (now : Z) (r : requirement) (d : Db) : Prop :=
  ∃ p, find_row (ResourceRequirement.key r) (pools d) = Some p ∧
    used_units (ResourceRequirement.key r) now (leases d) + ResourceRequirement.units r
      ≤ ResourcePool.capacity p.

Lemma capacity_available_run reqs now s o s' :
  capacity_available reqs now s = (o, s') →
  s' = s ∧ (o = Return true ↔ Forall (λ r, has_room now r (work s)) reqs).
Proof.
  revert o s'. induction reqs as [|r reqs IH]; intros o s'; simpl.
  - intros [= <- <-]. split; [done|]. by rewrite Forall_nil.
  - rewrite bind_run, fetch_run. simpl. rewrite Forall_cons.
    destruct (find_row _ _) as [p|] eqn:Hp.
    + rewrite bind_run. simpl. destruct (Z.ltb_spec (ResourcePool.capacity p)
        (used_units (ResourceRequirement.key r) now (leases (work s))
         + ResourceRequirement.units r)) as [Hlt|Hge].
      * intros [= <- <-]. split; [done|]. split; [done|].
        intros [(p' & Hp' & Hle) _]. rewrite Hp in Hp'. injection Hp' as ->. lia.
      * intros Hrun. destruct (IH _ _ Hrun) as [-> Hiff]. split; [done|].
        rewrite Hiff. split; [|tauto]. split; [|done]. exists p. split; [done|lia].
    + intros [= <- <-]. split; [done|]. split; [done|].
      intros [(p' & Hp' & _) _]. by rewrite Hp in Hp'.
Qed.

Lemma used_units_purged key now ls :
  (∀ l, l ∈ ls → now < ResourceLease.expires_at l) →
  used_units key now ls = leased_units key ls.
Proof.
  intros Hx. unfold used_units, leased_units. f_equal.
  apply filter_agree. intros l Hl. specialize (Hx l Hl). tauto.
Qed.

(** Room counted over all leases, as it is once the expired ones are gone. *)
Definition fits (r : requirement) (s : Session) : Prop :=
  ∃ p, find_row (ResourceRequirement.key r) (pools (work s)) = Some p ∧
    leased_units (ResourceRequirement.key r) (leases (work s))
      + ResourceRequirement.units r ≤ ResourcePool.capacity p.

(** Granting the leases one by one stays within capacity, also when the
    unique constraint stops the loop half-way. *)
Lemma grant_all_within task_id worker_id stage expires_at reqs s :
  NoDup (ResourceRequirement.key <$> reqs) →
  (∀ r, r ∈ reqs → 0 < ResourceRequirement.units r) →
  resources_ok s → Forall (λ r, fits r s) reqs →
  resources_ok (exec (for_each reqs (grant task_id worker_id stage expires_at)) s).
Proof.
  revert s. induction reqs as [|r reqs IH]; intros s Hnd Hpos Hs Hfit; [done|].
  apply Forall_cons in Hfit as [(p & Hp & Hroom) Hfit].
  rewrite fmap_cons in Hnd. apply NoDup_cons in Hnd as [Hr Hnd].
  unfold exec. change (for_each (r :: reqs) ?f) with (f r ;; for_each reqs f).
  rewrite bind_run. unfold grant at 1. rewrite bind_run. simpl.
  set (l := ResourceLease.mk _ _ _ _ _ _ _). set (s1 := s .[ uuids := _ ]).
  unfold insert. rewrite bind_run. simpl. destruct (violation l (leases (work s))); [done|].
  apply IH; [done|set_solver|..].
  - destruct Hs as [Hw Hc]. split; [|done].
    apply find_row_Some in Hp as [Hp Hk].
    apply (within_capacity_app_lease _ _ _ p Hw Hp); simpl.
    + by rewrite <- Hk.
    + apply Hpos. left.
    + change (ResourcePool.resource_key p = ResourceRequirement.key r) in Hk.
      by rewrite Hk.
  - apply Forall_forall. intros r' Hr'.
    destruct (proj1 (Forall_forall _ _) Hfit r' Hr') as (p' & Hp' & Hroom').
    exists p'. split; [done|].
    change (leased_units (ResourceRequirement.key r') (leases (work s) ++ [l])
            + ResourceRequirement.units r' ≤ ResourcePool.capacity p').
    rewrite leased_units_app, leased_units_one, decide_False; [lia|].
    intros Heq. change (ResourceRequirement.key r = ResourceRequirement.key r') in Heq.
    apply Hr. rewrite Heq. by apply list_elem_of_fmap_2.
Qed.

Lemma acquire_keeps task_id worker_id stage expires_at now reqs :
  NoDup (ResourceRequirement.key <$> reqs) →
  (∀ r, r ∈ reqs → 0 < ResourceRequirement.units r) →
  triple (on_resources (purged now))
    (_acquire_resources task_id worker_id stage expires_at now reqs)
    (λ acquired s, if acquired then resources_ok s else on_resources (purged now) s)
    (λ _, resources_ok).
Proof.
  intros Hnd Hpos. unfold _acquire_resources. destruct reqs as [|r0 reqs].
  { apply triple_ret, purged_ok. }
  set (reqs' := r0 :: reqs) in *.
  eapply triple_bind.
  { apply triple_keeps; [apply keeps_ensure_pools|apply purged_ok]. }
  intros _ s Hs. rewrite bind_run.
  assert (Hok : resources_ok s) by by eapply purged_ok.
  destruct (capacity_available reqs' now s) as [o s'] eqn:Hcap.
  apply capacity_available_run in Hcap as [-> Hroom].
  destruct o as [[]|e]; simpl; [|done|done].
  assert (Hfit : Forall (λ r, fits r s) reqs').
  { destruct Hs as [[_ Hx] _]. eapply Forall_impl; [by apply Hroom|].
    intros r (p & Hp & Hle). exists p. by rewrite <- (used_units_purged _ now). }
  pose proof (grant_all_within task_id worker_id stage expires_at reqs' s Hnd Hpos Hok Hfit)
    as Hgrant. rewrite bind_run.
  unfold exec in Hgrant.
  by destruct (for_each reqs' _ s) as [[?|?] ?].
Qed.

Lemma try_candidates_keeps worker_id expires_at now policy ids :
  triple (on_resources (purged now))
    (try_candidates worker_id expires_at now policy ids)
    (λ _, resources_ok) (λ _, resources_ok).
Proof.
  induction ids as [|task_id ids IH]; simpl.
  { eapply triple_bind; [apply triple_keeps; [apply keeps_purged_commit|apply purged_ok]|].
    intros u. apply triple_ret, purged_ok. }
  eapply triple_bind.
  { apply triple_keeps; [apply keeps_fetch|apply purged_ok]. }
  intros [task|]; [|exact IH].
  eapply triple_bind.
  { apply triple_keeps; [apply keeps_cas|apply purged_ok]. }
  intros [|]; [|exact IH]. simpl.
  destruct (requirements policy task) as [reqs|e] eqn:Hreqs.
  2:{ intros s Hs. by eapply purged_ok. }
  destruct (requirements_shape _ _ _ Hreqs) as (_ & Hnd & Hpos).
  eapply triple_bind with (R := λ reqs', λ s, reqs' = reqs ∧ on_resources (purged now) s).
  { by intros s Hs. }
  intros reqs'. intros s [-> Hs]. revert s Hs.
  eapply triple_bind; [by apply acquire_keeps|]. intros [|]; simpl.
  - change (keeps resources_ok (modify task_id (mark_claimed worker_id expires_at now) ;;
      commit ;; mret (Some task_id))). keeps_auto.
  - eapply triple_bind.
    { apply triple_keeps; [apply keeps_modify_task|apply purged_ok]. }
    intros u. eapply triple_bind; [apply triple_keeps; [apply keeps_flush|apply purged_ok]|].
    intros u'. exact IH.
Qed.

Lemma claim_keeps_resources worker_id kinds classes lock_seconds now policy :
  keeps resources_ok (claim_next_task worker_id kinds classes lock_seconds now policy).
Proof.
  unfold claim_next_task. apply keeps_bind; [apply keeps_or_now|]. clear now. intros now.
  eapply triple_bind with (R := λ _, on_resources (purged now)).
  { intros s [Hw Hc]. split; [|done]. simpl. split.
    - by apply within_capacity_filter.
    - intros l Hl%list_elem_of_filter. destruct Hl as [Hl _].
      apply Is_true_true, negb_true_iff, Z.leb_gt in Hl. done. }
  intros u. eapply triple_bind.
  { apply triple_keeps; [apply keeps_aging|apply purged_ok]. }
  intros u'. eapply triple_bind with (R := λ _, on_resources (purged now)).
  { by intros s Hs. }
  intros ids. apply try_candidates_keeps.
Qed.

Lemma release_keeps_resources task_id owner retry_after now :
  keeps resources_ok (release_task_claim task_id owner retry_after now).
Proof.
  unfold release_task_claim. apply keeps_bind; [apply keeps_or_now|].
  intros t. apply keeps_bind; [|intros _; keeps_auto].
  intros s [Hw Hc]. split; [|done]. by apply within_capacity_filter.
Qed.

Lemma renew_keeps_resources task_id owner lock_seconds now :
  keeps resources_ok (renew_task_claim task_id owner lock_seconds now).
Proof.
  unfold renew_task_claim. apply keeps_bind; [apply keeps_or_now|].
  intros t. apply keeps_bind; [apply keeps_fetch|]. intros [task|]; [|apply keeps_ret].
  destruct (negb _); [apply keeps_ret|].
  apply keeps_bind; [apply keeps_modify_task|]. intros _.
  apply keeps_bind; [apply keeps_select|]. intros owned.
  apply keeps_bind; [|intros _; keeps_auto]. apply keeps_for_each. intros lease.
  intros s [Hw Hc]. split; [|done]. by apply within_capacity_update.
Qed.
End claim_facts.
