(* ===== verification/SchedulerSpec.v ===== *)
(** * What a claim does

    The exact effect of [try_candidates], from which the scheduling theorems
    follow: the pools it creates, the leases it grants, the row it writes, and
    why each skipped candidate was skipped. *)
From S2P Require Import Prelude PyText Json Models Scheduler SchedulerFacts.
#[global] Open Scope Z_scope.
#[global] Open Scope orch_scope.

Section claim_spec.
Context `{Runtime}.

(** Some pool of the requirements has no room for them. *)
Definition blocked (ps : list ResourcePool.t) (ls : list ResourceLease.t)
    (reqs : list requirement) : Prop :=
  ∃ r p, r ∈ reqs ∧ find_row (ResourceRequirement.key r) ps = Some p ∧
    ResourcePool.capacity p <
      leased_units (ResourceRequirement.key r) ls + ResourceRequirement.units r.

Lemma find_row_app_l {R} `{Table R} k (l1 l2 : list R) r :
  find_row k l1 = Some r → find_row k (l1 ++ l2) = Some r.
Proof.
  unfold find_row. rewrite filter_app. destruct (filter _ l1); [done|]. by intros [= ->].
Qed.

Lemma blocked_grow ps ps' ls reqs : blocked ps ls reqs → blocked (ps ++ ps') ls reqs.
Proof.
  intros (r & p & Hr & Hp & Hlt). exists r, p. split; [done|]. split; [|done].
  by apply find_row_app_l.
Qed.

(** [s'] differs from [s] by new pools only. *)
Definition pools_grow (s s' : Session) : Prop :=
  committed s' = committed s ∧ ∃ new, work s' = (work s) .[ pools := pools (work s) ++ new ].

Lemma pools_grow_refl s : pools_grow s s.
Proof. split; [done|]. exists []. rewrite app_nil_r. by destruct s as [? []]. Qed.

Lemma pools_grow_trans s1 s2 s3 : pools_grow s1 s2 → pools_grow s2 s3 → pools_grow s1 s3.
Proof.
  intros [Hc1 [n1 Hw1]] [Hc2 [n2 Hw2]]. split; [congruence|]. exists (n1 ++ n2).
  rewrite Hw2, Hw1. simpl. by rewrite app_assoc.
Qed.

(** Adding one pool unless its key is taken, in either dialect. *)
Definition adds_pool (f : ResourcePool.t → SM ()) : Prop := ∀ p s,
  ∃ s', f p s = (Return tt, s') ∧ pools_grow s s' ∧
    ResourcePool.resource_key p ∈ ResourcePool.resource_key <$> pools (work s').

Lemma insert_if_absent_adds : adds_pool insert_if_absent.
Proof.
  intros p s. eexists. split; [done|]. unfold on_rows. simpl.
  destruct (find_row _ _) as [q|] eqn:Hq.
  - split; [split; [done|]; exists []; by rewrite app_nil_r|]. simpl.
    apply find_row_Some in Hq as [Hq Hk]. change (ResourcePool.resource_key q = ResourcePool.resource_key p) in Hk. rewrite <- Hk. by apply (list_elem_of_fmap_2 ResourcePool.resource_key).
  - split; [split; [done|]; by exists [p]|]. simpl. rewrite fmap_app. set_solver.
Qed.

Lemma fetch_insert_adds : adds_pool (λ p,
  existing ← fetch (R := ResourcePool.t) (ResourcePool.resource_key p);
  match existing with None => insert p | Some _ => mret tt end).
Proof.
  intros p s. rewrite bind_run, fetch_run. destruct (find_row _ _) as [q|] eqn:Hq.
  - eexists. split; [done|]. split; [apply pools_grow_refl|].
    apply find_row_Some in Hq as [Hq Hk]. change (ResourcePool.resource_key q = ResourcePool.resource_key p) in Hk. rewrite <- Hk. by apply (list_elem_of_fmap_2 ResourcePool.resource_key).
  - assert (Hv : violation p (rows (work s)) = None) by by apply pool_fits.
    rewrite (insert_run _ _ Hv). eexists. split; [done|]. unfold on_rows.
    split; [split; [done|]; by exists [p]|]. simpl. rewrite fmap_app. set_solver.
Qed.

Lemma add_pools_run f ps s :
  adds_pool f →
  ∃ s', for_each ps f s = (Return tt, s') ∧ pools_grow s s' ∧
    ∀ p, p ∈ ps →
      ResourcePool.resource_key p ∈ ResourcePool.resource_key <$> pools (work s').
Proof.
  intros Hf. revert s. induction ps as [|p ps IH]; intros s.
  - exists s. split; [done|]. split; [apply pools_grow_refl|set_solver].
  - destruct (Hf p s) as (s1 & Hr1 & Hg1 & Hk1), (IH s1) as (s2 & Hr2 & Hg2 & Hk2).
    exists s2. change (for_each (p :: ps) f) with (f p ;; for_each ps f).
    rewrite (bind_ret_run _ _ _ _ _ Hr1). split; [done|].
    split; [by eapply pools_grow_trans|]. intros q [->|Hq]%elem_of_cons; [|by apply Hk2].
    destruct Hg2 as [_ [new ->]]. simpl. rewrite fmap_app. set_solver.
Qed.

Lemma ensure_pools_run reqs s :
  ∃ s', _ensure_resource_pools reqs s = (Return tt, s') ∧ pools_grow s s' ∧
    ∀ r, r ∈ reqs →
      ResourceRequirement.key r ∈ ResourcePool.resource_key <$> pools (work s').
Proof.
  unfold _ensure_resource_pools.
  assert (Hgoal : ∀ f, adds_pool f → ∃ s', for_each (map pool_of reqs) f s = (Return tt, s') ∧
    pools_grow s s' ∧ ∀ r, r ∈ reqs →
      ResourceRequirement.key r ∈ ResourcePool.resource_key <$> pools (work s')).
  { intros f Hf. destruct (add_pools_run f (map pool_of reqs) s Hf) as (s' & Hr & Hg & Hk).
    exists s'. split; [done|]. split; [done|]. intros r Hr'.
    apply (Hk (pool_of r)). by apply list_elem_of_fmap_2. }
  destruct (_ || _); apply Hgoal; [apply insert_if_absent_adds|apply fetch_insert_adds].
Qed.

(** With its pools present, the capacity check answers, and a negative answer
    names a pool without room. *)
Lemma capacity_available_total reqs now s :
  (∀ l, l ∈ leases (work s) → now < ResourceLease.expires_at l) →
  (∀ r, r ∈ reqs → ResourceRequirement.key r ∈ ResourcePool.resource_key <$> pools (work s)) →
  ∃ b : bool, capacity_available reqs now s = (Return b, s) ∧
    (b = false → blocked (pools (work s)) (leases (work s)) reqs).
Proof.
  intros Hx. induction reqs as [|r reqs IH]; intros Hk; simpl.
  { by exists true. }
  rewrite bind_run, fetch_run. destruct (find_row _ _) as [p|] eqn:Hp.
  2:{ apply find_row_None in Hp. destruct Hp. apply Hk. left. }
  rewrite bind_run. simpl. rewrite used_units_purged by done.
  destruct (Z.ltb_spec (ResourcePool.capacity p)
    (leased_units (ResourceRequirement.key r) (leases (work s)) + ResourceRequirement.units r))
    as [Hlt|Hge].
  - exists false. split; [done|]. intros _. exists r, p. split; [left|]. done.
  - destruct IH as (b & Hb & Hblk); [intros; apply Hk; by right|].
    exists b. split; [done|]. intros Hf. destruct (Hblk Hf) as (r' & p' & Hr' & ?).
    exists r', p'. split; [by right|done].
Qed.

(** The lease that answers a requirement. *)
Definition lease_for (task_id worker_id stage : string) (expires_at : Z)
    (r : requirement) (l : ResourceLease.t) : Prop :=
  ResourceLease.task_id l = task_id ∧ ResourceLease.stage l = stage ∧
  ResourceLease.resource_key l = ResourceRequirement.key r ∧
  ResourceLease.units l = ResourceRequirement.units r ∧
  ResourceLease.owner l = worker_id ∧ ResourceLease.expires_at l = expires_at.

(** [s'] differs from [s] by new leases answering [reqs]. *)
Definition granted task_id worker_id stage expires_at (reqs : list requirement)
    (s s' : Session) : Prop :=
  committed s' = committed s ∧ ∃ new,
    work s' = (work s) .[ leases := leases (work s) ++ new ] ∧
    Forall2 (lease_for task_id worker_id stage expires_at) reqs new.

Lemma grant_all_run task_id worker_id stage expires_at reqs s o s' :
  for_each reqs (grant task_id worker_id stage expires_at) s = (o, s') →
  match o with
  | Return _ => granted task_id worker_id stage expires_at reqs s s'
  | Raise _ => committed s' = committed s
  end.
Proof.
  revert s. induction reqs as [|r reqs IH]; intros s.
  - intros [= <- <-]. split; [done|]. exists []. split; [|constructor].
    rewrite app_nil_r. by destruct s as [? []].
  - change (for_each (r :: reqs) ?f) with (f r ;; for_each reqs f).
    rewrite bind_run. unfold grant at 1. rewrite bind_run. simpl.
    set (l := ResourceLease.mk _ _ _ _ _ _ _). unfold insert. rewrite bind_run. simpl.
    destruct (violation l (leases (work s))); [by intros [= <- <-]|].
    intros Hrun%IH. destruct o as [u|e]; [|done].
    destruct Hrun as [Hc (new & Hw & Hall)]. split; [done|]. exists (l :: new).
    split; [|by constructor]. rewrite Hw. simpl. by rewrite <- app_assoc.
Qed.

(** [s'] differs from [s] by new pools and the leases answering [reqs]. *)
Definition acquired task_id worker_id stage expires_at (reqs : list requirement)
    (s s' : Session) : Prop :=
  committed s' = committed s ∧ ∃ ps new,
    work s' = (work s) .[ pools := pools (work s) ++ ps ]
                       .[ leases := leases (work s) ++ new ] ∧
    Forall2 (lease_for task_id worker_id stage expires_at) reqs new.

Lemma acquire_run task_id worker_id stage expires_at now reqs s o s' :
  (∀ l, l ∈ leases (work s) → now < ResourceLease.expires_at l) →
  _acquire_resources task_id worker_id stage expires_at now reqs s = (o, s') →
  match o with
  | Return true => acquired task_id worker_id stage expires_at reqs s s'
  | Return false => pools_grow s s' ∧ blocked (pools (work s')) (leases (work s')) reqs
  | Raise _ => committed s' = committed s
  end.
Proof.
  intros Hx. unfold _acquire_resources. destruct reqs as [|r0 reqs].
  { intros [= <- <-]. split; [done|]. exists [], []. rewrite !app_nil_r.
    split; [|constructor]. by destruct s as [? []]. }
  set (reqs' := r0 :: reqs).
  destruct (ensure_pools_run reqs' s) as (s1 & Hr1 & [Hc1 [ps Hw1]] & Hk1).
  assert (Hl1 : leases (work s1) = leases (work s)) by by rewrite Hw1.
  rewrite (bind_ret_run _ _ _ _ _ Hr1).
  destruct (capacity_available_total reqs' now s1) as (b & Hb & Hblk);
    [by rewrite Hl1|done|].
  rewrite (bind_ret_run _ _ _ _ _ Hb). destruct b; simpl.
  2:{ intros [= <- <-]. split; [split; [done|by exists ps]|by apply Hblk]. }
  rewrite bind_run. destruct (for_each reqs' _ s1) as [o2 s2] eqn:Hg.
  apply grant_all_run in Hg. destruct o2 as [u|e]; intros [= <- <-]; [|congruence].
  destruct Hg as [Hc2 (new & Hw2 & Hall)]. split; [congruence|].
  exists ps, new. split; [|done]. rewrite Hw2, Hw1. done.
Qed.

(** What a skipped candidate is left with. *)
Definition unlock (now : Z) (t : Task.t) : Task.t :=
  t .[ Task.lock_owner := None ] .[ Task.locked_until := None ] .[ Task.updated_at := now ].

(** The lock a claim takes first is overwritten by either end of the attempt. *)
Lemma cas_run k worker_id expires_at now s t :
  NoDup (Task.id <$> tasks (work s)) →
  find_row k (tasks (work s)) = Some t → null_or_before (Task.locked_until t) now →
  ∃ f, _compare_and_swap_task_lock k worker_id expires_at now s =
         (Return true, on_rows (update_rows (λ t, bool_decide (Task.id t = k)) f) s) ∧
       ∀ t, Task.id (f t) = Task.id t ∧ unlock now (f t) = unlock now t ∧
            mark_claimed worker_id expires_at now (f t)
            = mark_claimed worker_id expires_at now t.
Proof.
  intros Hnd Hf Ht. unfold _compare_and_swap_task_lock.
  assert (Hkey : ∀ t', t' ∈ tasks (work s) →
    (bool_decide (Task.id t' = k) && null_or_before (Task.locked_until t') now)
    = bool_decide (Task.id t' = k)).
  { intros t' Ht'. case_bool_decide as Hid; [|done].
    assert (Some t' = Some t) as [= ->].
    { rewrite <- Hf. symmetry. by apply find_row_elem_of. }
    by apply Is_true_true. }
  destruct (negb _).
  - exists (λ t, t). split; [|done]. unfold on_rows. simpl. rewrite update_rows_id.
    by destruct s as [? []].
  - exists (λ t, t .[ Task.lock_owner := Some worker_id ]
                   .[ Task.locked_until := Some expires_at ]
                   .[ Task.updated_at := now ]).
    split; [|intros t0; split; [done|]; split; [done|]; unfold mark_claimed; simpl;
             by destruct (bool_decide _)].
    unfold update_where. rewrite bind_run. simpl.
    rewrite (filter_agree _ (λ t', row_key t' = k)).
    2:{ intros t' Ht'. rewrite Hkey by done. apply bool_decide_spec. }
    rewrite (filter_key_unique k _ t) by done. unfold on_rows. simpl.
    by rewrite (update_rows_ext _ (λ t, bool_decide (Task.id t = k)) _ _ Hkey).
Qed.

(** The row of each task after the loop has skipped [skipped] and claimed
    [claimed]. *)
Definition settle (worker_id : string) (expires_at now : Z) (skipped : list string)
    (claimed : option string) (t : Task.t) : Task.t :=
  if bool_decide (Task.id t ∈ skipped) then unlock now t
  else if bool_decide (claimed = Some (Task.id t)) then mark_claimed worker_id expires_at now t
  else t.

Lemma settle_id worker_id expires_at now skipped claimed t :
  Task.id (settle worker_id expires_at now skipped claimed t) = Task.id t.
Proof.
  unfold settle, mark_claimed. by repeat case_bool_decide.
Qed.

(** The candidate with this identifier lacks room in some pool. *)
Definition cannot_run (policy : SchedulerPolicy.t) (ps : list ResourcePool.t)
    (ls : list ResourceLease.t) (t : Task.t) : Prop :=
  ∃ reqs, requirements policy t = Return reqs ∧ blocked ps ls reqs.

Definition skipped_id policy ps ls (ts : list Task.t) (k : string) : Prop :=
  ∃ t, find_row k ts = Some t ∧ cannot_run policy ps ls t.

(** The tables after the loop. *)
Definition loop_result worker_id expires_at now skipped claimed
    (d : Db) (ps : list ResourcePool.t) (new : list ResourceLease.t) : Db :=
  d .[ tasks := settle worker_id expires_at now skipped claimed <$> tasks d ]
    .[ pools := pools d ++ ps ]
    .[ leases := leases d ++ new ].

(** Each candidate is in the table with a free lock. *)
Definition lockable (now : Z) (ts : list Task.t) (k : string) : Prop :=
  ∃ t, find_row k ts = Some t ∧ null_or_before (Task.locked_until t) now.

Definition loop_spec worker_id expires_at now policy (ids : list string)
    (s : Session) (o : outcome (option string)) (s' : Session) : Prop :=
  match o with
  | Return (Some id) =>
      ∃ l1 l2 t reqs ps new,
        ids = l1 ++ id :: l2 ∧ find_row id (tasks (work s)) = Some t ∧
        requirements policy t = Return reqs ∧
        Forall2 (lease_for id worker_id (or_else (Task.stage t) "start") expires_at) reqs new ∧
        work s' = loop_result worker_id expires_at now l1 (Some id) (work s) ps new ∧
        committed s' = work s' ∧
        Forall (skipped_id policy (pools (work s')) (leases (work s)) (tasks (work s))) l1
  | Return None =>
      ∃ ps,
        work s' = loop_result worker_id expires_at now ids None (work s) ps [] ∧
        committed s' = work s' ∧
        Forall (skipped_id policy (pools (work s')) (leases (work s)) (tasks (work s))) ids
  | Raise _ => committed s' = committed s
  end.

Lemma skipped_id_grow policy ps ps' ls ts k :
  skipped_id policy ps ls ts k → skipped_id policy (ps ++ ps') ls ts k.
Proof.
  intros (t & Ht & reqs & Hr & Hb). exists t. split; [done|]. exists reqs.
  split; [done|]. by apply blocked_grow.
Qed.

(** One unsuccessful attempt only unlocks its candidate and adds pools. *)
Lemma settle_cons worker_id expires_at now x l1 claimed t :
  claimed ≠ Some x → settle worker_id expires_at now l1 claimed
    (if bool_decide (Task.id t = x) then unlock now t else t)
  = settle worker_id expires_at now (x :: l1) claimed t.
Proof.
  intros Hx. unfold settle at 2. destruct (decide (Task.id t = x)) as [Heq|Hne].
  - rewrite !bool_decide_true by (done || set_solver). unfold settle. simpl.
    case_bool_decide; [done|]. rewrite bool_decide_false; [done|]. simpl. by rewrite Heq.
  - rewrite (bool_decide_false (Task.id t = x)) by done. unfold settle.
    by rewrite (bool_decide_ext (Task.id t ∈ x :: l1) (Task.id t ∈ l1)) by set_solver.
Qed.

Lemma find_row_unlock k x now ts :
  k ≠ x → find_row k (update_rows (λ t, bool_decide (Task.id t = x)) (unlock now) ts)
          = find_row k ts.
Proof.
  intros Hk. pose proof (find_update (R := Task.t) k x (unlock now) ts (λ _, eq_refl)) as E.
  by rewrite decide_False in E.
Qed.

Lemma loop_spec_skip worker_id expires_at now policy x ids s s1 o s' ps1 :
  NoDup (x :: ids) →
  committed s1 = committed s →
  work s1 = (work s) .[ tasks := update_rows (λ t, bool_decide (Task.id t = x))
                                   (unlock now) (tasks (work s)) ]
                     .[ pools := pools (work s) ++ ps1 ] →
  skipped_id policy (pools (work s1)) (leases (work s)) (tasks (work s)) x →
  loop_spec worker_id expires_at now policy ids s1 o s' →
  loop_spec worker_id expires_at now policy (x :: ids) s o s'.
Proof.
  intros [Hx Hnd]%NoDup_cons Hc Hw Hskip.
  assert (Hpools : ∀ l ps, (∀ y, y ∈ l → y ∈ ids) →
    Forall (skipped_id policy (pools (work s1) ++ ps) (leases (work s1)) (tasks (work s1))) l →
    Forall (skipped_id policy (pools (work s1) ++ ps) (leases (work s)) (tasks (work s)))
      (x :: l)).
  { intros l ps Hl Hall. constructor; [by apply skipped_id_grow|].
    rewrite Forall_forall in Hall |- *. intros y Hy. destruct (Hall y Hy) as (t & Ht & Hr).
    rewrite Hw in Ht, Hr. simpl in Ht, Hr. rewrite find_row_unlock in Ht by set_solver.
    exists t. rewrite Hw. by split. }
  assert (Hres : ∀ l claimed ps new, claimed ≠ Some x →
    loop_result worker_id expires_at now l claimed (work s1) ps new =
    loop_result worker_id expires_at now (x :: l) claimed (work s) (ps1 ++ ps) new).
  { intros l claimed ps new Hcl. rewrite Hw. unfold loop_result. simpl.
    rewrite <- app_assoc. assert (Hts : settle worker_id expires_at now l claimed <$>
      update_rows (λ t, bool_decide (Task.id t = x)) (unlock now) (tasks (work s)) =
      settle worker_id expires_at now (x :: l) claimed <$> tasks (work s)); [|by rewrite Hts].
    unfold update_rows. rewrite <- list_fmap_compose. apply list_fmap_ext.
    intros i t _. simpl. by apply settle_cons. }
  destruct o as [[id|]|e]; simpl; [| |congruence].
  - intros (l1 & l2 & t & reqs & ps & new & -> & Ht & Hr & Hall & Hw' & Hc' & Hsk).
    assert (Hid : id ≠ x) by set_solver.
    exists (x :: l1), l2, t, reqs, (ps1 ++ ps), new. split; [done|].
    split. { rewrite Hw in Ht. simpl in Ht. by rewrite find_row_unlock in Ht. }
    split; [done|]. split; [done|]. split; [rewrite Hw'; apply Hres; congruence|].
    split; [done|]. rewrite Hw' in Hsk |- *. apply Hpools; [set_solver|done].
  - intros (ps & Hw' & Hc' & Hsk). exists (ps1 ++ ps).
    split; [rewrite Hw'; by apply Hres|]. split; [done|].
    rewrite Hw' in Hsk |- *. by apply Hpools.
Qed.

Lemma loop_result_none worker_id expires_at now d :
  loop_result worker_id expires_at now [] None d [] [] = d.
Proof.
  unfold loop_result. rewrite !app_nil_r.
  rewrite (list_fmap_ext _ id), list_fmap_id by done. by destruct d.
Qed.

Lemma loop_result_claimed worker_id expires_at now x d ps new :
  d .[ tasks := update_rows (λ t, bool_decide (Task.id t = x))
                  (mark_claimed worker_id expires_at now) (tasks d) ]
    .[ pools := pools d ++ ps ] .[ leases := leases d ++ new ] =
  loop_result worker_id expires_at now [] (Some x) d ps new.
Proof.
  unfold loop_result, update_rows. rewrite (list_fmap_ext _
    (settle worker_id expires_at now [] (Some x)) (tasks d)); [done|].
  intros i t _. unfold settle. simpl.
  rewrite (bool_decide_ext (Some x = Some (Task.id t)) (Task.id t = x)); [done|].
  split; congruence.
Qed.

Lemma update_twice x (f g : Task.t → Task.t) ts :
  (∀ t, Task.id (f t) = Task.id t) → (∀ t, g (f t) = g t) →
  update_rows (λ t, bool_decide (Task.id t = x)) g
    (update_rows (λ t, bool_decide (Task.id t = x)) f ts)
  = update_rows (λ t, bool_decide (Task.id t = x)) g ts.
Proof.
  intros Hf Hg. unfold update_rows. rewrite <- list_fmap_compose.
  apply list_fmap_ext. intros i t _. simpl.
  destruct (bool_decide (Task.id t = x)) eqn:E; rewrite ?Hf, ?E; auto.
Qed.

Lemma lockable_unlock now x ts k :
  k ≠ x → lockable now ts k →
  lockable now (update_rows (λ t, bool_decide (Task.id t = x)) (unlock now) ts) k.
Proof. intros Hk (t & Ht & Hfree). exists t. by rewrite find_row_unlock. Qed.

(** The loop over the candidates: the first one whose requirements fit is
    claimed, those before it are released again. *)
Lemma try_candidates_run worker_id expires_at now policy ids s o s' :
  NoDup (Task.id <$> tasks (work s)) → NoDup ids →
  Forall (lockable now (tasks (work s))) ids →
  (∀ l, l ∈ leases (work s) → now < ResourceLease.expires_at l) →
  try_candidates worker_id expires_at now policy ids s = (o, s') →
  loop_spec worker_id expires_at now policy ids s o s'.
Proof.
  revert s. induction ids as [|x ids IH]; intros s Hts Hnd Hlock Hx.
  - intros [= <- <-]. exists []. simpl. split; [|by split].
    rewrite loop_result_none. by destruct s as [? []].
  - apply NoDup_cons in Hnd as Hnd'. destruct Hnd' as [Hxi Hnd'].
    apply Forall_cons in Hlock as [(t & Ht & Hfree) Hlock].
    simpl. rewrite bind_run, fetch_run. simpl. rewrite Ht.
    destruct (cas_run x worker_id expires_at now s t Hts Ht Hfree) as (f & Hcas & Hf).
    rewrite (bind_ret_run _ _ _ _ _ Hcas). simpl. rewrite bind_run. unfold lift.
    set (s1 := on_rows _ s).
    destruct (requirements policy t) as [reqs|e] eqn:Hreqs; [|by intros [= <- <-]].
    rewrite bind_run.
    destruct (_acquire_resources _ _ _ _ _ _ s1) as [o2 s2] eqn:Hacq.
    apply acquire_run in Hacq; [|done]. destruct o2 as [[]|e]; [| |by intros [= <- <-]].
    + destruct Hacq as [Hc2 (ps & new & Hw2 & Hall)]. simpl.
      rewrite (bind_ret_run _ _ _ _ _ (modify_run (R := Task.t) x _ s2)).
      intros [= <- <-]. exists [], ids, t, reqs, ps, new. split; [done|].
      split; [done|]. split; [done|]. split; [done|]. split; [|by split].
      simpl. rewrite Hw2. simpl. rewrite update_twice by (intros; by apply Hf).
      by rewrite <- loop_result_claimed.
    + destruct Hacq as [[Hc2 [ps Hw2]] Hblk]. simpl.
      rewrite (bind_ret_run _ _ _ _ _ (modify_run (R := Task.t) x (unlock now) s2)).
      rewrite (bind_ret_run _ _ _ _ _ (eq_refl : flush _ = _)).
      set (s3 := on_rows _ s2). intros Hrun.
      assert (Hw3 : work s3 = (work s) .[ tasks := update_rows (λ t, bool_decide (Task.id t = x))
                      (unlock now) (tasks (work s)) ] .[ pools := pools (work s) ++ ps ]).
      { subst s3. rewrite work_on_rows, Hw2. simpl.
        by rewrite update_twice by (intros; by apply Hf). }
      apply (loop_spec_skip _ _ _ _ _ _ s s3 _ _ ps Hnd); [exact Hc2|done|..].
      * exists t. split; [done|]. exists reqs. split; [done|].
        rewrite Hw3, Hw2 in *. done.
      * apply IH; rewrite ?Hw3; simpl; [|done| |done|done].
        -- by rewrite (update_rows_keys Task.id).
        -- rewrite Forall_forall in Hlock |- *. intros y Hy.
           apply lockable_unlock; [set_solver|by apply Hlock].
Qed.

(** ** The whole claim *)

(** Priority aging of one row. *)
Definition effective (now : Z) (policy : SchedulerPolicy.t) (t : Task.t) : Z :=
  Z.min 100 (Task.priority t + Z.max 0 (Z.quot (now - Task.created_at t) second)
                               / SchedulerPolicy.aging_interval_seconds policy).
Definition aged (now : Z) (policy : SchedulerPolicy.t) (t : Task.t) : Task.t :=
  if (0 <? SchedulerPolicy.aging_interval_seconds policy)
     && bool_decide (Task.status t = "queued")
  then t .[ Task.effective_priority := effective now policy t ] else t.

Lemma aged_id now policy t : Task.id (aged now policy t) = Task.id t.
Proof. unfold aged. by destruct (_ && _). Qed.

Lemma aging_run now policy s :
  NoDup (Task.id <$> tasks (work s)) →
  _apply_priority_aging now policy s =
  (Return tt, on_rows (fmap (aged now policy)) s).
Proof.
  intros Hnd. unfold _apply_priority_aging.
  destruct (Z.leb_spec (SchedulerPolicy.aging_interval_seconds policy) 0) as [Hi|Hi].
  { rewrite on_rows_id; [done|]. simpl. rewrite <- (list_fmap_id (tasks (work s))) at 2.
    apply list_fmap_ext. intros i t _. unfold aged.
    by rewrite (proj2 (Z.ltb_ge _ _) Hi). }
  set (f := λ t t0 : Task.t, t0 .[ Task.effective_priority := effective now policy t ]).
  set (c := λ t : Task.t, negb (Task.effective_priority t =? effective now policy t)).
  change (for_each (filter (λ t, bool_decide (Task.status t = "queued")) (rows (work s)))
            (λ t : Task.t, when (c t) (modify (row_key t) (f t))) s
          = (Return tt, on_rows (fmap (aged now policy)) s)).
  rewrite (for_each_modify c f); [|..|done].
  2:{ by apply (NoDup_keys_filter Task.id). }
  f_equal. apply on_rows_ext. apply list_fmap_ext. intros i t Hi'. subst c f. simpl.
  apply list_elem_of_lookup_2 in Hi'. unfold aged.
  rewrite (proj2 (Z.ltb_lt _ _) Hi). simpl.
  set (L := filter _ _). destruct (find_row (Task.id t) L) as [t'|] eqn:Hf.
  - apply find_row_Some in Hf as [Ht' Hid]. apply list_elem_of_filter in Ht' as [Hq Ht'].
    assert (t' = t) as -> by by eapply (NoDup_key_eq Task.id).
    apply bool_decide_unpack in Hq. rewrite bool_decide_true by done.
    destruct (Z.eqb_spec (Task.effective_priority t) (effective now policy t)) as [E|E];
      simpl; [|done]. rewrite <- E. by destruct t.
  - case_bool_decide as Hq; [|done]. apply find_row_None in Hf. destruct Hf.
    apply (list_elem_of_fmap_2 Task.id), list_elem_of_filter. split; [|done].
    by apply bool_decide_pack.
Qed.

(** The leases and the tasks the candidates are chosen from. *)
Definition live_leases (now : Z) (d : Db) : list ResourceLease.t :=
  filter (λ l, negb (ResourceLease.expires_at l <=? now)) (leases d).
Definition aged_tasks (now : Z) (policy : SchedulerPolicy.t) (d : Db) : list Task.t :=
  aged now policy <$> tasks d.
Definition aged_db (now : Z) (policy : SchedulerPolicy.t) (d : Db) : Db :=
  d .[ leases := live_leases now d ] .[ tasks := aged_tasks now policy d ].

Lemma live_leases_unexpired now d l :
  l ∈ live_leases now d → now < ResourceLease.expires_at l.
Proof.
  intros [Hl _]%list_elem_of_filter. by apply Is_true_true, negb_true_iff, Z.leb_gt in Hl.
Qed.

Lemma aged_tasks_ids now policy d : Task.id <$> aged_tasks now policy d = Task.id <$> tasks d.
Proof.
  unfold aged_tasks. rewrite <- list_fmap_compose. apply list_fmap_ext.
  intros i t _. apply aged_id.
Qed.

Lemma elem_of_candidates now kinds classes policy ts k :
  k ∈ candidates now kinds classes policy ts →
  ∃ t, t ∈ ts ∧ Task.id t = k ∧ claimable now kinds classes t.
Proof.
  intros (t & -> & Ht)%list_elem_of_fmap. exists t.
  apply elem_of_take in Ht as (i & Hi & _). apply list_elem_of_lookup_2 in Hi.
  apply elem_of_order_by, list_elem_of_filter in Hi. tauto.
Qed.

Lemma candidates_NoDup now kinds classes policy ts :
  NoDup (Task.id <$> ts) → NoDup (candidates now kinds classes policy ts).
Proof.
  intros Hnd. unfold candidates. rewrite fmap_take.
  eapply sublist_NoDup; [|apply sublist_take]. unfold order_by.
  rewrite merge_sort_Permutation. by apply (NoDup_keys_filter Task.id).
Qed.

(** A claimed candidate comes after every eligible task that sorts before it. *)
Lemma candidate_position now kinds classes policy ts l1 k l2 t :
  NoDup (Task.id <$> ts) →
  candidates now kinds classes policy ts = l1 ++ k :: l2 → t ∈ ts → Task.id t = k →
  claimable now kinds classes t ∧
  ∀ t', t' ∈ ts → claimable now kinds classes t' →
    ¬ lex_le (claim_order t) (claim_order t') → Task.id t' ∈ l1.
Proof.
  intros Hnd Hc Ht Hk.
  assert (Hcl : claimable now kinds classes t).
  { assert (Hin : k ∈ candidates now kinds classes policy ts) by (rewrite Hc; set_solver).
    apply elem_of_candidates in Hin as (t0 & Ht0 & Hk0 & Hcl).
    assert (t0 = t) as ->; [|done]. eapply (NoDup_key_eq Task.id); [done..|congruence]. }
  split; [done|]. intros t' Ht' Hcl' Hlt.
  unfold candidates in Hc. set (sorted := order_by _ _) in Hc.
  assert (Hnds : NoDup (Task.id <$> sorted)).
  { unfold sorted, order_by. rewrite merge_sort_Permutation. by apply (NoDup_keys_filter Task.id). }
  apply fmap_app_inv in Hc as (r1 & r2 & -> & Hr2 & Htake).
  apply eq_sym, fmap_cons_inv in Hr2 as (t0 & r3 & Hk0 & _ & ->).
  assert (Hsplit : sorted = r1 ++ t0 :: (r3 ++ drop (SchedulerPolicy.scan_limit policy) sorted)).
  { rewrite <- (take_drop (SchedulerPolicy.scan_limit policy) sorted) at 1.
    by rewrite Htake, <- app_assoc. }
  assert (Hall : ∀ x, x ∈ ts → claimable now kinds classes x → x ∈ sorted).
  { intros x Hx Hclx. by apply elem_of_order_by, list_elem_of_filter. }
  assert (t0 = t) as ->.
  { eapply (NoDup_key_eq Task.id sorted); [done|rewrite Hsplit; set_solver|by apply Hall|congruence]. }
  pose proof (order_by_sorted claim_order (filter (claimable now kinds classes) ts)) as Hsort.
  change (StronglySorted (lex_cmp claim_order) sorted) in Hsort.
  pose proof (Hall t' Ht' Hcl') as Hin. rewrite Hsplit in Hin, Hsort.
  apply elem_of_app in Hin as [Hin|Hin]; [by apply list_elem_of_fmap_2|].
  destruct Hlt. apply StronglySorted_app_1_r, StronglySorted_cons in Hsort as [Hsort _].
  apply elem_of_cons in Hin as [->|Hin]; [apply lex_le_refl|].
  by eapply Forall_forall in Hsort.
Qed.

Lemma claim_run worker_id kinds classes lock_seconds now policy d n m o s' :
  NoDup (Task.id <$> tasks d) →
  claim_next_task worker_id kinds classes lock_seconds (Some now) (Some policy)
    (open_session d n m) = (o, s') →
  loop_spec worker_id (now + lock_seconds * second) now policy
    (candidates now kinds classes policy (aged_tasks now policy d))
    (mkSession d (aged_db now policy d) n m [] []) o s'.
Proof.
  intros Hnd. unfold claim_next_task.
  rewrite (bind_ret_run _ _ _ _ _ (eq_refl : or_now (Some now) _ = _)). simpl default.
  set (s0 := mkSession d (d .[ leases := live_leases now d ]) n m [] []).
  assert (Hdel : delete_where (λ l, ResourceLease.expires_at l <=? now) (open_session d n m)
                 = (Return tt, s0)) by done.
  rewrite (bind_ret_run _ _ _ _ _ Hdel).
  rewrite (bind_ret_run _ _ _ _ _ (aging_run now policy s0 Hnd)).
  rewrite bind_run. unfold gets.
  change (on_rows (fmap (aged now policy)) s0) with (mkSession d (aged_db now policy d) n m [] []).
  change (tasks (work (mkSession d (aged_db now policy d) n m [] []))) with (aged_tasks now policy d).
  assert (Hids : NoDup (Task.id <$> aged_tasks now policy d)) by by rewrite aged_tasks_ids.
  apply try_candidates_run; [done|by apply candidates_NoDup| |].
  - apply Forall_forall. intros k (t & Ht & Hk & Hcl)%elem_of_candidates. exists t.
    split; [by apply find_row_elem_of|]. unfold claimable in Hcl.
    repeat apply Is_true_andb in Hcl as [Hcl ?]. done.
  - intros l. apply live_leases_unexpired.
Qed.
End claim_spec.
