(* ===== verification/SchedulerTheorems.v ===== *)
(** * What the scheduler guarantees *)
From Stdlib Require Import Ascii.
From S2P Require Import Prelude PyText Json Models Scheduler SchedulerAdmin SchedulerFacts.
From S2P Require Import SchedulerSpec Demo.
#[global] Open Scope Z_scope.
#[global] Open Scope orch_scope.

Section reachable.
Context `{Runtime}.

(** The transactions that touch pools and leases, each run to its end in a
    session of its own; whatever else the service does leaves both tables
    alone.  A capacity is lowered no further than what is in use. *)
Inductive scheduler_step (d : Db) : Db → Prop :=
  | step_claim worker_id kinds classes lock_seconds now policy n m :
      scheduler_step d (committed (exec (claim_next_task worker_id kinds classes
        lock_seconds now policy) (open_session d n m)))
  | step_release task_id owner retry_after now n m :
      scheduler_step d (committed (exec (release_task_claim task_id owner retry_after now)
        (open_session d n m)))
  | step_renew task_id owner lock_seconds now n m :
      scheduler_step d (committed (exec (renew_task_claim task_id owner lock_seconds now)
        (open_session d n m)))
  | step_capacity key capacity dimension n m :
      leased_units key (leases d) ≤ capacity →
      scheduler_step d (committed (exec (set_resource_pool_capacity key capacity dimension)
        (open_session d n m)))
  | step_other d' :
      pools d' = pools d → leases d' = leases d → scheduler_step d d'.

Lemma open_ok d n m : within_capacity (pools d) (leases d) → resources_ok (open_session d n m).
Proof. by split. Qed.

Lemma committed_ok {A} (act : SM A) s :
  keeps resources_ok act → resources_ok s →
  within_capacity (pools (committed (exec act s))) (leases (committed (exec act s))).
Proof. intros Hk Hs. by apply (keeps_exec _ _ _ Hk Hs). Qed.

Lemma within_capacity_set ps ls k c :
  within_capacity ps ls → leased_units k ls ≤ c →
  within_capacity (update_rows (λ p, bool_decide (ResourcePool.resource_key p = k))
                     (λ p, p .[ ResourcePool.capacity := c ]) ps) ls.
Proof.
  intros [Hnd Hu Hfk Hcap] Hc.
  assert (Hkeys : ResourcePool.resource_key <$>
    update_rows (λ p, bool_decide (ResourcePool.resource_key p = k))
      (λ p, p .[ ResourcePool.capacity := c ]) ps = ResourcePool.resource_key <$> ps)
    by by rewrite (update_rows_keys ResourcePool.resource_key).
  split; [by rewrite Hkeys|done|by rewrite Hkeys|].
  intros p (p0 & Hp0 & ->)%elem_of_update_rows. case_bool_decide as Hk; [|by apply Hcap].
  simpl. rewrite Hk. lia.
Qed.

Lemma capacity_keeps key capacity dimension s :
  leased_units key (leases (work s)) ≤ capacity → resources_ok s →
  resources_ok (exec (set_resource_pool_capacity key capacity dimension) s).
Proof.
  intros Hc [Hw Hcm]. unfold exec, set_resource_pool_capacity.
  rewrite bind_run, fetch_run.
  destruct (find_row key (rows (work s))) as [p|] eqn:Hp.
  - set (clash := match dimension with Some _ => _ | None => _ end).
    destruct clash; [done|]. cbn -[update_rows used_units].
    split; by apply within_capacity_set.
  - set (p := ResourcePool.mk _ _ _).
    assert (Hv : violation p (rows (work s)) = None) by by apply pool_fits.
    rewrite bind_run, (insert_run _ _ Hv). cbn -[update_rows used_units].
    assert (within_capacity (pools (work s) ++ [p]) (leases (work s))).
    { apply within_capacity_app_pool; [|done]. by apply find_row_None in Hp. }
    split; by apply within_capacity_set.
Qed.

Lemma scheduler_step_ok d d' :
  scheduler_step d d' → within_capacity (pools d) (leases d) →
  within_capacity (pools d') (leases d').
Proof.
  intros Hstep Hd. assert (Ho : ∀ n m, resources_ok (open_session d n m)) by by split.
  destruct Hstep as [| | |key capacity dimension n m Hc|? Hps Hls].
  - apply committed_ok; [apply claim_keeps_resources|done].
  - apply committed_ok; [apply release_keeps_resources|done].
  - apply committed_ok; [apply renew_keeps_resources|done].
  - by apply (capacity_keeps key capacity dimension (open_session d n m)).
  - by rewrite Hps, Hls.
Qed.

Definition scheduler_reachable : relation Db := rtc scheduler_step.

Lemma reachable_ok d : scheduler_reachable empty_db d → within_capacity (pools d) (leases d).
Proof.
  assert (Hempty : within_capacity (pools empty_db) (leases empty_db))
    by (split; try set_solver; constructor).
  intros Hreach. induction Hreach as [|x y z Hstep _ IH]; [done|]. apply IH.
  by eapply scheduler_step_ok.
Qed.

End reachable.

Section theorems.
Context `{Runtime}.

Lemma settle_ids worker_id expires_at now skipped claimed (ts : list Task.t) :
  Task.id <$> (settle worker_id expires_at now skipped claimed <$> ts) = Task.id <$> ts.
Proof.
  rewrite <- list_fmap_compose. apply list_fmap_ext. intros i t _. apply settle_id.
Qed.

(** The row of a task after the loop. *)
Lemma find_row_settle worker_id expires_at now skipped claimed (ts : list Task.t) k t :
  NoDup (Task.id <$> ts) → find_row k ts = Some t →
  find_row k (settle worker_id expires_at now skipped claimed <$> ts) =
  Some (settle worker_id expires_at now skipped claimed t).
Proof.
  intros Hnd [Ht Hk]%find_row_Some. apply find_row_elem_of.
  - change (NoDup (Task.id <$> (settle worker_id expires_at now skipped claimed <$> ts))).
    by rewrite settle_ids.
  - by apply list_elem_of_fmap_2.
  - change (Task.id (settle worker_id expires_at now skipped claimed t) = k).
    by rewrite settle_id.
Qed.

Lemma settle_claimed worker_id expires_at now skipped k t :
  k ∉ skipped → Task.id t = k →
  settle worker_id expires_at now skipped (Some k) t = mark_claimed worker_id expires_at now t.
Proof.
  intros Hk <-. unfold settle. by rewrite bool_decide_false, bool_decide_true.
Qed.

Lemma settle_skipped worker_id expires_at now skipped claimed t :
  Task.id t ∈ skipped → settle worker_id expires_at now skipped claimed t = unlock now t.
Proof. intros. unfold settle. by rewrite bool_decide_true. Qed.

Lemma mark_claimed_lock worker_id expires_at now t :
  Task.locked_until (mark_claimed worker_id expires_at now t) = Some expires_at.
Proof. by unfold mark_claimed. Qed.

(** The rows a successful claim starts from and ends with. *)
Lemma claimed_row worker_id kinds classes lock_seconds now policy d n m id s' :
  NoDup (Task.id <$> tasks d) →
  claim_next_task worker_id kinds classes lock_seconds (Some now) (Some policy)
    (open_session d n m) = (Return (Some id), s') →
  ∃ t, find_row id (aged_tasks now policy d) = Some t ∧ claimable now kinds classes t ∧
    find_row id (tasks (committed s')) =
      Some (mark_claimed worker_id (now + lock_seconds * second) now t).
Proof.
  intros Hnd Hrun. apply claim_run in Hrun; [|done].
  assert (Hnd' : NoDup (Task.id <$> aged_tasks now policy d)) by by rewrite aged_tasks_ids.
  destruct Hrun as (l1 & l2 & t & reqs & ps & new & Hids & Ht & Hr & Hall & Hw & Hc & Hsk).
  pose proof (candidates_NoDup now kinds classes policy _ Hnd') as Hndc. rewrite Hids in Hndc.
  assert (Hid : id ∉ l1) by (apply NoDup_app in Hndc; set_solver).
  cbn [work] in Ht. apply find_row_Some in Ht as Ht'. destruct Ht' as [Hin Hk].
  exists t. split; [done|]. split; [by eapply candidate_position|].
  rewrite Hc, Hw. cbn [work tasks loop_result aged_db update_field].
  rewrite <- (settle_claimed _ _ _ l1 id) by done. by apply find_row_settle.
Qed.

(** Aging leaves the lock alone. *)
Lemma aged_locked_until now policy t :
  Task.locked_until (aged now policy t) = Task.locked_until t.
Proof. unfold aged. by destruct (_ && _). Qed.

Lemma find_row_aged now policy (ts : list Task.t) k :
  find_row k (aged now policy <$> ts) = aged now policy <$> find_row k ts.
Proof.
  unfold find_row. induction ts as [|t ts IH]; [done|]. rewrite fmap_cons, !filter_cons.
  change (row_key (aged now policy t)) with (Task.id (aged now policy t)).
  rewrite aged_id. change (Task.id t) with (row_key t). by case_decide.
Qed.

(** Two tasks never hold the same exclusive resource: under a pool of
    capacity one, there is at most one lease. *)
Theorem exclusive_resource d p :
  scheduler_reachable empty_db d → p ∈ pools d → ResourcePool.capacity p ≤ 1 →
  (length (filter (λ l, ResourceLease.resource_key l = ResourcePool.resource_key p)
            (leases d)) ≤ 1)%nat.
Proof.
  intros Hreach Hp Hc. pose proof (reachable_ok d Hreach) as [_ Hu _ Hcap].
  specialize (Hcap p Hp). unfold leased_units in Hcap.
  assert (Hpos : ∀ l, l ∈ filter (λ l, ResourceLease.resource_key l
    = ResourcePool.resource_key p) (leases d) → 0 < ResourceLease.units l).
  { intros l [_ Hl]%list_elem_of_filter. auto. }
  destruct (filter _ (leases d)) as [|l1 [|l2 ls]]; simpl in *; [lia..|].
  assert (0 < ResourceLease.units l1) by (apply Hpos; set_solver).
  assert (0 < ResourceLease.units l2) by (apply Hpos; set_solver).
  assert (0 ≤ sum_by ResourceLease.units ls).
  { apply sum_by_nonneg. intros l Hl. apply Z.lt_le_incl, Hpos. set_solver. }
  lia.
Qed.

(** [t'] goes strictly before [t] in the scheduling order. *)
Definition goes_before (t' t : Task.t) : Prop :=
  Task.effective_priority t < Task.effective_priority t' ∨
  (Task.effective_priority t = Task.effective_priority t' ∧
   (Task.status t' = "queued" ∧ Task.status t ≠ "queued" ∨
    (Task.status t' = "queued" ↔ Task.status t = "queued") ∧
    (Task.available_at t' < Task.available_at t ∨
     (Task.available_at t' = Task.available_at t ∧ Task.created_at t' < Task.created_at t)))).

Lemma goes_before_order t' t : goes_before t' t → ¬ lex_le (claim_order t) (claim_order t').
Proof.
  unfold goes_before, claim_order, lex_le. rewrite !Is_true_true.
  repeat case_bool_decide; repeat rewrite ?orb_true_iff, ?andb_true_iff, ?Z.ltb_lt, ?Z.eqb_eq;
    naive_solver lia.
Qed.

(** C2: a claim returns an eligible task, and every eligible task that goes
    strictly before it in the scheduling order (higher aged priority, queued
    before running, older) lacks room in one of its pools: order is respected,
    and a blocked task holds nobody up. *)
Theorem claim_takes_best worker_id kinds classes lock_seconds now policy d n m id s' :
  NoDup (Task.id <$> tasks d) →
  claim_next_task worker_id kinds classes lock_seconds (Some now) (Some policy)
    (open_session d n m) = (Return (Some id), s') →
  ∃ t, t ∈ aged_tasks now policy d ∧ Task.id t = id ∧ claimable now kinds classes t ∧
    ∀ t', t' ∈ aged_tasks now policy d → claimable now kinds classes t' →
      goes_before t' t →
      cannot_run policy (pools (committed s')) (live_leases now d) t'.
Proof.
  intros Hnd Hrun. apply claim_run in Hrun; [|done].
  destruct Hrun as (l1 & l2 & t & reqs & ps & new & Hids & Ht & _ & _ & Hw & Hc & Hsk).
  rewrite Hc. cbn [work] in Ht, Hw, Hsk.
  assert (Hnd' : NoDup (Task.id <$> aged_tasks now policy d)) by by rewrite aged_tasks_ids.
  apply find_row_Some in Ht as [Ht Hid]. exists t. split; [done|]. split; [done|].
  destruct (candidate_position now kinds classes policy _ l1 id l2 t Hnd' Hids Ht Hid)
    as [Hcl Hbefore].
  split; [done|]. intros t' Ht' Hcl' Hlt%goes_before_order.
  specialize (Hbefore t' Ht' Hcl' Hlt).
  rewrite Forall_forall in Hsk. destruct (Hsk _ Hbefore) as (t'' & Hf & Hno).
  assert (Some t'' = Some t') as [= ->]; [|done].
  rewrite <- Hf. by apply find_row_elem_of.
Qed.

(** C3: a claim is all or nothing.  A successful one commits exactly: the
    live leases plus one lease per requirement of the task, held by the worker
    until the lock expires; the task marked as claimed; every task tried before
    it unlocked; and no pool removed or resized. *)
Theorem claim_grants_atomically worker_id kinds classes lock_seconds now policy d n m id s' :
  NoDup (Task.id <$> tasks d) →
  claim_next_task worker_id kinds classes lock_seconds (Some now) (Some policy)
    (open_session d n m) = (Return (Some id), s') →
  let expires_at := now + lock_seconds * second in
  ∃ t reqs granted skipped new_pools,
    find_row id (aged_tasks now policy d) = Some t ∧ (id ∉ skipped) ∧
    requirements policy t = Return reqs ∧
    Forall2 (lease_for id worker_id (or_else (Task.stage t) "start") expires_at) reqs granted ∧
    leases (committed s') = live_leases now d ++ granted ∧
    pools (committed s') = pools d ++ new_pools ∧
    tasks (committed s') =
      (settle worker_id expires_at now skipped (Some id) <$> aged_tasks now policy d) ∧
    find_row id (tasks (committed s')) = Some (mark_claimed worker_id expires_at now t).
Proof.
  intros Hnd Hrun. apply claim_run in Hrun; [|done].
  assert (Hnd' : NoDup (Task.id <$> aged_tasks now policy d)) by by rewrite aged_tasks_ids.
  destruct Hrun as (l1 & l2 & t & reqs & ps & new & Hids & Ht & Hr & Hall & Hw & Hc & Hsk).
  pose proof (candidates_NoDup now kinds classes policy _ Hnd') as Hndc. rewrite Hids in Hndc.
  assert (Hid : id ∉ l1) by (apply NoDup_app in Hndc; set_solver).
  rewrite Hc, Hw. cbn [work] in Ht. exists t, reqs, new, l1, ps. do 7 (split; [done|]).
  apply find_row_Some in Ht as Hk. destruct Hk as [_ Hk].
  rewrite <- (settle_claimed _ _ _ l1 id) by done. by apply find_row_settle.
Qed.

(** A claim that returns nothing found no runnable task: when the scan
    limit covers the eligible tasks, each of them lacks room in some pool, no
    lease was granted, and no task was marked. *)
Theorem claim_idle_means_blocked worker_id kinds classes lock_seconds now policy d n m s' :
  NoDup (Task.id <$> tasks d) →
  (length (filter (claimable now kinds classes) (aged_tasks now policy d))
     ≤ SchedulerPolicy.scan_limit policy)%nat →
  claim_next_task worker_id kinds classes lock_seconds (Some now) (Some policy)
    (open_session d n m) = (Return None, s') →
  leases (committed s') = live_leases now d ∧
  ∀ t, t ∈ aged_tasks now policy d → claimable now kinds classes t →
    cannot_run policy (pools (committed s')) (live_leases now d) t ∧
    find_row (Task.id t) (tasks (committed s')) = Some (unlock now t).
Proof.
  intros Hnd Hlen Hrun. apply claim_run in Hrun; [|done].
  assert (Hnd' : NoDup (Task.id <$> aged_tasks now policy d)) by by rewrite aged_tasks_ids.
  destruct Hrun as (ps & Hw & Hc & Hsk). rewrite Hc, Hw.
  split; [apply app_nil_r|]. intros t Ht Hcl.
  assert (Hin : Task.id t ∈ candidates now kinds classes policy (aged_tasks now policy d)).
  { unfold candidates. apply list_elem_of_fmap_2. rewrite take_ge.
    - by apply elem_of_order_by, list_elem_of_filter.
    - by rewrite (Permutation_length (order_by_perm _ _)). }
  split.
  - rewrite Forall_forall in Hsk. destruct (Hsk _ Hin) as (t' & Hf & Hno).
    assert (Some t' = Some t) as [= ->] by (rewrite <- Hf; by apply find_row_elem_of).
    by rewrite <- Hw.
  - rewrite <- (settle_skipped worker_id (now + lock_seconds * second) now _ None t Hin).
    apply find_row_settle; [done|]. by apply find_row_elem_of.
Qed.

(** Mutual exclusion of the task lock: once a worker has claimed a task,
    no claim by anybody returns it again until the lock has run out, as long as
    nobody writes the lock in between. *)
Theorem lock_excludes_claims worker1 worker2 kinds1 kinds2 classes1 classes2
    lock_seconds1 lock_seconds2 now1 now2 policy1 policy2 d1 d2 n1 n2 m1 m2 id s1 s2 :
  NoDup (Task.id <$> tasks d1) → NoDup (Task.id <$> tasks d2) →
  claim_next_task worker1 kinds1 classes1 lock_seconds1 (Some now1) (Some policy1)
    (open_session d1 n1 m1) = (Return (Some id), s1) →
  Task.locked_until <$> find_row id (tasks d2) =
    Task.locked_until <$> find_row id (tasks (committed s1)) →
  claim_next_task worker2 kinds2 classes2 lock_seconds2 (Some now2) (Some policy2)
    (open_session d2 n2 m2) = (Return (Some id), s2) →
  now1 + lock_seconds1 * second < now2.
Proof.
  intros Hnd1 Hnd2 (t1 & _ & _ & Hrow1)%claimed_row Hlock (t2 & Ht2 & Hcl2 & _)%claimed_row;
    [|done..].
  rewrite Hrow1 in Hlock. unfold aged_tasks in Ht2. rewrite find_row_aged in Ht2.
  destruct (find_row id (tasks d2)) as [t|]; [|done].
  injection Ht2 as <-.
  assert (Hl : Task.locked_until t = Some (now1 + lock_seconds1 * second))
    by (injection Hlock as Hl; exact Hl).
  unfold claimable in Hcl2. repeat apply Is_true_andb in Hcl2 as [Hcl2 ?].
  rewrite aged_locked_until, Hl in *. simpl in *. by apply Z.ltb_lt, Is_true_true.
Qed.

(** A claim that raises, because of a malformed resource request or a
    constraint of the database, commits nothing. *)
Theorem claim_failure_commits_nothing worker_id kinds classes lock_seconds now policy d n m e s' :
  NoDup (Task.id <$> tasks d) →
  claim_next_task worker_id kinds classes lock_seconds (Some now) (Some policy)
    (open_session d n m) = (Raise e, s') →
  committed s' = d.
Proof. intros Hnd Hrun. by apply claim_run in Hrun. Qed.

(** C4: priority aging is bounded, never lowers a priority, and starves nobody:
    after [100 - priority] aging intervals a queued task has the top priority. *)
Theorem aging_prevents_starvation now policy s t :
  NoDup (Task.id <$> tasks (work s)) →
  t ∈ tasks (work s) → Task.status t = "queued" → Task.priority t ≤ 100 →
  0 < SchedulerPolicy.aging_interval_seconds policy →
  ∃ t', find_row (Task.id t) (tasks (work (exec (_apply_priority_aging now policy) s))) = Some t' ∧
    Task.priority t ≤ Task.effective_priority t' ≤ 100 ∧
    ((100 - Task.priority t) * SchedulerPolicy.aging_interval_seconds policy * second
       ≤ now - Task.created_at t → Task.effective_priority t' = 100).
Proof.
  intros Hnd Ht Hq Hp Hi. unfold exec. rewrite aging_run by done.
  exists (aged now policy t). split.
  { change (find_row (Task.id t) (aged now policy <$> tasks (work s)) = Some (aged now policy t)).
    rewrite find_row_aged. by rewrite (find_row_elem_of _ _ t). }
  unfold aged. rewrite (proj2 (Z.ltb_lt _ _) Hi), bool_decide_true by done. simpl.
  unfold effective. set (i := SchedulerPolicy.aging_interval_seconds policy) in *.
  set (w := Z.max 0 _). assert (0 ≤ w / i) by (apply Z.div_pos; lia).
  split; [lia|]. intros Hage. assert (100 - Task.priority t ≤ w / i); [|lia].
  apply Z.div_le_lower_bound; [lia|]. subst w.
  assert ((100 - Task.priority t) * i ≤ Z.quot (now - Task.created_at t) second); [|lia].
  unfold second in *. apply Z.quot_le_lower_bound; lia.
Qed.

(** The resources of a task are requested in increasing key order, each
    once, in positive amounts, and its concurrency key takes one unit of its
    own pool, whatever the resource context says. *)
Theorem requirements_lock_order policy task reqs :
  requirements policy task = Return reqs →
  StronglySorted (str_cmp ResourceRequirement.key) reqs ∧
  NoDup (ResourceRequirement.key <$> reqs) ∧
  (∀ r, r ∈ reqs → 0 < ResourceRequirement.units r) ∧
  (∀ k, Task.concurrency_key task = Some k → k ≠ "" →
    ResourceRequirement.mk ("concurrency:" +:+ k) "concurrency" 1
      (capacity_of policy "concurrency") ∈ reqs).
Proof.
  intros Hreqs. destruct (requirements_shape _ _ _ Hreqs) as (? & ? & ?).
  do 3 (split; [done|]). intros k Hk Hne. revert Hreqs. unfold requirements.
  destruct (outcome_concat _ _) as [context|e]; simpl; [|done]. intros [= <-].
  apply elem_of_sort_by. rewrite Hk.
  assert (truthy (Some k)) as Ht by (apply truthy_spec; by exists k).
  destruct (truthy (Some k)); [|done].
  assert (or_else (Some k) "" = k) as -> by by destruct k.
  set (r := ResourceRequirement.mk _ _ _ _).
  apply list_elem_of_fmap. exists (ResourceRequirement.key r, r). split; [done|].
  apply elem_of_map_to_list. unfold dedupe_requirements. rewrite foldl_app. simpl.
  apply lookup_insert_eq.
Qed.

(** What releasing writes on a task. *)
Definition released (retry_after : option Z) (now : Z) (t : Task.t) : Task.t :=
  t .[ Task.lock_owner := None ] .[ Task.locked_until := None ]
    .[ Task.available_at :=
         match retry_after with
         | Some delay =>
             if bool_decide (Task.status t ∈ ["queued"; "running"]) then now + delay
             else Task.available_at t
         | None => Task.available_at t
         end ]
    .[ Task.updated_at := now ].

(** A worker's release frees all its leases on the task and nobody else's,
    and unlocks the task, with the retry delay, only when the worker still owns
    the lock. *)
Theorem release_by_owner task_id o retry_after now d n m t :
  find_row task_id (tasks d) = Some t →
  let d' := committed (exec (release_task_claim task_id (Some o) retry_after (Some now))
              (open_session d n m)) in
  leases d' = filter (λ l, ¬ (ResourceLease.task_id l = task_id ∧ ResourceLease.owner l = o))
                (leases d) ∧
  find_row task_id (tasks d') =
    Some (if bool_decide (Task.lock_owner t = Some o) then released retry_after now t else t) ∧
  ∀ k, k ≠ task_id → find_row k (tasks d') = find_row k (tasks d).
Proof.
  intros Ht. unfold release_task_claim, exec.
  rewrite (bind_ret_run _ _ _ _ _ (eq_refl : or_now (Some now) _ = _)).
  set (s1 := mkSession d (d .[ leases := filter (λ l, negb
    (bool_decide (ResourceLease.task_id l = task_id) && bool_decide (ResourceLease.owner l = o)))
    (leases d) ]) n m [] []).
  assert (Hdel : delete_where (λ l, bool_decide (ResourceLease.task_id l = task_id)
    && bool_decide (ResourceLease.owner l = o)) (open_session d n m) = (Return tt, s1)) by done.
  rewrite (bind_ret_run _ _ _ _ _ Hdel).
  rewrite bind_run, fetch_run. change (rows (work s1)) with (tasks d). rewrite Ht.
  set (f := λ t : Task.t, _).
  assert (Hf : ∀ t, f t = released retry_after now t).
  { intros t0. unfold f, released. simpl. destruct retry_after; [|by destruct t0].
    by destruct (bool_decide _). }
  assert (Hl : leases (work s1) = filter (λ l, ¬ (ResourceLease.task_id l = task_id
      ∧ ResourceLease.owner l = o)) (leases d)).
  { apply list_filter_iff. intros l.
    by do 2 case_bool_decide; naive_solver. }
  case_bool_decide as Hown; (split; [exact Hl|]).
  - split.
    + change (find_row task_id (update_rows (λ t, bool_decide (row_key t = task_id)) f
        (tasks d)) = Some (released retry_after now t)).
      pose proof (find_update (R := Task.t) task_id task_id f (tasks d)) as E.
      rewrite decide_True in E by done. rewrite E by (intros; by rewrite Hf).
      rewrite Ht. simpl. by rewrite Hf.
    + intros k Hk.
      pose proof (find_update (R := Task.t) k task_id f (tasks d)) as E.
      rewrite decide_False in E by done. apply E. intros; by rewrite Hf.
  - by split.
Qed.

(** Renewal succeeds exactly for the worker recorded as owner; it then
    moves the lock and all the worker's leases on the task to one common end,
    and nothing else; otherwise it changes nothing.  Whether the lock or the
    leases had already run out is not asked. *)
Theorem renew_by_owner task_id o lock_seconds now d n m :
  NoDup (ResourceLease.id <$> leases d) →
  let expires_at := now + lock_seconds * second in
  let s' := exec (renew_task_claim task_id o lock_seconds (Some now)) (open_session d n m) in
  let owns := bool_decide (find_row task_id (tasks d) ≫= Task.lock_owner = Some o) in
  result (renew_task_claim task_id o lock_seconds (Some now)) (open_session d n m)
    = Return owns ∧
  committed s' = if owns then
    d .[ tasks := update_rows (λ t, bool_decide (Task.id t = task_id))
                    (λ t, t .[ Task.locked_until := Some expires_at ]
                            .[ Task.updated_at := now ]) (tasks d) ]
      .[ leases := update_rows (λ l, bool_decide (ResourceLease.task_id l = task_id)
                                     && bool_decide (ResourceLease.owner l = o))
                     (λ l, l .[ ResourceLease.expires_at := expires_at ]) (leases d) ]
    else d.
Proof.
  intros Hnd expires_at. unfold result, exec, renew_task_claim.
  rewrite (bind_ret_run _ _ _ _ _ (eq_refl : or_now (Some now) _ = _)).
  rewrite bind_run, fetch_run. change (rows (work (open_session d n m))) with (tasks d).
  destruct (find_row task_id (tasks d)) as [t|]; [|done]. simpl.
  destruct (decide (Task.lock_owner t = Some o)) as [Ho|Ho];
    [rewrite bool_decide_true by done|by rewrite bool_decide_false].
  cbn [negb]. set (f := λ t, t .[ Task.locked_until := Some expires_at ] .[ Task.updated_at := now ]).
  set (s1 := on_rows (update_rows (λ t, bool_decide (Task.id t = task_id)) f)
               (open_session d n m)).
  rewrite (bind_ret_run _ _ _ _ _ (modify_run (R := Task.t) task_id f _ : _ = (_, s1))).
  unfold select. rewrite bind_run. cbn [gets].
  set (P := λ l, bool_decide (ResourceLease.task_id l = task_id)
                 && bool_decide (ResourceLease.owner l = o)).
  set (g := λ l, l .[ ResourceLease.expires_at := expires_at ]).
  pose proof (for_each_select_modify (R := ResourceLease.t) P g s1 Hnd (λ _, eq_refl)) as Hloop.
  by rewrite (bind_ret_run _ _ _ _ _ Hloop).
Qed.
End theorems.

(** The configuration string of a list of capacities. *)
Definition render_capacity (c : string * Z) : string := c.1 +:+ "=" +:+ str_int c.2.
Definition plain_dimension (s : string) : bool :=
  str_all (λ c, negb (is_space c) && negb (char_eqb c ",") && negb (char_eqb c "=")) s
  && negb (bool_decide (s = "")).

Lemma str_int_digits n : 0 ≤ n → str_all is_digit (str_int n).
Proof.
  intros Hn. assert (str_int n = pretty (Z.to_N n)) as -> by (by destruct n).
  apply pretty_N_digits.
Qed.

Lemma dimension_chars k :
  plain_dimension k →
  str_all (λ c, negb (is_space c)) k ∧ free_of "," k ∧ free_of "=" k ∧ k ≠ "".
Proof.
  unfold plain_dimension. intros Hk. apply Is_true_andb in Hk as [Hall Hne].
  split; [|split; [|split]].
  1-3: unfold free_of; eapply str_all_weaken, Hall; intros c;
       rewrite !Is_true_andb; tauto.
  intros ->. by rewrite bool_decide_true in Hne.
Qed.

Section render.
Context (k : string) (v : Z).
Hypotheses (Hk : plain_dimension k) (Hv : 0 < v).

Let item : string := render_capacity (k, v).

Lemma value_digits : str_all is_digit (str_int v).
Proof. apply str_int_digits. lia. Qed.

Lemma digit_is_plain c : is_digit c → negb (is_space c) ∧ negb (char_eqb c ",").
Proof.
  intros Hc. split.
  - unfold is_digit, is_space, in_range in *. apply Is_true_true in Hc.
    apply andb_prop in Hc as [H1%Z.leb_le H2%Z.leb_le].
    apply Is_true_true, negb_true_iff. repeat rewrite orb_false_iff.
    repeat split; (apply andb_false_iff || apply Z.eqb_neq);
      rewrite ?Z.leb_gt; lia.
  - rewrite char_eqb_neq; [done|]. by intros ->.
Qed.

Lemma item_free : free_of "," item.
Proof.
  destruct (dimension_chars k Hk) as (_ & Hc & _). subst item. unfold render_capacity, free_of. simpl.
  rewrite !str_all_app, !Is_true_andb. split; [done|]. split; [done|].
  eapply str_all_weaken, value_digits. intros c Hc'. by apply digit_is_plain.
Qed.

Lemma item_strip : py_strip item = item.
Proof.
  destruct (dimension_chars k Hk) as (Hs & _). apply (strip_by_all _ (λ c, negb (is_space c))); [done|].
  subst item. unfold render_capacity. simpl. rewrite !str_all_app, !Is_true_andb.
  split; [done|]. split; [done|].
  eapply str_all_weaken, value_digits. intros c Hc'. by apply digit_is_plain.
Qed.

Lemma item_partition : py_partition "=" item = (k, true, str_int v).
Proof. destruct (dimension_chars k Hk) as (_ & _ & He & _). by apply (py_partition_app "="). Qed.

Lemma parse_item items m :
  parse_capacity_items (item :: items) m = parse_capacity_items items (<[k := v]> m).
Proof.
  destruct (dimension_chars k Hk) as (_ & _ & _ & Hne). simpl.
  rewrite item_strip, item_partition. unfold non_empty. rewrite bool_decide_true by done.
  simpl. rewrite py_int_str_int by lia. cbn [mbind outcome_bind].
  by rewrite (proj2 (Z.leb_gt _ _)) by done.
Qed.
End render.

(** C5: the capacities an operator writes in the configuration are read back
    exactly, on top of the defaults. *)
Theorem parse_resource_capacities_roundtrip (l : list (string * Z)) :
  l ≠ [] → Forall (λ c, Is_true (plain_dimension c.1) ∧ 0 < c.2) l →
  parse_resource_capacities (Some (py_join "," (map render_capacity l))) =
  Return (foldl (λ m c, <[c.1 := c.2]> m) DEFAULT_RESOURCE_CAPACITIES l).
Proof.
  intros Hne Hall. unfold parse_resource_capacities.
  assert (Hor : ∀ s, s ≠ "" → truthy (Some s) = true ∧ or_else (Some s) "" = s)
    by (by intros []).
  destruct (Hor (py_join "," (map render_capacity l))) as [-> ->].
  { destruct Hall as [|[k v] l' [Hk Hv] _]; [done|].
    destruct (dimension_chars k Hk) as (_ & _ & _ & Hk').
    destruct k as [|c k]; [done|]. simpl map. by destruct (map render_capacity l'). }
  rewrite (py_split_join ","); [|by destruct l|].
  2:{ apply Forall_fmap. eapply Forall_impl; [done|]. intros [k v] [Hk Hv]. by apply item_free. }
  generalize DEFAULT_RESOURCE_CAPACITIES. clear Hne Hor.
  induction Hall as [|[k v] l [Hk Hv] Hall IH]; intros m; [done|].
  simpl map. rewrite parse_item by done. apply IH.
Qed.

(** ** Concrete instances *)

Section witnesses.
#[local] Existing Instance demo_runtime.

Definition demo_claim (w : string) (now : Z) : SM (option string) :=
  claim_next_task w [] [] 300 (Some now) (Some demo_policy).

Definition demo_claimed_db : Db := after (demo_claim "w1" second) demo_db.

Lemma demo_claimed_db_reachable : scheduler_reachable empty_db demo_claimed_db.
Proof.
  eapply rtc_l; [by apply (step_other _ demo_db)|].
  eapply rtc_l; [apply step_claim|]. apply rtc_refl.
Qed.

Definition demo_pr1_pool := ResourcePool.mk "concurrency:pr-1" "concurrency" 1.


Lemma exclusive_resource_witness :
  (length (filter (λ l, ResourceLease.resource_key l = "concurrency:pr-1")
            (leases demo_claimed_db)) ≤ 1)%nat.
Proof.
  apply (exclusive_resource demo_claimed_db demo_pr1_pool).
  - apply demo_claimed_db_reachable.
  - vm_compute. left.
  - done.
Defined.

Definition demo_second_claim := exec (demo_claim "w2" second) (demo_session demo_claimed_db).

Lemma demo_claim_result w now d o :
  result (demo_claim w now) (demo_session d) = o →
  claim_next_task w [] [] 300 (Some now) (Some demo_policy) (demo_session d) =
    (o, exec (demo_claim w now) (demo_session d)).
Proof. apply run_result. Qed.

Lemma claim_takes_best_witness :
  cannot_run demo_policy (pools (committed demo_second_claim)) (live_leases second demo_claimed_db) demo_mid.
Proof.
  destruct (claim_takes_best "w2" [] [] 300 second demo_policy demo_claimed_db 0 (drawn demo_claimed_db) "low" demo_second_claim)
    as (t & Ht & Hid & _ & Hbest).
  - decide_by_computation.
  - apply demo_claim_result. vm_compute. reflexivity.
  - apply Hbest.
    + vm_compute. right. left.
    + decide_by_computation.
    + assert (t = aged second demo_policy demo_low) as ->; [|decide_by_computation].
      eapply (NoDup_key_eq Task.id (aged_tasks second demo_policy demo_claimed_db));
        [decide_by_computation|exact Ht| |exact Hid].
      vm_compute. left.
Defined.

Lemma claim_grants_atomically_witness :
  ∃ reqs granted,
    requirements demo_policy demo_high = Return reqs ∧
    Forall2 (lease_for "high" "w1" "start" (301 * second)) reqs granted ∧
    leases demo_claimed_db = granted.
Proof.
  destruct (claim_grants_atomically "w1" [] [] 300 second demo_policy demo_db 0 (drawn demo_db) "high"
    (exec (demo_claim "w1" second) (demo_session demo_db)))
    as (t & reqs & granted & skipped & ps & Ht & _ & Hr & Hg & Hl & _).
  - decide_by_computation.
  - apply demo_claim_result. vm_compute. reflexivity.
  - vm_compute in Ht. injection Ht as <-. exists reqs, granted.
    split; [exact Hr|]. split; [exact Hg|exact Hl].
Defined.

(** With both pull requests taken nothing is left for a third worker. *)
Definition demo_busy_db : Db := after (demo_claim "w2" second) demo_claimed_db.

Lemma claim_idle_means_blocked_witness :
  find_row "mid" (tasks (after (demo_claim "w3" second) demo_busy_db)) = Some (unlock second demo_mid).
Proof.
  destruct (claim_idle_means_blocked "w3" [] [] 300 second demo_policy demo_busy_db 0 (drawn demo_busy_db)
    (exec (demo_claim "w3" second) (demo_session demo_busy_db))) as [_ Hall].
  - decide_by_computation.
  - vm_compute. lia.
  - apply demo_claim_result. vm_compute. reflexivity.
  - edestruct (Hall (aged second demo_policy (unlock second demo_mid))) as [_ ?].
    + vm_compute. right. left.
    + decide_by_computation.
    + assumption.
Defined.

Definition demo_later_db : Db := after (demo_claim "w2" (302 * second)) demo_claimed_db.

Lemma lock_excludes_claims_witness : second + 300 * second < 302 * second.
Proof.
  apply (lock_excludes_claims "w1" "w2" [] [] [] [] 300 300 second (302 * second) demo_policy demo_policy
    demo_db demo_claimed_db 0 0 (drawn demo_db) (drawn demo_claimed_db) "high" (exec (demo_claim "w1" second) (demo_session demo_db))
    (exec (demo_claim "w2" (302 * second)) (demo_session demo_claimed_db))).
  - decide_by_computation.
  - decide_by_computation.
  - apply demo_claim_result. vm_compute. reflexivity.
  - done.
  - apply demo_claim_result. vm_compute. reflexivity.
Defined.

(** A resource request of zero units. *)
Definition demo_bad_task := demo_task "bad" 90 None [("user", JObj [("units", JInt 0)])].

Lemma claim_failure_commits_nothing_witness :
  after (demo_claim "w1" second) (with_tasks [demo_bad_task]) = with_tasks [demo_bad_task].
Proof.
  apply (claim_failure_commits_nothing "w1" [] [] 300 second demo_policy (with_tasks [demo_bad_task]) 0
    (drawn (with_tasks [demo_bad_task]))
    (ValueError "Resource request units must be positive.")
    (exec (demo_claim "w1" second) (demo_session (with_tasks [demo_bad_task])))).
  - decide_by_computation.
  - apply demo_claim_result. vm_compute. reflexivity.
Defined.

Lemma aging_prevents_starvation_witness :
  ∃ t', find_row "low" (tasks (work (exec (_apply_priority_aging (27000 * second) demo_policy)
          (demo_session demo_db)))) = Some t' ∧ Task.effective_priority t' = 100.
Proof.
  destruct (aging_prevents_starvation (27000 * second) demo_policy (demo_session demo_db)
    demo_low) as (t' & Ht' & _ & Htop).
  - decide_by_computation.
  - left.
  - done.
  - done.
  - done.
  - exists t'. split; [done|]. by apply Htop.
Defined.

Definition demo_low_requirements : list requirement :=
  [ResourceRequirement.mk "concurrency:pr-2" "concurrency" 1 1;
   ResourceRequirement.mk "user:eve" "user" 1 4].

Lemma requirements_lock_order_witness :
  requirements demo_policy demo_low = Return demo_low_requirements ∧
  NoDup (ResourceRequirement.key <$> demo_low_requirements).
Proof.
  assert (Hr : requirements demo_policy demo_low = Return demo_low_requirements)
    by (vm_compute; reflexivity).
  split; [exact Hr|]. exact (proj1 (proj2 (requirements_lock_order demo_policy demo_low _ Hr))).
Defined.

Definition demo_claimed : Task.t :=
  mark_claimed "w1" (301 * second) second (aged second demo_policy demo_high).

Lemma release_by_owner_witness :
  leases (after (release_task_claim "high" (Some "w1") None (Some (2 * second))) demo_claimed_db) = [].
Proof.
  assert (Hf : find_row "high" (tasks demo_claimed_db) = Some demo_claimed)
    by (vm_compute; reflexivity).
  destruct (release_by_owner "high" "w1" None (2 * second) demo_claimed_db 0 (drawn demo_claimed_db) _ Hf) as [Hl _].
  unfold after, demo_session. rewrite Hl. vm_compute. reflexivity.
Defined.

Lemma renew_by_owner_witness :
  result (renew_task_claim "high" "w1" 300 (Some (2 * second))) (demo_session demo_claimed_db)
  = Return true.
Proof.
  assert (Hnd : NoDup (ResourceLease.id <$> leases demo_claimed_db)) by decide_by_computation.
  destruct (renew_by_owner "high" "w1" 300 (2 * second) demo_claimed_db 0 (drawn demo_claimed_db) Hnd) as [Hr _].
  unfold demo_session. rewrite Hr. vm_compute. reflexivity.
Defined.

(** The lock outlives the lease: worker w1 lets its lock on "high" run out, w2
    claims an urgent task of the same concurrency key, and w1's renewal still
    succeeds, so both hold a task of a key whose capacity is one. *)
Definition demo_urgent := demo_task "urgent" 95 (Some "pr-1") [].
Definition demo_contended_db : Db :=
  after (demo_claim "w2" (302 * second)) (demo_claimed_db .[ tasks := demo_urgent :: tasks demo_claimed_db ]).

Example renewal_survives_lost_lease :
  let d := after (renew_task_claim "high" "w1" 300 (Some (303 * second))) demo_contended_db in
  (λ t, (Task.id t, Task.lock_owner t, Task.locked_until t)) <$>
    filter (λ t, Task.concurrency_key t = Some "pr-1" ∧ is_Some (Task.lock_owner t)) (tasks d) =
    [("urgent", Some "w2", Some (602 * second)); ("high", Some "w1", Some (603 * second))] ∧
  (λ l, (ResourceLease.task_id l, ResourceLease.resource_key l)) <$> leases d =
    [("urgent", "concurrency:pr-1")].
Proof. by vm_compute. Qed.

Lemma parse_resource_capacities_roundtrip_witness :
  parse_resource_capacities (Some "user=2,gpu=1") =
  Return (<["gpu" := 1]> (<["user" := 2]> DEFAULT_RESOURCE_CAPACITIES)).
Proof.
  apply (parse_resource_capacities_roundtrip [("user", 2); ("gpu", 1)]).
  - done.
  - repeat constructor.
Defined.
End witnesses.
