(* ===== verification/Delivery.v ===== *)
(** * The delivery outbox

    Model of [src/src/review_orchestrator/application/delivery.py]: provider
    messages are rows of an outbox, claimed one at a time under a lease, executed
    through the adapters of [integrations/providers.py], and retried with
    exponential backoff.

    A delivery that a worker holds is the row it read when claiming, because the
    session does not refresh it while the adapter runs; an adapter is a computation
    on the session, which may commit and during which other workers may commit. *)
From S2P Require Import Prelude PyText Json Models.
#[global] Open Scope Z_scope.
#[global] Open Scope orch_scope.

(** [ChangedFile] of [domain/review_results.py]. *)
Module ChangedFile.
Record t := mk { path : string; commentable_lines : list Z }.
End ChangedFile.

Inductive capability :=
  | AgentTaskCommentsCapability
  | ReviewSummaryCapability
  | LineCommentsCapability.

(** The interface the outbox expects from the provider registry: which adapter
    offers which capability, and the publishing calls.  A published summary is
    [Some provider_comment_id]; line comments report how many failed. *)
Class ProviderRegistry := {
  has_capability : string → capability → bool;
  publish_agent_task_comment : string → string → string → SM string;
  publish_summary_comment :
    string → string → string → option (gmap string Z) → SM (option (option string));
  publish_line_comments : string → string → list ChangedFile.t → SM Z;
  validate_changed_file : json → outcome ChangedFile.t
}.

Definition slot_operations : list string :=
  ["review_placeholder"; "review_progress"; "review_result"].
Definition review_comment_operations : list string :=
  ["review_placeholder"; "review_progress"; "review_result"; "review_summary"].

(** [isinstance(value, str) and value]. *)
Definition non_empty_str (payload : json) (key : string) : option string :=
  match jget_str payload key with Some (String c s) => Some (String c s) | _ => None end.

Section delivery.
Context `{Runtime}.

Definition _delivery_comment_slot (delivery : DeliveryOutbox.t)
    : SM (option ReviewCommentSlot.t) :=
  match non_empty_str (DeliveryOutbox.payload_json delivery) "slot_id" with
  | None => mret None
  | Some slot_id =>
      slot ← fetch (R := ReviewCommentSlot.t) slot_id;
      mret (match slot with
            | Some s =>
                if bool_decide (ReviewCommentSlot.review_run_id s = DeliveryOutbox.task_id delivery)
                then Some s else None
            | None => None
            end)
  end.

Definition payload_digest_of (payload : json) : string := sha256_hexdigest (json_dumps payload).

(** The columns a new delivery takes from its defaults. *)
Definition new_delivery (task_id provider operation destination_key idempotency_key : string)
    (payload : json) (mandatory : bool) (priority max_attempts : Z) : SM DeliveryOutbox.t :=
  id ← uuid4;
  available_at ← utc_now;
  created_at ← utc_now;
  updated_at ← utc_now;
  mret (DeliveryOutbox.mk id task_id provider operation destination_key idempotency_key
          payload (payload_digest_of payload) mandatory "queued" ("provider-" +:+ provider)
          priority available_at 0 max_attempts None None None None None created_at updated_at).

Definition enqueue_delivery (task_id provider operation destination_key idempotency_key : string)
    (payload : json) (mandatory : bool) (priority : option Z) (max_attempts : Z)
    (supersede_pending : bool) : SM string :=
  let digest := payload_digest_of payload in
  matching ← select (λ d, bool_decide (DeliveryOutbox.idempotency_key d = idempotency_key));
  existing ← scalar_one_or_none matching;
  match existing with
  | Some existing =>
      if negb (bool_decide (DeliveryOutbox.payload_digest existing = digest)) then
        raise (ValueError ("Delivery idempotency key has different payload: " +:+ idempotency_key))
      else mret (DeliveryOutbox.id existing)
  | None =>
      when supersede_pending
        (now ← utc_now;
         _ ← update_where
           (λ d, bool_decide (DeliveryOutbox.task_id d = task_id)
                 && bool_decide (DeliveryOutbox.destination_key d = destination_key)
                 && bool_decide (DeliveryOutbox.status d = "queued"))
           (λ d, d .[ DeliveryOutbox.status := "superseded" ] .[ DeliveryOutbox.updated_at := now ]);
         mret tt) ;;
      task ← load (R := Task.t) task_id;
      when mandatory (modify task_id (λ t, t .[ Task.delivery_status := "pending" ])) ;;
      delivery ← new_delivery task_id provider operation destination_key idempotency_key
        payload mandatory (default (Task.priority task) priority) max_attempts;
      insert delivery ;;
      mret (DeliveryOutbox.id delivery)
  end.

(** ** Claiming *)

Definition reclaim_expired_deliveries (now : option Z) : SM Z :=
  now ← or_now now;
  update_where
    (λ d, bool_decide (DeliveryOutbox.status d = "running")
          && match DeliveryOutbox.locked_until d with Some u => u <? now | None => false end)
    (λ d, d .[ DeliveryOutbox.status := "queued" ] .[ DeliveryOutbox.lock_owner := None ]
            .[ DeliveryOutbox.locked_until := None ] .[ DeliveryOutbox.available_at := now ]
            .[ DeliveryOutbox.updated_at := now ]).

Definition deliverable (now : Z) (d : DeliveryOutbox.t) : bool :=
  bool_decide (DeliveryOutbox.status d = "queued")
  && (DeliveryOutbox.available_at d <=? now)
  && match DeliveryOutbox.locked_until d with None => true | Some u => u <? now end
  && negb (bool_decide (dialect = "postgresql") && row_locked (DeliveryOutbox.id d)).

Definition delivery_order (d : DeliveryOutbox.t) : list Z :=
  [- DeliveryOutbox.priority d; DeliveryOutbox.available_at d; DeliveryOutbox.created_at d].

Definition mark_running (token : string) (lock_seconds now : Z) (d : DeliveryOutbox.t)
    : DeliveryOutbox.t :=
  d .[ DeliveryOutbox.status := "running" ]
    .[ DeliveryOutbox.lock_owner := Some token ]
    .[ DeliveryOutbox.locked_until := Some (now + lock_seconds * second) ]
    .[ DeliveryOutbox.attempt := DeliveryOutbox.attempt d + 1 ]
    .[ DeliveryOutbox.updated_at := now ].

(** Returns the delivery as refreshed after the commit. *)
Definition claim_next_delivery (worker_id : string) (lock_seconds : Z) (now : option Z)
    : SM (option DeliveryOutbox.t) :=
  now ← or_now now;
  _ ← reclaim_expired_deliveries (Some now);
  runnable ← gets (λ s, head (order_by delivery_order
                                (filter (deliverable now) (outbox (work s)))));
  match runnable with
  | None => mret None
  | Some delivery =>
      token ← uuid4;
      modify (DeliveryOutbox.id delivery)
        (mark_running (worker_id +:+ ":" +:+ token) lock_seconds now) ;;
      commit ;;
      delivery ← load (DeliveryOutbox.id delivery);
      mret (Some delivery)
  end.

(** ** Executing *)

Context `{ProviderRegistry}.

Definition require_capability (delivery : DeliveryOutbox.t) (c : capability) : SM () :=
  if has_capability (DeliveryOutbox.provider delivery) c then mret tt
  else raise (ProviderCapabilityError ("Provider " +:+ repr_string (DeliveryOutbox.provider delivery)
         +:+ " does not support " +:+ DeliveryOutbox.operation delivery +:+ ".")).

(** What the slot says before a review comment is published: [Some id] ends the
    delivery with that comment, [None] goes on to publish. *)
Definition slot_gate (delivery : DeliveryOutbox.t) (slot : option ReviewCommentSlot.t)
    : SM (option (option string)) :=
  match slot with
  | None => raise (ProviderError "Review comment delivery is missing its comment slot.")
  | Some slot =>
      if bool_decide (DeliveryOutbox.operation delivery = "review_placeholder") then mret None
      else if negb (truthy (ReviewCommentSlot.provider_comment_id slot))
           || negb (bool_decide (ReviewCommentSlot.status slot
                                 ∈ ["ready"; "finalizing"; "finalized"]))
      then raise (ProviderError "Review result is waiting for its placeholder comment.")
      else
        match jget_int (DeliveryOutbox.payload_json delivery) "result_version" with
        | None => raise (ProviderError "Review comment delivery has an invalid result version.")
        | Some requested_version =>
            if requested_version <? 1 then
              raise (ProviderError "Review comment delivery has an invalid result version.")
            else if requested_version <? ReviewCommentSlot.result_version slot then
              mret (Some (ReviewCommentSlot.provider_comment_id slot))
            else if ReviewCommentSlot.result_version slot <? requested_version then
              raise (ProviderError "Review comment delivery is ahead of its comment slot.")
            else mret None
        end
  end.

Definition publish_review_comment (task_id : string) (run : ReviewRun.t)
    (delivery : DeliveryOutbox.t) : SM (option string) :=
  let original_failure_code := ReviewRun.failure_code run in
  let original_error := ReviewRun.error run in
  status_text ← lift (jindex (DeliveryOutbox.payload_json delivery) "status_text");
  result ← publish_summary_comment (DeliveryOutbox.provider delivery) task_id
    (py_str status_text) (ReviewRun.finding_count_by_severity run);
  task ← load (R := Task.t) task_id;
  match result, review_of task with
  | None, Some run' =>
      if bool_decide (ReviewRun.failure_code run' = Some "provider_permission_denied") then
        let delivery_error :=
          or_else (ReviewRun.error run') "Provider summary publication failed." in
        modify task_id (set_review (λ r,
          r .[ ReviewRun.failure_code := original_failure_code ]
            .[ ReviewRun.error := original_error ])) ;;
        commit ;;
        raise (ProviderError delivery_error)
      else mret None
  | None, None => mret None
  | Some provider_comment_id, _ => mret provider_comment_id
  end.

Fixpoint validate_changed_files (items : list json) : outcome (list ChangedFile.t) :=
  match items with
  | [] => mret []
  | item :: items =>
      f ← validate_changed_file item; fs ← validate_changed_files items; mret (f :: fs)
  end.

(** [for item in payload.get("changed_files", [])]. *)
Definition changed_files_of (payload : json) : outcome (list ChangedFile.t) :=
  match jget payload "changed_files" with
  | None => mret []
  | Some (JList items) => validate_changed_files items
  | Some (JObj fields) => validate_changed_files (map (λ kv, JStr kv.1) fields)
  | Some (JStr s) => validate_changed_files (map (λ c, JStr (String c "")) (String.list_ascii_of_string s))
  | Some _ => Raise (TypeError "object is not iterable")
  end.

Definition _execute_delivery (task : Task.t) (delivery : DeliveryOutbox.t)
    : SM (option string) :=
  let payload := DeliveryOutbox.payload_json delivery in
  let operation := DeliveryOutbox.operation delivery in
  if bool_decide (operation = "agent_task_comment") then
    match Task.sub task with
    | Task.Agent _ =>
        require_capability delivery AgentTaskCommentsCapability ;;
        state ← lift (jindex payload "state");
        comment_id ← publish_agent_task_comment (DeliveryOutbox.provider delivery)
          (Task.id task) (py_str state);
        mret (Some comment_id)
    | _ => raise (TypeError "agent_task_comment requires an AgentTask.")
    end
  else if bool_decide (operation ∈ review_comment_operations) then
    match Task.sub task with
    | Task.Review run =>
        require_capability delivery ReviewSummaryCapability ;;
        early ← (if bool_decide (operation = "review_summary") then mret None
                 else slot ← _delivery_comment_slot delivery; slot_gate delivery slot);
        match early with
        | Some comment_id => mret comment_id
        | None => publish_review_comment (Task.id task) run delivery
        end
    | _ => raise (TypeError "review_summary requires a ReviewRun.")
    end
  else if bool_decide (operation = "review_line_comments") then
    match Task.sub task with
    | Task.Review _ =>
        require_capability delivery LineCommentsCapability ;;
        changed_files ← lift (changed_files_of payload);
        failed ← publish_line_comments (DeliveryOutbox.provider delivery) (Task.id task)
          changed_files;
        if negb (failed =? 0) then
          raise (ProviderError (str_int failed +:+ " line comments failed to publish."))
        else mret None
    | _ => raise (TypeError "review_line_comments requires a ReviewRun.")
    end
  else raise (ValueError ("Unknown delivery operation: " +:+ operation)).

(** ** Recording the result *)

Definition is_review (task : Task.t) : bool :=
  match Task.sub task with Task.Review _ => true | _ => false end.

(** The part of [_apply_delivery_success] that concerns the comment slot; returns
    whether the transition of the task applies. *)
Definition apply_slot_success (delivery : DeliveryOutbox.t) (now : Z) : SM bool :=
  let operation := DeliveryOutbox.operation delivery in
  found ← _delivery_comment_slot delivery;
  match found with
  | None => raise (ProviderError "Review comment delivery is missing its comment slot.")
  | Some slot =>
      let apply_transition :=
        if bool_decide (operation ∈ ["review_progress"; "review_result"]) then
          bool_decide (jget_int (DeliveryOutbox.payload_json delivery) "result_version"
                       = Some (ReviewCommentSlot.result_version slot))
        else true in
      let slot_id := ReviewCommentSlot.id slot in
      when (truthy (DeliveryOutbox.provider_message_id delivery))
        (modify_unique slot_id (λ s,
           s .[ ReviewCommentSlot.provider_comment_id :=
                  DeliveryOutbox.provider_message_id delivery ])) ;;
      when apply_transition
        (modify slot_id (λ s, s .[ ReviewCommentSlot.last_error := None ])) ;;
      slot ← load (R := ReviewCommentSlot.t) slot_id;
      (if bool_decide (operation = "review_placeholder") then
         if negb (truthy (ReviewCommentSlot.provider_comment_id slot)) then
           raise (ProviderError "Placeholder delivery did not bind a provider comment.")
         else modify slot_id (λ s, s .[ ReviewCommentSlot.status := "ready" ]
                                     .[ ReviewCommentSlot.bound_at := Some now ])
       else when (apply_transition && bool_decide (operation = "review_result"))
         (modify slot_id (λ s, s .[ ReviewCommentSlot.status := "finalized" ]
                                 .[ ReviewCommentSlot.finalized_at := Some now ]))) ;;
      mret apply_transition
  end.

(** Other mandatory deliveries of the task that are still to be made. *)
Definition pending_mandatory (delivery : DeliveryOutbox.t) (l : list DeliveryOutbox.t) : nat :=
  length (filter (λ d, DeliveryOutbox.task_id d = DeliveryOutbox.task_id delivery ∧
    DeliveryOutbox.id d ≠ DeliveryOutbox.id delivery ∧ DeliveryOutbox.mandatory d = true ∧
    DeliveryOutbox.status d ∈ ["queued"; "running"]) l).

(** [str(payload.get("final_stage") or final_status)]. *)
Definition final_stage_of (payload : json) (final_status : string) : string :=
  match jget payload "final_stage" with
  | Some v => if json_truthy v then py_str v else final_status
  | None => final_status
  end.

Definition _apply_delivery_success (task : Task.t) (delivery : DeliveryOutbox.t) (now : Z)
    : SM () :=
  let payload := DeliveryOutbox.payload_json delivery in
  let operation := DeliveryOutbox.operation delivery in
  let task_id := Task.id task in
  apply_transition ←
    (if is_review task && bool_decide (operation ∈ slot_operations)
     then apply_slot_success delivery now else mret true);
  let allow_execution :=
    negb (is_review task && bool_decide (operation = "review_placeholder")
          && bool_decide (Task.execution_status task ∈ ["completed"; "failed"; "cancelled"])) in
  (match non_empty_str payload "success_stage" with
   | Some next_stage =>
       when (apply_transition && allow_execution)
         (modify task_id (λ t, t .[ Task.stage := Some next_stage ]))
   | None => mret tt
   end) ;;
  (match non_empty_str payload "success_status" with
   | Some success_status =>
       when (apply_transition && allow_execution)
         (modify task_id (λ t, t .[ Task.status := success_status ]))
   | None => mret tt
   end) ;;
  pending ← gets (λ s, pending_mandatory delivery (outbox (work s)));
  when (DeliveryOutbox.mandatory delivery && bool_decide (pending = 0%nat))
    (modify task_id (λ t, t .[ Task.delivery_status := "delivered" ]) ;;
     match non_empty_str payload "final_status" with
     | Some final_status =>
         when apply_transition
           (modify task_id (λ t, t .[ Task.status := final_status ]
              .[ Task.stage := Some (final_stage_of payload final_status) ]
              .[ Task.completed_at := Some now ]))
     | None => mret tt
     end) ;;
  modify task_id (λ t, t .[ Task.updated_at := now ]).

Definition exhausted (delivery : DeliveryOutbox.t) : bool :=
  (0 <? DeliveryOutbox.max_attempts delivery)
  && (DeliveryOutbox.max_attempts delivery <=? DeliveryOutbox.attempt delivery).

Definition backoff_seconds (retry_delay_seconds attempt : Z) : Z :=
  retry_delay_seconds * 2 ^ Z.min 8 (Z.max 0 (attempt - 1)).

Definition _record_delivery_failure (delivery : DeliveryOutbox.t) (task : option Task.t)
    (error : exn) (retry_delay_seconds now : Z) : SM () :=
  let operation := DeliveryOutbox.operation delivery in
  let id := DeliveryOutbox.id delivery in
  modify id (λ d, d .[ DeliveryOutbox.last_error := Some (exn_str error) ]
                    .[ DeliveryOutbox.lock_owner := None ]
                    .[ DeliveryOutbox.locked_until := None ]
                    .[ DeliveryOutbox.updated_at := now ]) ;;
  when (match task with Some t => is_review t | None => false end
        && bool_decide (operation ∈ slot_operations))
    (found ← _delivery_comment_slot delivery;
     match found with
     | None => mret tt
     | Some slot =>
         modify (ReviewCommentSlot.id slot) (λ s,
           let s :=
             if bool_decide (operation = "review_placeholder")
             then s .[ ReviewCommentSlot.status := "retry_wait" ]
             else if bool_decide (operation = "review_result")
             then s .[ ReviewCommentSlot.status := "finalizing" ] else s in
           s .[ ReviewCommentSlot.last_error := Some (exn_str error) ])
     end) ;;
  (if exhausted delivery then
     modify id (λ d, d .[ DeliveryOutbox.status := "failed" ]) ;;
     match task with
     | Some t =>
         when (DeliveryOutbox.mandatory delivery)
           (modify (Task.id t) (λ t, t .[ Task.delivery_status := "failed" ]
              .[ Task.status := "failed" ] .[ Task.stage := Some "delivery_failed" ]
              .[ Task.completed_at := Some now ] .[ Task.updated_at := now ]))
     | None => mret tt
     end
   else
     modify id (λ d, d .[ DeliveryOutbox.status := "queued" ]
       .[ DeliveryOutbox.available_at :=
            now + backoff_seconds retry_delay_seconds (DeliveryOutbox.attempt delivery) * second ])) ;;
  commit.

(** The end of [process_next_delivery] when the adapter has returned. *)
Definition finish_delivery (claimed : DeliveryOutbox.t) (task_id provider_message_id : option string)
    (now : Z) : SM () :=
  let id := DeliveryOutbox.id claimed in
  delivery ← load (R := DeliveryOutbox.t) id;
  if negb (bool_decide (DeliveryOutbox.status delivery = "running"))
     || negb (bool_decide (DeliveryOutbox.lock_owner delivery = DeliveryOutbox.lock_owner claimed))
  then mret tt
  else
    modify id (λ d, d .[ DeliveryOutbox.status := "delivered" ]
                      .[ DeliveryOutbox.provider_message_id := provider_message_id ]
                      .[ DeliveryOutbox.last_error := None ]
                      .[ DeliveryOutbox.delivered_at := Some now ]
                      .[ DeliveryOutbox.lock_owner := None ]
                      .[ DeliveryOutbox.locked_until := None ]
                      .[ DeliveryOutbox.updated_at := now ]) ;;
    (match task_id with
     | Some task_id =>
         task ← load (R := Task.t) task_id;
         delivery ← load (R := DeliveryOutbox.t) id;
         _apply_delivery_success task delivery now
     | None => mret tt
     end) ;;
    commit.

Definition process_next_delivery (worker_id : string) (lock_seconds retry_delay_seconds : Z)
    (now : option Z) : SM (option string) :=
  now ← or_now now;
  claimed ← claim_next_delivery worker_id lock_seconds (Some now);
  match claimed with
  | None => mret None
  | Some delivery =>
      task ← fetch (R := Task.t) (DeliveryOutbox.task_id delivery);
      published ← try_except
        (match task with
         | None => raise (ProviderError ("Delivery task no longer exists: "
                                         +:+ DeliveryOutbox.task_id delivery))
         | Some task => message_id ← _execute_delivery task delivery; mret (Some message_id)
         end)
        (λ e, _record_delivery_failure delivery task e retry_delay_seconds now ;; mret None);
      (match published with
       | None => mret tt
       | Some provider_message_id =>
           finish_delivery delivery (Task.id <$> task) provider_message_id now
       end) ;;
      mret (Some (DeliveryOutbox.id delivery))
  end.
End delivery.
