(* ===== verification/DeliveryTheorems.v ===== *)
(** * What the delivery outbox guarantees *)
From S2P Require Import Prelude PyText Json Models Delivery.
#[global] Open Scope Z_scope.
#[global] Open Scope orch_scope.

(** The deliveries made under an idempotency key. *)
Definition with_key (key : string) (l : list DeliveryOutbox.t) : list DeliveryOutbox.t :=
  filter (λ d, bool_decide (DeliveryOutbox.idempotency_key d = key)) l.

(** What enqueueing does to the deliveries it replaces. *)
Definition supersede_row (task_id destination : string) (now : Z) (d : DeliveryOutbox.t)
    : DeliveryOutbox.t :=
  if bool_decide (DeliveryOutbox.task_id d = task_id)
     && bool_decide (DeliveryOutbox.destination_key d = destination)
     && bool_decide (DeliveryOutbox.status d = "queued")
  then d .[ DeliveryOutbox.status := "superseded" ] .[ DeliveryOutbox.updated_at := now ]
  else d.

Section enqueue.
Context `{Runtime}.
Context (task_id provider operation destination key : string) (payload : json).
Context (mandatory : bool) (priority : option Z) (max_attempts : Z).

Let enqueue (supersede : bool) : SM string :=
  enqueue_delivery task_id provider operation destination key payload mandatory priority
    max_attempts supersede.

Lemma with_key_violation d l :
  with_key (DeliveryOutbox.idempotency_key d) l = [] → DeliveryOutbox.id d ∉ DeliveryOutbox.id <$> l →
  violation d l = None.
Proof.
  intros Hl Hid. apply violation_None. split; [done|].
  intros c [->|[]%elem_of_nil]%elem_of_cons d' Hd'. simpl.
  apply bool_decide_false. intros Heq.
  assert (d' ∈ with_key (DeliveryOutbox.idempotency_key d) l) as Hin.
  { apply list_elem_of_filter. by rewrite bool_decide_true. }
  rewrite Hl in Hin. by apply elem_of_nil in Hin.
Qed.

Lemma with_key_map (f : DeliveryOutbox.t → DeliveryOutbox.t) k l :
  (∀ d, DeliveryOutbox.idempotency_key (f d) = DeliveryOutbox.idempotency_key d) →
  with_key k (f <$> l) = f <$> with_key k l.
Proof.
  intros Hf. unfold with_key. induction l as [|d l IH]; [done|].
  rewrite fmap_cons, !filter_cons, Hf. case_decide; rewrite ?fmap_cons, IH. all: done.
Qed.

Lemma enqueue_existing_run supersede s d rest :
  with_key key (outbox (work s)) = d :: rest →
  enqueue supersede s =
    (match rest with
     | [] =>
         if bool_decide (DeliveryOutbox.payload_digest d = payload_digest_of payload)
         then Return (DeliveryOutbox.id d)
         else Raise (ValueError ("Delivery idempotency key has different payload: " +:+ key))
     | _ => Raise (OtherError "Multiple rows were found when one or none was required")
     end, s).
Proof.
  intros Hsel. unfold enqueue, enqueue_delivery, select. rewrite bind_run. unfold gets.
  change (filter _ (rows (work s))) with (with_key key (outbox (work s))). rewrite Hsel.
  destruct rest as [|d' rest]; [|done]. 
  cbn [scalar_one_or_none]. rewrite bind_mret_run. by destruct (bool_decide _).
Qed.

Definition superseded (supersede : bool) (s : Session) : Session :=
  if supersede then
    on_rows (fmap (supersede_row task_id destination (clock (ticks s)))) (s .[ ticks := S (ticks s) ])
  else s.

Lemma supersede_run supersede s :
  when supersede (now ← utc_now;
    _ ← update_where
      (λ d, bool_decide (DeliveryOutbox.task_id d = task_id)
            && bool_decide (DeliveryOutbox.destination_key d = destination)
            && bool_decide (DeliveryOutbox.status d = "queued"))
      (λ d, d .[ DeliveryOutbox.status := "superseded" ] .[ DeliveryOutbox.updated_at := now ]);
    mret tt) s = (Return tt, superseded supersede s).
Proof. by destruct supersede. Qed.

Lemma superseded_tasks supersede s : tasks (work (superseded supersede s)) = tasks (work s).
Proof. by destruct supersede. Qed.

(** The row a fresh key leads to. *)
Definition enqueued (d : DeliveryOutbox.t) : Prop :=
  DeliveryOutbox.task_id d = task_id ∧ DeliveryOutbox.idempotency_key d = key ∧
  DeliveryOutbox.destination_key d = destination ∧ DeliveryOutbox.operation d = operation ∧
  DeliveryOutbox.payload_json d = payload ∧
  DeliveryOutbox.payload_digest d = payload_digest_of payload ∧
  DeliveryOutbox.mandatory d = mandatory ∧ DeliveryOutbox.max_attempts d = max_attempts ∧
  DeliveryOutbox.status d = "queued" ∧ DeliveryOutbox.attempt d = 0 ∧
  DeliveryOutbox.lock_owner d = None ∧ DeliveryOutbox.locked_until d = None.

(** The database a fresh key leads to, before the new row. *)
Definition before_insert (supersede : bool) (s : Session) : Db :=
  (work s)
    .[ tasks := if mandatory then
         update_rows (λ t, bool_decide (Task.id t = task_id))
           (λ t, t .[ Task.delivery_status := "pending" ]) (tasks (work s))
       else tasks (work s) ]
    .[ outbox := if supersede
                 then supersede_row task_id destination (clock (ticks s)) <$> outbox (work s)
                 else outbox (work s) ].

Lemma enqueue_new_prefix supersede s t :
  with_key key (outbox (work s)) = [] → find_row task_id (tasks (work s)) = Some t →
  ∃ d s1, enqueue supersede s = (insert d ;; mret (DeliveryOutbox.id d)) s1 ∧ enqueued d ∧
    DeliveryOutbox.priority d = default (Task.priority t) priority ∧
    DeliveryOutbox.id d = fresh_uuid (uuids s) ∧
    committed s1 = committed s ∧ work s1 = before_insert supersede s.
Proof.
  intros Hsel Ht. unfold enqueue, enqueue_delivery, select. rewrite bind_run. unfold gets.
  change (filter _ (rows (work s))) with (with_key key (outbox (work s))). rewrite Hsel.
  cbn [scalar_one_or_none]. set (s2 := superseded supersede s).
  rewrite bind_mret_run, (bind_ret_run _ _ _ _ _ (supersede_run supersede s)). fold s2.
  assert (Hload : load (R := Task.t) task_id s2 = (Return t, s2)).
  { apply load_run. change (rows (work s2)) with (tasks (work s2)).
    unfold s2. by rewrite superseded_tasks. }
  rewrite (bind_ret_run _ _ _ _ _ Hload).
  set (s3 := if mandatory then on_rows (update_rows (λ t, bool_decide (Task.id t = task_id))
               (λ t, t .[ Task.delivery_status := "pending" ])) s2 else s2).
  assert (Hmand : when mandatory (modify task_id (λ t, t .[ Task.delivery_status := "pending" ])) s2
                  = (Return tt, s3)) by by destruct mandatory.
  rewrite (bind_ret_run _ _ _ _ _ Hmand). rewrite bind_run. unfold new_delivery.
  do 4 (rewrite bind_run; cbn [uuid4 utc_now]). cbn [mret M_ret].
  eexists _, _. split; [reflexivity|]. split; [by repeat split|]. split; [done|].
  subst s3 s2. split; [by destruct mandatory, supersede|].
  split; [by destruct mandatory, supersede|].
  clear. unfold before_insert. destruct mandatory, supersede; try done. by destruct s as [? [] ? ?].
Qed.

(** The deliveries visible before the insertion carry the same keys. *)
Lemma before_insert_key supersede s :
  with_key key (outbox (work s)) = [] →
  with_key key (outbox (before_insert supersede s)) = [].
Proof.
  intros Hsel. destruct supersede; [|done].
  change (with_key key (supersede_row task_id destination (clock (ticks s)) <$> outbox (work s)) = []).
  rewrite with_key_map, Hsel; [done|]. intros d. unfold supersede_row. by destruct (_ && _).
Qed.

Lemma before_insert_ids supersede s :
  DeliveryOutbox.id <$> outbox (before_insert supersede s) = DeliveryOutbox.id <$> outbox (work s).
Proof.
  destruct supersede; [|done].
  change (DeliveryOutbox.id <$> (supersede_row task_id destination (clock (ticks s))
            <$> outbox (work s)) = DeliveryOutbox.id <$> outbox (work s)).
  rewrite <- list_fmap_compose. apply list_fmap_ext. intros i d _. simpl.
  unfold supersede_row. by destruct (_ && _).
Qed.

Lemma enqueue_new_run supersede s t :
  with_key key (outbox (work s)) = [] → find_row task_id (tasks (work s)) = Some t →
  fresh_uuid (uuids s) ∉ DeliveryOutbox.id <$> outbox (work s) →
  ∃ d s1, enqueue supersede s = (Return (DeliveryOutbox.id d), s1) ∧ enqueued d ∧
    DeliveryOutbox.priority d = default (Task.priority t) priority ∧
    committed s1 = committed s ∧
    work s1 = (before_insert supersede s)
      .[ outbox := outbox (before_insert supersede s) ++ [d] ].
Proof.
  intros Hsel Ht Hid.
  destruct (enqueue_new_prefix supersede s t Hsel Ht) as (d & s1 & -> & Hd & Hp & Hdid & Hc & Hw).
  assert (Hv : violation d (rows (work s1)) = None).
  { change (rows (work s1)) with (outbox (work s1)). rewrite Hw. apply with_key_violation.
    - destruct Hd as (_ & -> & _). by apply before_insert_key.
    - by rewrite before_insert_ids, Hdid. }
  rewrite (bind_ret_run _ _ _ _ _ (insert_run _ _ Hv)).
  eexists d, _. split; [reflexivity|]. split; [done|]. split; [done|]. split; [done|].
  rewrite work_on_rows, Hw. done.
Qed.

Lemma enqueue_no_task supersede s :
  with_key key (outbox (work s)) = [] → find_row task_id (tasks (work s)) = None →
  ∃ e s1, enqueue supersede s = (Raise e, s1).
Proof.
  intros Hsel Ht. unfold enqueue, enqueue_delivery, select. rewrite bind_run. unfold gets.
  change (filter _ (rows (work s))) with (with_key key (outbox (work s))). rewrite Hsel.
  cbn [scalar_one_or_none]. rewrite bind_mret_run.
  rewrite (bind_ret_run _ _ _ _ _ (supersede_run supersede s)).
  assert (Hload : load (R := Task.t) task_id (superseded supersede s)
                  = (Raise (OtherError "ObjectDeletedError"), superseded supersede s)).
  { unfold load. rewrite bind_run, fetch_run.
    change (rows (work (superseded supersede s))) with (tasks (work (superseded supersede s))).
    by rewrite superseded_tasks, Ht. }
  rewrite (bind_raise_run _ _ _ _ _ Hload). eauto.
Qed.

(** What is visible in the outbox once [enqueue_delivery] has returned. *)
Lemma enqueue_visible supersede s id s1 :
  enqueue supersede s = (Return id, s1) →
  ∃ d, with_key key (outbox (work s1)) = [d] ∧ DeliveryOutbox.id d = id ∧
    DeliveryOutbox.payload_digest d = payload_digest_of payload.
Proof.
  destruct (with_key key (outbox (work s))) as [|d rest] eqn:Hsel.
  - destruct (find_row task_id (tasks (work s))) as [t|] eqn:Ht.
    + destruct (enqueue_new_prefix supersede s t Hsel Ht)
        as (d & s2 & -> & Hd & _ & _ & _ & Hw).
      unfold insert. rewrite bind_run, bind_run. cbn [gets].
      destruct (violation d _); [done|]. intros [= <- <-]. exists d.
      split; [|split; [done|apply Hd]]. simpl. rewrite Hw. unfold with_key. rewrite filter_app.
      fold (with_key key (outbox (before_insert supersede s))).
      rewrite before_insert_key by done. destruct Hd as (_ & Hk & _).
      rewrite filter_cons, decide_True; [done|]. by rewrite bool_decide_true.
    + destruct (enqueue_no_task supersede s Hsel Ht) as (e & s2 & ->). done.
  - rewrite (enqueue_existing_run _ _ _ _ Hsel). destruct rest; [|done].
    case_bool_decide; [|done]. intros [= <- <-]. by exists d.
Qed.
End enqueue.

(** An enqueued message is made once: repeating the request with the same
    idempotency key and payload, by whatever route, returns the same delivery and
    changes nothing, and a request that reuses the key for a payload of another
    digest is refused and changes nothing. *)
Theorem enqueue_idempotent `{Runtime} task_id provider operation destination key payload mandatory
    priority max_attempts supersede s id s1 :
  enqueue_delivery task_id provider operation destination key payload mandatory priority
    max_attempts supersede s = (Return id, s1) →
  (∀ task_id' provider' operation' destination' payload' mandatory' priority' max_attempts' supersede',
    enqueue_delivery task_id' provider' operation' destination' key payload' mandatory' priority'
      max_attempts' supersede' s1 =
    (if bool_decide (payload_digest_of payload' = payload_digest_of payload) then Return id
     else Raise (ValueError ("Delivery idempotency key has different payload: " +:+ key)), s1)).
Proof.
  intros (d & Hsel & Hid & Hdig)%enqueue_visible. intros.
  erewrite enqueue_existing_run by exact Hsel. rewrite Hdig, Hid.
  by rewrite (bool_decide_ext (payload_digest_of payload = _)
    (payload_digest_of payload' = payload_digest_of payload)) by (split; congruence).
Qed.

(** A new key enqueues exactly one queued, unlocked delivery carrying the
    digest of its payload; when asked to, it supersedes the deliveries of the same
    task and destination that nobody has started; a mandatory one makes the task's
    delivery pending.  Nothing else changes and nothing is committed. *)
Theorem enqueue_creates_one `{Runtime} task_id provider operation destination key payload mandatory
    priority max_attempts supersede s t :
  with_key key (outbox (work s)) = [] → find_row task_id (tasks (work s)) = Some t →
  fresh_uuid (uuids s) ∉ DeliveryOutbox.id <$> outbox (work s) →
  ∃ d s1,
    enqueue_delivery task_id provider operation destination key payload mandatory priority
      max_attempts supersede s = (Return (DeliveryOutbox.id d), s1) ∧
    enqueued task_id operation destination key payload mandatory max_attempts d ∧
    DeliveryOutbox.priority d = default (Task.priority t) priority ∧
    committed s1 = committed s ∧
    work s1 = (work s)
      .[ tasks := if mandatory then
           update_rows (λ t, bool_decide (Task.id t = task_id))
             (λ t, t .[ Task.delivery_status := "pending" ]) (tasks (work s))
         else tasks (work s) ]
      .[ outbox := (if supersede
                    then supersede_row task_id destination (clock (ticks s)) <$> outbox (work s)
                    else outbox (work s)) ++ [d] ].
Proof. apply enqueue_new_run. Qed.


(** ** Claiming a delivery *)

(** A delivery whose lease has run out, as reclaiming leaves it. *)
Definition lease_expired (now : Z) (d : DeliveryOutbox.t) : bool :=
  bool_decide (DeliveryOutbox.status d = "running")
  && match DeliveryOutbox.locked_until d with Some u => u <? now | None => false end.
Definition reclaimed (now : Z) (d : DeliveryOutbox.t) : DeliveryOutbox.t :=
  if lease_expired now d then
    d .[ DeliveryOutbox.status := "queued" ] .[ DeliveryOutbox.lock_owner := None ]
      .[ DeliveryOutbox.locked_until := None ] .[ DeliveryOutbox.available_at := now ]
      .[ DeliveryOutbox.updated_at := now ]
  else d.

Section claim_delivery.
Context `{Runtime}.

Lemma reclaimed_id now d : DeliveryOutbox.id (reclaimed now d) = DeliveryOutbox.id d.
Proof. unfold reclaimed. by destruct (lease_expired now d). Qed.

Lemma reclaimed_ids now l :
  NoDup (DeliveryOutbox.id <$> l) → NoDup (row_key <$> (reclaimed now <$> l)).
Proof.
  intros Hnd. change (NoDup (DeliveryOutbox.id <$> (reclaimed now <$> l))).
  rewrite <- list_fmap_compose, (list_fmap_ext _ DeliveryOutbox.id); [done|].
  intros i x _. apply reclaimed_id.
Qed.

Lemma reclaim_run now s :
  reclaim_expired_deliveries (Some now) s =
    (Return (Z.of_nat (length (filter (lease_expired now) (outbox (work s))))),
     on_rows (fmap (reclaimed now)) s).
Proof. done. Qed.

Definition runnable (now : Z) (l : list DeliveryOutbox.t) : list DeliveryOutbox.t :=
  order_by delivery_order (filter (deliverable now) (reclaimed now <$> l)).

(** What a claim does, as one transition. *)
Lemma claim_delivery_run worker_id lock_seconds now s :
  NoDup (DeliveryOutbox.id <$> outbox (work s)) →
  claim_next_delivery worker_id lock_seconds (Some now) s =
    match head (runnable now (outbox (work s))) with
    | None => (Return None, on_rows (fmap (reclaimed now)) s)
    | Some d =>
        let token := worker_id +:+ ":" +:+ fresh_uuid (uuids s) in
        let w := (work s) .[ outbox := update_rows
                   (λ x, bool_decide (DeliveryOutbox.id x = DeliveryOutbox.id d))
                   (mark_running token lock_seconds now) (reclaimed now <$> outbox (work s)) ] in
        (Return (Some (mark_running token lock_seconds now d)),
         mkSession w w (ticks s) (S (uuids s)) (sent s) (shell s))
    end.
Proof.
  intros Hnd. unfold claim_next_delivery.
  rewrite (bind_ret_run _ _ _ _ _ (eq_refl : or_now (Some now) s = _)).
  rewrite (bind_ret_run _ _ _ _ _ (reclaim_run now s)).
  rewrite bind_run. cbn [gets].
  change (outbox (work (on_rows (fmap (reclaimed now)) s))) with (reclaimed now <$> outbox (work s)).
  fold (runnable now (outbox (work s))).
  destruct (head (runnable now (outbox (work s)))) as [d|] eqn:Hd; [|done].
  rewrite bind_run. cbn [uuid4].
  set (token := worker_id +:+ ":" +:+ fresh_uuid (uuids s)).
  rewrite (bind_ret_run _ _ _ _ _ (modify_run (R := DeliveryOutbox.t) _ _ _)).
  rewrite bind_run. cbn [commit puts].
  assert (Hin : d ∈ reclaimed now <$> outbox (work s)).
  { apply head_Some_elem_of, elem_of_order_by, list_elem_of_filter in Hd. tauto. }
  rewrite bind_run, (load_run _ _ (mark_running token lock_seconds now d)); [done|].
  pose proof (find_updated (R := DeliveryOutbox.t) (mark_running token lock_seconds now)
    (reclaimed now <$> outbox (work s)) d) as Hf.
  change (row_key d) with (DeliveryOutbox.id d) in Hf.
  rewrite <- Hf; [by f_equal|by apply reclaimed_ids|done|done].
Qed.

(** A claim takes the best deliverable message — highest priority, then
    earliest — leases it under a token of the worker's own for exactly the lock
    time, and counts the attempt; if it returns nothing, no message is
    deliverable.  Messages whose lease has run out are deliverable again. *)
Theorem claim_takes_best_delivery worker_id lock_seconds now d n m o s' :
  NoDup (DeliveryOutbox.id <$> outbox d) →
  claim_next_delivery worker_id lock_seconds (Some now) (open_session d n m) = (o, s') →
  let waiting := filter (deliverable now) (reclaimed now <$> outbox d) in
  match o with
  | Return (Some claimed) =>
      ∃ x, x ∈ waiting ∧ (∀ y, y ∈ waiting → lex_le (delivery_order x) (delivery_order y)) ∧
        claimed = mark_running (worker_id +:+ ":" +:+ fresh_uuid m) lock_seconds now x ∧
        find_row (DeliveryOutbox.id x) (outbox (committed s')) = Some claimed
  | Return None => waiting = []
  | Raise _ => False
  end.
Proof.
  intros Hnd Hrun. rewrite claim_delivery_run in Hrun by done. unfold runnable in Hrun.
  change (outbox (work (open_session d n m))) with (outbox d) in Hrun.
  destruct (order_by _ _) as [|x rest] eqn:Hsort; simpl in Hrun.
  - injection Hrun as <- <-. simpl. by eapply order_by_nil_inv.
  - injection Hrun as <- <-. exists x.
    assert (Hx : x ∈ filter (deliverable now) (reclaimed now <$> outbox d)).
    { apply (elem_of_order_by delivery_order). rewrite Hsort. left. }
    split; [done|]. split; [intros y Hy; by eapply order_by_head|]. split; [done|].
    pose proof (find_updated (R := DeliveryOutbox.t)
      (mark_running (worker_id +:+ ":" +:+ fresh_uuid m) lock_seconds now)
      (reclaimed now <$> outbox d) x) as Hf.
    change (row_key x) with (DeliveryOutbox.id x) in Hf.
    rewrite <- Hf; [by f_equal|by apply reclaimed_ids| |done].
    apply list_elem_of_filter in Hx. tauto.
Qed.
End claim_delivery.

(** ** The end of a delivery *)

Section finish.
Context `{Runtime}.

(** What a failure writes on the delivery: the decision to give up is taken from
    the attempt the worker claimed. *)
Definition failed_row (claimed : DeliveryOutbox.t) (e : exn) (retry_delay_seconds now : Z)
    (d : DeliveryOutbox.t) : DeliveryOutbox.t :=
  let d := d .[ DeliveryOutbox.last_error := Some (exn_str e) ]
             .[ DeliveryOutbox.lock_owner := None ] .[ DeliveryOutbox.locked_until := None ]
             .[ DeliveryOutbox.updated_at := now ] in
  if exhausted claimed then d .[ DeliveryOutbox.status := "failed" ]
  else d .[ DeliveryOutbox.status := "queued" ]
         .[ DeliveryOutbox.available_at := now +
              backoff_seconds retry_delay_seconds (DeliveryOutbox.attempt claimed) * second ].

(** What it writes on the task. *)
Definition task_of_failed (now : Z) (t : Task.t) : Task.t :=
  t .[ Task.delivery_status := "failed" ] .[ Task.status := "failed" ]
    .[ Task.stage := Some "delivery_failed" ] .[ Task.completed_at := Some now ]
    .[ Task.updated_at := now ].

Definition failed_tasks (claimed : DeliveryOutbox.t) (task : option Task.t) (now : Z)
    (l : list Task.t) : list Task.t :=
  match task with
  | Some t =>
      if exhausted claimed && DeliveryOutbox.mandatory claimed
      then update_rows (λ x, bool_decide (Task.id x = Task.id t)) (task_of_failed now) l else l
  | None => l
  end.

Lemma slot_lookup_run d s : ∃ o, _delivery_comment_slot d s = (Return o, s).
Proof.
  unfold _delivery_comment_slot. destruct (non_empty_str _ _); [|by eexists].
  rewrite bind_run, fetch_run. by eexists.
Qed.

Lemma record_failure_run claimed task e retry_delay_seconds now s :
  let r := _record_delivery_failure claimed task e retry_delay_seconds now s in
  r.1 = Return tt ∧ committed r.2 = work r.2 ∧
  outbox (work r.2) =
    update_rows (λ x, bool_decide (DeliveryOutbox.id x = DeliveryOutbox.id claimed))
      (failed_row claimed e retry_delay_seconds now) (outbox (work s)) ∧
  tasks (work r.2) = failed_tasks claimed task now (tasks (work s)) ∧
  ticks r.2 = ticks s ∧ uuids r.2 = uuids s.
Proof.
  unfold _record_delivery_failure.
  set (f := λ d, d .[ DeliveryOutbox.last_error := Some (exn_str e) ]
             .[ DeliveryOutbox.lock_owner := None ] .[ DeliveryOutbox.locked_until := None ]
             .[ DeliveryOutbox.updated_at := now ]).
  rewrite (bind_ret_run _ _ _ _ _ (modify_run (R := DeliveryOutbox.t) _ f s)).
  set (s1 := on_rows _ s). set (slot_part := when _ _).
  assert (Hslot : ∃ s2, slot_part s1 = (Return tt, s2) ∧ outbox (work s2) = outbox (work s1) ∧
    tasks (work s2) = tasks (work s1) ∧ ticks s2 = ticks s1 ∧ uuids s2 = uuids s1).
  { subst slot_part. unfold when. destruct (_ && _); [|by exists s1].
    destruct (slot_lookup_run claimed s1) as [o Ho].
    rewrite (bind_ret_run _ _ _ _ _ Ho). destruct o as [slot|]; [|by exists s1].
    by eexists. }
  destruct Hslot as (s2 & Hslot & Hout & Htasks & Hticks & Huuids).
  rewrite (bind_ret_run _ _ _ _ _ Hslot).
  assert (Hkey : ∀ g, update_rows (λ x, bool_decide (DeliveryOutbox.id x = DeliveryOutbox.id claimed))
    g (outbox (work s2)) = update_rows (λ x, bool_decide (DeliveryOutbox.id x
      = DeliveryOutbox.id claimed)) (λ x, g (f x)) (outbox (work s))).
  { intros g. rewrite Hout. by apply (update_key_twice DeliveryOutbox.id). }
  unfold failed_row, failed_tasks. destruct (exhausted claimed).
  - rewrite bind_run. destruct task as [t|]; rewrite bind_run, modify_run.
    + destruct (DeliveryOutbox.mandatory claimed);
        (split; [done|]; split; [done|]; split; [apply Hkey|]; split; [|by split]);
        simpl; by rewrite Htasks.
    + split; [done|]; split; [done|]; split; [apply Hkey|]; split; [|by split].
      simpl. by rewrite Htasks.
  - rewrite bind_run, modify_run. split; [done|]; split; [done|]; split; [apply Hkey|].
    split; [|by split]. destruct task; simpl; by rewrite Htasks.
Qed.
End finish.

Section process.
Context `{Runtime} `{ProviderRegistry}.

(** The run of a worker up to the end of the provider call. *)
Definition published (worker_id : string) (lock_seconds now : Z) (s : Session)
    (claimed : DeliveryOutbox.t) (task : Task.t) (o : outcome (option string)) (s' : Session)
    : Prop :=
  ∃ s1, claim_next_delivery worker_id lock_seconds (Some now) s = (Return (Some claimed), s1) ∧
    find_row (DeliveryOutbox.task_id claimed) (tasks (work s1)) = Some task ∧
    _execute_delivery task claimed s1 = (o, s').

Lemma process_run worker_id lock_seconds retry_delay_seconds now s claimed task o s' :
  published worker_id lock_seconds now s claimed task o s' →
  process_next_delivery worker_id lock_seconds retry_delay_seconds (Some now) s =
    match o with
    | Return message_id =>
        ((finish_delivery claimed (Some (Task.id task)) message_id now ;;
          mret (Some (DeliveryOutbox.id claimed))) : SM (option string)) s'
    | Raise e =>
        ((_record_delivery_failure claimed (Some task) e retry_delay_seconds now ;;
          mret (Some (DeliveryOutbox.id claimed))) : SM (option string)) s'
    end.
Proof.
  intros (s1 & Hclaim & Htask & Hexec). unfold process_next_delivery.
  rewrite (bind_ret_run _ _ _ _ _ (eq_refl : or_now (Some now) s = _)).
  rewrite (bind_ret_run _ _ _ _ _ Hclaim), bind_run, fetch_run.
  change (rows (work s1)) with (tasks (work s1)). rewrite Htask.
  rewrite bind_run. unfold try_except. rewrite bind_run, Hexec. destruct o as [msg|e]; [done|].
  rewrite bind_run, (bind_run (_record_delivery_failure _ _ _ _ _)).
  destruct (_record_delivery_failure _ _ _ _ _ s') as [[[]|e'] s2]; done.
Qed.

(** C9: a worker that lost its lease while the provider was being called — the
    delivery is no longer running, or runs under another token — records nothing
    when the call succeeds: the database is as the call left it. *)
Theorem lost_lease_records_nothing worker_id lock_seconds retry_delay_seconds now s claimed task
    message_id s' d :
  published worker_id lock_seconds now s claimed task (Return message_id) s' →
  find_row (DeliveryOutbox.id claimed) (outbox (work s')) = Some d →
  DeliveryOutbox.status d ≠ "running" ∨
    DeliveryOutbox.lock_owner d ≠ DeliveryOutbox.lock_owner claimed →
  process_next_delivery worker_id lock_seconds retry_delay_seconds (Some now) s =
    (Return (Some (DeliveryOutbox.id claimed)), s').
Proof.
  intros Hpub Hd Hlost. rewrite (process_run _ _ _ _ _ _ _ _ _ Hpub).
  unfold finish_delivery. rewrite bind_run, (bind_ret_run _ _ _ _ _ (load_run _ _ _ Hd)).
  destruct Hlost as [Hst|Hown].
  - by rewrite (bool_decide_false (DeliveryOutbox.status d = "running")).
  - rewrite (bool_decide_false (DeliveryOutbox.lock_owner d = _)) by done.
    by rewrite orb_true_r.
Qed.

End process.

(** ** The slot decides what is published *)

(** [_delivery_comment_slot] as a function of the database. *)
Definition slot_of (delivery : DeliveryOutbox.t) (d : Db) : option ReviewCommentSlot.t :=
  match non_empty_str (DeliveryOutbox.payload_json delivery) "slot_id" with
  | None => None
  | Some slot_id =>
      match find_row slot_id (slots d) with
      | Some s =>
          if bool_decide (ReviewCommentSlot.review_run_id s = DeliveryOutbox.task_id delivery)
          then Some s else None
      | None => None
      end
  end.

Lemma slot_of_run delivery s :
  _delivery_comment_slot delivery s = (Return (slot_of delivery (work s)), s).
Proof.
  unfold _delivery_comment_slot, slot_of. destruct (non_empty_str _ _) as [k|]; [|done].
  rewrite bind_run, fetch_run. change (rows (work s)) with (slots (work s)).
  by destruct (find_row k (slots (work s))).
Qed.

Section gate.
Context `{Runtime} `{ProviderRegistry}.

Definition slot_ready (slot : ReviewCommentSlot.t) : bool :=
  truthy (ReviewCommentSlot.provider_comment_id slot)
  && bool_decide (ReviewCommentSlot.status slot ∈ ["ready"; "finalizing"; "finalized"]).

(** Progress and result comments of a review obey its comment slot.  They
    fail, without calling the provider, until the placeholder is bound; a version
    older than the slot's is dropped as delivered, again without calling the
    provider; a version ahead of the slot fails; only the slot's current version
    is published. *)
Theorem result_obeys_slot task run delivery s slot version :
  DeliveryOutbox.operation delivery ∈ ["review_progress"; "review_result"] →
  Task.sub task = Task.Review run →
  has_capability (DeliveryOutbox.provider delivery) ReviewSummaryCapability = true →
  slot_of delivery (work s) = Some slot →
  jget_int (DeliveryOutbox.payload_json delivery) "result_version" = Some version →
  1 ≤ version →
  _execute_delivery task delivery s =
    if negb (slot_ready slot) then
      (Raise (ProviderError "Review result is waiting for its placeholder comment."), s)
    else if version <? ReviewCommentSlot.result_version slot then
      (Return (ReviewCommentSlot.provider_comment_id slot), s)
    else if ReviewCommentSlot.result_version slot <? version then
      (Raise (ProviderError "Review comment delivery is ahead of its comment slot."), s)
    else publish_review_comment (Task.id task) run delivery s.
Proof.
  intros Hop Hsub Hcap Hslot Hversion Hv.
  assert (Hops : DeliveryOutbox.operation delivery ≠ "agent_task_comment" ∧
    DeliveryOutbox.operation delivery ∈ review_comment_operations ∧
    DeliveryOutbox.operation delivery ≠ "review_summary" ∧
    DeliveryOutbox.operation delivery ≠ "review_placeholder").
  { apply elem_of_cons in Hop as [->|[->|[]%elem_of_nil]%elem_of_cons];
      (split; [done|]; split; [|done]); unfold review_comment_operations; set_solver. }
  destruct Hops as (Hagent & Hrev & Hsum & Hph). unfold _execute_delivery.
  rewrite (bool_decide_false _ Hagent), (bool_decide_true _ Hrev), Hsub.
  unfold require_capability. rewrite Hcap, bind_mret_run, (bool_decide_false _ Hsum).
  rewrite bind_run, (bind_ret_run _ _ _ _ _ (slot_of_run delivery s)), Hslot.
  unfold slot_gate. rewrite (bool_decide_false _ Hph), Hversion.
  unfold slot_ready. rewrite negb_andb. destruct (_ || _); [done|].
  rewrite (proj2 (Z.ltb_ge version 1)) by done.
  destruct (version <? _); [done|]. by destruct (_ <? version).
Qed.
End gate.

(** ** A successful delivery and its task *)

(** Is the delivery for the version the slot now asks for? *)
Definition current (task : Task.t) (delivery : DeliveryOutbox.t) (d : Db) : bool :=
  if is_review task && bool_decide (DeliveryOutbox.operation delivery
                                    ∈ ["review_progress"; "review_result"]) then
    match slot_of delivery d with
    | Some slot =>
        bool_decide (jget_int (DeliveryOutbox.payload_json delivery) "result_version"
                     = Some (ReviewCommentSlot.result_version slot))
    | None => false
    end
  else true.

(** A placeholder that arrives after the run has ended. *)
Definition late_placeholder (task : Task.t) (delivery : DeliveryOutbox.t) : bool :=
  is_review task && bool_decide (DeliveryOutbox.operation delivery = "review_placeholder")
  && bool_decide (Task.execution_status task ∈ ["completed"; "failed"; "cancelled"]).

(** The row of the task after the success of a delivery. *)
Definition settled_row (task : Task.t) (delivery : DeliveryOutbox.t) (cur last : bool) (now : Z)
    (t : Task.t) : Task.t :=
  let payload := DeliveryOutbox.payload_json delivery in
  let allowed := cur && negb (late_placeholder task delivery) in
  let t := match non_empty_str payload "success_stage" with
           | Some stage => if allowed then t .[ Task.stage := Some stage ] else t
           | None => t
           end in
  let t := match non_empty_str payload "success_status" with
           | Some status => if allowed then t .[ Task.status := status ] else t
           | None => t
           end in
  let t :=
    if DeliveryOutbox.mandatory delivery && last then
      let t := t .[ Task.delivery_status := "delivered" ] in
      match non_empty_str payload "final_status" with
      | Some final =>
          if cur then
            t .[ Task.status := final ] .[ Task.stage := Some (final_stage_of payload final) ]
              .[ Task.completed_at := Some now ]
          else t
      | None => t
      end
    else t in
  t .[ Task.updated_at := now ].

Section success.
Context `{Runtime}.

(** The tables a change of slots leaves alone. *)
Definition slots_only (s s' : Session) : Prop :=
  committed s' = committed s ∧ tasks (work s') = tasks (work s) ∧
  outbox (work s') = outbox (work s).

Lemma keeps_slots_modify s k f :
  keeps (slots_only s) (modify (R := ReviewCommentSlot.t) k f).
Proof. intros s' Hs. exact Hs. Qed.

Lemma keeps_slots_modify_unique s k f :
  keeps (slots_only s) (modify_unique (R := ReviewCommentSlot.t) k f).
Proof.
  intros s' Hs. unfold modify_unique. rewrite bind_run. cbn [gets].
  destruct (find_row k _); [|done]. by destruct (violation _ _).
Qed.

Lemma keeps_slots_load s k : keeps (slots_only s) (load (R := ReviewCommentSlot.t) k).
Proof. intros s' Hs. unfold load. rewrite bind_run, fetch_run. by destruct (find_row k _). Qed.
#[local] Hint Resolve keeps_slots_modify keeps_slots_modify_unique keeps_slots_load : keeps.

Lemma apply_slot_run task delivery now s b s1 :
  is_review task = true → apply_slot_success delivery now s = (Return b, s1) →
  b = current task delivery (work s) ∧ slots_only s s1.
Proof.
  intros Hrev. unfold apply_slot_success, current. rewrite Hrev.
  rewrite (bind_ret_run _ _ _ _ _ (slot_of_run delivery s)).
  destruct (slot_of delivery (work s)) as [slot|]; [|done]. cbv zeta. cbn [andb].
  set (b0 := if bool_decide (_ ∈ ["review_progress"; "review_result"]) then _ else true).
  intros Hrun. assert (Hkeep : slots_only s s1).
  { match type of Hrun with ?m s = _ => assert (Hk : keeps (slots_only s) m) by keeps_auto end.
    specialize (Hk s). rewrite Hrun in Hk. by apply Hk. }
  split; [|done].
  repeat (apply bind_Return in Hrun as (? & ? & _ & Hrun)). by injection Hrun as <- _.
Qed.

(** Assignments to one task, made one after the other. *)
Lemma modify_task_run task_id f s :
  ∃ s', modify (R := Task.t) task_id f s = (Return tt, s') ∧ committed s' = committed s ∧
    outbox (work s') = outbox (work s) ∧
    tasks (work s') = update_rows (λ t, bool_decide (Task.id t = task_id)) f (tasks (work s)).
Proof. by eexists. Qed.

(** [act] performs [f] on a task and leaves the outbox and the committed
    database alone. *)
Definition assigns (task_id : string) (act : SM ()) (f : Task.t → Task.t) : Prop :=
  (∀ t, Task.id (f t) = Task.id t) ∧
  ∀ s, ∃ s', act s = (Return tt, s') ∧ committed s' = committed s ∧
    outbox (work s') = outbox (work s) ∧
    tasks (work s') = update_rows (λ t, bool_decide (Task.id t = task_id)) f (tasks (work s)).

Lemma assigns_modify task_id f :
  (∀ t, Task.id (f t) = Task.id t) → assigns task_id (modify task_id f) f.
Proof. intros Hf. split; [done|]. intros s. apply modify_task_run. Qed.

Lemma assigns_nothing task_id : assigns task_id (mret tt) (λ t, t).
Proof. split; [done|]. intros s. exists s. by rewrite update_rows_id. Qed.

Lemma assigns_when task_id b act f :
  assigns task_id act f → assigns task_id (when b act) (λ t, if b then f t else t).
Proof. intros Hact. destruct b; [exact Hact|apply assigns_nothing]. Qed.

Lemma assigns_seq task_id act1 act2 f g :
  assigns task_id act1 f → assigns task_id act2 g →
  assigns task_id (act1 ;; act2) (λ t, g (f t)).
Proof.
  intros [Hf H1] [Hg H2]. split; [intros t; by rewrite Hg, Hf|]. intros s.
  destruct (H1 s) as (s1 & Hr1 & Hc1 & Ho1 & Ht1), (H2 s1) as (s2 & Hr2 & Hc2 & Ho2 & Ht2).
  exists s2. rewrite (bind_ret_run _ _ _ _ _ Hr1). split; [done|].
  split; [congruence|]. split; [congruence|]. rewrite Ht2, Ht1.
  by apply (update_key_twice Task.id).
Qed.

(** What an assignment that ran has done. *)
Lemma assigns_ran task_id act f s s' :
  assigns task_id act f → act s = (Return tt, s') →
  committed s' = committed s ∧ outbox (work s') = outbox (work s) ∧
  tasks (work s') = update_rows (λ t, bool_decide (Task.id t = task_id)) f (tasks (work s)).
Proof. intros [_ Hact] Hrun. destruct (Hact s) as (s1 & Hr & Hs1). rewrite Hr in Hrun. by injection Hrun as <-. Qed.

(** An assignment of a field the payload gives. *)
Lemma assigns_given task_id (value : option string) b (f : string → Task.t → Task.t) :
  (∀ v t, Task.id (f v t) = Task.id t) →
  assigns task_id (match value with Some v => when b (modify task_id (f v)) | None => mret tt end)
    (λ t, match value with Some v => if b then f v t else t | None => t end).
Proof.
  intros Hf. destruct value as [v|]; [|apply assigns_nothing]. apply assigns_when, assigns_modify, Hf.
Qed.

(** Whether the delivery is current for its slot, and what finding it out changes. *)
Lemma apply_transition_run task delivery now s b s1 :
  (if is_review task && bool_decide (DeliveryOutbox.operation delivery ∈ slot_operations)
   then apply_slot_success delivery now else mret true) s = (Return b, s1) →
  b = current task delivery (work s) ∧ slots_only s s1.
Proof.
  unfold current. destruct (is_review task) eqn:Hrev; simpl.
  - destruct (bool_decide (_ ∈ slot_operations)) eqn:Hop.
    + intros Hslot. apply (apply_slot_run task) in Hslot; [|done]. unfold current in Hslot.
      by rewrite Hrev in Hslot.
    + intros [= <- <-]. split; [|done]. rewrite bool_decide_false; [done|].
      apply bool_decide_eq_false in Hop. unfold slot_operations in Hop. set_solver.
  - by intros [= <- <-].
Qed.

Lemma apply_success_run task delivery now s s' :
  _apply_delivery_success task delivery now s = (Return tt, s') →
  let last := bool_decide (pending_mandatory delivery (outbox (work s)) = 0%nat) in
  committed s' = committed s ∧ outbox (work s') = outbox (work s) ∧
  tasks (work s') = update_rows (λ t, bool_decide (Task.id t = Task.id task))
    (settled_row task delivery (current task delivery (work s)) last now) (tasks (work s)).
Proof.
  intros Hrun last. unfold _apply_delivery_success in Hrun.
  apply bind_Return in Hrun as (cur & s1 & Hslot & Hrun).
  apply apply_transition_run in Hslot as [-> (Hc1 & Ht1 & Ho1)].
  set (cur := current task delivery (work s)) in *.
  apply bind_Return in Hrun as ([] & s2 & Hrun2 & Hrun).
  eapply assigns_ran in Hrun2 as (Hc2 & Ho2 & Ht2); [|by apply assigns_given].
  apply bind_Return in Hrun as ([] & s3 & Hrun3 & Hrun).
  eapply assigns_ran in Hrun3 as (Hc3 & Ho3 & Ht3); [|by apply assigns_given].
  rewrite bind_run in Hrun. cbn [gets] in Hrun. rewrite Ho3, Ho2, Ho1 in Hrun. fold last in Hrun.
  apply bind_Return in Hrun as ([] & s4 & Hrun4 & Hrun).
  eapply assigns_ran in Hrun4 as (Hc4 & Ho4 & Ht4);
    [|apply assigns_when, assigns_seq; [by apply assigns_modify|by apply assigns_given]].
  rewrite modify_run in Hrun. injection Hrun as <-.
  split; [simpl; congruence|]. split; [simpl; congruence|].
  change (tasks (work (on_rows ?f s4))) with (f (tasks (work s4))). rewrite Ht4, Ht3, Ht2, Ht1.
  rewrite !(update_key_twice Task.id) by (intros t; by repeat case_match). done.
Qed.

(** The delivered row. *)
Definition delivered_row (message_id : option string) (now : Z) (d : DeliveryOutbox.t)
    : DeliveryOutbox.t :=
  d .[ DeliveryOutbox.status := "delivered" ]
    .[ DeliveryOutbox.provider_message_id := message_id ]
    .[ DeliveryOutbox.last_error := None ] .[ DeliveryOutbox.delivered_at := Some now ]
    .[ DeliveryOutbox.lock_owner := None ] .[ DeliveryOutbox.locked_until := None ]
    .[ DeliveryOutbox.updated_at := now ].

Lemma finish_run claimed message_id now s s' d t task_id :
  find_row (DeliveryOutbox.id claimed) (outbox (work s)) = Some d →
  DeliveryOutbox.status d = "running" →
  DeliveryOutbox.lock_owner d = DeliveryOutbox.lock_owner claimed →
  find_row task_id (tasks (work s)) = Some t →
  finish_delivery claimed (Some task_id) message_id now s = (Return tt, s') →
  let d' := delivered_row message_id now d in
  let outbox' := update_rows (λ x, bool_decide (DeliveryOutbox.id x = DeliveryOutbox.id claimed))
                   (delivered_row message_id now) (outbox (work s)) in
  let last := bool_decide (pending_mandatory d' outbox' = 0%nat) in
  committed s' = work s' ∧ outbox (work s') = outbox' ∧
  tasks (work s') = update_rows (λ x, bool_decide (Task.id x = task_id))
    (settled_row t d' (current t d' (work s)) last now) (tasks (work s)).
Proof.
  intros Hd Hst Hown Ht. unfold finish_delivery.
  rewrite (bind_ret_run _ _ _ _ _ (load_run _ _ _ Hd)), Hst, Hown, !bool_decide_true by done.
  cbn [negb orb].
  set (s1 := on_rows (update_rows (λ x, bool_decide (DeliveryOutbox.id x = DeliveryOutbox.id claimed))
    (delivered_row message_id now)) s).
  rewrite (bind_ret_run _ _ _ _ _ (modify_run (R := DeliveryOutbox.t) _
    (delivered_row message_id now) s : _ = (_, s1))).
  assert (Hd1 : find_row (DeliveryOutbox.id claimed) (rows (work s1))
                = Some (delivered_row message_id now d)).
  { pose proof (find_update (R := DeliveryOutbox.t) (DeliveryOutbox.id claimed)
      (DeliveryOutbox.id claimed) (delivered_row message_id now) (outbox (work s)) (λ _, eq_refl)) as E.
    rewrite decide_True, Hd in E by done. exact E. }
  intros Hrun. apply bind_Return in Hrun as ([] & s2 & Hrun & Hcommit).
  injection Hcommit as <-.
  rewrite (bind_ret_run _ _ _ _ _ (load_run (R := Task.t) task_id s1 t Ht)) in Hrun.
  rewrite (bind_ret_run _ _ _ _ _ (load_run _ _ _ Hd1)) in Hrun.
  apply apply_success_run in Hrun as (_ & Hout & Htasks).
  split; [done|]. split; [exact Hout|].
  apply find_row_Some in Ht as [_ Hid]. change (Task.id t = task_id) in Hid.
  assert (Hslots : slots (work s1) = slots (work s)) by reflexivity.
  assert (Hcur : ∀ x, current t x (work s1) = current t x (work s)).
  { intros x. unfold current, slot_of. by rewrite Hslots. }
  rewrite Hid, Hcur in Htasks. exact Htasks.
Qed.
End success.

(** The three cases of [settled_row]. *)
Lemma settled_stale task delivery last now t :
  let t' := settled_row task delivery false last now t in
  Task.status t' = Task.status t ∧ Task.stage t' = Task.stage t ∧
  Task.completed_at t' = Task.completed_at t.
Proof. unfold settled_row. simpl. by repeat case_match. Qed.

Lemma settled_open task delivery cur last now t :
  DeliveryOutbox.mandatory delivery && last = false →
  let t' := settled_row task delivery cur last now t in
  Task.delivery_status t' = Task.delivery_status t ∧
  Task.completed_at t' = Task.completed_at t ∧
  (Task.status t' = Task.status t ∨
   non_empty_str (DeliveryOutbox.payload_json delivery) "success_status" = Some (Task.status t')).
Proof. intros Hl. unfold settled_row. rewrite Hl. cbv zeta. repeat case_match; auto. Qed.

Lemma settled_last task delivery cur last now t :
  DeliveryOutbox.mandatory delivery && last = true →
  let t' := settled_row task delivery cur last now t in
  Task.delivery_status t' = "delivered" ∧
  ∀ final, non_empty_str (DeliveryOutbox.payload_json delivery) "final_status" = Some final →
    cur = true → Task.status t' = final ∧ Task.completed_at t' = Some now.
Proof.
  intros Hl. unfold settled_row. rewrite Hl. cbv zeta. split; [by repeat case_match|].
  intros final Hf ->. rewrite Hf. done.
Qed.

Section settle.
Context `{Runtime} `{ProviderRegistry}.

End settle.
