(* ===== verification/DeliveryInvariant.v ===== *)
(** * No delivery is ever stuck

    The invariant of the outbox over everything that writes it, whatever the
    provider adapters do in between, as long as they respect it too. *)
From S2P Require Import Prelude PyText Json Models Invariants Scheduler SchedulerAdmin Delivery.
From S2P Require Import DeliveryTheorems.
#[global] Open Scope Z_scope.
#[global] Open Scope orch_scope.

Definition delivery_statuses : list string :=
  ["queued"; "running"; "delivered"; "failed"; "superseded"].

(** A delivery is leased exactly while it is running. *)
Definition delivery_ok (d : DeliveryOutbox.t) : Prop :=
  DeliveryOutbox.status d ∈ delivery_statuses ∧
  (DeliveryOutbox.status d = "running" →
    is_Some (DeliveryOutbox.lock_owner d) ∧ is_Some (DeliveryOutbox.locked_until d)) ∧
  (DeliveryOutbox.status d ≠ "running" →
    DeliveryOutbox.lock_owner d = None ∧ DeliveryOutbox.locked_until d = None).

(** Identifiers are distinct and every row is in order. *)
Definition outbox_ok (l : list DeliveryOutbox.t) : Prop :=
  NoDup (DeliveryOutbox.id <$> l) ∧ Forall delivery_ok l.

Definition outboxes_ok (s : Session) : Prop :=
  outbox_ok (outbox (work s)) ∧ outbox_ok (outbox (committed s)).

(** Updates of rows already known to be in the outbox. *)
Lemma outbox_ok_map (f : DeliveryOutbox.t → DeliveryOutbox.t) l :
  (∀ d, DeliveryOutbox.id (f d) = DeliveryOutbox.id d) →
  (∀ d, d ∈ l → delivery_ok d → delivery_ok (f d)) → outbox_ok l → outbox_ok (f <$> l).
Proof.
  intros Hid Hf [Hnd Hl]. split.
  - rewrite <- list_fmap_compose, (list_fmap_ext _ DeliveryOutbox.id); [done|].
    intros i d _. apply Hid.
  - apply Forall_fmap, Forall_forall. intros d Hd. rewrite Forall_forall in Hl.
    by apply Hf; [|apply Hl].
Qed.

Lemma outbox_ok_update (P : DeliveryOutbox.t → bool) f l :
  (∀ d, DeliveryOutbox.id (f d) = DeliveryOutbox.id d) →
  (∀ d, d ∈ l → delivery_ok d → P d → delivery_ok (f d)) →
  outbox_ok l → outbox_ok (update_rows P f l).
Proof.
  intros Hid Hf. apply outbox_ok_map.
  - intros d. by destruct (P d).
  - intros d Hd Hok. destruct (P d) eqn:HP; [|done]. apply Hf; [done|done|]. by rewrite HP.
Qed.

Lemma unlocked_ok d :
  DeliveryOutbox.status d ∈ ["queued"; "delivered"; "failed"; "superseded"] →
  DeliveryOutbox.lock_owner d = None → DeliveryOutbox.locked_until d = None → delivery_ok d.
Proof.
  intros Hst Ho Hu. split; [unfold delivery_statuses; set_solver|]. split; [|done].
  intros Hr. rewrite Hr in Hst. set_solver.
Qed.

Lemma running_ok token lock_seconds now d : delivery_ok (mark_running token lock_seconds now d).
Proof.
  split; [unfold delivery_statuses; simpl; set_solver|]. split; [simpl; eauto|done].
Qed.

Lemma reclaimed_ok now d : delivery_ok d → delivery_ok (reclaimed now d).
Proof.
  intros Hd. unfold reclaimed. destruct (lease_expired now d); [|done].
  apply unlocked_ok; [simpl; set_solver|done|done].
Qed.

(** Any computation that leaves the outbox alone keeps the invariant. *)
Lemma keeps_other_rows {R} `{Table R} (f : list R → list R) :
  (∀ l d, outbox (with_rows l d) = outbox d) → keeps outboxes_ok (puts (on_rows f)).
Proof. intros Hother s [Hw Hc]. split; [|done]. simpl. by rewrite Hother. Qed.

Lemma keeps_ok_task k f : keeps outboxes_ok (modify (R := Task.t) k f).
Proof. by apply keeps_other_rows. Qed.
Lemma keeps_ok_slot k f : keeps outboxes_ok (modify (R := ReviewCommentSlot.t) k f).
Proof. by apply keeps_other_rows. Qed.
Lemma keeps_ok_slot_unique k f :
  keeps outboxes_ok (modify_unique (R := ReviewCommentSlot.t) k f).
Proof.
  unfold modify_unique. apply keeps_bind; [apply keeps_gets|]. intros l.
  destruct (find_row k l); [|apply keeps_ret].
  destruct (violation _ _); [apply keeps_raise|apply keeps_ok_slot].
Qed.
Lemma keeps_ok_fetch {R} `{Table R} k : keeps outboxes_ok (fetch (R := R) k).
Proof. by intros s Hs. Qed.
Lemma keeps_ok_load {R} `{Table R} k : keeps outboxes_ok (load (R := R) k).
Proof.
  unfold load. apply keeps_bind; [apply keeps_ok_fetch|].
  intros [r|]; [apply keeps_ret|apply keeps_raise].
Qed.
Lemma keeps_ok_select {R} `{Table R} (P : R → bool) : keeps outboxes_ok (select P).
Proof. by intros s Hs. Qed.
Lemma keeps_ok_commit : keeps outboxes_ok commit.
Proof. by intros s [Hw _]. Qed.
Lemma keeps_ok_utc_now `{Runtime} : keeps outboxes_ok utc_now.
Proof. by intros s Hs. Qed.
Lemma keeps_ok_uuid4 `{Runtime} : keeps outboxes_ok uuid4.
Proof. by intros s Hs. Qed.
Lemma keeps_ok_or_now `{Runtime} now : keeps outboxes_ok (or_now now).
Proof. destruct now; [apply keeps_ret|apply keeps_ok_utc_now]. Qed.
Lemma keeps_ok_slot_lookup d : keeps outboxes_ok (_delivery_comment_slot d).
Proof. intros s Hs. by rewrite slot_of_run. Qed.
Lemma keeps_ok_one {R} (l : list R) : keeps outboxes_ok (scalar_one_or_none l).
Proof. destruct l as [|? [|? ?]]; (apply keeps_ret || apply keeps_raise). Qed.
#[export] Hint Resolve keeps_ok_task keeps_ok_slot keeps_ok_slot_unique keeps_ok_fetch
  keeps_ok_load keeps_ok_select keeps_ok_commit keeps_ok_utc_now keeps_ok_uuid4 keeps_ok_or_now
  keeps_ok_slot_lookup keeps_ok_one : keeps.

#[export] Instance outboxes_table `{Runtime} : TableInvariant outboxes_ok.
Proof. apply (table_invariant_both (λ d, outbox_ok (outbox d))). by intros d d' _ _ ->. Qed.

(** Updates of the outbox itself. *)
Lemma keeps_ok_outbox (P : DeliveryOutbox.t → bool) f :
  (∀ d, DeliveryOutbox.id (f d) = DeliveryOutbox.id d) →
  (∀ d, delivery_ok d → P d → delivery_ok (f d)) →
  keeps outboxes_ok (puts (on_rows (update_rows P f))).
Proof. intros Hid Hf s [Hw Hc]. split; [|done]. apply outbox_ok_update; auto. Qed.

Section outbox_invariant.
Context `{Runtime}.

Lemma keeps_ok_enqueue task_id provider operation destination key payload mandatory priority
    max_attempts supersede :
  keeps outboxes_ok (enqueue_delivery task_id provider operation destination key payload mandatory
    priority max_attempts supersede).
Proof.
  unfold enqueue_delivery. apply keeps_bind; [auto with keeps|]. intros l.
  apply keeps_bind; [auto with keeps|]. intros [d|]; [keeps_auto|].
  apply keeps_bind.
  { apply keeps_when, keeps_bind; [auto with keeps|]. intros now. unfold update_where.
    apply keeps_bind; [|keeps_auto]. apply keeps_bind; [auto with keeps|]. intros n.
    apply keeps_bind; [|keeps_auto]. apply keeps_ok_outbox; [done|]. intros d (_ & _ & Hq) HP.
    apply Is_true_andb in HP as [_ Hst%bool_decide_unpack].
    destruct Hq as [Ho Hu]; [by rewrite Hst|].
    apply unlocked_ok; [simpl; set_solver|done|done]. }
  intros u. apply keeps_bind; [auto with keeps|]. intros t.
  apply keeps_bind; [keeps_auto|]. intros u'.
  intros s [Hw Hc]. unfold new_delivery. run_steps.
  set (d := DeliveryOutbox.mk _ _ _ _ _ _ _ _ _ _ _ _ _ _ _ _ _ _ _ _ _ _).
  unfold insert. rewrite bind_run. cbn [gets]. destruct (violation d _) eqn:Hv; [done|].
  destruct Hw as [Hnd Hall]. split; [|done]. split.
  - exact (insert_keys (R := DeliveryOutbox.t) d (outbox (work s)) Hv Hnd).
  - apply Forall_app. split; [exact Hall|]. constructor; [|done].
    apply unlocked_ok; [simpl; set_solver|done|done].
Qed.

Lemma keeps_ok_reclaim now : keeps outboxes_ok (reclaim_expired_deliveries now).
Proof.
  unfold reclaim_expired_deliveries. apply keeps_bind; [auto with keeps|]. intros t.
  intros s [Hw Hc]. split; [|done].
  apply (outbox_ok_map (reclaimed t)); [apply reclaimed_id| |done].
  intros d _. apply reclaimed_ok.
Qed.

Lemma keeps_ok_claim worker_id lock_seconds now :
  keeps outboxes_ok (claim_next_delivery worker_id lock_seconds now).
Proof.
  unfold claim_next_delivery. apply keeps_bind; [auto with keeps|]. intros t.
  apply keeps_bind; [apply keeps_ok_reclaim|]. intros _.
  apply keeps_bind; [apply keeps_gets|]. intros [d|]; [|apply keeps_ret].
  apply keeps_bind; [auto with keeps|]. intros token.
  apply keeps_bind; [|intros _; keeps_auto].
  apply keeps_ok_outbox; [done|]. intros x _ _. apply running_ok.
Qed.

Lemma keeps_ok_slot_success delivery now : keeps outboxes_ok (apply_slot_success delivery now).
Proof. unfold apply_slot_success. keeps_auto. Qed.

Lemma keeps_ok_success task delivery now :
  keeps outboxes_ok (_apply_delivery_success task delivery now).
Proof.
  unfold _apply_delivery_success. apply keeps_bind.
  { apply keeps_if; [apply keeps_ok_slot_success|apply keeps_ret]. }
  intros cur. keeps_auto.
Qed.

Lemma keeps_ok_finish claimed task_id message_id now :
  keeps outboxes_ok (finish_delivery claimed task_id message_id now).
Proof.
  unfold finish_delivery. apply keeps_bind; [auto with keeps|]. intros d.
  destruct (_ || _); [apply keeps_ret|]. apply keeps_bind.
  { apply keeps_ok_outbox; [done|]. intros x _ _.
    apply (unlocked_ok (delivered_row message_id now x)); [simpl; set_solver|done|done]. }
  intros _. apply keeps_bind; [|intros _; keeps_auto].
  destruct task_id as [k|]; [|apply keeps_ret].
  apply keeps_bind; [auto with keeps|]. intros t.
  apply keeps_bind; [auto with keeps|]. intros x. apply keeps_ok_success.
Qed.

Lemma keeps_ok_failure claimed task e retry_delay_seconds now :
  keeps outboxes_ok (_record_delivery_failure claimed task e retry_delay_seconds now).
Proof.
  intros s [Hw Hc].
  pose proof (record_failure_run claimed task e retry_delay_seconds now s)
    as (Hret & Hcm & Hout & _).
  destruct (_record_delivery_failure _ _ _ _ _ s) as [o s']. simpl in *. subst o.
  unfold outboxes_ok. rewrite Hcm, Hout. 
  assert (Hok : outbox_ok (update_rows (λ x, bool_decide (DeliveryOutbox.id x
    = DeliveryOutbox.id claimed)) (failed_row claimed e retry_delay_seconds now)
    (outbox (work s)))); [|done].
  apply outbox_ok_update; [| |done].
  - intros d. unfold failed_row. by destruct (exhausted claimed).
  - intros d _ _ _. unfold failed_row.
    destruct (exhausted claimed); (apply unlocked_ok; [simpl; set_solver|done|done]).
Qed.

(** Adapters that respect the outbox. *)
Class OutboxRespecting `{ProviderRegistry} : Prop := {
  agent_comment_respects p t st : keeps outboxes_ok (publish_agent_task_comment p t st);
  summary_respects p t st stats : keeps outboxes_ok (publish_summary_comment p t st stats);
  line_comments_respects p t files : keeps outboxes_ok (publish_line_comments p t files)
}.

Lemma keeps_ok_execute `{OutboxRespecting} task delivery :
  keeps outboxes_ok (_execute_delivery task delivery).
Proof.
  pose proof agent_comment_respects. pose proof summary_respects.
  pose proof line_comments_respects.
  unfold _execute_delivery, require_capability, slot_gate, publish_review_comment. keeps_auto.
Qed.

Lemma keeps_ok_process `{OutboxRespecting} worker_id lock_seconds retry_delay_seconds now :
  keeps outboxes_ok (process_next_delivery worker_id lock_seconds retry_delay_seconds now).
Proof.
  unfold process_next_delivery. apply keeps_bind; [auto with keeps|]. intros t.
  apply keeps_bind; [apply keeps_ok_claim|]. intros [d|]; [|apply keeps_ret].
  apply keeps_bind; [auto with keeps|]. intros task. apply keeps_bind.
  - apply keeps_try.
    + destruct task; [|apply keeps_raise].
      apply keeps_bind; [apply keeps_ok_execute|intros msg; apply keeps_ret].
    + intros e. apply keeps_bind; [apply keeps_ok_failure|intros _; apply keeps_ret].
  - intros o. apply keeps_bind; [|intros _; apply keeps_ret].
    destruct o; [apply keeps_ok_finish|apply keeps_ret].
Qed.

Lemma keeps_ok_reschedule delivery_id payload :
  keeps outboxes_ok (update_delivery_scheduling delivery_id payload).
Proof.
  intros s Hs. unfold update_delivery_scheduling. rewrite bind_run, fetch_run.
  change (rows (work s)) with (outbox (work s)).
  destruct (find_row delivery_id (outbox (work s))) as [x|] eqn:Hx; [|done].
  case_bool_decide as Hst; cbn [negb]; [|done].
  rewrite bind_run. cbn [utc_now].
  match goal with |- context [modify delivery_id ?f] => set (g := f) end.
  rewrite (bind_ret_run _ _ _ _ _ (modify_run (R := DeliveryOutbox.t) delivery_id g _)).
  assert (Hok : outbox_ok (update_rows (λ d, bool_decide (DeliveryOutbox.id d = delivery_id)) g
    (outbox (work s)))); [|by split].
  destruct Hs as [Hs _]. apply find_row_Some in Hx as [Hx Hid].
  assert (Hg : ∀ d, DeliveryOutbox.id (g d) = DeliveryOutbox.id d).
  { intros d. subst g. unfold if_given. by repeat case_match. }
  apply outbox_ok_update; [exact Hg| |exact Hs].
  intros d Hd _ Hdid%bool_decide_unpack.
  assert (d = x) as ->.
  { eapply (NoDup_key_eq DeliveryOutbox.id); [apply Hs|done..|]. by rewrite Hdid. }
  apply unlocked_ok; [|done..]. subst g. unfold if_given. cbn -[bool_decide elem_of].
  repeat case_match; simpl in *; set_solver.
Qed.

(** The transactions that write the outbox. *)
Inductive outbox_step `{OutboxRespecting} (d : Db) : Db → Prop :=
  | outbox_enqueue task_id provider operation destination key payload mandatory priority
      max_attempts supersede n m :
      outbox_step d (committed (exec (enqueue_delivery task_id provider operation destination key
        payload mandatory priority max_attempts supersede ;; commit) (open_session d n m)))
  | outbox_process worker_id lock_seconds retry_delay_seconds now n m :
      outbox_step d (committed (exec (process_next_delivery worker_id lock_seconds
        retry_delay_seconds now) (open_session d n m)))
  | outbox_reclaim now n m :
      outbox_step d (committed (exec (reclaim_expired_deliveries now ;; commit)
        (open_session d n m)))
  | outbox_reschedule delivery_id payload n m :
      outbox_step d (committed (exec (update_delivery_scheduling delivery_id payload)
        (open_session d n m)))
  | outbox_other d' : outbox d' = outbox d → outbox_step d d'.

Lemma outbox_step_ok `{OutboxRespecting} d d' :
  outbox_step d d' → outbox_ok (outbox d) → outbox_ok (outbox d').
Proof.
  intros Hstep Hd.
  assert (Ho : ∀ {A} (act : SM A) n m, keeps outboxes_ok act →
    outbox_ok (outbox (committed (exec act (open_session d n m))))).
  { intros A act n m Hk. by apply (keeps_exec _ _ (open_session d n m) Hk). }
  destruct Hstep as [| | | |? Heq]; [| | | |by rewrite Heq]; apply Ho.
  - apply keeps_bind; [apply keeps_ok_enqueue|intros id; auto with keeps].
  - apply keeps_ok_process.
  - apply keeps_bind; [apply keeps_ok_reclaim|intros id; auto with keeps].
  - apply keeps_ok_reschedule.
Qed.

(** C6: no message is ever stuck with a dead worker: in every state reachable
    by enqueueing, delivering, reclaiming and rescheduling, with adapters that may
    themselves interleave such steps, a running delivery has a lease, and once the
    lease is over the next worker to look finds the message queued again; a
    delivery that is not running is not locked. *)
Theorem no_delivery_stuck `{OutboxRespecting} d x :
  rtc outbox_step empty_db d → x ∈ outbox d →
  if bool_decide (DeliveryOutbox.status x = "running") then
    ∃ until owner, DeliveryOutbox.locked_until x = Some until ∧
      DeliveryOutbox.lock_owner x = Some owner ∧
      ∀ now n m, until < now →
        reclaimed now x ∈ outbox (work (exec (reclaim_expired_deliveries (Some now))
                                    (open_session d n m))) ∧
        DeliveryOutbox.status (reclaimed now x) = "queued" ∧
        DeliveryOutbox.available_at (reclaimed now x) = now
  else DeliveryOutbox.lock_owner x = None ∧ DeliveryOutbox.locked_until x = None.
Proof.
  intros Hreach Hx. assert (Hok : outbox_ok (outbox d)).
  { clear Hx. assert (Hempty : outbox_ok (outbox empty_db)) by (split; constructor). revert Hempty.
    induction Hreach as [|a b c Hstep _ IH]; [done|]. intros Ha. by eapply IH, outbox_step_ok. }
  destruct Hok as [_ Hok]. rewrite Forall_forall in Hok. destruct (Hok x Hx) as (_ & Hrun & Hnot). case_bool_decide as Hst; [|by apply Hnot].
  destruct (Hrun Hst) as [[owner Ho] [until Hu]]. exists until, owner.
  split; [done|]. split; [done|]. intros now n m Hlt.
  assert (Hexp : lease_expired now x = true).
  { unfold lease_expired. rewrite bool_decide_true, Hu by done. by apply Z.ltb_lt. }
  split; [by apply (list_elem_of_fmap_2 (reclaimed now))|].
  unfold reclaimed. by rewrite Hexp.
Qed.
End outbox_invariant.
