(* ===== verification/DeliveryExamples.v ===== *)
(** * The delivery theorems on concrete inputs *)
From S2P Require Import Prelude PyText Json Models Scheduler SchedulerAdmin Demo Delivery.
From S2P Require Import DeliveryTheorems DeliveryInvariant.
#[global] Open Scope Z_scope.
#[global] Open Scope orch_scope.

Section examples.
#[local] Existing Instance demo_runtime.

(** Adapters whose calls succeed at once, and adapters that are down. *)
Definition working_registry : ProviderRegistry := {|
  has_capability _ _ := true;
  publish_agent_task_comment _ _ _ := mret "comment-1";
  publish_summary_comment _ _ _ _ := mret (Some (Some "comment-1"));
  publish_line_comments _ _ _ := mret 0;
  validate_changed_file _ := Return (ChangedFile.mk "a.py" [])
|}.

Definition failing_registry : ProviderRegistry := {|
  has_capability _ _ := true;
  publish_agent_task_comment _ _ _ := raise (ProviderError "down");
  publish_summary_comment _ _ _ _ := raise (ProviderError "down");
  publish_line_comments _ _ _ := raise (ProviderError "down");
  validate_changed_file _ := Return (ChangedFile.mk "a.py" [])
|}.

Lemma working_respects : @OutboxRespecting working_registry.
Proof. split; intros; apply keeps_ret. Qed.

(** A summary call that outlives its lease: while it hangs, a second worker with
    working adapters reclaims and makes the delivery; then the call ends as [o]
    says. *)
Definition overtaken_registry (o : outcome (option (option string))) : ProviderRegistry := {|
  has_capability _ _ := true;
  publish_agent_task_comment _ _ _ := mret "comment-1";
  publish_summary_comment _ _ _ _ := λ s,
    (o, exec (@process_next_delivery demo_runtime working_registry "w2" 60 30
                (Some (100 * second))) s);
  publish_line_comments _ _ _ := mret 0;
  validate_changed_file _ := Return (ChangedFile.mk "a.py" [])
|}.

(** A run whose result waits to be published in its bound slot. *)
Definition result_payload (version : Z) : list (string * json) :=
  [("slot_id", JStr "slot-1"); ("result_version", JInt version); ("status_text", JStr "done");
   ("final_status", JStr "completed")].
Definition result_db (max_attempts : Z) : Db :=
  empty_db .[ tasks := [demo_review "run-1" "awaiting_delivery" "completed" (demo_run "head111" 1)] ]
    .[ slots := [demo_slot "slot-1" "run-1" "ready" (Some "comment-0") 1] ]
    .[ outbox := [demo_delivery "d-1" "run-1" "review_result" (result_payload 1) max_attempts] ].

Definition status_of (d : Db) : list (string * Z * option string) :=
  (λ x, (DeliveryOutbox.status x, DeliveryOutbox.attempt x, DeliveryOutbox.provider_message_id x))
    <$> outbox d.

(** The stale worker's failure puts a message that was delivered meanwhile back
    into the queue, and with a limited number of attempts it fails the task that
    the delivery had completed. *)
Example stale_failure_requeues_delivered :
  let stale := @process_next_delivery demo_runtime
                 (overtaken_registry (Raise (ProviderError "timeout"))) "w1" 60 30 (Some second) in
  status_of (after stale (result_db 0)) = [("queued", 2, Some "comment-1")] ∧
  status_of (after stale (result_db 1)) = [("failed", 2, Some "comment-1")] ∧
  Task.status <$> tasks (after stale (result_db 1)) = ["failed"].
Proof. by vm_compute. Qed.

(** Its success, by contrast, is discarded. *)
Example stale_success_discarded :
  let stale := @process_next_delivery demo_runtime
                 (overtaken_registry (Return (Some (Some "comment-9")))) "w1" 60 30 (Some second) in
  status_of (after stale (result_db 0)) = [("delivered", 2, Some "comment-1")] ∧
  Task.status <$> tasks (after stale (result_db 0)) = ["completed"].
Proof. by vm_compute. Qed.

(** ** Witnesses *)

Abbreviation enqueue_result max_attempts :=
  (enqueue_delivery "run-1" "github" "review_result" "dest" "key-new" (JObj (result_payload 1)) true
    None max_attempts true).
Definition pending_session : Session := demo_session (result_db 0).
Definition enqueued_session : Session := exec (enqueue_result 0) pending_session.

Lemma enqueue_idempotent_witness :
  enqueue_result 3 enqueued_session = (Return "uuid-3", enqueued_session).
Proof.
  assert (Hrun : enqueue_result 0 pending_session = (Return "uuid-3", enqueued_session)).
  { apply (run_result (enqueue_result 0)). vm_compute. reflexivity. }
  pose proof (enqueue_idempotent "run-1" "github" "review_result" "dest" "key-new"
    (JObj (result_payload 1)) true None 0 true pending_session "uuid-3" enqueued_session Hrun
    "run-1" "github" "review_result" "dest" (JObj (result_payload 1)) true None 3 true) as Hagain.
  rewrite bool_decide_true in Hagain by reflexivity. exact Hagain.
Defined.

Definition waiting_run : Task.t :=
  demo_review "run-1" "awaiting_delivery" "completed" (demo_run "head111" 1).

Lemma enqueue_creates_one_witness :
  ∃ d s1, enqueue_result 0 pending_session = (Return (DeliveryOutbox.id d), s1) ∧
    DeliveryOutbox.priority d = 50.
Proof.
  destruct (enqueue_creates_one "run-1" "github" "review_result" "dest" "key-new"
    (JObj (result_payload 1)) true None 0 true pending_session waiting_run)
    as (d & s1 & Hrun & _ & Hp & _).
  - vm_compute. reflexivity.
  - vm_compute. reflexivity.
  - decide_by_computation.
  - exists d, s1. split; [exact Hrun|exact Hp].
Defined.

Abbreviation first_claim := (claim_next_delivery "w1" 60 (Some second)).
Definition claimed_result (max_attempts : Z) : DeliveryOutbox.t :=
  mark_running "w1:uuid-3" 60 second
    (demo_delivery "d-1" "run-1" "review_result" (result_payload 1) max_attempts).

Lemma claim_takes_best_delivery_witness :
  find_row "d-1" (outbox (committed (exec first_claim (demo_session (result_db 0))))) = Some (claimed_result 0).
Proof.
  destruct (claim_takes_best_delivery "w1" 60 second (result_db 0) 0 (drawn (result_db 0))
    (Return (Some (claimed_result 0))) (exec first_claim (demo_session (result_db 0))))
    as (x & Hx & _ & Hc & Hf).
  - decide_by_computation.
  - apply (run_result first_claim). vm_compute. reflexivity.
  - vm_compute in Hx. apply list_elem_of_singleton in Hx. subst x. exact Hf.
Defined.

(** The provider call of worker w1. *)
Abbreviation call R max_attempts :=
  (@_execute_delivery R waiting_run (claimed_result max_attempts)).
Abbreviation called R max_attempts :=
  (exec (call R max_attempts) (exec first_claim (demo_session (result_db max_attempts)))).

Lemma published_by_w1 (R : ProviderRegistry) max_attempts o :
  result (call R max_attempts) (exec first_claim (demo_session (result_db max_attempts))) = o →
  @published _ R "w1" 60 second (demo_session (result_db max_attempts)) (claimed_result max_attempts)
    waiting_run o (called R max_attempts).
Proof.
  intros Ho. exists (exec first_claim (demo_session (result_db max_attempts))).
  split; [|split].
  - apply (run_result first_claim). vm_compute. reflexivity.
  - vm_compute. reflexivity.
  - by apply (run_result (call R max_attempts)).
Qed.

Abbreviation process R := (@process_next_delivery demo_runtime R "w1" 60 30 (Some second)).

Lemma lost_lease_records_nothing_witness :
  process (overtaken_registry (Return (Some (Some "comment-9")))) (demo_session (result_db 0)) =
    (Return (Some "d-1"), called (overtaken_registry (Return (Some (Some "comment-9")))) 0).
Proof.
  eapply (@lost_lease_records_nothing _ (overtaken_registry (Return (Some (Some "comment-9"))))
    "w1" 60 30 second (demo_session (result_db 0)) (claimed_result 0)).
  - apply published_by_w1. vm_compute. reflexivity.
  - vm_compute. reflexivity.
  - left. done.
Defined.


(** A result the slot has left behind. *)
Definition superseded_db : Db :=
  (result_db 0) .[ slots := [demo_slot "slot-1" "run-1" "ready" (Some "c") 2] ].

Lemma result_obeys_slot_witness :
  call failing_registry 0 (demo_session superseded_db) =
    (Return (Some "c"), demo_session superseded_db).
Proof.
  erewrite (@result_obeys_slot failing_registry waiting_run (demo_run "head111" 1)
    (claimed_result 0) _ (demo_slot "slot-1" "run-1" "ready" (Some "c") 2) 1).
  - reflexivity.
  - vm_compute. right. left.
  - reflexivity.
  - reflexivity.
  - vm_compute. reflexivity.
  - vm_compute. reflexivity.
  - done.
Defined.


(** Adapters that publish but learn no comment identifier. *)
Definition anonymous_registry : ProviderRegistry := {|
  has_capability _ _ := true;
  publish_agent_task_comment _ _ _ := mret "comment-1";
  publish_summary_comment _ _ _ _ := mret (Some None);
  publish_line_comments _ _ _ := mret 0;
  validate_changed_file _ := Return (ChangedFile.mk "a.py" [])
|}.

Lemma anonymous_respects : @OutboxRespecting anonymous_registry.
Proof. split; intros; apply keeps_ret. Qed.

Definition placeholder_db : Db :=
  (with_tasks [waiting_run]) .[ slots := [demo_slot "slot-1" "run-1" "pending" None 0] ].
Abbreviation enqueue_placeholder :=
  (enqueue_delivery "run-1" "github" "review_placeholder" "dest" "key-new"
     (JObj [("slot_id", JStr "slot-1"); ("status_text", JStr "queued")]) true None 1 false).
Definition enqueued_db : Db :=
  committed (exec (enqueue_placeholder ;; commit) (open_session placeholder_db 0 0)).
Definition unbound_db : Db :=
  committed (exec (process anonymous_registry) (open_session enqueued_db 0 1)).

(** The placeholder was published without an identifier: the error escapes, the
    only attempt allowed is used up, and the delivery stays running until its lease
    ends, with no error on record. *)
Definition unbound_delivery : DeliveryOutbox.t :=
  DeliveryOutbox.mk "uuid-0" "run-1" "github" "review_placeholder" "dest" "key-new"
    (JObj [("slot_id", JStr "slot-1"); ("status_text", JStr "queued")])
    (json_dumps (JObj [("slot_id", JStr "slot-1"); ("status_text", JStr "queued")])) true "running"
    "provider-github" 50 0 1 1 (Some "w1:uuid-1") (Some (61 * second)) None None None second second.

Example unbound_placeholder_not_recorded :
  result (process anonymous_registry) (open_session enqueued_db 0 1) =
    Raise (ProviderError "Placeholder delivery did not bind a provider comment.") ∧
  outbox unbound_db = [unbound_delivery].
Proof. by vm_compute. Qed.

Lemma no_delivery_stuck_witness :
  ∃ until, DeliveryOutbox.locked_until unbound_delivery = Some until ∧
    ∀ now, until < now → DeliveryOutbox.status (reclaimed now unbound_delivery) = "queued".
Proof.
  pose proof (@no_delivery_stuck _ anonymous_registry anonymous_respects unbound_db unbound_delivery)
    as Hstuck.
  destruct Hstuck as (until & owner & Hu & _ & Hq).
  - eapply rtc_l; [by apply (outbox_other _ placeholder_db)|]. unfold unbound_db, enqueued_db.
    eapply rtc_l; [apply (outbox_enqueue _ "run-1" "github" "review_placeholder" "dest" "key-new"
      (JObj [("slot_id", JStr "slot-1"); ("status_text", JStr "queued")]) true None 1 false 0 0)|].
    eapply rtc_l; [apply (outbox_process _ "w1" 60 30 (Some second) 0 1)|]. apply rtc_refl.
  - vm_compute. left.
  - exists until. split; [exact Hu|]. intros now Hlt. by apply (Hq now 0%nat 0%nat).
Defined.
End examples.
