(* ===== verification/ReviewResults.v ===== *)
(** * Review results

    Model of [src/src/review_orchestrator/domain/review_results.py]: reading an
    agent's result, which findings can be line comments, and the fingerprint that
    identifies a finding.  Checking a JSON value against the result schema
    (pydantic) and parsing JSON text are the interface [ResultSchema]. *)
From Stdlib Require Import Ascii QArith.
From S2P Require Import Prelude PyText Json Models Delivery.
#[global] Open Scope Z_scope.
#[global] Open Scope orch_scope.

Inductive FindingSeverity := critical | high | medium | low | info.

(** The value of the [StrEnum]. *)
Definition severity_str (s : FindingSeverity) : string :=
  match s with
  | critical => "critical" | high => "high" | medium => "medium" | low => "low"
  | info => "info"
  end.

#[export] Instance FindingSeverity_eq_dec : EqDecision FindingSeverity.
Proof. solve_decision. Defined.

Module ReviewFinding.
Record t := mk {
  file : string;
  line : option Z;
  line_end : option Z;
  severity : FindingSeverity;
  category : option string;
  message : string;
  suggestion : option string;
  confidence : Q
}.
End ReviewFinding.

Module ReviewResult.
Record t := mk { summary : string; findings : list ReviewFinding.t }.
End ReviewResult.

Module PublishableFinding.
Record t := mk {
  finding : ReviewFinding.t;
  fingerprint : string;
  publish_as_line_comment : bool;
  reason : option string
}.
End PublishableFinding.

Module ParsedReviewResult.
Record t := mk {
  result : ReviewResult.t;
  findings : list PublishableFinding.t;
  summary_only_findings : list ReviewFinding.t
}.
End ParsedReviewResult.

(** [ReviewResultError]. *)
Inductive ReviewResultErrorCode := json_parse_error | schema_error | location_error.
Definition error_code_str (c : ReviewResultErrorCode) : string :=
  match c with
  | json_parse_error => "json_parse_error"
  | schema_error => "schema_error"
  | location_error => "location_error"
  end.
Definition ReviewResultError : Type := ReviewResultErrorCode * string.

(** The validator of [file]. *)
Definition reject_absolute_paths (value : string) : outcome string :=
  if starts_with "/" value || bool_decide (".." ∈ py_split "/" value)
  then Raise (ValueError "file must be a repository-relative path")
  else Return value.

(** Either the decoded value or the decoder's message; either the validated result
    or the message of the first schema error. *)
Class ResultSchema := {
  json_loads : string → string + json;
  validate_result : list (string * json) → string + ReviewResult.t
}.

Definition _normalize_path (path : string) : string :=
  py_lower (py_strip (py_replace_char "\" "/" path)).

Definition not_word_or_space (c : ascii) : bool := negb (is_word c) && negb (is_space c).

Definition _normalize_text (text : string) : string :=
  py_strip (re_sub_runs is_space (re_sub_runs not_word_or_space (py_lower text))).

Definition newline : string := String "010" "".

Definition _line_comment_blocker (finding : ReviewFinding.t)
    (changed_files : gmap string ChangedFile.t) : option string :=
  match ReviewFinding.line finding with
  | None => Some "line_not_provided"
  | Some line =>
      if bool_decide (changed_files = ∅) then None
      else
        match changed_files !! ReviewFinding.file finding with
        | None => Some "file_not_changed"
        | Some changed_file =>
            if negb (bool_decide (ChangedFile.commentable_lines changed_file = []))
               && negb (bool_decide (line ∈ ChangedFile.commentable_lines changed_file))
            then Some "line_not_commentable" else None
        end
  end.

(** [{item.path: item for item in changed_files or []}]. *)
Definition changed_file_map (changed_files : list ChangedFile.t) : gmap string ChangedFile.t :=
  foldl (λ m item, <[ChangedFile.path item := item]> m) ∅ changed_files.

Section results.
Context `{Runtime} `{ResultSchema}.

Definition stable_parts (provider repo_full_name : string) (pr_number : Z)
    (base_sha head_sha : string) (finding : ReviewFinding.t) : list string :=
  [provider; repo_full_name; str_int pr_number; base_sha; head_sha;
   _normalize_path (ReviewFinding.file finding); severity_str (ReviewFinding.severity finding);
   _normalize_text (ReviewFinding.message finding)].

Definition build_fingerprint (provider repo_full_name : string) (pr_number : Z)
    (base_sha head_sha : string) (finding : ReviewFinding.t) : string :=
  "sha256:" +:+ sha256_hexdigest
    (py_join newline (stable_parts provider repo_full_name pr_number base_sha head_sha finding)).

Definition _load_json (raw_output : string + list (string * json))
    : ReviewResultError + list (string * json) :=
  match raw_output with
  | inr fields => inr fields
  | inl text =>
      match json_loads text with
      | inl msg => inl (json_parse_error, "Review result is not valid JSON: " +:+ msg)
      | inr (JObj fields) => inr fields
      | inr _ => inl (json_parse_error, "Review result must be a JSON object.")
      end
  end.

Definition _validate_schema (data : list (string * json)) : ReviewResultError + ReviewResult.t :=
  match validate_result data with
  | inl msg => inl (schema_error, msg)
  | inr result => inr result
  end.

Definition publishable_finding (provider repo_full_name : string) (pr_number : Z)
    (base_sha head_sha : string) (files : gmap string ChangedFile.t) (finding : ReviewFinding.t)
    : PublishableFinding.t :=
  let reason := _line_comment_blocker finding files in
  PublishableFinding.mk finding
    (build_fingerprint provider repo_full_name pr_number base_sha head_sha finding)
    (bool_decide (reason = None)) reason.

Definition parse_review_result (raw_output : string + list (string * json))
    (changed_files : option (list ChangedFile.t)) (provider repo_full_name : string)
    (pr_number : Z) (base_sha head_sha : string) : ReviewResultError + ParsedReviewResult.t :=
  match _load_json raw_output with
  | inl e => inl e
  | inr data =>
      match _validate_schema data with
      | inl e => inl e
      | inr result =>
          let files := changed_file_map (default [] changed_files) in
          inr (ParsedReviewResult.mk result
            (map (publishable_finding provider repo_full_name pr_number base_sha head_sha files)
               (ReviewResult.findings result))
            (filter (λ f, is_Some (_line_comment_blocker f files)) (ReviewResult.findings result)))
      end
  end.
End results.
