(* ===== verification/Reconciliation.v ===== *)
(** * Persisting and reconciling findings

    Model of [src/src/review_orchestrator/domain/reconciliation.py]: the findings
    of a run are stored and compared, by fingerprint, with those of the previous
    completed run of the same pull request. *)
From S2P Require Import Prelude PyText Json Models Delivery ReviewResults.
#[global] Open Scope Z_scope.
#[global] Open Scope orch_scope.

Module ReconciliationStats.
Record t := mk { new : Z; existing : Z; resolved : Z; stale : Z }.
#[global] Instance eta : Eta t := λ r, mk (new r) (existing r) (resolved r) (stale r).
End ReconciliationStats.

(** [stats[state] += 1] when [state] is one of its keys. *)
Definition count_state (state : string) (stats : ReconciliationStats.t) : ReconciliationStats.t :=
  if bool_decide (state = "new") then
    stats .[ ReconciliationStats.new := ReconciliationStats.new stats + 1 ]
  else if bool_decide (state = "existing") then
    stats .[ ReconciliationStats.existing := ReconciliationStats.existing stats + 1 ]
  else if bool_decide (state = "resolved") then
    stats .[ ReconciliationStats.resolved := ReconciliationStats.resolved stats + 1 ]
  else if bool_decide (state = "stale") then
    stats .[ ReconciliationStats.stale := ReconciliationStats.stale stats + 1 ]
  else stats.

(** [{finding.fingerprint: finding for finding in l}]. *)
Definition by_fingerprint (l : list Finding.t) : gmap string Finding.t :=
  foldl (λ m f, <[Finding.fingerprint f := f]> m) ∅ l.

Definition _severity_counts (parsed : list PublishableFinding.t) : gmap string Z :=
  foldl (λ counts p,
    let severity := severity_str (ReviewFinding.severity (PublishableFinding.finding p)) in
    <[severity := default 0 (counts !! severity) + 1]> counts) ∅ parsed.

(** ORDER BY completed_at DESC NULLS LAST, created_at DESC. *)
Definition latest_order (t : Task.t) : list Z :=
  [match Task.completed_at t with Some _ => 0 | None => 1 end;
   match Task.completed_at t with Some c => - c | None => 0 end;
   - Task.created_at t].

(** A completed run of the same pull request. *)
Definition is_previous_run (run_id : string) (run : ReviewRun.t) (t : Task.t) : bool :=
  match review_of t with
  | Some r =>
      bool_decide (ReviewRun.provider r = ReviewRun.provider run)
      && bool_decide (ReviewRun.repo_full_name r = ReviewRun.repo_full_name run)
      && (ReviewRun.pull_request_number r =? ReviewRun.pull_request_number run)
      && negb (bool_decide (Task.id t = run_id))
      && bool_decide (Task.status t = "completed")
  | None => false
  end.

Definition active_in (run_id : string) (f : Finding.t) : bool :=
  bool_decide (Finding.review_run_id f = run_id) && bool_decide (Finding.status f = "active").

Definition previous_active_findings (run_id : string) (run : ReviewRun.t) (d : Db)
    : list Finding.t :=
  match head (order_by latest_order (filter (is_previous_run run_id run) (tasks d))) with
  | None => []
  | Some previous_run => filter (active_in (Task.id previous_run)) (findings d)
  end.

Definition _previous_active_findings (run_id : string) (run : ReviewRun.t) : SM (list Finding.t) :=
  gets (λ s, previous_active_findings run_id run (work s)).

Definition _current_run_findings (run_id : string) : SM (gmap string Finding.t) :=
  l ← select (λ f, bool_decide (Finding.review_run_id f = run_id));
  mret (by_fingerprint l).

Section reconcile.
Context `{Runtime}.

Definition new_finding (run_id : string) (run : ReviewRun.t) (p : PublishableFinding.t)
    (state first_seen_run_id : string) : SM Finding.t :=
  id ← uuid4;
  let f := PublishableFinding.finding p in
  mret (Finding.mk id run_id (ReviewRun.pull_request_context_id run)
    (PublishableFinding.fingerprint p) (ReviewFinding.file f) (ReviewFinding.line f)
    (ReviewFinding.line_end f) (severity_str (ReviewFinding.severity f))
    (ReviewFinding.category f) (ReviewFinding.message f) (ReviewFinding.suggestion f)
    (Some (ReviewFinding.confidence f)) "active" state (Some first_seen_run_id) (Some run_id)
    None None).

(** The loop over the parsed findings; returns the statistics and the
    fingerprints seen. *)
Fixpoint store_findings (run_id : string) (run : ReviewRun.t)
    (previous current : gmap string Finding.t) (parsed : list PublishableFinding.t)
    (stats : ReconciliationStats.t) (seen : list string)
    : SM (ReconciliationStats.t * list string) :=
  match parsed with
  | [] => mret (stats, seen)
  | p :: parsed =>
      let fingerprint := PublishableFinding.fingerprint p in
      match current !! fingerprint with
      | Some f =>
          store_findings run_id run previous current parsed
            (count_state (Finding.state f) stats) (fingerprint :: seen)
      | None =>
          let known := previous !! fingerprint in
          let state := match known with Some _ => "existing" | None => "new" end in
          let first_seen_run_id :=
            match known with
            | Some f => or_else (Finding.first_seen_run_id f) (Finding.review_run_id f)
            | None => run_id
            end in
          finding ← new_finding run_id run p state first_seen_run_id;
          insert finding ;;
          store_findings run_id run previous current parsed (count_state state stats)
            (fingerprint :: seen)
      end
  end.

(** The loop over the previous findings. *)
Fixpoint resolve_missing (run_id : string) (previous : list Finding.t) (seen : list string)
    (stats : ReconciliationStats.t) : SM ReconciliationStats.t :=
  match previous with
  | [] => mret stats
  | f :: previous =>
      if bool_decide (Finding.fingerprint f ∈ seen)
      then resolve_missing run_id previous seen stats
      else
        modify (Finding.id f) (λ f, f .[ Finding.status := "resolved" ]
          .[ Finding.state := "resolved" ] .[ Finding.resolved_run_id := Some run_id ]) ;;
        resolve_missing run_id previous seen
          (stats .[ ReconciliationStats.resolved := ReconciliationStats.resolved stats + 1 ])
  end.

Definition persist_and_reconcile_findings (run_id : string)
    (parsed_result : ParsedReviewResult.t) (commit_ : bool) : SM ReconciliationStats.t :=
  let parsed := ParsedReviewResult.findings parsed_result in
  task ← load (R := Task.t) run_id;
  match review_of task with
  | None => raise (TypeError "review_run is not a ReviewRun")
  | Some run =>
      previous_findings ← _previous_active_findings run_id run;
      current_by_fingerprint ← _current_run_findings run_id;
      result ← store_findings run_id run (by_fingerprint previous_findings)
        current_by_fingerprint parsed (ReconciliationStats.mk 0 0 0 0) [];
      stats ← resolve_missing run_id previous_findings result.2 result.1;
      modify run_id (set_review (λ r,
        r .[ ReviewRun.finding_count_total := Z.of_nat (length parsed) ]
          .[ ReviewRun.finding_count_by_severity := Some (_severity_counts parsed) ])) ;;
      when commit_ commit ;;
      mret stats
  end.

(** [archive_findings_for_merged_pr]: returns how many findings were accepted,
    rejected and stale. *)
Definition archive_findings_for_merged_pr (run_id : string) : SM (Z * Z * Z) :=
  active ← select (active_in run_id);
  for_each active (λ f, modify (Finding.id f) (λ f,
    f .[ Finding.outcome :=
           Some (if bool_decide (Finding.state f = "stale") then "stale" else "rejected") ])) ;;
  commit ;;
  let stale := Z.of_nat (length (filter (λ f, Finding.state f = "stale") active)) in
  mret (0, Z.of_nat (length active) - stale, stale).
End reconcile.
