(* ===== verification/FindingsTheorems.v ===== *)
(** * What identifies a finding, and how runs are compared *)
From Stdlib Require Import Ascii QArith.
From S2P Require Import Prelude PyText Json Models Scheduler Demo Delivery ReviewResults Reconciliation.
#[global] Open Scope Z_scope.
#[global] Open Scope orch_scope.

(** ** Normal forms of text *)

Lemma str_all_map (p : ascii → bool) f s :
  str_all p (str_map f s) = str_all (λ c, p (f c)) s.
Proof. induction s as [|c s IH]; simpl; [done|]. by rewrite IH. Qed.

Lemma str_all_lstrip p q s : str_all q s → str_all q (lstrip_by p s).
Proof.
  induction s as [|c s IH]; simpl; [done|]. rewrite Is_true_andb. intros [Hc Hs].
  destruct (p c); [by apply IH|]. simpl. by rewrite Is_true_andb.
Qed.

Lemma str_all_strip q s : str_all q s → str_all q (py_strip s).
Proof.
  intros Hs. unfold py_strip, rstrip_by. rewrite str_all_rev.
  by apply str_all_lstrip; rewrite str_all_rev; apply str_all_lstrip.
Qed.

Lemma str_all_collapse (p q : ascii → bool) b s :
  q " "%char → (∀ c, p c = false → q c) → str_all q (collapse_from p b s).
Proof.
  intros Hsp Hq. revert b. induction s as [|c s IH]; intros b; simpl; [done|].
  destruct (p c) eqn:Hp.
  - destruct b; [apply IH|]. simpl. rewrite Is_true_andb. by split; [|apply IH].
  - simpl. rewrite Is_true_andb. split; [by apply Hq|apply IH].
Qed.

Lemma str_all_collapse_all (p q : ascii → bool) b s :
  q " "%char → str_all q s → str_all q (collapse_from p b s).
Proof.
  intros Hsp. revert b. induction s as [|c s IH]; intros b; simpl; [done|].
  rewrite Is_true_andb. intros [Hc Hs]. destruct (p c); [destruct b; [by apply IH|]|];
    simpl; rewrite Is_true_andb; (split; [done|by apply IH]).
Qed.

Lemma no_newline c : negb (char_eqb c "010"%char) ↔ c ≠ "010"%char.
Proof.
  destruct (decide (c = "010"%char)) as [->|Hc].
  - by rewrite char_eqb_refl.
  - by rewrite char_eqb_neq.
Qed.

(** The text of a fingerprint is one line per component. *)
Lemma normalize_text_line s : free_of "010" (_normalize_text s).
Proof.
  unfold _normalize_text, free_of. apply str_all_strip, str_all_collapse; [done|].
  intros c Hc. apply no_newline. by intros ->.
Qed.

Lemma lower_char_newline c : c ≠ "010"%char → lower_char c ≠ "010"%char.
Proof.
  destruct c as [[] [] [] [] [] [] [] []]; intros Hc; try (by destruct Hc); by vm_compute.
Qed.

Lemma normalize_path_line s : free_of "010" s → free_of "010" (_normalize_path s).
Proof.
  unfold _normalize_path, free_of, py_lower, py_replace_char. rewrite str_all_map. intros Hs.
  apply (str_all_weaken (λ c, negb (char_eqb c "010"))).
  { intros c. rewrite !no_newline. apply lower_char_newline. }
  apply str_all_strip. rewrite str_all_map. eapply str_all_weaken; [|exact Hs].
  intros c. rewrite !no_newline. by destruct (char_eqb c "\").
Qed.

Lemma str_int_line n : free_of "010" (str_int n).
Proof.
  assert (Hd : ∀ x : N, free_of "010" (pretty x)).
  { intros x. eapply str_all_weaken; [|apply pretty_N_digits].
    intros c Hc. apply no_newline. by intros ->. }
  unfold str_int, pretty, pretty_Z. destruct n; [done|apply Hd|].
  unfold free_of. rewrite str_all_app, Is_true_andb. split; [done|apply Hd].
Qed.

Lemma severity_line sev : free_of "010" (severity_str sev).
Proof. by destruct sev. Qed.

Lemma severity_str_inj a b : severity_str a = severity_str b → a = b.
Proof. by destruct a, b. Qed.

(** ** Idempotence of the message normal form *)

(** A string without leading space whose white space is single blanks; [after]
    says whether a blank may come first. *)
Fixpoint spaced (after : bool) (s : string) : bool :=
  match s with
  | "" => true
  | String c s =>
      if is_space c then after && char_eqb c " " && spaced false s else spaced true s
  end.

Lemma collapse_spaced s b : spaced (negb b) (collapse_from is_space b s).
Proof.
  revert b. induction s as [|c s IH]; intros b; simpl; [done|].
  destruct (is_space c) eqn:Hc.
  - destruct b; [apply (IH true)|]. simpl. apply (IH true).
  - simpl. rewrite Hc. apply (IH false).
Qed.

Lemma collapse_id s b : spaced (negb b) s → collapse_from is_space b s = s.
Proof.
  revert b. induction s as [|c s IH]; intros b; simpl; [done|].
  destruct (is_space c) eqn:Hc.
  - rewrite !Is_true_andb. intros [[Hb Hsp%char_eqb_eq] Hs]. destruct b; [done|].
    by rewrite (IH true) by done; subst c.
  - intros Hs. by rewrite (IH false) by done.
Qed.

Lemma collapse_none p b s : str_all (λ c, negb (p c)) s → collapse_from p b s = s.
Proof.
  revert b. induction s as [|c s IH]; intros b; simpl; [done|]. rewrite Is_true_andb.
  intros [Hc Hs]. destruct (p c); [done|]. by rewrite IH.
Qed.

Lemma lower_char_twice c : lower_char (lower_char c) = lower_char c.
Proof. by destruct c as [[] [] [] [] [] [] [] []]. Qed.

Lemma str_map_id f s : str_all (λ c, char_eqb (f c) c) s → str_map f s = s.
Proof.
  induction s as [|c s IH]; simpl; [done|]. rewrite Is_true_andb, char_eqb_eq.
  intros [-> Hs]. by rewrite IH.
Qed.

Lemma lstrip_suffix p s : ∃ w, s = w +:+ lstrip_by p s.
Proof.
  induction s as [|c s [w IH]]; simpl; [by exists ""|].
  destruct (p c); [|by exists ""]. exists (String c w). by rewrite str_app_cons, <- IH.
Qed.

Lemma rstrip_prefix p s : ∃ w, s = rstrip_by p s +:+ w.
Proof.
  destruct (lstrip_suffix p (str_rev s)) as [w Hw]. exists (str_rev w).
  unfold rstrip_by. by rewrite <- str_rev_app_distr, <- Hw, str_rev_involutive.
Qed.

Lemma lstrip_head p s : head_not p (lstrip_by p s).
Proof. induction s as [|c s IH]; simpl; [done|]. destruct (p c) eqn:E; simpl; by rewrite ?E. Qed.

Lemma head_not_prefix p s t : head_not p (s +:+ t) → head_not p s.
Proof. by destruct s. Qed.

Lemma strip_strip s : py_strip (py_strip s) = py_strip s.
Proof.
  unfold py_strip. set (u := lstrip_by is_space s).
  destruct (rstrip_prefix is_space u) as [w Hw].
  rewrite (lstrip_by_id is_space (rstrip_by is_space u)).
  - apply rstrip_by_id. unfold rstrip_by. rewrite str_rev_involutive. apply lstrip_head.
  - apply (head_not_prefix _ _ w). rewrite <- Hw. apply lstrip_head.
Qed.

Lemma spaced_weaken b s : spaced false s → spaced b s.
Proof. destruct s as [|c s]; simpl; [done|]. by destruct (is_space c). Qed.

Lemma spaced_lstrip b s : spaced b s → spaced true (lstrip_by is_space s).
Proof.
  destruct s as [|c s]; simpl; [done|]. destruct (is_space c) eqn:Hc.
  - rewrite !Is_true_andb. intros [_ Hs]. apply spaced_weaken.
    rewrite lstrip_by_id; [done|]. destruct s as [|c' s]; simpl in *; [done|].
    by destruct (is_space c').
  - simpl. by rewrite Hc.
Qed.

Lemma spaced_prefix b s t : spaced b (s +:+ t) → spaced b s.
Proof.
  revert b. induction s as [|c s IH]; intros b; simpl; [done|].
  destruct (is_space c); rewrite ?Is_true_andb; [|apply IH].
  intros [H Hs]. split; [exact H|by apply IH].
Qed.

Lemma spaced_strip b s : spaced b s → spaced true (py_strip s).
Proof.
  intros Hs. unfold py_strip. destruct (rstrip_prefix is_space (lstrip_by is_space s)) as [w Hw].
  apply (spaced_prefix _ _ w). rewrite <- Hw. by eapply spaced_lstrip.
Qed.

(** Normalizing a message is idempotent, so the part of a fingerprint that comes
    from the message is a canonical form: a finding whose message is already
    normalized keeps it. *)
Theorem normalize_text_idempotent s : _normalize_text (_normalize_text s) = _normalize_text s.
Proof.
  unfold _normalize_text at 1. set (v := _normalize_text s).
  assert (Hall : ∀ q : ascii → bool, q " "%char →
    (∀ c, not_word_or_space (lower_char c) = false → q (lower_char c)) → str_all q v).
  { intros q Hsp Hq. unfold v, _normalize_text, re_sub_runs.
    apply str_all_strip, str_all_collapse_all; [done|].
    generalize false. induction s as [|c t IH]; intros b; simpl; [done|].
    destruct (not_word_or_space (lower_char c)) eqn:E.
    - destruct b; [apply IH|]. simpl. rewrite Is_true_andb. split; [exact Hsp|apply IH].
    - simpl. rewrite Is_true_andb. split; [by apply Hq|apply IH]. }
  assert (Hlow : py_lower v = v).
  { apply str_map_id, Hall; [done|]. intros c _. by rewrite lower_char_twice, char_eqb_refl. }
  assert (Hword : re_sub_runs not_word_or_space v = v).
  { apply collapse_none, Hall; [done|]. by intros c ->. }
  assert (Hspace : re_sub_runs is_space v = v).
  { apply collapse_id. unfold v, _normalize_text. eapply spaced_strip, (collapse_spaced _ false). }
  rewrite Hlow, Hword, Hspace. unfold v, _normalize_text. apply strip_strip.
Qed.

(** ** Fingerprints *)

Section fingerprints.
Context `{Runtime}.

(** No SHA-256 collision between two texts. *)
Definition no_collision (a b : string) : Prop :=
  sha256_hexdigest a = sha256_hexdigest b → a = b.

Lemma stable_parts_lines provider repo n base head f part :
  free_of "010" provider → free_of "010" repo → free_of "010" base → free_of "010" head →
  free_of "010" (ReviewFinding.file f) →
  part ∈ stable_parts provider repo n base head f → free_of "010" part.
Proof.
  intros. unfold stable_parts in *.
  repeat match goal with
  | H : _ ∈ _ :: _ |- _ => apply elem_of_cons in H as [->|H]
  | H : _ ∈ [] |- _ => by apply elem_of_nil in H
  end; auto using str_int_line, severity_line, normalize_text_line, normalize_path_line.
Qed.

(** A fingerprint identifies a finding.  Unless SHA-256 collides on the two
    texts, two fingerprints are equal exactly when provider, repository, pull
    request, base and head commit, normalized path, severity and normalized message
    all agree: no component runs into the next, because each is one line. *)
Theorem fingerprint_identity provider repo n base head f provider' repo' n' base' head' f' :
  let parts := stable_parts provider repo n base head f in
  let parts' := stable_parts provider' repo' n' base' head' f' in
  (∀ s, s ∈ [provider; repo; base; head; ReviewFinding.file f;
             provider'; repo'; base'; head'; ReviewFinding.file f'] → free_of "010" s) →
  no_collision (py_join newline parts) (py_join newline parts') →
  build_fingerprint provider repo n base head f =
    build_fingerprint provider' repo' n' base' head' f' ↔
  provider = provider' ∧ repo = repo' ∧ n = n' ∧ base = base' ∧ head = head' ∧
  _normalize_path (ReviewFinding.file f) = _normalize_path (ReviewFinding.file f') ∧
  ReviewFinding.severity f = ReviewFinding.severity f' ∧
  _normalize_text (ReviewFinding.message f) = _normalize_text (ReviewFinding.message f').
Proof.
  intros parts parts' Hfree Hsha. split.
  - intros Heq. unfold build_fingerprint in Heq.
    apply (inj (String.app "sha256:")) in Heq.
    assert (Hparts : parts = parts').
    { apply (py_join_inj "010"); [done|..|by apply Hsha];
        apply Forall_forall; intros part; apply stable_parts_lines; apply Hfree; set_solver. }
    unfold parts, parts', stable_parts in Hparts.
    injection Hparts as ? ? ?%(inj str_int) ? ? ? ?%severity_str_inj ?. done.
  - intros (-> & -> & -> & -> & -> & Hp & Hs & Ht). unfold build_fingerprint, stable_parts.
    by rewrite Hp, Hs, Ht.
Qed.
End fingerprints.

(** ** Reconciliation *)

Abbreviation fingerprints ps := (PublishableFinding.fingerprint <$> ps).

Section reconciliation.
Context `{Runtime}.
Implicit Types (prev : gmap string Finding.t) (ps : list PublishableFinding.t).

(** The row stored for a finding. *)
Definition stored_finding (id run_id : string) (run : ReviewRun.t) prev
    (p : PublishableFinding.t) : Finding.t :=
  let f := PublishableFinding.finding p in
  let known := prev !! PublishableFinding.fingerprint p in
  Finding.mk id run_id (ReviewRun.pull_request_context_id run)
    (PublishableFinding.fingerprint p) (ReviewFinding.file f) (ReviewFinding.line f)
    (ReviewFinding.line_end f) (severity_str (ReviewFinding.severity f))
    (ReviewFinding.category f) (ReviewFinding.message f) (ReviewFinding.suggestion f)
    (Some (ReviewFinding.confidence f)) "active"
    (match known with Some _ => "existing" | None => "new" end)
    (Some (match known with
           | Some f => or_else (Finding.first_seen_run_id f) (Finding.review_run_id f)
           | None => run_id
           end))
    (Some run_id) None None.

Fixpoint stored_findings (n : nat) (run_id : string) (run : ReviewRun.t) prev ps
    : list Finding.t :=
  match ps with
  | [] => []
  | p :: ps => stored_finding (fresh_uuid n) run_id run prev p
                 :: stored_findings (S n) run_id run prev ps
  end.

Definition count_new prev ps : Z :=
  Z.of_nat (length (filter (λ p, prev !! PublishableFinding.fingerprint p = None) ps)).
Definition count_existing prev ps : Z :=
  Z.of_nat (length (filter (λ p, is_Some (prev !! PublishableFinding.fingerprint p)) ps)).

Lemma count_new_existing prev ps : count_new prev ps + count_existing prev ps = Z.of_nat (length ps).
Proof.
  unfold count_new, count_existing. induction ps as [|p ps IH]; [done|]. rewrite !filter_cons.
  destruct (prev !! PublishableFinding.fingerprint p) eqn:E.
  - rewrite decide_False, decide_True by done. simpl length in *. lia.
  - rewrite decide_True, decide_False by (done || by intros []%is_Some_None).
    simpl length in *. lia.
Qed.

(** Identifiers drawn from [n] on are new. *)
Definition fresh_ids (n : nat) (l : list Finding.t) : Prop :=
  ∀ m, (n ≤ m)%nat → fresh_uuid m ∉ Finding.id <$> l.

Lemma count_state_new stats :
  count_state "new" stats =
  stats .[ ReconciliationStats.new := ReconciliationStats.new stats + 1 ].
Proof. done. Qed.
Lemma count_state_existing stats :
  count_state "existing" stats =
  stats .[ ReconciliationStats.existing := ReconciliationStats.existing stats + 1 ].
Proof. done. Qed.

Lemma finding_violation_None (x : Finding.t) l :
  violation x l = None ↔
  (Finding.id x ∉ Finding.id <$> l) ∧
  ∀ y, y ∈ l → Finding.review_run_id y = Finding.review_run_id x →
    Finding.fingerprint y ≠ Finding.fingerprint x.
Proof.
  rewrite violation_None. simpl. split.
  - intros [Hk Hu]. split; [exact Hk|]. intros y Hy Hrun Hfp.
    specialize (Hu _ (list_elem_of_here _ _) y Hy). simpl in Hu.
    by rewrite !bool_decide_true in Hu.
  - intros [Hk Hu]. split; [exact Hk|]. intros c ->%list_elem_of_singleton y Hy. simpl.
    destruct (decide (Finding.review_run_id x = Finding.review_run_id y)) as [Hr|Hr];
      [|by rewrite bool_decide_false].
    rewrite (bool_decide_false (Finding.fingerprint x = _)), andb_false_r; [done|].
    intros E. by apply (Hu y).
Qed.

Lemma store_findings_run run_id run prev ps stats seen s :
  Inj (=) (=) fresh_uuid → NoDup (fingerprints ps) →
  (∀ f, f ∈ findings (work s) → Finding.review_run_id f = run_id →
     Finding.fingerprint f ∉ fingerprints ps) →
  fresh_ids (uuids s) (findings (work s)) →
  ∃ s', store_findings run_id run prev ∅ ps stats seen s =
      (Return (stats .[ ReconciliationStats.new := ReconciliationStats.new stats + count_new prev ps ]
                 .[ ReconciliationStats.existing :=
                      ReconciliationStats.existing stats + count_existing prev ps ],
               reverse (fingerprints ps) ++ seen), s') ∧
    work s' = (work s) .[ findings := findings (work s)
                  ++ stored_findings (uuids s) run_id run prev ps ] ∧
    committed s' = committed s.
Proof.
  intros Hinj. revert stats seen s. induction ps as [|p ps IH]; intros stats seen s Hnd Hcur Hids.
  - exists s. split_and!; [|by rewrite app_nil_r; destruct (work s)|done].
    unfold count_new, count_existing. simpl. rewrite !Z.add_0_r. by destruct stats.
  - rewrite fmap_cons in Hnd. apply NoDup_cons in Hnd as [Hp Hnd].
    cbn [store_findings]. rewrite lookup_empty. cbv zeta.
    set (x := stored_finding (fresh_uuid (uuids s)) run_id run prev p).
    set (s1 := s .[ uuids := S (uuids s) ]).
    assert (Hnew : new_finding run_id run p
        (match prev !! PublishableFinding.fingerprint p with Some _ => "existing" | None => "new" end)
        (match prev !! PublishableFinding.fingerprint p with
         | Some f => or_else (Finding.first_seen_run_id f) (Finding.review_run_id f)
         | None => run_id end) s = (Return x, s1)) by done.
    rewrite (bind_ret_run _ _ _ _ _ Hnew).
    assert (Hins : insert x s1 = (Return tt, on_rows (λ l, l ++ [x]) s1)).
    { apply insert_run, finding_violation_None. split; [by apply Hids|].
      intros y Hy Hrun Hfp. apply (Hcur y Hy Hrun). rewrite Hfp. by left. }
    rewrite (bind_ret_run _ _ _ _ _ Hins).
    set (s2 := on_rows (λ l, l ++ [x]) s1).
    edestruct (IH (count_state
        (match prev !! PublishableFinding.fingerprint p with Some _ => "existing" | None => "new" end)
        stats) (PublishableFinding.fingerprint p :: seen) s2) as (s' & Hrun & Hwork & Hcom).
    + done.
    + intros y Hy Hr. simpl in Hy. apply elem_of_app in Hy as [Hy|Hy%list_elem_of_singleton].
      * specialize (Hcur y Hy Hr). rewrite fmap_cons in Hcur. set_solver.
      * by subst y.
    + intros m Hm. simpl. rewrite fmap_app. simpl. intros [Hm'|Hm']%elem_of_app.
      * apply (Hids m); [simpl in Hm; lia|done].
      * apply list_elem_of_singleton, (inj fresh_uuid) in Hm'. simpl in Hm. lia.
    + exists s'. split_and!; [|rewrite Hwork; simpl; by rewrite <- app_assoc|done].
      rewrite Hrun, fmap_cons, reverse_cons, <- app_assoc. do 3 f_equal.
      unfold count_new, count_existing. rewrite !filter_cons.
      destruct (prev !! PublishableFinding.fingerprint p) eqn:E.
      * rewrite !(decide_False (P := Some _ = None)), !(decide_True (P := is_Some (Some _))) by done.
        rewrite count_state_existing, length_cons, Nat2Z.inj_succ. destruct stats. cbn.
        f_equal; lia.
      * rewrite !(decide_True (P := None = None)), !(decide_False (P := is_Some None)) by
          (done || by intros []%is_Some_None).
        rewrite count_state_new, length_cons, Nat2Z.inj_succ. destruct stats. cbn.
        f_equal; lia.
Qed.

(** A previous finding that is not in the new result. *)
Definition resolved_by (run_id : string) (f : Finding.t) : Finding.t :=
  f .[ Finding.status := "resolved" ] .[ Finding.state := "resolved" ]
    .[ Finding.resolved_run_id := Some run_id ].

Definition gone (seen : list string) (previous : list Finding.t) : list Finding.t :=
  filter (λ f, Finding.fingerprint f ∉ seen) previous.

Definition among (l : list Finding.t) (f : Finding.t) : bool :=
  bool_decide (Finding.id f ∈ Finding.id <$> l).

Lemma resolve_missing_run run_id previous seen stats s :
  resolve_missing run_id previous seen stats s =
  (Return (stats .[ ReconciliationStats.resolved :=
             ReconciliationStats.resolved stats + Z.of_nat (length (gone seen previous)) ]),
   on_rows (update_rows (among (gone seen previous)) (resolved_by run_id)) s).
Proof.
  revert stats s. induction previous as [|f previous IH]; intros stats s.
  - rewrite on_rows_id by (by apply update_rows_none).
    simpl. rewrite Z.add_0_r. by destruct stats.
  - cbn [resolve_missing]. unfold gone. rewrite filter_cons.
    destruct (decide (Finding.fingerprint f ∈ seen)) as [Hf|Hf].
    + rewrite bool_decide_true, decide_False by tauto. apply IH.
    + rewrite bool_decide_false, decide_True by done.
      rewrite (bind_ret_run _ _ _ _ _ (modify_run _ _ _)), IH.
      f_equal; [rewrite length_cons, Nat2Z.inj_succ; destruct stats; cbn; do 2 f_equal; unfold gone; lia|].
      rewrite on_rows_twice. apply on_rows_ext. unfold update_rows.
      rewrite <- list_fmap_compose. apply list_fmap_ext. intros i x _.
      unfold compose, among, gone. rewrite fmap_cons.
      change (row_key f) with (Finding.id f). change (row_key x) with (Finding.id x).
      destruct (decide (Finding.id x = Finding.id f)) as [E|E].
      * rewrite (bool_decide_true (Finding.id x = _)) by done.
        rewrite (bool_decide_true (Finding.id x ∈ _ :: _)) by (rewrite E; left).
        by case_bool_decide.
      * rewrite (bool_decide_false (Finding.id x = _)) by done.
        rewrite (bool_decide_ext (Finding.id x ∈ _ :: _)
          (Finding.id x ∈ Finding.id <$> filter (λ f, Finding.fingerprint f ∉ seen) previous));
          [done|]. rewrite elem_of_cons. tauto.
Qed.

Lemma update_rows_app {R} (P : R → bool) f l l' :
  update_rows P f (l ++ l') = update_rows P f l ++ update_rows P f l'.
Proof. apply fmap_app. Qed.

Lemma stored_findings_ids n run_id run prev ps x :
  x ∈ stored_findings n run_id run prev ps → ∃ m, (n ≤ m)%nat ∧ Finding.id x = fresh_uuid m.
Proof.
  revert n. induction ps as [|p ps IH]; intros n; simpl; [set_solver|].
  intros [->|Hx]%elem_of_cons; [by exists n|].
  destruct (IH _ Hx) as (m & ? & ?). exists m. split; [lia|done].
Qed.

Lemma no_current_findings run_id s :
  (∀ f, f ∈ findings (work s) → Finding.review_run_id f ≠ run_id) →
  _current_run_findings run_id s = (Return ∅, s).
Proof.
  intros Hcur. unfold _current_run_findings. run_steps.
  change (rows (work s)) with (findings (work s)). rewrite filter_none; [done|].
  intros f Hf E%bool_decide_unpack. by apply (Hcur f).
Qed.

Lemma previous_active_stored run_id run d f :
  f ∈ previous_active_findings run_id run d → f ∈ findings d.
Proof.
  unfold previous_active_findings. destruct (head _); [|set_solver].
  by intros [_ Hf]%list_elem_of_filter.
Qed.

(** Storing a finding twice violates the constraint on the findings of a run. *)
Lemma store_findings_clash run_id run prev ps stats seen s :
  (∃ p f, p ∈ ps ∧ f ∈ findings (work s) ∧ Finding.review_run_id f = run_id ∧
     Finding.fingerprint f = PublishableFinding.fingerprint p) ∨ ¬ NoDup (fingerprints ps) →
  ∃ c s', store_findings run_id run prev ∅ ps stats seen s = (Raise (IntegrityError c), s') ∧
    committed s' = committed s.
Proof.
  revert stats seen s. induction ps as [|p ps IH]; intros stats seen s Hclash.
  { destruct Hclash as [(p & f & Hp & _)|Hnd]; [by apply elem_of_nil in Hp|].
    destruct Hnd. apply NoDup_nil_2. }
  cbn [store_findings]. rewrite lookup_empty. cbv zeta.
  set (state := match prev !! _ with Some _ => "existing" | None => "new" end).
  set (x := stored_finding (fresh_uuid (uuids s)) run_id run prev p).
  assert (Hnew : ∀ first, first = match prev !! PublishableFinding.fingerprint p with
      | Some f => or_else (Finding.first_seen_run_id f) (Finding.review_run_id f)
      | None => run_id end →
    new_finding run_id run p state first s = (Return x, s .[ uuids := S (uuids s) ]))
    by by intros first ->.
  rewrite (bind_ret_run _ _ _ _ _ (Hnew _ eq_refl)), bind_run.
  destruct (violation x (findings (work s))) as [c|] eqn:Hv.
  { exists c. eexists. unfold insert. run_steps.
    change (rows (work (s .[ uuids := S (uuids s) ]))) with (findings (work s)). by rewrite Hv. }
  rewrite insert_run by exact Hv. apply finding_violation_None in Hv as [_ Hv].
  edestruct (IH (count_state state stats) (PublishableFinding.fingerprint p :: seen)
    (on_rows (λ l, l ++ [x]) (s .[ uuids := S (uuids s) ]))) as (c & s' & Hrun & Hcom).
  - destruct Hclash as [(q & f & [->|Hq]%elem_of_cons & Hf & Hr & Hfp)|Hnd].
    + by destruct (Hv f Hf).
    + left. exists q, f. split_and!; [done| |done|done]. apply elem_of_app. by left.
    + rewrite fmap_cons, NoDup_cons in Hnd.
      destruct (decide (PublishableFinding.fingerprint p ∈ fingerprints ps)) as [Hin|Hin];
        [|right; tauto].
      apply list_elem_of_fmap in Hin as (q & Hq & Hqps).
      left. exists q, x. split_and!; [done| |done|done]. apply elem_of_app. right. left.
  - by exists c, s'.
Qed.

(** A result with two findings of one fingerprint cannot be stored: for a run that
    has none stored yet, reconciliation raises IntegrityError and commits nothing.
    The fingerprint ignores the line, so two remarks of the same words on two lines
    of a file are such a result. *)
Theorem reconcile_duplicate_raises run_id task run parsed_result commit_ s :
  find_row run_id (tasks (work s)) = Some task → review_of task = Some run →
  (∀ f, f ∈ findings (work s) → Finding.review_run_id f ≠ run_id) →
  ¬ NoDup (fingerprints (ParsedReviewResult.findings parsed_result)) →
  ∃ c s', persist_and_reconcile_findings run_id parsed_result commit_ s =
    (Raise (IntegrityError c), s') ∧ committed s' = committed s.
Proof.
  intros Htask Hrun Hcur Hnd. unfold persist_and_reconcile_findings. cbv zeta.
  rewrite (bind_ret_run _ _ _ _ _ (load_run _ _ _ Htask)), Hrun.
  set (prev := previous_active_findings run_id run (work s)).
  assert (Hprev : _previous_active_findings run_id run s = (Return prev, s)) by done.
  rewrite (bind_ret_run _ _ _ _ _ Hprev).
  rewrite (bind_ret_run _ _ _ _ _ (no_current_findings _ _ Hcur)).
  destruct (store_findings_clash run_id run (by_fingerprint prev)
    (ParsedReviewResult.findings parsed_result) (ReconciliationStats.mk 0 0 0 0) [] s)
    as (c & s' & Hstore & Hcom); [by right|].
  exists c, s'. split; [|done]. by rewrite (bind_raise_run _ _ _ _ _ Hstore).
Qed.

(** Resolving what is gone does not touch the findings the run has just stored: their
    identifiers are fresh. *)
Lemma resolve_spares_stored n run_id run seen known ps w :
  fresh_ids n (findings w) →
  let missing := gone seen (previous_active_findings run_id run w) in
  update_rows (among missing) (resolved_by run_id)
    (findings w ++ stored_findings n run_id run known ps) =
  update_rows (among missing) (resolved_by run_id) (findings w)
    ++ stored_findings n run_id run known ps.
Proof.
  intros Hids missing. rewrite update_rows_app. f_equal. apply update_rows_none.
  intros x (m & Hm & Hid)%stored_findings_ids. apply bool_decide_false.
  rewrite Hid. intros (y & Hy & Hin)%list_elem_of_fmap.
  apply list_elem_of_filter in Hin as [_ Hin]. apply (Hids m Hm).
  rewrite Hy. apply list_elem_of_fmap_2. by eapply previous_active_stored.
Qed.

(** C10: Reconciling the result of a run that has none stored yet, with pairwise
    distinct fingerprints: every finding is stored once, as "existing" with the run
    that first saw it when the previous completed run of the pull request has an active
    finding of the same fingerprint and as "new" otherwise; the active findings of that run
    whose fingerprint is gone become "resolved" and no other finding changes; the
    statistics count exactly these; the run records the total and the severities. *)
Theorem reconcile_spec run_id task run parsed_result commit_ s :
  let prev := previous_active_findings run_id run (work s) in
  let ps := ParsedReviewResult.findings parsed_result in
  let missing := gone (fingerprints ps) prev in
  Inj (=) (=) fresh_uuid →
  find_row run_id (tasks (work s)) = Some task → review_of task = Some run →
  (∀ f, f ∈ findings (work s) → Finding.review_run_id f ≠ run_id) →
  NoDup (fingerprints ps) → fresh_ids (uuids s) (findings (work s)) →
  ∃ s', persist_and_reconcile_findings run_id parsed_result commit_ s =
      (Return (ReconciliationStats.mk (count_new (by_fingerprint prev) ps)
                 (count_existing (by_fingerprint prev) ps) (Z.of_nat (length missing)) 0), s') ∧
    findings (work s') =
      update_rows (among missing) (resolved_by run_id) (findings (work s))
        ++ stored_findings (uuids s) run_id run (by_fingerprint prev) ps ∧
    tasks (work s') = update_rows (λ t, bool_decide (Task.id t = run_id)) (set_review (λ r,
        r .[ ReviewRun.finding_count_total := Z.of_nat (length ps) ]
          .[ ReviewRun.finding_count_by_severity := Some (_severity_counts ps) ]))
        (tasks (work s)) ∧
    committed s' = if commit_ then work s' else committed s.
Proof.
  intros prev ps missing Hinj Htask Hrun Hcur Hnd Hids.
  unfold persist_and_reconcile_findings. cbv zeta.
  rewrite (bind_ret_run _ _ _ _ _ (load_run _ _ _ Htask)), Hrun.
  assert (Hprev : _previous_active_findings run_id run s = (Return prev, s)) by done.
  rewrite (bind_ret_run _ _ _ _ _ Hprev).
  rewrite (bind_ret_run _ _ _ _ _ (no_current_findings _ _ Hcur)).
  destruct (store_findings_run run_id run (by_fingerprint prev) ps
    (ReconciliationStats.mk 0 0 0 0) [] s) as (s1 & Hstore & Hwork & Hcom); [done|done| |done|].
  { intros f Hf E. by destruct (Hcur f). }
  rewrite (bind_ret_run _ _ _ _ _ Hstore).
  rewrite (bind_ret_run _ _ _ _ _ (resolve_missing_run _ _ _ _ _)).
  rewrite (bind_ret_run _ _ _ _ _ (modify_run _ _ _)). cbn [fst snd].
  assert (Hgone : gone (reverse (fingerprints ps) ++ []) prev = missing).
  { apply filter_agree. intros f _. by rewrite app_nil_r, elem_of_reverse. }
  rewrite Hgone. set (s2 := on_rows _ (on_rows _ s1)).
  assert (Hlast : (when commit_ commit ;; mret (ReconciliationStats.mk
      (count_new (by_fingerprint prev) ps) (count_existing (by_fingerprint prev) ps)
      (Z.of_nat (length missing)) 0)) s2 =
    (Return (ReconciliationStats.mk
      (count_new (by_fingerprint prev) ps) (count_existing (by_fingerprint prev) ps)
      (Z.of_nat (length missing)) 0),
     if commit_ then s2 .[ committed := work s2 ] else s2)) by by destruct commit_.
  eexists. split; [exact Hlast|].
  assert (Hfind : findings (work s2) =
    update_rows (among missing) (resolved_by run_id) (findings (work s))
      ++ stored_findings (uuids s) run_id run (by_fingerprint prev) ps).
  { etrans; [|by apply resolve_spares_stored].
    change (findings (work s2)) with
      (update_rows (among missing) (resolved_by run_id) (findings (work s1))). by rewrite Hwork. }
  split_and!.
  - by destruct commit_.
  - assert (Ht : tasks (work s1) = tasks (work s)) by by rewrite Hwork.
    destruct commit_; cbn; by rewrite <- Ht.
  - destruct commit_; [done|]. exact Hcom.
Qed.
End reconciliation.

(** ** Line comments *)

Lemma changed_file_map_lookup l path cf :
  NoDup (ChangedFile.path <$> l) →
  changed_file_map l !! path = Some cf ↔ cf ∈ l ∧ ChangedFile.path cf = path.
Proof.
  unfold changed_file_map. induction l as [|x l IH] using rev_ind.
  - intros _. simpl. rewrite lookup_empty. split; [done|]. intros [H%elem_of_nil _]. done.
  - rewrite fmap_app, NoDup_app. intros (Hnd & Hx & _). rewrite foldl_app. simpl.
    rewrite elem_of_app, list_elem_of_singleton.
    destruct (decide (ChangedFile.path x = path)) as [<-|Hne].
    + rewrite lookup_insert_eq. split; [intros [= <-]; tauto|].
      intros [[Hcf| ->] Hp]; [|done]. destruct (Hx (ChangedFile.path x)).
      * rewrite <- Hp. by apply list_elem_of_fmap_2.
      * left.
    + rewrite lookup_insert_ne by done. rewrite IH by done. naive_solver.
Qed.

Lemma changed_file_map_empty l : changed_file_map l = ∅ ↔ l = [].
Proof.
  split; [|by intros ->]. destruct l as [|x l _] using rev_ind; [done|].
  unfold changed_file_map. rewrite foldl_app. simpl. intros E. by apply insert_non_empty in E.
Qed.

(** A finding may be a comment on a line of the diff. *)
Definition commentable (changed_files : list ChangedFile.t) (f : ReviewFinding.t) : Prop :=
  ∃ line, ReviewFinding.line f = Some line ∧
    (changed_files = [] ∨
     ∃ cf, cf ∈ changed_files ∧ ChangedFile.path cf = ReviewFinding.file f ∧
       (ChangedFile.commentable_lines cf = [] ∨ line ∈ ChangedFile.commentable_lines cf)).

Lemma line_comment_blocker_spec changed_files f :
  NoDup (ChangedFile.path <$> changed_files) →
  _line_comment_blocker f (changed_file_map changed_files) = None ↔ commentable changed_files f.
Proof.
  intros Hnd. unfold _line_comment_blocker, commentable.
  destruct (ReviewFinding.line f) as [line|]; [|naive_solver].
  case_bool_decide as Hempty; rewrite changed_file_map_empty in Hempty; [naive_solver|].
  destruct (changed_file_map changed_files !! ReviewFinding.file f) as [cf|] eqn:Hcf.
  - apply changed_file_map_lookup in Hcf as [Hin Hp]; [|done].
    assert (Huniq : ∀ cf', cf' ∈ changed_files → ChangedFile.path cf' = ReviewFinding.file f → cf' = cf).
    { intros cf' Hin' Hp'. eapply (NoDup_key_eq ChangedFile.path); [done..|congruence]. }
    repeat case_bool_decide; naive_solver.
  - split; [done|]. intros (l & _ & [?|(cf & Hin & Hp & _)]); [done|].
    assert (Hsome : changed_file_map changed_files !! ReviewFinding.file f = Some cf)
      by by apply changed_file_map_lookup.
    congruence.
Qed.

(** Reading a result keeps every finding, in order; those that can be a comment
    on a line of the diff (a line is given, and the file is changed with that line open
    to comments, when the diff is known) are published so, and the others are exactly
    the summary-only findings. *)
Theorem parse_partitions_findings `{Runtime} `{ResultSchema} raw changed_files
    provider repo n base head parsed :
  let l := default [] changed_files in
  NoDup (ChangedFile.path <$> l) →
  parse_review_result raw changed_files provider repo n base head = inr parsed →
  let all := ReviewResult.findings (ParsedReviewResult.result parsed) in
  PublishableFinding.finding <$> ParsedReviewResult.findings parsed = all ∧
  (∀ p, p ∈ ParsedReviewResult.findings parsed →
     PublishableFinding.publish_as_line_comment p ↔ commentable l (PublishableFinding.finding p)) ∧
  (∀ f, f ∈ ParsedReviewResult.summary_only_findings parsed ↔ f ∈ all ∧ ¬ commentable l f).
Proof.
  intros l Hnd. unfold parse_review_result. destruct (_load_json raw) as [|data]; [done|].
  destruct (_validate_schema data) as [|result]; [done|]. intros [= <-]. fold l. simpl.
  split_and!.
  - rewrite <- list_fmap_compose. apply list_fmap_id.
  - intros p (f & -> & _)%list_elem_of_fmap. simpl.
    rewrite <- (line_comment_blocker_spec l f Hnd). by rewrite bool_decide_spec.
  - intros f. rewrite list_elem_of_filter, <- (line_comment_blocker_spec l f Hnd).
    destruct (_line_comment_blocker f (changed_file_map l)); split; intros [? ?]; split;
      try done; by destruct (is_Some_None (A := string)).
Qed.

(** ** Concrete results *)

Definition demo_finding (file message : string) (line : Z) (severity : FindingSeverity)
    : ReviewFinding.t :=
  ReviewFinding.mk file (Some line) None severity None message None 1%Q.

Definition demo_publishable (f : ReviewFinding.t) : PublishableFinding.t :=
  let _ := demo_runtime in
  publishable_finding "github" "octo/app" 7 "base000" "head111" ∅ f.

Definition demo_result (l : list ReviewFinding.t) : ParsedReviewResult.t :=
  ParsedReviewResult.mk (ReviewResult.mk "" l) (map demo_publishable l) [].

Definition demo_leak := demo_finding "src/a.py" "Leaks a handle." 3 high.
Definition demo_typo := demo_finding "src/b.py" "Typo in the doc" 9 low.
Definition demo_race := demo_finding "src/c.py" "Data race" 5 critical.

(** A finding of the previous run. *)
Definition demo_stored (id : string) (f : ReviewFinding.t) : Finding.t :=
  let p := demo_publishable f in
  Finding.mk id "run0" None (PublishableFinding.fingerprint p) (ReviewFinding.file f)
    (ReviewFinding.line f) None (severity_str (ReviewFinding.severity f)) None
    (ReviewFinding.message f) None None "active" "new" (Some "run0") (Some "run0") None None.

(** A completed run with two active findings, and a new run of the same head. *)
Definition findings_db : Db :=
  (with_tasks [demo_review "run0" "completed" "completed" (demo_run "head111" 0);
               demo_review "run1" "in_progress" "running" (demo_run "head111" 1)])
    .[ findings := [demo_stored "f-leak" demo_leak; demo_stored "f-typo" demo_typo] ].

#[export] Instance demo_uuid_inj : Inj (=) (=) (fresh_uuid (Runtime := demo_runtime)).
Proof.
  intros m n E. change (String.app "uuid-" (pretty m) = String.app "uuid-" (pretty n)) in E.
  by apply (inj (String.app "uuid-")), (inj pretty) in E.
Qed.

(** The fingerprint is the same on another line and in another spelling. *)
Lemma fingerprint_identity_witness :
  let f := demo_finding "Src\A.py" "leaks  a handle!" 44 high in
  let _ := demo_runtime in
  build_fingerprint "github" "octo/app" 7 "base000" "head111" demo_leak =
    build_fingerprint "github" "octo/app" 7 "base000" "head111" f.
Proof.
  intros f R. apply (fingerprint_identity (H := demo_runtime)).
  - intros s Hs. repeat (apply elem_of_cons in Hs as [->|Hs]; [exact I|]).
    by apply elem_of_nil in Hs.
  - intros E. exact E.
  - split_and!; vm_compute; reflexivity.
Defined.

(** The leak is seen again, the race is new and the typo is gone. *)
Lemma reconcile_spec_witness :
  ∃ s', persist_and_reconcile_findings (H := demo_runtime) "run1"
      (demo_result [demo_leak; demo_race]) true (demo_session findings_db)
    = (Return (ReconciliationStats.mk 1 1 1 0), s') ∧
    (λ f, (Finding.state f, Finding.first_seen_run_id f, Finding.resolved_run_id f))
      <$> findings (committed s') =
      [("new", Some "run0", None); ("resolved", Some "run0", Some "run1");
       ("existing", Some "run0", None); ("new", Some "run1", None)].
Proof.
  destruct (reconcile_spec (H := demo_runtime) "run1"
    (demo_review "run1" "in_progress" "running" (demo_run "head111" 1)) (demo_run "head111" 1)
    (demo_result [demo_leak; demo_race]) true (demo_session findings_db))
    as (s' & Hrun & Hfind & Htasks & Hcom).
  - apply demo_uuid_inj.
  - vm_compute; reflexivity.
  - vm_compute; reflexivity.
  - intros f. vm_compute. intros Hf.
    repeat (apply elem_of_cons in Hf as [->|Hf]; [discriminate|]). by apply elem_of_nil in Hf.
  - decide_by_computation.
  - intros m _ Hm. change (fresh_uuid m) with (String.app "uuid-" (pretty m)) in Hm.
    repeat (apply elem_of_cons in Hm as [Hm|Hm]; [discriminate|]). by apply elem_of_nil in Hm.
  - exists s'. split; [rewrite Hrun; vm_compute; reflexivity|].
    rewrite Hcom, Hfind. vm_compute. reflexivity.
Defined.

(** The same words on two lines. *)
Lemma reconcile_duplicate_raises_witness :
  ∃ c s', persist_and_reconcile_findings (H := demo_runtime) "run1"
      (demo_result [demo_race; demo_finding "src/c.py" "Data race" 80 critical]) true
      (demo_session findings_db) = (Raise (IntegrityError c), s') ∧
    committed s' = findings_db.
Proof.
  apply (reconcile_duplicate_raises (H := demo_runtime) "run1"
    (demo_review "run1" "in_progress" "running" (demo_run "head111" 1)) (demo_run "head111" 1)).
  - vm_compute; reflexivity.
  - vm_compute; reflexivity.
  - intros f. vm_compute. intros Hf.
    repeat (apply elem_of_cons in Hf as [->|Hf]; [discriminate|]). by apply elem_of_nil in Hf.
  - decide_by_computation.
Defined.

(** A schema that reads the file, the line and the message of each finding. *)
Definition demo_schema_finding (j : json) : ReviewFinding.t :=
  ReviewFinding.mk (default "" (jget_str j "file")) (jget_int j "line") None low None
    (default "" (jget_str j "message")) None 1%Q.

Definition demo_schema : ResultSchema := {|
  json_loads _ := inl "Expecting value";
  validate_result data :=
    match fget data "summary", fget data "findings" with
    | Some (JStr summary), Some (JList l) =>
        inr (ReviewResult.mk summary (map demo_schema_finding l))
    | _, _ => inl "Field required"
    end
|}.

Definition demo_output : list (string * json) :=
  [("summary", JStr "Two remarks");
   ("findings", JList
     [JObj [("file", JStr "a.py"); ("line", JInt 3); ("message", JStr "leak")];
      JObj [("file", JStr "b.py"); ("line", JInt 7); ("message", JStr "typo")]])].

(** Only the line of the diff becomes a line comment. *)
Lemma parse_partitions_findings_witness :
  ∃ parsed, parse_review_result (H := demo_runtime) (H0 := demo_schema) (inr demo_output)
      (Some [ChangedFile.mk "a.py" [2; 3]; ChangedFile.mk "c.py" []])
      "github" "octo/app" 7 "base000" "head111" = inr parsed ∧
    ReviewFinding.message <$> ParsedReviewResult.summary_only_findings parsed = ["typo"] ∧
    PublishableFinding.finding <$> ParsedReviewResult.findings parsed =
      ReviewResult.findings (ParsedReviewResult.result parsed).
Proof.
  eexists. split; [vm_compute; reflexivity|]. split; [vm_compute; reflexivity|].
  refine (proj1 (parse_partitions_findings (H := demo_runtime) (H0 := demo_schema)
    (inr demo_output) (Some [ChangedFile.mk "a.py" [2; 3]; ChangedFile.mk "c.py" []])
    "github" "octo/app" 7 "base000" "head111" _ _ _)).
  - decide_by_computation.
  - vm_compute; reflexivity.
Defined.
