(* ===== verification/ReviewRuns.v ===== *)
(** * The life of a review run

    Model of the review-run use cases of
    [src/src/review_orchestrator/application/services.py]: creating a run, its
    placeholder comment, reporting its status, cancelling and superseding runs, and
    the requests (webhook, mention, retry, rerun) that lead to them.

    A run, an event, a context or a slot held in a Python variable is its primary
    key.  Messages in Chinese are the UTF-8 bytes of the source. *)
From Stdlib Require Import Ascii.
From S2P Require Import Prelude PyText Json Models Scheduler SchedulerAdmin Delivery.
#[global] Open Scope Z_scope.
#[global] Open Scope orch_scope.

Module ReviewRunSpec.
Record t := mk {
  provider : string;
  repo_full_name : string;
  pull_request_number : Z;
  base_sha : option string;
  head_sha : string;
  force : bool
}.
End ReviewRunSpec.

Inductive ReviewReason := automatic | mention | retry | rerun.
#[export] Instance ReviewReason_eq_dec : EqDecision ReviewReason.
Proof. solve_decision. Defined.

Module ReviewRequest.
Record t := mk {
  reason : ReviewReason;
  trigger_event_id : string;
  pull_request_context_id : string;
  source_review_run_id : option string;
  dedupe_key : option string
}.
End ReviewRequest.

(** [ReviewRunActionAvailability] of [domain/schemas.py]. *)
Module ReviewRunActionAvailability.
Record t := mk {
  allowed : bool;
  reason_code : string;
  message : string;
  next_attempt : option Z;
  existing_review_run_id : option string;
  current_base_sha : option string;
  current_head_sha : option string
}.
End ReviewRunActionAvailability.

(** [except IntegrityError]. *)
Definition except_integrity {A} (m : SM A) (h : exn → SM A) : SM A :=
  try_except m (λ e, match e with IntegrityError _ => h e | _ => raise e end).

(** An object the program holds as a [ReviewRun]. *)
Definition load_run (run_id : string) : SM (Task.t * ReviewRun.t) :=
  task ← load (R := Task.t) run_id;
  match review_of task with
  | Some run => mret (task, run)
  | None => raise (TypeError "not a ReviewRun")
  end.

(** [session.get(ReviewRun, id)]. *)
Definition get_review_run (run_id : string) : SM (option string) :=
  found ← fetch (R := Task.t) run_id;
  mret (match found with
        | Some task => match review_of task with Some _ => Some run_id | None => None end
        | None => None
        end).

Definition run_where (P : Task.t → ReviewRun.t → bool) (t : Task.t) : bool :=
  match review_of t with Some r => P t r | None => false end.

(** The runs of one pull request. *)
Definition of_pull_request (provider repo_full_name : string) (n : Z) (r : ReviewRun.t) : bool :=
  bool_decide (ReviewRun.provider r = provider)
  && bool_decide (ReviewRun.repo_full_name r = repo_full_name)
  && (ReviewRun.pull_request_number r =? n).

Definition get_latest_review_run_by_head (provider repo_full_name : string) (n : Z)
    (head_sha : string) : SM (option Task.t) :=
  gets (λ s, head (order_by
    (λ t, [match review_of t with Some r => - ReviewRun.attempt r | None => 0 end])
    (filter (run_where (λ _ r, of_pull_request provider repo_full_name n r
                               && bool_decide (ReviewRun.head_sha r = head_sha)))
       (tasks (work s))))).

Definition _review_trigger_policy (trigger_type : string) : string * Z :=
  if bool_decide (trigger_type ∈ ["retry"; "dashboard_rerun"])
  then ("manual-review", 60) else ("webhook-review", 40).

(** The sort key of a string column in descending order. *)
Definition string_desc (s : string) : list Z :=
  map (λ c, - code c) (String.list_ascii_of_string s) ++ [1].

Section review_runs.
Context `{Runtime}.

(** The row of a run that is added to the session. *)
Definition new_review_run (spec : ReviewRunSpec.t) (trigger_type trigger_event_id : string)
    (dedupe_key : option string) (attempt : Z) : SM Task.t :=
  let policy := _review_trigger_policy trigger_type in
  let provider := ReviewRunSpec.provider spec in
  let repo := ReviewRunSpec.repo_full_name spec in
  let n := str_int (ReviewRunSpec.pull_request_number spec) in
  let head_sha := ReviewRunSpec.head_sha spec in
  id ← uuid4;
  available_at ← utc_now;
  created_at ← utc_now;
  updated_at ← utc_now;
  mret (Task.mk id "review" "code-review" "awaiting_delivery"
    (Some "placeholder_delivery_pending") "pending" "pending" policy.1 policy.2 policy.2
    available_at dedupe_key
    (Some (provider +:+ ":" +:+ repo +:+ ":pr:" +:+ n +:+ ":head:" +:+ head_sha))
    "agent-standard"
    (Some [("repository", JStr (provider +:+ "/" +:+ repo));
           ("pr_head", JStr (provider +:+ "/" +:+ repo +:+ "/" +:+ n +:+ "/" +:+ head_sha))])
    None 2 None None None None None created_at updated_at
    (Task.Review (ReviewRun.mk None provider repo (ReviewRunSpec.pull_request_number spec)
       (ReviewRunSpec.base_sha spec) head_sha attempt trigger_type (Some trigger_event_id)
       None None None None None None None None None None 0 None None None None None None None
       None None None))).

Definition _create_review_run_record (spec : ReviewRunSpec.t)
    (trigger_type trigger_event_id : string) (dedupe_key : option string)
    : SM (string * bool) :=
  let latest_by_head :=
    get_latest_review_run_by_head (ReviewRunSpec.provider spec)
      (ReviewRunSpec.repo_full_name spec) (ReviewRunSpec.pull_request_number spec)
      (ReviewRunSpec.head_sha spec) in
  latest ← latest_by_head;
  match latest, ReviewRunSpec.force spec with
  | Some latest, false => mret (Task.id latest, false)
  | _, _ =>
      let next_attempt :=
        match latest with
        | None => 1
        | Some t => match review_of t with Some r => ReviewRun.attempt r + 1 | None => 1 end
        end in
      review_run ← new_review_run spec trigger_type trigger_event_id dedupe_key next_attempt;
      except_integrity
        (begin_nested (insert review_run) ;; mret (Task.id review_run, true))
        (λ e,
          existing ← latest_by_head;
          match existing with
          | None => raise e
          | Some t => mret (Task.id t, false)
          end)
  end.

(** ** The comment slot of a run *)

Definition slot_of_run (run_id : string) : SM (option ReviewCommentSlot.t) :=
  l ← select (λ s, bool_decide (ReviewCommentSlot.review_run_id s = run_id));
  scalar_one_or_none l.

Definition slot_destination (slot_id : string) : string := "review-comment-slot:" +:+ slot_id.

Definition placeholder_key (run_id : string) (version : Z) : string :=
  "review:" +:+ run_id +:+ ":placeholder:v" +:+ str_int version.

Definition create_slot (run_id : string) : SM string :=
  tr ← load_run run_id;
  slot_id ← uuid4;
  insert (ReviewCommentSlot.mk slot_id run_id (ReviewRun.provider tr.2)
    (ReviewRun.repo_full_name tr.2) (ReviewRun.pull_request_number tr.2)
    (ReviewRun.head_sha tr.2) ("review-orchestrator:summary:slot:" +:+ slot_id) None "pending"
    1 0 None None None) ;;
  mret slot_id.

Definition execution_started (task : Task.t) (run : ReviewRun.t) : bool :=
  bool_decide (Task.status task = "running")
  || bool_decide (Task.execution_status task = "running")
  || bool_decide (is_Some (ReviewRun.agent_session_id run)).

Definition option_json (o : option string) : json :=
  match o with Some s => JStr s | None => JNull end.

Definition placeholder_payload (slot_id run_id resume_status : string)
    (resume_stage : option string) : json :=
  JObj [("slot_id", JStr slot_id); ("review_run_id", JStr run_id);
        ("status_text", JStr "reviewing"); ("success_status", JStr resume_status);
        ("success_stage", option_json resume_stage)].

(** Queues the placeholder of a slot. *)
Definition request_placeholder (run_id slot_id key : string) : SM () :=
  tr ← load_run run_id;
  let started := execution_started tr.1 tr.2 in
  let resume_status := if started then "running" else "queued" in
  let resume_stage := if started then Task.stage tr.1 else Some "placeholder_ready" in
  modify run_id (λ t, t .[ Task.status := "awaiting_delivery" ]
                        .[ Task.stage := Some "placeholder_delivery_pending" ]) ;;
  when (negb started) (modify run_id (λ t, t .[ Task.execution_status := "pending" ])) ;;
  _ ← enqueue_delivery run_id (ReviewRun.provider tr.2) "review_placeholder"
        (slot_destination slot_id) key
        (placeholder_payload slot_id run_id resume_status resume_stage) true (Some 100) 0 false;
  mret tt.

Definition ensure_review_placeholder_requested (run_id : string) : SM string :=
  found ← slot_of_run run_id;
  slot_id ← match found with
            | Some slot => mret (ReviewCommentSlot.id slot)
            | None => create_slot run_id
            end;
  slot ← load (R := ReviewCommentSlot.t) slot_id;
  if bool_decide (ReviewCommentSlot.status slot ∈ ["ready"; "finalizing"; "finalized"])
  then mret slot_id
  else
    let key := placeholder_key run_id (ReviewCommentSlot.placeholder_version slot) in
    l ← select (λ d, bool_decide (DeliveryOutbox.idempotency_key d = key));
    existing_delivery ← scalar_one_or_none l;
    match existing_delivery with
    | Some _ => mret slot_id
    | None => request_placeholder run_id slot_id key ;; mret slot_id
    end.

Definition is_terminal (status_text : string) : bool :=
  bool_decide (status_text ∈ ["completed"; "failed"; "cancelled"; "superseded"]).

(** The assignments to a run whose terminal status is reported. *)
Definition mark_terminal (status_text : string) (t : Task.t) : Task.t :=
  t .[ Task.execution_status :=
         if bool_decide (status_text = "superseded") then "cancelled" else status_text ]
    .[ Task.status := "awaiting_delivery" ]
    .[ Task.stage := Some (status_text +:+ "_delivery_pending") ].

Definition comment_payload (slot_id run_id status_text : string) (version : Z) : json :=
  JObj ([("slot_id", JStr slot_id); ("review_run_id", JStr run_id);
         ("status_text", JStr status_text); ("result_version", JInt version)]
        ++ if is_terminal status_text
           then [("final_status", JStr status_text); ("final_stage", JStr status_text)] else []).

Definition comment_key (run_id status_text : string) (version : Z) : string :=
  "review:" +:+ run_id +:+ ":comment:" +:+ status_text +:+ ":v" +:+ str_int version.

Definition enqueue_review_comment_status (run_id status_text : string) (commit_ : bool) : SM () :=
  let terminal := is_terminal status_text in
  found ← slot_of_run run_id;
  slot_id ← match found with
            | Some slot => mret (ReviewCommentSlot.id slot)
            | None => ensure_review_placeholder_requested run_id
            end;
  when terminal
    (modify run_id (mark_terminal status_text) ;;
     slot ← load (R := ReviewCommentSlot.t) slot_id;
     when (bool_decide (ReviewCommentSlot.status slot = "ready"))
       (modify slot_id (λ s, s .[ ReviewCommentSlot.status := "finalizing" ]))) ;;
  slot ← load (R := ReviewCommentSlot.t) slot_id;
  let result_version := ReviewCommentSlot.result_version slot + 1 in
  modify slot_id (λ s, s .[ ReviewCommentSlot.result_version := result_version ]) ;;
  tr ← load_run run_id;
  _ ← enqueue_delivery run_id (ReviewRun.provider tr.2)
        (if terminal then "review_result" else "review_progress") (slot_destination slot_id)
        (comment_key run_id status_text result_version)
        (comment_payload slot_id run_id status_text result_version) true (Some 100) 0 false;
  when commit_ commit.

(** ** Ending runs *)

Definition cancel_review_run (run_id : string) : SM (option string) :=
  found ← get_review_run run_id;
  match found with
  | None => mret None
  | Some _ =>
      task ← load (R := Task.t) run_id;
      when (bool_decide (Task.status task ∈ CANCELLABLE_STATUSES))
        (modify run_id (λ t, set_review (λ r, r .[ ReviewRun.failure_code := Some "cancelled" ])
           (t .[ Task.status := "cancelled" ] .[ Task.execution_status := "cancelled" ])) ;;
         enqueue_review_comment_status run_id "cancelled" true) ;;
      mret (Some run_id)
  end.

(** The assignments of [cancel_active_review_runs_for_pr] to one run. *)
Definition mark_closed (failure_code : string) (now : Z) (t : Task.t) : Task.t :=
  set_review (λ r, r .[ ReviewRun.failure_code := Some failure_code ])
    (t .[ Task.status := "cancelled" ] .[ Task.execution_status := "cancelled" ]
       .[ Task.stage := Some "cleanup" ] .[ Task.completed_at := Some now ]).

Definition active_run_of (provider repo_full_name : string) (n : Z) : Task.t → bool :=
  run_where (λ t r, of_pull_request provider repo_full_name n r
                    && bool_decide (Task.status t ∈ CANCELLABLE_STATUSES)).

Definition cancel_active_review_runs_for_pr (provider : string)
    (repo_full_name : option string) (pull_request_number : option Z) (failure_code : string)
    : SM (list string) :=
  match repo_full_name, pull_request_number with
  | Some repo_full_name, Some n =>
      review_runs ← select (active_run_of provider repo_full_name n);
      now ← utc_now;
      for_each review_runs (λ t,
        modify (Task.id t) (mark_closed failure_code now) ;;
        enqueue_review_comment_status (Task.id t) "cancelled" false) ;;
      mret (Task.id <$> review_runs)
  | _, _ => mret []
  end.

(** The assignments of [supersede_older_review_runs] to one run. *)
Definition mark_superseded (current_id : string) (now : Z) (t : Task.t) : Task.t :=
  set_review (λ r, r .[ ReviewRun.failure_code := Some "superseded_by_new_head" ]
                     .[ ReviewRun.superseded_by_review_run_id := Some current_id ])
    (t .[ Task.status := "superseded" ] .[ Task.execution_status := "cancelled" ]
       .[ Task.stage := Some "cleanup" ] .[ Task.completed_at := Some now ]).

(** An unfinished run of the same pull request for another head. *)
Definition older_run (current_id : string) (current : ReviewRun.t) : Task.t → bool :=
  run_where (λ t r,
    of_pull_request (ReviewRun.provider current) (ReviewRun.repo_full_name current)
      (ReviewRun.pull_request_number current) r
    && negb (bool_decide (Task.id t = current_id))
    && negb (bool_decide (ReviewRun.head_sha r = ReviewRun.head_sha current))
    && bool_decide (Task.status t ∈ CANCELLABLE_STATUSES)).

Definition supersede_older_review_runs (current_id : string) : SM (list string) :=
  tr ← load_run current_id;
  older_runs ← select (older_run current_id tr.2);
  now ← utc_now;
  for_each older_runs (λ t,
    modify (Task.id t) (mark_superseded current_id now) ;;
    enqueue_review_comment_status (Task.id t) "superseded" false) ;;
  mret (Task.id <$> older_runs).

(** The result of a run. *)

Definition _review_session_for_run (run_id : string) : SM (option string) :=
  l ← select (λ x, bool_decide (ReviewSession.review_run_id x = run_id));
  found ← scalar_one_or_none l;
  mret (ReviewSession.id <$> found).

Definition with_session (session_id : option string) (f : ReviewSession.t → ReviewSession.t)
    : SM () :=
  match session_id with Some id => modify id f | None => mret tt end.

Definition _mark_failed (run_id error failure_code : string) : SM () :=
  now ← utc_now;
  modify run_id (λ t, set_review (λ r, r .[ ReviewRun.failure_code := Some failure_code ]
                                         .[ ReviewRun.error := Some error ])
    (t .[ Task.status := "failed" ] .[ Task.completed_at := Some now ])) ;;
  review_session ← _review_session_for_run run_id;
  with_session review_session (λ x, x .[ ReviewSession.status := "failed" ]
                                      .[ ReviewSession.error_message := Some error ]) ;;
  commit.

(** ** Pull-request contexts and events *)

Definition context_of (provider repo_full_name : string) (n : Z) (c : PullRequestContext.t)
    : bool :=
  bool_decide (PullRequestContext.provider c = provider)
  && bool_decide (PullRequestContext.repo_full_name c = repo_full_name)
  && (PullRequestContext.pull_request_number c =? n).

Definition context_by_identity (provider repo_full_name : string) (n : Z)
    : SM (option PullRequestContext.t) :=
  l ← select (context_of provider repo_full_name n);
  scalar_one_or_none l.

Definition _pull_request_context_for_run (run_id : string) : SM (option PullRequestContext.t) :=
  tr ← load_run run_id;
  let run := tr.2 in
  bound ← match ReviewRun.pull_request_context_id run with
          | Some (String c s) => fetch (R := PullRequestContext.t) (String c s)
          | _ => mret None
          end;
  match bound with
  | Some context => mret (Some context)
  | None => context_by_identity (ReviewRun.provider run) (ReviewRun.repo_full_name run)
              (ReviewRun.pull_request_number run)
  end.

Definition get_provider_event (provider delivery_id : string)
    : SM (option ProviderEventInbox.t) :=
  l ← select (λ e, bool_decide (ProviderEventInbox.provider e = provider)
                   && bool_decide (ProviderEventInbox.delivery_id e = delivery_id));
  scalar_one_or_none l.

(** ** Whether a run may be retried or reviewed again *)

Definition unavailable (reason_code message : string) (existing base head : option string)
    : ReviewRunActionAvailability.t :=
  ReviewRunActionAvailability.mk false reason_code message None existing base head.

Definition is_open (context : PullRequestContext.t) : bool :=
  bool_decide (py_lower (PullRequestContext.status context) ∈ ["open"; "opened"]).

(** A run for the head the context is at, and for its base when that is known. *)
Definition revision_current (run : ReviewRun.t) (context : PullRequestContext.t) : bool :=
  bool_decide (ReviewRun.head_sha run = PullRequestContext.head_sha context)
  && match PullRequestContext.base_sha context with
     | Some base => bool_decide (ReviewRun.base_sha run = Some base)
     | None => true
     end.

Definition active_review (run_id : string) (run : ReviewRun.t) : Task.t → bool :=
  run_where (λ t r,
    of_pull_request (ReviewRun.provider run) (ReviewRun.repo_full_name run)
      (ReviewRun.pull_request_number run) r
    && bool_decide (ReviewRun.head_sha r = ReviewRun.head_sha run)
    && negb (bool_decide (Task.id t = run_id))
    && bool_decide (Task.status t ∈ ACTIVE_REVIEW_STATUSES)).

Definition status_refusal (action : ReviewReason) (status : string) : string * string :=
  if bool_decide (status = "superseded") then
    ("revision_not_current", "该任务审查的是旧版本，请从最新版本重新审查。")
  else if bool_decide (action = retry) then
    ("run_not_failed", "只有失败的审查任务可以重试。")
  else if bool_decide (status = "failed") then
    ("failed_run_requires_retry", "失败的审查任务应使用重试操作。")
  else ("run_not_terminal", "当前审查尚未结束，不能创建重复审查。").

Definition action_str (action : ReviewReason) : string :=
  match action with
  | automatic => "automatic" | mention => "mention" | retry => "retry" | rerun => "rerun"
  end.

Definition _get_source_review_action_availability (run_id : string) (action : ReviewReason)
    (allowed_statuses : list string) (context : option PullRequestContext.t)
    : SM ReviewRunActionAvailability.t :=
  tr ← load_run run_id;
  let task := tr.1 in
  let run := tr.2 in
  context ← match context with
            | Some c => mret (Some c)
            | None => _pull_request_context_for_run run_id
            end;
  let base := context ≫= PullRequestContext.base_sha in
  let head_sha := PullRequestContext.head_sha <$> context in
  if negb (bool_decide (Task.status task ∈ allowed_statuses)) then
    let refusal := status_refusal action (Task.status task) in
    mret (unavailable refusal.1 refusal.2 None base head_sha)
  else
    match context with
    | None =>
        mret (unavailable "missing_pr_context" "找不到该任务对应的 PR 上下文。" None None None)
    | Some context =>
        if negb (is_open context) then
          mret (unavailable "pull_request_closed" "该 PR 已关闭，不能重新审查。" None base head_sha)
        else if negb (truthy (ReviewRun.base_sha run)) then
          mret (unavailable "base_revision_missing" "源任务缺少 Base commit，不能重新审查。"
                  None base head_sha)
        else if negb (revision_current run context) then
          mret (unavailable "revision_not_current"
                  "该任务审查的版本已过期，请从最新版本重新审查。" None base head_sha)
        else
          active ← gets (λ s, head (order_by
                     (λ t, - Task.created_at t :: string_desc (Task.id t))
                     (filter (active_review run_id run) (tasks (work s)))));
          match active with
          | Some t =>
              mret (unavailable "active_review_exists" "该版本已有审查正在执行。"
                      (Some (Task.id t)) base head_sha)
          | None =>
              latest ← get_latest_review_run_by_head (ReviewRun.provider run)
                (ReviewRun.repo_full_name run) (ReviewRun.pull_request_number run)
                (ReviewRun.head_sha run);
              let attempt :=
                match latest ≫= review_of with
                | Some r => ReviewRun.attempt r
                | None => ReviewRun.attempt run
                end in
              mret (ReviewRunActionAvailability.mk true (action_str action +:+ "_allowed")
                (if bool_decide (action = retry) then "可以为当前失败任务创建一次重试。"
                 else "可以为当前版本创建一次新的完整审查。")
                (Some (attempt + 1)) None base head_sha)
          end
    end.

(** The retry requests of the pull request of a run, the latest first. *)
Definition retry_event_for (run : ReviewRun.t) (e : ProviderEventInbox.t) : bool :=
  bool_decide (ProviderEventInbox.provider e = "internal")
  && bool_decide (ProviderEventInbox.provider_action e = Some "retry")
  && bool_decide (ProviderEventInbox.internal_event e = Some "review_requested")
  && bool_decide (ProviderEventInbox.repo_full_name e = Some (ReviewRun.repo_full_name run))
  && bool_decide (ProviderEventInbox.pull_request_number e
                  = Some (ReviewRun.pull_request_number run)).

(** [payload.get("source_review_run_id")] when it is a string. *)
Definition source_of (e : ProviderEventInbox.t) : option string :=
  jget_str (ProviderEventInbox.payload e) "source_review_run_id".

(** The first retry request of a run itself. *)
Definition latest_retry_event (run_id : string) (run : ReviewRun.t)
    (l : list ProviderEventInbox.t) : option ProviderEventInbox.t :=
  head (filter (λ e, source_of e = Some run_id)
    (order_by (λ e, [- ProviderEventInbox.created_at e]) (filter (retry_event_for run) l))).

Definition get_review_run_retry_availability (run_id : string)
    (context : option PullRequestContext.t) (request_event_id : option string)
    : SM ReviewRunActionAvailability.t :=
  tr ← load_run run_id;
  let base := context ≫= PullRequestContext.base_sha in
  let head_sha := PullRequestContext.head_sha <$> context in
  existing_event ← gets (λ s, latest_retry_event run_id tr.2 (events (work s)));
  match existing_event with
  | Some e =>
      if negb (bool_decide (Some (ProviderEventInbox.id e) = request_event_id)) then
        match ProviderEventInbox.review_run_id e with
        | Some (String c s) =>
            mret (unavailable "retry_already_requested" "该失败任务已经创建过重试任务。"
                    (Some (String c s)) base head_sha)
        | _ =>
            mret (unavailable (or_else (ProviderEventInbox.error_code e) "retry_request_pending")
                    (or_else (ProviderEventInbox.error_message e)
                       "该失败任务已有重试请求正在处理。") None base head_sha)
        end
      else _get_source_review_action_availability run_id retry ["failed"] context
  | None => _get_source_review_action_availability run_id retry ["failed"] context
  end.

Definition get_review_run_rerun_availability (run_id : string)
    (context : option PullRequestContext.t) : SM ReviewRunActionAvailability.t :=
  _get_source_review_action_availability run_id rerun RERUN_SOURCE_STATUSES context.

Definition action_availability (action : ReviewReason) (run_id : string)
    (context : option PullRequestContext.t) (event_id : string)
    : SM ReviewRunActionAvailability.t :=
  if bool_decide (action = retry)
  then get_review_run_retry_availability run_id context (Some event_id)
  else get_review_run_rerun_availability run_id context.

(** ** Creating a run *)

Definition trigger_type_of (reason : ReviewReason) : string :=
  match reason with
  | automatic => "webhook" | mention => "mention" | retry => "retry" | rerun => "dashboard_rerun"
  end.

Definition reject {A} (message code event_id : string) (existing : option string) : SM A :=
  raise (ReviewRequestRejected message code event_id existing).

(** The revision to review: that of the source run, or that of the context. *)
Definition requested_revision (request : ReviewRequest.t) (event_id : string)
    (context : PullRequestContext.t) : SM (option string * string * bool) :=
  match ReviewRequest.source_review_run_id request with
  | Some (String c s) =>
      let source_id := String c s in
      found ← get_review_run source_id;
      match found with
      | None => reject "找不到源审查任务。" "source_review_run_missing" event_id None
      | Some _ =>
          tr ← load_run source_id;
          let source := tr.2 in
          if negb (of_pull_request (PullRequestContext.provider context)
                     (PullRequestContext.repo_full_name context)
                     (PullRequestContext.pull_request_number context) source)
          then reject "源审查任务与 PR 上下文不匹配。" "source_context_mismatch" event_id None
          else
            availability ← action_availability (ReviewRequest.reason request) source_id
                             (Some context) event_id;
            if negb (ReviewRunActionAvailability.allowed availability) then
              reject (ReviewRunActionAvailability.message availability)
                (ReviewRunActionAvailability.reason_code availability) event_id
                (ReviewRunActionAvailability.existing_review_run_id availability)
            else mret (ReviewRun.base_sha source, ReviewRun.head_sha source, true)
      end
  | _ =>
      if negb (truthy (PullRequestContext.base_sha context)) then
        reject "PR 上下文缺少 Base commit。" "base_revision_missing" event_id None
      else
        mret (PullRequestContext.base_sha context, PullRequestContext.head_sha context,
              bool_decide (ReviewRequest.reason request = mention))
  end.

Definition is_source_action (reason : ReviewReason) : bool :=
  bool_decide (reason ∈ [retry; rerun]).

Definition handle_review_requested (request : ReviewRequest.t) : SM (string * bool) :=
  found ← fetch (R := ProviderEventInbox.t) (ReviewRequest.trigger_event_id request);
  match found with
  | None => raise (ValueError "Review request trigger event does not exist.")
  | Some event =>
      let event_id := ProviderEventInbox.id event in
      let reason := ReviewRequest.reason request in
      if negb (Bool.eqb (is_source_action reason)
                 (bool_decide (is_Some (ReviewRequest.source_review_run_id request))))
      then raise (ValueError
             "Retry and rerun requests must reference exactly one source review run.")
      else
        found_context ← fetch (R := PullRequestContext.t)
          (ReviewRequest.pull_request_context_id request);
        match found_context with
        | None => reject "找不到审查请求对应的 PR 上下文。" "missing_pr_context" event_id None
        | Some context =>
            if negb (is_open context) then
              reject "该 PR 已关闭，不能创建审查任务。" "pull_request_closed" event_id None
            else
              revision ← requested_revision request event_id context;
              record ← _create_review_run_record
                (ReviewRunSpec.mk (PullRequestContext.provider context)
                   (PullRequestContext.repo_full_name context)
                   (PullRequestContext.pull_request_number context)
                   revision.1.1 revision.1.2 revision.2)
                (trigger_type_of reason) event_id (ReviewRequest.dedupe_key request);
              let review_run := record.1 in
              let created := record.2 in
              modify review_run (set_review (λ r, r .[ ReviewRun.pull_request_context_id :=
                                                        Some (PullRequestContext.id context) ])) ;;
              modify (PullRequestContext.id context) (λ c,
                c .[ PullRequestContext.latest_review_run_id := Some review_run ]) ;;
              when created (_ ← ensure_review_placeholder_requested review_run; mret tt) ;;
              when (bool_decide (reason = automatic) && created)
                (_ ← supersede_older_review_runs review_run; mret tt) ;;
              mret (review_run, created)
        end
  end.
End review_runs.
