(* ===== verification/ReviewRequests.v ===== *)
(** * Requests for another review

    Model of the retry and rerun requests of
    [src/src/review_orchestrator/application/services.py]: every request is an
    event of the inbox whose delivery identifier makes it idempotent; the run it leads
    to is created by [handle_review_requested]. *)
From Stdlib Require Import Ascii.
From S2P Require Import Prelude PyText Json Models Scheduler SchedulerAdmin Delivery ReviewRuns.
#[global] Open Scope Z_scope.
#[global] Open Scope orch_scope.

(** The dictionary built by [_review_request_result]. *)
Module ReviewRequestResult.
Record t := mk {
  source_review_run_id : string;
  review_request_event_id : string;
  review_run_id : string;
  attempt : Z;
  status : string;
  deduplicated : bool
}.
End ReviewRequestResult.

Section requests.
Context `{Runtime}.

Definition _review_request_result (source_id event_id run_id : string) (deduplicated : bool)
    : SM ReviewRequestResult.t :=
  tr ← load_run run_id;
  mret (ReviewRequestResult.mk source_id event_id run_id (ReviewRun.attempt tr.2)
          (Task.status tr.1) deduplicated).

Definition _reject_review_request {A} (event_id code message : string)
    (existing_review_run_id : option string) : SM A :=
  now ← utc_now;
  modify event_id (λ e, e .[ ProviderEventInbox.status := "rejected" ]
    .[ ProviderEventInbox.error_code := Some code ]
    .[ ProviderEventInbox.error_message := Some message ]
    .[ ProviderEventInbox.processed_at := Some now ]) ;;
  commit ;;
  reject message code event_id existing_review_run_id.

Definition request_payload (action : ReviewReason) (run_id : string) (run : ReviewRun.t) : json :=
  JObj [("schema_version", JStr "1"); ("target_provider", JStr (ReviewRun.provider run));
        ("trigger_type", JStr (if bool_decide (action = retry) then "retry"
                               else "dashboard_rerun"));
        ("source_review_run_id", JStr run_id); ("revision_policy", JStr "source_run");
        ("revision", JObj [("base_sha", option_json (ReviewRun.base_sha run));
                           ("head_sha", JStr (ReviewRun.head_sha run))])].

(** The event of a new request. *)
Definition request_event (action : ReviewReason) (run_id delivery_id : string)
    (run : ReviewRun.t) : SM ProviderEventInbox.t :=
  id ← uuid4;
  created_at ← utc_now;
  let payload := request_payload action run_id run in
  mret (ProviderEventInbox.mk id "internal" delivery_id "review_request"
    (Some (action_str action)) (Some "review_requested")
    (Some (ReviewRun.repo_full_name run)) (Some (ReviewRun.pull_request_number run))
    (Some (ReviewRun.head_sha run)) delivery_id
    (Some ("review-request:" +:+ ReviewRun.provider run +:+ ":" +:+ run_id +:+ ":"
           +:+ action_str action))
    (sha256_hexdigest (json_dumps payload)) payload "received" None None None created_at None).

(** The answer to a request whose event exists. *)
Definition answer_existing (event : ProviderEventInbox.t) (run_id : string)
    : SM ReviewRequestResult.t :=
  let event_id := ProviderEventInbox.id event in
  if negb (bool_decide (source_of event = Some run_id)) then
    reject "该幂等键已用于另一个审查请求。" "idempotency_conflict" event_id
      (ProviderEventInbox.review_run_id event)
  else
    found ← match ProviderEventInbox.review_run_id event with
            | Some (String c s) => get_review_run (String c s)
            | _ => mret None
            end;
    match found with
    | Some existing_run => _review_request_result run_id event_id existing_run true
    | None =>
        reject (or_else (ProviderEventInbox.error_message event) "审查请求未创建任务。")
          (or_else (ProviderEventInbox.error_code event) "review_request_not_queued")
          event_id None
    end.

(** The rest of a request whose event was just added. *)
Definition decide_request (event : ProviderEventInbox.t) (action : ReviewReason) (run_id : string)
    (context : option PullRequestContext.t) : SM ReviewRequestResult.t :=
  let event_id := ProviderEventInbox.id event in
  availability ← action_availability action run_id context event_id;
  (if negb (ReviewRunActionAvailability.allowed availability) then
     _reject_review_request (A := ()) event_id (ReviewRunActionAvailability.reason_code availability)
       (ReviewRunActionAvailability.message availability)
       (ReviewRunActionAvailability.existing_review_run_id availability)
   else mret tt) ;;
  match context with
  | None => raise (AssertionError "allowed review request is missing PR context")
  | Some context =>
      record ← try_except
        (handle_review_requested (ReviewRequest.mk action event_id
           (PullRequestContext.id context) (Some run_id)
           (Some (ProviderEventInbox.dedupe_key event))))
        (λ e, match e with
              | ReviewRequestRejected message code _ existing =>
                  _reject_review_request event_id code message existing
              | _ => raise e
              end);
      now ← utc_now;
      modify event_id (λ e, e .[ ProviderEventInbox.status := "queued" ]
        .[ ProviderEventInbox.review_run_id := Some record.1 ]
        .[ ProviderEventInbox.processed_at := Some now ]) ;;
      commit ;;
      _review_request_result run_id event_id record.1 (negb record.2)
  end.

(** [fuel] bounds the recursion after a concurrent insertion of the same event; one
    level is enough, because the next call finds the event. *)
Fixpoint _request_source_review_action (fuel : nat) (run_id : string) (action : ReviewReason)
    (delivery_id : string) : SM (option ReviewRequestResult.t) :=
  existing_event ← get_provider_event "internal" delivery_id;
  match existing_event with
  | Some event => result ← answer_existing event run_id; mret (Some result)
  | None =>
      source ← get_review_run run_id;
      match source with
      | None => mret None
      | Some _ =>
          context ← _pull_request_context_for_run run_id;
          tr ← load_run run_id;
          event ← request_event action run_id delivery_id tr.2;
          added ← except_integrity
            (begin_nested (insert event) ;; mret true)
            (λ e, duplicate ← get_provider_event "internal" delivery_id;
                  match duplicate with None => raise e | Some _ => mret false end);
          if (added : bool) then result ← decide_request event action run_id context; mret (Some result)
          else
            match fuel with
            | S fuel => _request_source_review_action fuel run_id action delivery_id
            | O => raise (OtherError "RecursionError")
            end
      end
  end.

Definition recursion_limit : nat := 1000.

Definition request_review_rerun (run_id idempotency_key : string)
    : SM (option ReviewRequestResult.t) :=
  _request_source_review_action recursion_limit run_id rerun
    ("dashboard-rerun:" +:+ idempotency_key).

Definition request_review_retry (run_id : string) : SM (option ReviewRequestResult.t) :=
  _request_source_review_action recursion_limit run_id retry ("review-retry:" +:+ run_id).

(** ** Requests of the agent that answers a command *)

(** The guards of [request_review_action_from_agent] on its task. *)
Definition agent_may_request (task : Task.t) (agent : AgentTask.t) (agent_session_id : string)
    : option exn :=
  if negb (bool_decide (AgentTask.task_type agent = "message_command"))
     || negb (bool_decide (Task.status task = "running"))
     || negb (bool_decide (Task.stage task ∈ [Some "starting_agent"; Some "waiting_for_agent"]))
  then Some (AgentReviewActionRejected
    "Review actions are only available to a running message command." "agent_task_not_running")
  else if bool_decide (is_Some (AgentTask.agent_session_id agent))
          && negb (bool_decide (AgentTask.agent_session_id agent = Some agent_session_id))
  then Some (AgentReviewActionRejected
    "The pi-agent session does not own this message command." "agent_session_mismatch")
  else if negb (truthy (AgentTask.head_sha agent))
  then Some (AgentReviewActionRejected
    "The message command is missing its pull-request revision." "agent_task_revision_missing")
  else None.

(** The run an agent's request is about, or its refusal. *)
Definition agent_source (action : ReviewReason) (agent : AgentTask.t) : SM string :=
  source ← get_latest_review_run_by_head (AgentTask.provider agent)
    (AgentTask.repo_full_name agent) (AgentTask.pull_request_number agent)
    (default "" (AgentTask.head_sha agent));
  match source with
  | None => raise (AgentReviewActionRejected
      "No review exists for the current pull-request revision." "review_run_not_found")
  | Some source =>
      if bool_decide (action = retry) && negb (bool_decide (Task.status source = "failed"))
      then raise (AgentReviewActionRejected
        "The latest review is not failed; use rerun after a completed or cancelled review."
        "run_not_failed")
      else if bool_decide (action = rerun)
              && negb (bool_decide (Task.status source ∈ RERUN_SOURCE_STATUSES))
      then raise (AgentReviewActionRejected
        "The latest review is not completed or cancelled; failed reviews must use retry."
        (if bool_decide (Task.status source = "failed") then "failed_run_requires_retry"
         else "run_not_terminal"))
      else mret (Task.id source)
  end.

Definition source_missing {A} : SM A :=
  raise (AgentReviewActionRejected "The source review no longer exists." "review_run_not_found").

Definition request_review_action_from_agent (agent_task_id agent_session_id : string)
    (action : ReviewReason) : SM (option (ReviewReason * ReviewRequestResult.t)) :=
  found ← fetch (R := Task.t) agent_task_id;
  match found, found ≫= agent_of with
  | Some task, Some agent =>
      match agent_may_request task agent agent_session_id with
      | Some e => raise e
      | None =>
          when (bool_decide (AgentTask.agent_session_id agent = None))
            (modify agent_task_id (set_agent (λ a,
               a .[ AgentTask.agent_session_id := Some agent_session_id ]))) ;;
          let delivery_id := "agent-review-action:" +:+ agent_task_id +:+ ":"
                             +:+ action_str action in
          existing_event ← get_provider_event "internal" delivery_id;
          source_id ← match existing_event with
            | Some event =>
                match jget_str (ProviderEventInbox.payload event) "source_review_run_id" with
                | Some (String c s) => mret (String c s)
                | _ => raise (AgentReviewActionRejected
                    "The existing Agent review request is missing its source review."
                    "agent_review_action_invalid")
                end
            | None => agent_source action agent
            end;
          requested ← _request_source_review_action recursion_limit source_id action delivery_id;
          match requested with
          | None => source_missing
          | Some result => mret (Some (action, result))
          end
      end
  | _, _ => mret None
  end.
End requests.
