(* ===== verification/Webhooks.v ===== *)
(** * Provider webhooks

    Model of [accept_provider_webhook] and of what it calls in
    [src/src/review_orchestrator/application/services.py]: the inbox, pull-request
    contexts, closing a pull request, and message commands.  The provider-neutral event
    is that of [src/src/review_orchestrator/integrations/providers.py]; parsing and
    authenticating the provider's own payload happens before. *)
From Stdlib Require Import Ascii.
From S2P Require Import Prelude PyText Json Models Scheduler SchedulerAdmin Delivery ReviewRuns.
#[global] Open Scope Z_scope.
#[global] Open Scope orch_scope.

Module PullRequestSnapshot.
Record t := mk {
  repository : string;
  number : Z;
  head_sha : string;
  provider_repo_id : option string;
  provider_pr_id : option string;
  title : option string;
  author_login : option string;
  base_ref : option string;
  base_sha : option string;
  head_ref : option string;
  base_repo_full_name : option string;
  head_repo_full_name : option string;
  status : string;
  html_url : option string;
  closed_at : option Z;
  merged_at : option Z
}.
End PullRequestSnapshot.

Module AgentCommand.
Record t := mk {
  source_kind : string;
  source_comment_id : string;
  source_url : option string;
  author_login : string;
  author_association : option string;
  command_text : string
}.
End AgentCommand.

Module ProviderWebhookEvent.
Record t := mk {
  provider : string;
  provider_event : string;
  provider_action : option string;
  internal_event : option string;
  repository : option string;
  pull_request_number : option Z;
  head_sha : option string;
  should_update_context : bool;
  should_create_review_run : bool;
  should_create_agent_task : bool;
  status : string;
  agent_command : option AgentCommand.t;
  pull_request : option PullRequestSnapshot.t
}.
End ProviderWebhookEvent.

(** [WebhookAccepted] of [domain/schemas.py]; [accepted] is always true. *)
Module WebhookAccepted.
Record t := mk {
  provider : string;
  delivery_id : string;
  status : string;
  internal_event : option string;
  review_run_id : option string;
  agent_task_id : option string;
  duplicate : bool
}.
End WebhookAccepted.

Definition _build_coalesce_key (provider : string) (repo_full_name : option string)
    (pull_request_number : option Z) (head_sha : option string) : option string :=
  match repo_full_name, pull_request_number with
  | Some repo, Some n =>
      let prefix := provider +:+ ":" +:+ repo +:+ ":" +:+ str_int n +:+ ":" in
      Some (match head_sha with
            | Some (String c s) => prefix +:+ String c s +:+ ":review"
            | _ => prefix +:+ "lifecycle"
            end)
  | _, _ => None
  end.

Definition agent_where (P : Task.t → AgentTask.t → bool) (t : Task.t) : bool :=
  match agent_of t with Some a => P t a | None => false end.

(** The latest command task of an event. *)
Definition _get_agent_task_id_for_event (event_id : string) : SM (option string) :=
  gets (λ s, Task.id <$> head (order_by (λ t, [- Task.created_at t])
    (filter (agent_where (λ _ a, bool_decide (AgentTask.provider_event_id a = Some event_id)))
       (tasks (work s))))).

Section webhooks.
Context `{Runtime}.

Definition payload_digest (raw_body : string) : string := sha256_hexdigest raw_body.

(** ** Pull-request contexts *)

Definition new_context (provider repository : string) (n : Z) (head_sha : string)
    : SM PullRequestContext.t :=
  id ← uuid4;
  created_at ← utc_now;
  mret (PullRequestContext.mk id provider repository None n None None None None None None
          head_sha None false "open" None None None None None None created_at).

(** The assignments of a snapshot to its context. *)
Definition apply_snapshot (event_id : string) (snapshot : PullRequestSnapshot.t)
    (c : PullRequestContext.t) : PullRequestContext.t :=
  c .[ PullRequestContext.provider_repo_id := PullRequestSnapshot.provider_repo_id snapshot ]
    .[ PullRequestContext.provider_pr_id := PullRequestSnapshot.provider_pr_id snapshot ]
    .[ PullRequestContext.title := PullRequestSnapshot.title snapshot ]
    .[ PullRequestContext.author_login := PullRequestSnapshot.author_login snapshot ]
    .[ PullRequestContext.base_ref := PullRequestSnapshot.base_ref snapshot ]
    .[ PullRequestContext.base_sha := PullRequestSnapshot.base_sha snapshot ]
    .[ PullRequestContext.head_ref := PullRequestSnapshot.head_ref snapshot ]
    .[ PullRequestContext.head_sha := PullRequestSnapshot.head_sha snapshot ]
    .[ PullRequestContext.head_repo_full_name :=
         PullRequestSnapshot.head_repo_full_name snapshot ]
    .[ PullRequestContext.is_fork :=
         truthy (PullRequestSnapshot.head_repo_full_name snapshot)
         && negb (bool_decide (PullRequestSnapshot.head_repo_full_name snapshot
                               = PullRequestSnapshot.base_repo_full_name snapshot)) ]
    .[ PullRequestContext.status := PullRequestSnapshot.status snapshot ]
    .[ PullRequestContext.html_url := PullRequestSnapshot.html_url snapshot ]
    .[ PullRequestContext.latest_event_id := Some event_id ]
    .[ PullRequestContext.closed_at := PullRequestSnapshot.closed_at snapshot ]
    .[ PullRequestContext.merged_at := PullRequestSnapshot.merged_at snapshot ].

Definition upsert_pull_request_context (event_id provider : string)
    (snapshot : PullRequestSnapshot.t) : SM string :=
  let repository := PullRequestSnapshot.repository snapshot in
  let n := PullRequestSnapshot.number snapshot in
  found ← context_by_identity provider repository n;
  context_id ← match found with
    | Some c => mret (PullRequestContext.id c)
    | None =>
        c ← new_context provider repository n (PullRequestSnapshot.head_sha snapshot);
        insert c ;;
        mret (PullRequestContext.id c)
    end;
  modify context_id (apply_snapshot event_id snapshot) ;;
  mret context_id.

(** ** Message commands *)

(** An unfinished command of a pull request. *)
Definition active_command_of (provider repo_full_name : string) (n : Z) : Task.t → bool :=
  agent_where (λ t a,
    bool_decide (AgentTask.provider a = provider)
    && bool_decide (AgentTask.repo_full_name a = repo_full_name)
    && (AgentTask.pull_request_number a =? n)
    && bool_decide (AgentTask.task_type a = "message_command")
    && bool_decide (Task.status t ∈ ["queued"; "running"])).

Definition mark_cancellation (failure_code : string) (t : Task.t) : Task.t :=
  set_agent (λ a, a .[ AgentTask.failure_code := Some failure_code ]
      .[ AgentTask.error_message := Some "Pull request closed before the command completed." ])
    (t .[ Task.status := "running" ] .[ Task.stage := Some "cancellation_pending" ]
       .[ Task.lock_owner := None ] .[ Task.locked_until := None ]).

Definition cancel_active_agent_tasks_for_pr (provider : string)
    (repo_full_name : option string) (pull_request_number : option Z) (failure_code : string)
    : SM (list string) :=
  match repo_full_name, pull_request_number with
  | Some repo_full_name, Some n =>
      l ← select (active_command_of provider repo_full_name n);
      for_each l (λ t, modify (Task.id t) (mark_cancellation failure_code)) ;;
      when (negb (bool_decide (Task.id <$> l = []))) commit ;;
      mret (Task.id <$> l)
  | _, _ => mret []
  end.

(** The row of a command task. *)
Definition new_agent_task (event : ProviderEventInbox.t) (repo : string) (n : Z)
    (command : AgentCommand.t) (context : option PullRequestContext.t) : SM Task.t :=
  let provider := ProviderEventInbox.provider event in
  let pr := provider +:+ "/" +:+ repo +:+ "/" +:+ str_int n in
  id ← uuid4;
  available_at ← utc_now;
  created_at ← utc_now;
  updated_at ← utc_now;
  mret (Task.mk id "agent" "pr-assistant" "queued" (Some "placeholder_pending") "pending"
    "pending" "interactive" 80 80 available_at None
    (Some (provider +:+ ":" +:+ repo +:+ ":pr:" +:+ str_int n)) "agent-standard"
    (Some [("user", JStr (AgentCommand.author_login command));
           ("repository", JStr (provider +:+ "/" +:+ repo));
           ("pr", JStr pr);
           ("comment", JStr
              (if bool_decide (AgentCommand.source_comment_id command = "")
               then provider +:+ "/event/" +:+ ProviderEventInbox.id event
               else provider +:+ "/" +:+ AgentCommand.source_comment_id command))])
    None 2 None None None None None created_at updated_at
    (Task.Agent (AgentTask.mk (Some (ProviderEventInbox.id event))
       (PullRequestContext.id <$> context) provider repo n "message_command"
       (Some (AgentCommand.source_kind command)) (Some (AgentCommand.source_comment_id command))
       (AgentCommand.source_url command) (Some (AgentCommand.author_login command))
       (Some (AgentCommand.command_text command))
       match context with
       | Some c => Some (PullRequestContext.head_sha c)
       | None => ProviderEventInbox.head_sha event
       end
       None None None None 0 None None None None None None None None 1 0 None None
       (Some (JObj [("internal_event", option_json (ProviderEventInbox.internal_event event));
                    ("provider_action", option_json (ProviderEventInbox.provider_action event));
                    ("author_association", option_json (AgentCommand.author_association command));
                    ("payload_digest", JStr (ProviderEventInbox.payload_digest event))]))
       None None))).

Definition create_agent_task_from_event (event_id : string) (command : AgentCommand.t)
    (context_id : option string) : SM string :=
  event ← load (R := ProviderEventInbox.t) event_id;
  match ProviderEventInbox.repo_full_name event, ProviderEventInbox.pull_request_number event with
  | Some (String c s), Some n =>
      let repo := String c s in
      context ← match context_id with
                | Some id => c ← load (R := PullRequestContext.t) id; mret (Some c)
                | None => context_by_identity (ProviderEventInbox.provider event) repo n
                end;
      task ← new_agent_task event repo n command context;
      insert task ;;
      mret (Task.id task)
  | _, _ => raise (ValueError "Agent task event is missing PR identity fields.")
  end.

Definition retry_agent_task (task_id : string) : SM (option string) :=
  found ← fetch (R := Task.t) task_id;
  match found, found ≫= agent_of with
  | Some task, Some agent =>
      if negb (bool_decide (AgentTask.task_type agent = "message_command")) then
        raise (ReviewRunTransitionError "Only message-command tasks can be retried." 409)
      else if negb (bool_decide (Task.status task = "failed")) then
        raise (ReviewRunTransitionError
          ("Agent task cannot be retried from status " +:+ Task.status task +:+ ".") 409)
      else
        modify task_id (λ t, set_agent (λ a,
            a .[ AgentTask.attempt := AgentTask.attempt a + 1 ]
              .[ AgentTask.agent_start_attempts := 0 ] .[ AgentTask.agent_session_id := None ]
              .[ AgentTask.agent_status := None ] .[ AgentTask.result_text := None ]
              .[ AgentTask.result_json := None ] .[ AgentTask.failure_code := None ]
              .[ AgentTask.error_message := None ] .[ AgentTask.last_publish_error := None ]
              .[ AgentTask.response_body_hash := None ]
              .[ AgentTask.soft_timeout_emitted_at := None ]
              .[ AgentTask.hard_timeout_emitted_at := None ])
          (t .[ Task.status := "queued" ] .[ Task.stage := Some "placeholder_pending" ]
             .[ Task.started_at := None ] .[ Task.completed_at := None ]
             .[ Task.deadline_at := None ] .[ Task.lock_owner := None ]
             .[ Task.locked_until := None ])) ;;
        commit ;;
        mret (Some task_id)
  | _, _ => mret None
  end.

(** ** The webhook *)

(** The event a webhook adds to the inbox. *)
Definition inbox_event (delivery_id provider_event : string) (w : ProviderWebhookEvent.t)
    (payload : json) (raw_body : string) : SM ProviderEventInbox.t :=
  let provider := ProviderWebhookEvent.provider w in
  id ← uuid4;
  created_at ← utc_now;
  mret (ProviderEventInbox.mk id provider delivery_id provider_event
    (ProviderWebhookEvent.provider_action w) (ProviderWebhookEvent.internal_event w)
    (ProviderWebhookEvent.repository w) (ProviderWebhookEvent.pull_request_number w)
    (ProviderWebhookEvent.head_sha w) (provider +:+ ":" +:+ delivery_id)
    (_build_coalesce_key provider (ProviderWebhookEvent.repository w)
       (ProviderWebhookEvent.pull_request_number w) (ProviderWebhookEvent.head_sha w))
    (payload_digest raw_body) payload (ProviderWebhookEvent.status w) None None None
    created_at None).

Definition is_closing (w : ProviderWebhookEvent.t) : bool :=
  bool_decide (ProviderWebhookEvent.internal_event w ∈ [Some "pr_closed"; Some "pr_merged"]).

(** Closing or merging a pull request ends its runs and commands. *)
Definition close_pull_request (w : ProviderWebhookEvent.t) : SM () :=
  let code := default "" (ProviderWebhookEvent.internal_event w) in
  _ ← cancel_active_review_runs_for_pr (ProviderWebhookEvent.provider w)
        (ProviderWebhookEvent.repository w) (ProviderWebhookEvent.pull_request_number w) code;
  _ ← cancel_active_agent_tasks_for_pr (ProviderWebhookEvent.provider w)
        (ProviderWebhookEvent.repository w) (ProviderWebhookEvent.pull_request_number w) code;
  mret tt.

(** The run an event asks for. *)
Definition webhook_review (event_id : string) (context : option string) : SM string :=
  match context with
  | None => raise (ValueError "Review-triggering event is missing PR context.")
  | Some context_id =>
      record ← handle_review_requested
        (ReviewRequest.mk automatic event_id context_id None None);
      modify event_id (λ e, e .[ ProviderEventInbox.review_run_id := Some record.1 ]
                              .[ ProviderEventInbox.status := "queued" ]) ;;
      modify context_id (λ c,
        c .[ PullRequestContext.latest_review_run_id := Some record.1 ]) ;;
      mret record.1
  end.

(** The command task an event asks for. *)
Definition webhook_command (event_id : string) (w : ProviderWebhookEvent.t)
    (context : option string) : SM string :=
  match ProviderWebhookEvent.agent_command w with
  | None => raise (ValueError "Agent command event is missing command metadata.")
  | Some command =>
      task_id ← create_agent_task_from_event event_id command context;
      modify event_id (λ e, e .[ ProviderEventInbox.status := "queued" ]) ;;
      mret task_id
  end.

Definition only_if {A} (b : bool) (m : SM A) : SM (option A) :=
  if b then a ← m; mret (Some a) else mret None.

Definition webhook_context (event_id : string) (w : ProviderWebhookEvent.t) : SM string :=
  match ProviderWebhookEvent.pull_request w with
  | None => raise (ValueError ("Provider " +:+ repr_string (ProviderWebhookEvent.provider w)
                               +:+ " did not supply normalized PR context."))
  | Some snapshot =>
      upsert_pull_request_context event_id (ProviderWebhookEvent.provider w) snapshot
  end.

(** What a webhook does once its event is in the inbox. *)
Definition handle_event (event_id : string) (w : ProviderWebhookEvent.t)
    : SM (option string * option string) :=
  context ← only_if (ProviderWebhookEvent.should_update_context w) (webhook_context event_id w);
  when (is_closing w) (close_pull_request w) ;;
  review_run_id ← only_if (ProviderWebhookEvent.should_create_review_run w)
                    (webhook_review event_id context);
  agent_task_id ← only_if (ProviderWebhookEvent.should_create_agent_task w)
                    (webhook_command event_id w context);
  event ← load (R := ProviderEventInbox.t) event_id;
  when (bool_decide (ProviderEventInbox.status event = "received"))
    (modify event_id (λ e, e .[ ProviderEventInbox.status := "processed" ])) ;;
  now ← utc_now;
  modify event_id (λ e, e .[ ProviderEventInbox.processed_at := Some now ]) ;;
  commit ;;
  mret (review_run_id, agent_task_id).

Definition accept_provider_webhook (delivery_id provider_event : string)
    (w : ProviderWebhookEvent.t) (payload : json) (raw_body : string) : SM WebhookAccepted.t :=
  let provider := ProviderWebhookEvent.provider w in
  existing ← get_provider_event provider delivery_id;
  match existing with
  | Some e =>
      agent_task_id ← _get_agent_task_id_for_event (ProviderEventInbox.id e);
      mret (WebhookAccepted.mk provider delivery_id (ProviderEventInbox.status e)
              (ProviderEventInbox.internal_event e) (ProviderEventInbox.review_run_id e)
              agent_task_id true)
  | None =>
      event ← inbox_event delivery_id provider_event w payload raw_body;
      insert event ;;
      created ← handle_event (ProviderEventInbox.id event) w;
      event ← load (R := ProviderEventInbox.t) (ProviderEventInbox.id event);
      mret (WebhookAccepted.mk provider delivery_id (ProviderEventInbox.status event)
              (ProviderEventInbox.internal_event event) created.1 created.2 false)
  end.
End webhooks.
