(* ===== verification/ReviewRunFacts.v ===== *)
(** * What the review-run operations leave alone

    Frame lemmas for the operations of [ReviewRuns]: which tables, and which rows
    of the task table, an operation cannot change. *)
From Stdlib Require Import Ascii.
From S2P Require Import Prelude PyText Json Models Scheduler SchedulerAdmin Delivery ReviewRuns Webhooks.
#[global] Open Scope Z_scope.
#[global] Open Scope orch_scope.

(** ** Properties of the databases of a session *)

(** [P] of the database the session sees and [C] of the committed one. *)
Definition tracks (P C : Db → Prop) : Session → Prop := λ s, P (work s) ∧ C (committed s).
Abbreviation sees P := (tracks P (λ _, True)).
Abbreviation everywhere P := (tracks P P).

Section tracks.
Context (P C : Db → Prop).

Lemma keeps_gets_sees {A} (f : Session → A) : keeps (tracks P C) (gets f).
Proof. apply keeps_gets. Qed.

Lemma keeps_begin_nested {A} (m : SM A) : keeps (tracks P C) m → keeps (tracks P C) (begin_nested m).
Proof.
  intros Hm s Hs. specialize (Hm s Hs). unfold begin_nested.
  destruct (m s) as [[a|e] s']; [exact Hm|]. split; [apply Hs|apply Hm].
Qed.

Lemma keeps_except_integrity {A} (m : SM A) h :
  keeps (tracks P C) m → (∀ e, keeps (tracks P C) (h e)) → keeps (tracks P C) (except_integrity m h).
Proof. intros Hm Hh. apply keeps_try; [done|]. intros []; eauto using keeps_raise. Qed.

Lemma service_keeps_utc_now `{Runtime} : keeps (tracks P C) utc_now.
Proof. by intros s Hs. Qed.
Lemma service_keeps_uuid4 `{Runtime} : keeps (tracks P C) uuid4.
Proof. by intros s Hs. Qed.

Context {R : Type} `{TableLaws R}.

Lemma service_keeps_fetch k : keeps (tracks P C) (fetch (R := R) k).
Proof. apply keeps_gets. Qed.
Lemma keeps_load k : keeps (tracks P C) (load (R := R) k).
Proof.
  apply keeps_bind; [apply service_keeps_fetch|]. intros [r|]; [apply keeps_ret|apply keeps_raise].
Qed.
Lemma service_keeps_select (Q : R → bool) : keeps (tracks P C) (select Q).
Proof. apply keeps_gets. Qed.
Lemma keeps_scalar_one_or_none (l : list R) : keeps (tracks P C) (scalar_one_or_none l).
Proof. destruct l as [|x [|y l]]; [apply keeps_ret..|apply keeps_raise]. Qed.
Lemma keeps_puts_rows (f : list R → list R) :
  (∀ d, P d → P (with_rows (f (rows d)) d)) → keeps (tracks P C) (puts (on_rows f)).
Proof. intros Hf s [Hs Hc]. split; [apply Hf, Hs|exact Hc]. Qed.
Lemma keeps_modify k f :
  (∀ d, P d → P (with_rows (update_rows (λ r, bool_decide (row_key r = k)) f (rows d)) d)) →
  keeps (tracks P C) (modify k f).
Proof. apply keeps_puts_rows. Qed.
Lemma keeps_insert r :
  (∀ d, P d → violation r (rows d) = None → P (with_rows (rows d ++ [r]) d)) →
  keeps (tracks P C) (insert r).
Proof.
  intros Hr s [Hs Hc]. unfold insert. run_steps.
  destruct (violation r (rows (work s))) eqn:E; [by split|]. split; [by apply Hr|exact Hc].
Qed.
Lemma keeps_update_where (Q : R → bool) f :
  (∀ d, P d → P (with_rows (update_rows Q f (rows d)) d)) → keeps (tracks P C) (update_where Q f).
Proof.
  intros Hf. apply keeps_bind; [apply keeps_gets|intros n].
  apply keeps_bind; [by apply keeps_puts_rows|intros _; apply keeps_ret].
Qed.
End tracks.

Lemma keeps_commit_sees P : keeps (sees P) commit.
Proof. by intros s [Hs _]. Qed.
Lemma keeps_commit_everywhere P : keeps (everywhere P) commit.
Proof. by intros s [Hs _]. Qed.

#[export] Hint Resolve keeps_commit_sees keeps_commit_everywhere service_keeps_fetch keeps_load service_keeps_select
  keeps_scalar_one_or_none service_keeps_utc_now service_keeps_uuid4 keeps_gets_sees : keeps.

Lemma load_cases {R} `{Table R} k s :
  load (R := R) k s = (match find_row k (rows (work s)) with
                       | Some r => Return r
                       | None => Raise (OtherError "ObjectDeletedError")
                       end, s).
Proof. unfold load. rewrite bind_run. simpl. by destruct (find_row k _). Qed.

Lemma load_Return {R} `{Table R} (k : string) s r s' :
  load (R := R) k s = (Return r, s') → s' = s ∧ find_row k (rows (work s)) = Some r.
Proof. rewrite load_cases. destruct (find_row k (rows (work s))); [|done]. by intros [= <- <-]. Qed.

Lemma load_run_Return k s tr s' :
  load_run k s = (Return tr, s') →
  s' = s ∧ find_row k (tasks (work s)) = Some tr.1 ∧ review_of tr.1 = Some tr.2.
Proof.
  unfold load_run. intros (t & s0 & Hl & Ht)%bind_Return. apply load_Return in Hl as [-> Hl].
  destruct (review_of t) eqn:Er; [|done]. by injection Ht as <- <-.
Qed.

(** Walks a computation on the database; the leaves that write are left over
    unless they write another table. *)
Ltac sees_step :=
  lazymatch goal with
  | |- keeps _ (begin_nested _) => apply keeps_begin_nested
  | |- keeps _ (except_integrity _ _) => apply keeps_except_integrity; [|intros ?]
  | |- keeps _ (modify _ _) => apply keeps_modify; intros ? ?
  | |- keeps _ (insert _) => apply keeps_insert; intros ? ? ?
  | |- keeps _ (update_where _ _) => apply keeps_update_where; intros ? ?
  | |- keeps _ (load_run _) => unfold load_run
  | _ => keeps_step
  end.
Ltac sees_auto := repeat sees_step; try assumption; eauto 3 with keeps.

(** ** The inbox, and the commands that belong to an event *)

(** The key of a task and the event it was created for. *)
Definition task_link (t : Task.t) : string * option string :=
  (Task.id t, agent_of t ≫= AgentTask.provider_event_id).

Definition linked_to (event_id : string) (t : Task.t) : bool :=
  agent_where (λ _ a, bool_decide (AgentTask.provider_event_id a = Some event_id)) t.

Lemma linked_to_link event_id t t' :
  task_link t = task_link t' → linked_to event_id t = linked_to event_id t'.
Proof.
  unfold task_link, linked_to, agent_where. intros [= _ E].
  destruct (agent_of t), (agent_of t'); simpl in E; [by rewrite E|by rewrite E|by rewrite <- E|done].
Qed.

Lemma set_review_link f t : task_link (set_review f t) = task_link t.
Proof. unfold set_review, task_link, agent_of. by destruct (Task.sub t) eqn:E; simpl; rewrite ?E. Qed.

(** The events of the inbox and the commands of event [K]. *)
Definition inbox (E : list ProviderEventInbox.t) (K : string) (L : list string) (d : Db) : Prop :=
  events d = E ∧ Task.id <$> filter (linked_to K) (tasks d) = L.

Lemma inbox_update E K L k (f : Task.t → Task.t) d :
  (∀ t, task_link (f t) = task_link t) → inbox E K L d →
  inbox E K L (with_rows (update_rows (λ r, bool_decide (row_key r = k)) f (rows d)) d).
Proof.
  intros Hf [He HL]. split; [exact He|]. rewrite <- HL. clear HL He.
  change (Task.id <$> filter (linked_to K) (update_rows (λ r, bool_decide (Task.id r = k)) f (tasks d))
    = Task.id <$> filter (linked_to K) (tasks d)).
  unfold update_rows. induction (tasks d) as [|t l IH]; [done|]. rewrite fmap_cons, !filter_cons.
  set (t' := if bool_decide (Task.id t = k) then f t else t).
  assert (Hlink : task_link t' = task_link t) by (subst t'; by case_bool_decide).
  rewrite (linked_to_link K t' t Hlink). case_decide; [|done].
  rewrite !fmap_cons. f_equal; [by injection Hlink|exact IH].
Qed.

Lemma inbox_append E K L (t : Task.t) d :
  linked_to K t = false → inbox E K L d → inbox E K L (with_rows (rows d ++ [t]) d).
Proof.
  intros Hno [He HL]. split; [exact He|]. rewrite <- HL.
  change (Task.id <$> filter (linked_to K) (tasks d ++ [t]) = Task.id <$> filter (linked_to K) (tasks d)).
  by rewrite filter_app, filter_cons, Hno, app_nil_r.
Qed.

Section inbox.
Context `{Runtime} (E : list ProviderEventInbox.t) (K : string) (L : list string).
Abbreviation same_inbox := (sees (inbox E K L)).

Lemma inbox_enqueue_delivery a b c d e f g h i j :
  keeps same_inbox (enqueue_delivery a b c d e f g h i j).
Proof. unfold enqueue_delivery, new_delivery. sees_auto. by apply inbox_update. Qed.
Hint Resolve inbox_enqueue_delivery : keeps.

Lemma inbox_slot_of_run run_id : keeps same_inbox (slot_of_run run_id).
Proof. unfold slot_of_run. sees_auto. Qed.
Hint Resolve inbox_slot_of_run : keeps.

Lemma inbox_ensure_placeholder run_id :
  keeps same_inbox (ensure_review_placeholder_requested run_id).
Proof.
  unfold ensure_review_placeholder_requested, create_slot, request_placeholder.
  sees_auto; by apply inbox_update.
Qed.
Hint Resolve inbox_ensure_placeholder : keeps.

Lemma inbox_enqueue_status run_id status c :
  keeps same_inbox (enqueue_review_comment_status run_id status c).
Proof. unfold enqueue_review_comment_status. sees_auto. by apply inbox_update. Qed.
Hint Resolve inbox_enqueue_status : keeps.

Ltac review_link := intros ?; etrans; [apply set_review_link|done].

Lemma inbox_close_runs provider repo n code :
  keeps same_inbox (cancel_active_review_runs_for_pr provider repo n code).
Proof.
  unfold cancel_active_review_runs_for_pr, mark_closed. sees_auto.
  apply inbox_update; [review_link|done].
Qed.

Lemma inbox_cancel_commands provider repo n code :
  keeps same_inbox (cancel_active_agent_tasks_for_pr provider repo n code).
Proof.
  unfold cancel_active_agent_tasks_for_pr, mark_cancellation. sees_auto.
  apply inbox_update; [|done]. intros t. unfold set_agent, task_link, agent_of. simpl.
  by destruct (Task.sub t) eqn:Es; simpl; rewrite ?Es.
Qed.

Lemma inbox_supersede run_id : keeps same_inbox (supersede_older_review_runs run_id).
Proof.
  unfold supersede_older_review_runs, mark_superseded. sees_auto.
  apply inbox_update; [review_link|done].
Qed.
Hint Resolve inbox_supersede : keeps.

Lemma inbox_availability run_id context action event_id :
  keeps same_inbox (action_availability action run_id context event_id).
Proof.
  unfold action_availability, get_review_run_retry_availability,
    get_review_run_rerun_availability, _get_source_review_action_availability,
    _pull_request_context_for_run, context_by_identity, get_latest_review_run_by_head. sees_auto.
Qed.
Hint Resolve inbox_availability : keeps.

Lemma inbox_create spec trigger event_id dedupe :
  keeps same_inbox (_create_review_run_record spec trigger event_id dedupe).
Proof.
  unfold _create_review_run_record, get_latest_review_run_by_head.
  apply keeps_bind; [sees_auto|]. intros latest.
  assert (Hnew : ∀ n, triple same_inbox (new_review_run spec trigger event_id dedupe n)
    (λ t s, same_inbox s ∧ linked_to K t = false) (λ _, same_inbox)) by by intros n s Hs.
  destruct latest, (ReviewRunSpec.force spec); try apply keeps_ret;
    (eapply triple_bind; [apply Hnew|]; intros x;
     apply (triple_pure _ (linked_to K x = false)); [by intros s [_ ?]|]; intros Hx;
     apply (triple_pre _ same_inbox); [by intros s [? _]|];
     match goal with |- triple ?I ?m _ _ => change (keeps I m) end;
     sees_auto; by apply inbox_append).
Qed.
Hint Resolve inbox_create : keeps.

Lemma inbox_handle request : keeps same_inbox (handle_review_requested request).
Proof.
  unfold handle_review_requested, requested_revision, get_review_run, reject.
  sees_auto; (apply inbox_update; [review_link|done]).
Qed.
End inbox.

(** ** The outcome of a finished task *)

(** What is settled when a task has ended. *)
Definition outcome_of (t : Task.t) : string * string * option string * option Z :=
  (Task.status t, Task.execution_status t, Task.stage t, Task.completed_at t).

(** There is a task [k], and its outcome is [v]. *)
Definition settled (k : string) (v : string * string * option string * option Z) (d : Db) : Prop :=
  (k ∈ Task.id <$> tasks d) ∧ ∀ t, t ∈ tasks d → Task.id t = k → outcome_of t = v.

Lemma keeps_for_each_elem {S A} I (l : list A) (body : A → M S ()) :
  (∀ x, x ∈ l → keeps I (body x)) → keeps I (for_each l body).
Proof.
  induction l as [|x l IH]; intros Hl; [apply keeps_ret|].
  apply keeps_bind; [apply Hl; left|]. intros _. apply IH. intros y Hy. apply Hl. by right.
Qed.

Lemma set_review_outcome f t : outcome_of (set_review f t) = outcome_of t.
Proof. unfold set_review. by destruct (Task.sub t). Qed.
Lemma set_review_id f t : Task.id (set_review f t) = Task.id t.
Proof. unfold set_review. by destruct (Task.sub t). Qed.
Lemma set_agent_id f t : Task.id (set_agent f t) = Task.id t.
Proof. unfold set_agent. by destruct (Task.sub t). Qed.

Lemma terminal_not_cancellable st : st ∈ TERMINAL_STATUSES → st ∉ CANCELLABLE_STATUSES.
Proof.
  unfold TERMINAL_STATUSES. intros Hst.
  repeat (apply elem_of_cons in Hst as [->|Hst]; [by apply (bool_decide_unpack _)|]).
  by apply elem_of_nil in Hst.
Qed.

Section settled.
Context `{Runtime} (k : string) (v : string * string * option string * option Z).
Context (Hterminal : v.1.1.1 ∈ TERMINAL_STATUSES).
Abbreviation outcome_kept := (everywhere (settled k v)).

Lemma settled_update k' (f : Task.t → Task.t) d :
  (∀ t, Task.id (f t) = Task.id t) → (k' ≠ k ∨ ∀ t, outcome_of (f t) = outcome_of t) →
  settled k v d →
  settled k v (with_rows (update_rows (λ r, bool_decide (row_key r = k')) f (rows d)) d).
Proof.
  intros Hid Hf [Hk Hv]. split.
  - change (k ∈ Task.id <$> update_rows (λ r, bool_decide (Task.id r = k')) f (tasks d)).
    by rewrite update_rows_keys.
  - intros t Ht Htk. apply elem_of_update_rows in Ht as (t0 & Ht0 & ->).
    change (row_key t0) with (Task.id t0) in *. case_bool_decide as E.
    + rewrite Hid in Htk. destruct Hf as [Hne|Hf]; [congruence|]. rewrite Hf. by apply Hv.
    + by apply Hv.
Qed.

Lemma settled_modify k' (f : Task.t → Task.t) :
  (∀ t, Task.id (f t) = Task.id t) → (k' ≠ k ∨ ∀ t, outcome_of (f t) = outcome_of t) →
  keeps outcome_kept (modify k' f).
Proof. intros. apply keeps_modify. intros d. by apply settled_update. Qed.

Lemma settled_append (t : Task.t) d :
  settled k v d → violation t (rows d) = None → settled k v (with_rows (rows d ++ [t]) d).
Proof.
  intros [Hk Hv] Hno%violation_None. destruct Hno as [Hno _].
  change (Task.id t ∉ Task.id <$> tasks d) in Hno.
  split; [change (k ∈ Task.id <$> (tasks d ++ [t])); rewrite fmap_app;
    apply elem_of_app; by left|].
  intros t' [Ht'| ->%list_elem_of_singleton]%elem_of_app Hk'; [by apply Hv|]. by subst k.
Qed.

Lemma settled_insert (t : Task.t) : keeps outcome_kept (insert t).
Proof. apply keeps_insert. intros d. apply settled_append. Qed.

Lemma settled_enqueue_delivery a b c d e f g h i j :
  keeps outcome_kept (enqueue_delivery a b c d e f g h i j).
Proof.
  unfold enqueue_delivery, new_delivery. sees_auto. apply settled_update; auto.
Qed.
Hint Resolve settled_enqueue_delivery : keeps.

Lemma settled_slot_of_run run_id : keeps outcome_kept (slot_of_run run_id).
Proof. unfold slot_of_run. sees_auto. Qed.
Hint Resolve settled_slot_of_run : keeps.

Lemma settled_ensure_placeholder run_id :
  run_id ≠ k → keeps outcome_kept (ensure_review_placeholder_requested run_id).
Proof.
  intros Hne. unfold ensure_review_placeholder_requested, create_slot, request_placeholder.
  sees_auto; apply settled_update; auto.
Qed.

Lemma settled_enqueue_status run_id status c :
  run_id ≠ k → keeps outcome_kept (enqueue_review_comment_status run_id status c).
Proof.
  intros Hne. unfold enqueue_review_comment_status.
  pose proof (settled_ensure_placeholder run_id Hne).
  sees_auto. apply settled_update; auto.
Qed.

(** A task selected by its unfinished status is another one. *)
Lemma unfinished_other (Q : Task.t → bool) d t :
  settled k v d → (∀ x, Q x → Task.status x ∈ CANCELLABLE_STATUSES) →
  t ∈ filter Q (tasks d) → Task.id t ≠ k.
Proof.
  intros [_ Hv] HQ [Ht Hin]%list_elem_of_filter Hk. apply HQ in Ht.
  specialize (Hv t Hin Hk). destruct v as [[[st ?] ?] ?]. injection Hv as E _ _ _.
  simpl in Hterminal. subst st.
  by apply (terminal_not_cancellable (Task.status t)).
Qed.

Lemma settled_select_for_each (Q : Task.t → bool) (body : Z → Task.t → SM ()) :
  (∀ x, Q x → Task.status x ∈ CANCELLABLE_STATUSES) →
  (∀ n t, Task.id t ≠ k → keeps outcome_kept (body n t)) →
  keeps outcome_kept
    (l ← select Q; now ← utc_now; for_each l (body now) ;; mret (Task.id <$> l)).
Proof.
  intros HQ Hbody s Hs. run_steps.
  set (l := filter Q (rows (work s))).
  assert (Hl : ∀ t, t ∈ l → Task.id t ≠ k)
    by (intros t Ht; apply (unfinished_other Q (work s)); [apply Hs|exact HQ|exact Ht]).
  set (s1 := s .[ ticks := S (ticks s) ]).
  assert (Hk : keeps outcome_kept (for_each l (body (clock (ticks s))) ;; mret (Task.id <$> l))).
  { apply keeps_bind; [apply keeps_for_each_elem; auto|]. intros _. apply keeps_ret. }
  by apply (Hk s1).
Qed.

Lemma settled_cancel_run run_id : keeps outcome_kept (cancel_review_run run_id).
Proof.
  unfold cancel_review_run, get_review_run. apply keeps_bind; [sees_auto|]. intros [r|]; [|sees_auto].
  intros s Hs. rewrite bind_run, load_cases.
  destruct (find_row run_id (rows (work s))) as [t|] eqn:E; [|exact Hs].
  apply find_row_Some in E as [Ht Hid]. change (Task.id t = run_id) in Hid.
  destruct (bool_decide (Task.status t ∈ CANCELLABLE_STATUSES)) eqn:Est; [|exact Hs].
  assert (Hne : run_id ≠ k).
  { subst run_id. apply (unfinished_other (λ t, bool_decide (Task.status t ∈ CANCELLABLE_STATUSES)) (work s));
      [apply Hs|by intros x ?%bool_decide_unpack|].
    apply list_elem_of_filter. split; [by rewrite Est|exact Ht]. }
  apply bool_decide_eq_true_1 in Est.
  match goal with |- match ?m s with _ => _ end => assert (Hk : keeps outcome_kept m) end.
  { pose proof (settled_enqueue_status run_id "cancelled" true Hne). sees_auto.
    apply settled_update; [intros t0; etrans; [apply set_review_id|done]|by left|done]. }
  exact (Hk s Hs).
Qed.

Lemma settled_close_runs provider repo n code :
  keeps outcome_kept (cancel_active_review_runs_for_pr provider repo n code).
Proof.
  unfold cancel_active_review_runs_for_pr. destruct repo as [repo|], n as [n|]; try apply keeps_ret.
  apply (settled_select_for_each _ (λ now t, _)).
  - intros x. unfold active_run_of, run_where. destruct (review_of x); [|done].
    rewrite !Is_true_andb. by intros [_ ?%bool_decide_unpack].
  - intros now t Hne. pose proof (settled_enqueue_status (Task.id t) "cancelled" false Hne).
    sees_auto. apply settled_update; [intros t0; etrans; [apply set_review_id|done]|by left|done].
Qed.

Lemma settled_supersede run_id : keeps outcome_kept (supersede_older_review_runs run_id).
Proof.
  unfold supersede_older_review_runs. apply keeps_bind; [sees_auto|]. intros tr.
  apply (settled_select_for_each _ (λ now t, _)).
  - intros x. unfold older_run, run_where. destruct (review_of x); [|done].
    rewrite !Is_true_andb. by intros [_ ?%bool_decide_unpack].
  - intros now t Hne. pose proof (settled_enqueue_status (Task.id t) "superseded" false Hne).
    sees_auto. apply settled_update; [intros t0; etrans; [apply set_review_id|done]|by left|done].
Qed.

Lemma settled_latest provider repo n head :
  keeps outcome_kept (get_latest_review_run_by_head provider repo n head).
Proof. unfold get_latest_review_run_by_head. sees_auto. Qed.
Hint Resolve settled_latest : keeps.

(** A created run is not the settled one. *)
Lemma settled_create spec trigger event_id dedupe :
  triple outcome_kept (_create_review_run_record spec trigger event_id dedupe)
    (λ r s, outcome_kept s ∧ (r.2 → r.1 ≠ k)) (λ _, outcome_kept).
Proof.
  unfold _create_review_run_record. apply keeps_then; [apply settled_latest|].
  intros latest.
  set (rest := next ← new_review_run spec trigger event_id dedupe _; _).
  assert (Hrest : triple outcome_kept rest (λ r s, outcome_kept s ∧ (r.2 → r.1 ≠ k)) (λ _, outcome_kept)).
  { apply keeps_then; [unfold new_review_run; sees_auto|]. intros t s Hs.
    unfold except_integrity, try_except. rewrite bind_run. unfold begin_nested.
    pose proof (settled_insert t s Hs) as Hins. unfold insert in *. 
    rewrite bind_run in *. cbn [gets] in *.
    destruct (violation t (rows (work s))) as [c|] eqn:E.
    - cbn [raise] in *. set (s' := s .[ work := work s ]).
      assert (Hs' : outcome_kept s') by exact Hs.
      pose proof (settled_latest (ReviewRunSpec.provider spec) (ReviewRunSpec.repo_full_name spec)
        (ReviewRunSpec.pull_request_number spec) (ReviewRunSpec.head_sha spec) s' Hs') as Hl.
      rewrite bind_run.
      destruct (get_latest_review_run_by_head _ _ _ _ s') as [[[x|]|e] s'']; [|exact Hl..].
      by split.
    - cbn [puts] in *. split; [exact Hins|]. intros _ Hid. change (Task.id t = k) in Hid.
      destruct Hs as [[Hk _] _]. apply violation_None in E as [E _]. apply E.
      change (Task.id t ∈ Task.id <$> tasks (work s)). by rewrite Hid. }
  destruct latest as [t|]; [|exact Hrest].
  destruct (ReviewRunSpec.force spec); [exact Hrest|].
  apply triple_ret. intros s Hs. by split.
Qed.

Lemma settled_availability run_id context action event_id :
  keeps outcome_kept (action_availability action run_id context event_id).
Proof.
  unfold action_availability, get_review_run_retry_availability,
    get_review_run_rerun_availability, _get_source_review_action_availability,
    _pull_request_context_for_run, context_by_identity. sees_auto.
Qed.
Hint Resolve settled_availability : keeps.

Lemma settled_revision request event_id context :
  keeps outcome_kept (requested_revision request event_id context).
Proof. unfold requested_revision, get_review_run, reject. sees_auto. Qed.
Hint Resolve settled_revision : keeps.

Lemma settled_handle request : keeps outcome_kept (handle_review_requested request).
Proof.
  unfold handle_review_requested, reject.
  apply keeps_bind; [sees_auto|]. intros [event|]; [|sees_auto].
  destruct (negb _); [sees_auto|].
  apply keeps_bind; [sees_auto|]. intros [context|]; [|sees_auto].
  destruct (negb _); [sees_auto|].
  apply keeps_bind; [sees_auto|]. intros revision.
  eapply triple_bind; [apply settled_create|]. intros [run_id created]. cbn [fst snd].
  apply (triple_pure _ (created → run_id ≠ k)); [by intros s [_ ?]|]. intros Hne.
  apply (triple_pre _ outcome_kept); [by intros s [? _]|].
  apply keeps_bind.
  { apply settled_modify; [intros; apply set_review_id|right; intros; apply set_review_outcome]. }
  intros _. apply keeps_bind; [sees_auto|]. intros _. destruct created; cycle 1.
  { rewrite andb_false_r. do 2 (apply keeps_bind; [apply keeps_ret|intros _]). apply keeps_ret. }
  pose proof (settled_ensure_placeholder run_id (Hne I)). pose proof (settled_supersede run_id).
  sees_auto.
Qed.
End settled.

(** ** Properties of the rows of the task table

    Hoare-style rules for invariants that constrain every task row, and the effect on
    them of the operations that report the status of a run. *)

Definition all_tasks (C : Task.t → Prop) (d : Db) : Prop := ∀ t, t ∈ tasks d → C t.

Lemma all_tasks_update (C C' : Task.t → Prop) k f d :
  (∀ t, C t → Task.id t = k → C' (f t)) → (∀ t, C t → Task.id t ≠ k → C' t) →
  all_tasks C d →
  all_tasks C' (with_rows (update_rows (λ r, bool_decide (row_key r = k)) f (rows d)) d).
Proof.
  intros Hf Hother HC t Ht. apply elem_of_update_rows in Ht as (t0 & Ht0 & ->).
  change (row_key t0) with (Task.id t0). case_bool_decide; auto.
Qed.

Lemma all_tasks_modify (C C' : Task.t → Prop) Q k f :
  (∀ t, C t → Task.id t = k → C' (f t)) → (∀ t, C t → Task.id t ≠ k → C' t) →
  triple (tracks (all_tasks C) Q) (modify k f) (λ _, tracks (all_tasks C') Q) (λ _ s, Q (committed s)).
Proof. intros Hf Hother s [Hs Hc]. split; [|done]. by eapply all_tasks_update. Qed.

Section row_wise.
Context `{Runtime} (run_id : string) (C : Task.t → Prop) (Q : Db → Prop).
Abbreviation rows_kept := (tracks (all_tasks C) Q).

Section delivery.
Context (Hdelivery : ∀ t v, C t → Task.id t = run_id → C (t .[ Task.delivery_status := v ])).

Lemma rows_enqueue_delivery b c d e f g h i j :
  keeps rows_kept (enqueue_delivery run_id b c d e f g h i j).
Proof. unfold enqueue_delivery, new_delivery. sees_auto. eapply all_tasks_update; eauto. Qed.
End delivery.

(** The assignments made while a placeholder is requested. *)
Section placeholder.
Context (Hstatus : ∀ t st sg ex dl, C t → Task.id t = run_id →
  C (t .[ Task.status := st ] .[ Task.stage := sg ] .[ Task.execution_status := ex ]
       .[ Task.delivery_status := dl ])).

Lemma status_assignment t t' :
  (∃ st sg ex dl, t' = t .[ Task.status := st ] .[ Task.stage := sg ]
     .[ Task.execution_status := ex ] .[ Task.delivery_status := dl ]) →
  C t → Task.id t = run_id → C t'.
Proof. intros (st & sg & ex & dl & ->). apply Hstatus. Qed.

Lemma rows_ensure_placeholder : keeps rows_kept (ensure_review_placeholder_requested run_id).
Proof.
  unfold ensure_review_placeholder_requested, create_slot, request_placeholder, slot_of_run.
  assert (Hd : ∀ t v, C t → Task.id t = run_id → C (t .[ Task.delivery_status := v ])).
  { intros t v. apply status_assignment.
    exists (Task.status t), (Task.stage t), (Task.execution_status t), v. by destruct t. }
  pose proof (rows_enqueue_delivery Hd).
  sees_auto; (eapply all_tasks_update; [|eauto|eassumption]);
    intros x Hx Hid; (eapply status_assignment; [|exact Hx|exact Hid]).
  - exists "awaiting_delivery", (Some "placeholder_delivery_pending"), (Task.execution_status x),
      (Task.delivery_status x). by destruct x.
  - exists (Task.status x), (Task.stage x), "pending", (Task.delivery_status x). by destruct x.
Qed.
End placeholder.
End row_wise.

(** ** Reporting the end of a run *)

(** What [enqueue_review_comment_status] makes of a run whose terminal status it
    reports. *)
Definition reported (status_text : string) (t : Task.t) : Prop :=
  Task.status t = "awaiting_delivery" ∧
  Task.execution_status t =
    (if bool_decide (status_text = "superseded") then "cancelled" else status_text) ∧
  Task.stage t = Some (status_text +:+ "_delivery_pending").

Section report.
Context `{Runtime} (run_id status_text : string) (B X : Task.t → Prop) (Q : Db → Prop).
Context (Hterminal : is_terminal status_text = true).
(** What is known of the run does not concern the columns a report assigns. *)
Context (HX : ∀ t st sg ex dl, X t → X (t .[ Task.status := st ] .[ Task.stage := sg ]
  .[ Task.execution_status := ex ] .[ Task.delivery_status := dl ])).

Lemma known_assignment t t' :
  (∃ st sg ex dl, t' = t .[ Task.status := st ] .[ Task.stage := sg ]
     .[ Task.execution_status := ex ] .[ Task.delivery_status := dl ]) → X t → X t'.
Proof. intros (st & sg & ex & dl & ->). apply HX. Qed.

Definition before_report (t : Task.t) : Prop := if decide (Task.id t = run_id) then X t else B t.
Definition after_report (t : Task.t) : Prop :=
  if decide (Task.id t = run_id) then reported status_text t ∧ X t else B t.

Lemma mark_terminal_reports :
  triple (tracks (all_tasks before_report) Q) (modify run_id (mark_terminal status_text))
    (λ _, tracks (all_tasks after_report) Q) (λ _ s, Q (committed s)).
Proof.
  apply all_tasks_modify; unfold before_report, after_report; intros t HC Hid.
  - rewrite decide_True in * by done. split; [by split_and!|].
    eapply known_assignment; [|exact HC].
    exists "awaiting_delivery", (Some (status_text +:+ "_delivery_pending")),
      (if bool_decide (status_text = "superseded") then "cancelled" else status_text),
      (Task.delivery_status t). by destruct t.
  - by rewrite decide_False in * by done.
Qed.

Lemma report_run :
  triple (tracks (all_tasks before_report) Q) (enqueue_review_comment_status run_id status_text false)
    (λ _, tracks (all_tasks after_report) Q) (λ _ s, Q (committed s)).
Proof.
  unfold enqueue_review_comment_status, slot_of_run. rewrite Hterminal. cbn [when].
  eapply triple_bind.
  { assert (Hk : ∀ P, keeps (tracks (all_tasks before_report) Q)
      (l ← select (R := ReviewCommentSlot.t) P; scalar_one_or_none l)) by (intros; sees_auto).
    apply (triple_keeps _ _ _ (Hk _)). by intros ? [_ ?]. }
  intros found. eapply triple_bind.
  { assert (Hk : keeps (tracks (all_tasks before_report) Q) match found with
      | Some slot => mret (ReviewCommentSlot.id slot)
      | None => ensure_review_placeholder_requested run_id end).
    { destruct found; [apply keeps_ret|]. apply rows_ensure_placeholder.
      unfold before_report. intros t st sg ex dl HC Hid. simpl.
      rewrite decide_True in * by done. by apply HX. }
    apply (triple_keeps _ _ _ Hk). by intros ? [_ ?]. }
  intros slot_id. eapply (triple_bind _ _ _ (λ _, tracks (all_tasks after_report) Q)).
  - eapply triple_bind; [apply mark_terminal_reports|]. intros [].
    assert (Hk : keeps (tracks (all_tasks after_report) Q)
        (slot ← load (R := ReviewCommentSlot.t) slot_id;
         when (bool_decide (ReviewCommentSlot.status slot = "ready"))
           (modify slot_id (λ s, s .[ ReviewCommentSlot.status := "finalizing" ])))) by sees_auto.
    apply (triple_keeps _ _ _ Hk). by intros ? [_ ?].
  - intros []. match goal with |- triple ?I ?m _ _ => assert (Hk : keeps I m) end.
    { pose proof (rows_enqueue_delivery run_id after_report Q) as He.
      assert (Hd : ∀ t v, after_report t → Task.id t = run_id →
        after_report (t .[ Task.delivery_status := v ])).
      { intros t v. unfold after_report. intros Ht Hid. simpl.
        rewrite decide_True in * by done. destruct Ht as [Hr Ht]. split; [exact Hr|].
        eapply known_assignment; [|exact Ht].
        exists (Task.status t), (Task.stage t), (Task.execution_status t), v. by destruct t. }
      specialize (He Hd). sees_auto. }
    apply (triple_keeps _ _ _ Hk). by intros ? [_ ?].
Qed.

(** The same report, committed. *)
Lemma report_then_commit s :
  enqueue_review_comment_status run_id status_text true s =
  (enqueue_review_comment_status run_id status_text false ;; commit) s.
Proof.
  unfold enqueue_review_comment_status, when, mbind, M_bind. repeat (case_match; simplify_eq; try done).
Qed.

Lemma report_run_committed :
  triple (tracks (all_tasks before_report) Q) (enqueue_review_comment_status run_id status_text true)
    (λ _, everywhere (all_tasks after_report)) (λ _ s, Q (committed s)).
Proof.
  intros s Hs. rewrite report_then_commit. revert s Hs.
  match goal with |- ∀ s, _ → match ?m s with _ => _ end => change (triple (tracks (all_tasks before_report) Q)
    (enqueue_review_comment_status run_id status_text false ;; commit)
    (λ _, everywhere (all_tasks after_report)) (λ _ s, Q (committed s))) end.
  eapply triple_bind; [apply report_run|]. intros _ s [Hs _]. by split.
Qed.
End report.
