(* ===== verification/LifecycleTheorems.v ===== *)
(** * Which runs of a pull request are at work *)
From Stdlib Require Import Ascii.
From S2P Require Import Prelude PyText Json Models Scheduler SchedulerAdmin Demo Delivery ReviewRuns Webhooks ReviewRunFacts.
#[global] Open Scope Z_scope.
#[global] Open Scope orch_scope.

(** ** Superseding *)

Section supersede.
Context `{Runtime}.

(** A run whose end is being reported. *)
Definition ended (current_id : string) (t : Task.t) : Prop :=
  Task.status t = "awaiting_delivery" ∧ Task.execution_status t = "cancelled" ∧
  Task.stage t = Some "superseded_delivery_pending" ∧
  (ReviewRun.superseded_by_review_run_id <$> review_of t) = Some (Some current_id).

(** Reporting "superseded" for a run that was marked. *)
Lemma report_superseded current_id run_id B :
  triple (sees (all_tasks (λ t,
      if decide (Task.id t = run_id)
      then (ReviewRun.superseded_by_review_run_id <$> review_of t) = Some (Some current_id) else B t)))
    (enqueue_review_comment_status run_id "superseded" false)
    (λ _, sees (all_tasks (λ t, if decide (Task.id t = run_id) then ended current_id t else B t)))
    (λ _ _, True).
Proof.
  set (X := λ t, (ReviewRun.superseded_by_review_run_id <$> review_of t) = Some (Some current_id)).
  eapply triple_conseq; [apply (report_run run_id "superseded" B X (λ _, True)); [done|by intros]|..].
  - done.
  - intros _ s [Hs _]. split; [|done]. intros t Ht. specialize (Hs t Ht).
    unfold after_report in Hs. destruct (decide (Task.id t = run_id)); [|exact Hs].
    destruct Hs as [(Hst & Hex & Hsg) Ht']. by split_and!.
  - done.
Qed.

(** A run of the loop still to be treated, or ended. *)
Definition pending (current_id : string) (current : ReviewRun.t) (rest : list Task.t)
    (t : Task.t) : Prop :=
  (older_run current_id current t → Task.id t ∈ Task.id <$> rest ∨ ended current_id t) ∧
  (Task.id t ∈ Task.id <$> rest → is_Some (review_of t)).

Lemma older_run_review current_id current t :
  older_run current_id current t → is_Some (review_of t).
Proof. unfold older_run, run_where. by destruct (review_of t). Qed.

Lemma mark_superseded_names current_id now t :
  is_Some (review_of t) →
  (ReviewRun.superseded_by_review_run_id <$> review_of (mark_superseded current_id now t))
  = Some (Some current_id).
Proof.
  unfold mark_superseded, set_review, review_of. simpl. intros [r Hr].
  by destruct (Task.sub t).
Qed.

Lemma supersede_loop current_id current now L :
  triple (sees (all_tasks (pending current_id current L)))
    (for_each L (λ t, modify (Task.id t) (mark_superseded current_id now) ;;
       enqueue_review_comment_status (Task.id t) "superseded" false))
    (λ _, sees (all_tasks (pending current_id current []))) (λ _ _, True).
Proof.
  induction L as [|k L IH]; [by apply triple_ret|].
  apply (triple_bind _ _ _ (λ _, sees (all_tasks (pending current_id current L)))); [|by intros []].
  set (B := pending current_id current L).
  eapply triple_bind.
  { apply (all_tasks_modify _ (λ t, if decide (Task.id t = Task.id k)
      then (ReviewRun.superseded_by_review_run_id <$> review_of t) = Some (Some current_id) else B t)).
    - intros t [_ Hrev] Hid. unfold mark_superseded. rewrite set_review_id, decide_True by done.
      apply mark_superseded_names, Hrev. rewrite fmap_cons, Hid. left.
    - intros t [Hold Hrev] Hid. rewrite decide_False by done. rewrite fmap_cons in *. split.
      + intros Ho. apply Hold in Ho as [[?|?]%elem_of_cons|?]; [done|by left|by right].
      + intros Hin. apply Hrev. by right. }
  intros []. eapply triple_conseq; [apply report_superseded|done| |done].
  intros _ s [Hs _]. split; [|done]. intros t Ht. specialize (Hs t Ht). simpl in Hs.
  destruct (decide (Task.id t = Task.id k)); [|exact Hs]. split; [by right|]. intros _.
  destruct Hs as (_ & _ & _ & Hs). by destruct (review_of t).
Qed.

End supersede.
