(* ===== verification/ReportTheorems.v ===== *)
(** * Reporting the status of a run

    How [enqueue_review_comment_status] and the gate of the outbox together decide which
    text the comment of a run ends up with. *)
From Stdlib Require Import Ascii.
From S2P Require Import Prelude PyText Json Models Scheduler SchedulerAdmin Demo Delivery DeliveryTheorems ReviewRuns Webhooks ReviewRunFacts.
#[global] Open Scope Z_scope.
#[global] Open Scope orch_scope.

Lemma find_set_row {R} `{TableLaws R} (f : R → R) k l r :
  (∀ x, row_key (f x) = row_key x) → find_row k l = Some r →
  find_row k (update_rows (λ x, bool_decide (row_key x = k)) f l) = Some (f r).
Proof. intros Hf Hr. by rewrite find_update, decide_True, Hr. Qed.

Lemma find_other_row {R} `{TableLaws R} (f : R → R) k k' l :
  (∀ x, row_key (f x) = row_key x) → k' ≠ k →
  find_row k' (update_rows (λ x, bool_decide (row_key x = k)) f l) = find_row k' l.
Proof. intros Hf Hk. rewrite find_update by done. by rewrite decide_False. Qed.

Section report.
Context `{Runtime} (run_id status : string).
Implicit Types (slot : ReviewCommentSlot.t).

(** The slot after a report. *)
Definition reported slot : ReviewCommentSlot.t :=
  let s := if is_terminal status && bool_decide (ReviewCommentSlot.status slot = "ready")
           then slot .[ ReviewCommentSlot.status := "finalizing" ] else slot in
  s .[ ReviewCommentSlot.result_version := ReviewCommentSlot.result_version slot + 1 ].

(** The task after a report. *)
Definition reported_task (t : Task.t) : Task.t :=
  (if is_terminal status then mark_terminal status t else t)
    .[ Task.delivery_status := "pending" ].

Lemma slot_of_run_Return s slot s' :
  slot_of_run run_id s = (Return (Some slot), s') →
  s' = s ∧ slot ∈ slots (work s) ∧ ReviewCommentSlot.review_run_id slot = run_id.
Proof.
  unfold slot_of_run. intros (l & s0 & Hl & Hs)%bind_Return. injection Hl as <- <-.
  destruct (filter _ _) as [|x [|y l']] eqn:E; try done. injection Hs as -> <-.
  assert (Hin : slot ∈ [slot]) by left. rewrite <- E in Hin.
  apply list_elem_of_filter in Hin as [Hr Hin]. apply bool_decide_unpack in Hr. by split_and!.
Qed.

(** The first part of a report: the run and the slot are marked. *)
Lemma mark_report_run s slot t run :
  let terminal := is_terminal status in
  let slot_id := ReviewCommentSlot.id slot in
  find_row slot_id (slots (work s)) = Some slot →
  find_row run_id (tasks (work s)) = Some t → review_of t = Some run →
  ∃ s1, when terminal
      (modify run_id (mark_terminal status) ;;
       slot ← load (R := ReviewCommentSlot.t) slot_id;
       when (bool_decide (ReviewCommentSlot.status slot = "ready"))
         (modify slot_id (λ s, s .[ ReviewCommentSlot.status := "finalizing" ]))) s = (Return tt, s1) ∧
    committed s1 = committed s ∧ uuids s1 = uuids s ∧
    find_row slot_id (slots (work s1)) = Some
      (if is_terminal status && bool_decide (ReviewCommentSlot.status slot = "ready")
       then slot .[ ReviewCommentSlot.status := "finalizing" ] else slot) ∧
    (∀ k, k ≠ slot_id → find_row k (slots (work s1)) = find_row k (slots (work s))) ∧
    find_row run_id (tasks (work s1)) = Some (if terminal then mark_terminal status t else t) ∧
    (∀ k, k ≠ run_id → find_row k (tasks (work s1)) = find_row k (tasks (work s))) ∧
    outbox (work s1) = outbox (work s).
Proof.
  intros terminal slot_id Hslot Ht Hrun. subst terminal.
  destruct (is_terminal status) eqn:Eterm; [|by exists s; split_and!]. cbn [when andb].
  rewrite (bind_ret_run _ _ _ _ _ (modify_run _ _ _)).
  set (s1 := on_rows _ s).
  assert (Hl : load (R := ReviewCommentSlot.t) slot_id s1 = (Return slot, s1)) by by apply Models.load_run.
  rewrite (bind_ret_run _ _ _ _ _ Hl).
  assert (Ht1 : find_row run_id (tasks (work s1)) = Some (mark_terminal status t)).
  { apply (find_set_row (R := Task.t)); [done|exact Ht]. }
  assert (Hto : ∀ k, k ≠ run_id → find_row k (tasks (work s1)) = find_row k (tasks (work s))).
  { intros k Hk. by apply (find_other_row (R := Task.t)). }
  case_bool_decide as Hr; cbn [when]; [|by exists s1; split_and!].
  rewrite modify_run. eexists. split; [reflexivity|].
  split_and!; [done|done| | |exact Ht1|exact Hto|done].
  - apply (find_set_row (R := ReviewCommentSlot.t)); [done|exact Hslot].
  - intros k Hk. by apply (find_other_row (R := ReviewCommentSlot.t)).
Qed.

(** A report of an earlier version is dropped, the current one is published. *)
Lemma gate_by_version d slot version :
  DeliveryOutbox.operation d ∈ ["review_progress"; "review_result"] →
  jget_int (DeliveryOutbox.payload_json d) "result_version" = Some version → 1 ≤ version →
  truthy (ReviewCommentSlot.provider_comment_id slot) →
  ReviewCommentSlot.status slot ∈ ["ready"; "finalizing"; "finalized"] →
  version ≤ ReviewCommentSlot.result_version slot →
  ∀ s, slot_gate d (Some slot) s =
    (Return (if version <? ReviewCommentSlot.result_version slot
             then Some (ReviewCommentSlot.provider_comment_id slot) else None), s).
Proof.
  intros Hop Hv H1 Hbound Hst Hle s. unfold slot_gate.
  rewrite bool_decide_false.
  2: { intros E. rewrite E in Hop. repeat (apply elem_of_cons in Hop as [Hop|Hop]; [done|]).
       by apply elem_of_nil in Hop. }
  rewrite (bool_decide_true (ReviewCommentSlot.status slot ∈ _)) by done.
  destruct (truthy _); [|done]. cbn [negb orb]. rewrite Hv.
  rewrite (proj2 (Z.ltb_ge version 1)) by lia.
  destruct (Z.ltb_spec version (ReviewCommentSlot.result_version slot)); [done|].
  by rewrite (proj2 (Z.ltb_ge _ version)) by lia.
Qed.

Lemma comment_version slot_id version :
  jget_int (comment_payload slot_id run_id status version) "result_version" = Some version.
Proof. done. Qed.

(** The run a report has marked loads as the run it was. *)
Lemma load_marked_run t run s :
  find_row run_id (tasks (work s)) = Some (if is_terminal status then mark_terminal status t else t) →
  review_of t = Some run →
  ∃ tr, load_run run_id s = (Return tr, s) ∧ tr.2 = run.
Proof.
  intros Ht Hrun. exists (if is_terminal status then mark_terminal status t else t, run).
  split; [|done]. unfold load_run. rewrite (bind_ret_run _ _ _ _ _ (Models.load_run _ s _ Ht)).
  destruct (is_terminal status); unfold review_of in *; simpl; by rewrite Hrun.
Qed.

(** Once the slot is bound, its new report is published and every earlier one dropped. *)
Lemma report_gate slot_id slot t d k s :
  truthy (ReviewCommentSlot.provider_comment_id slot) →
  ReviewCommentSlot.status (reported slot) ∈ ["ready"; "finalizing"; "finalized"] →
  0 ≤ ReviewCommentSlot.result_version slot →
  enqueued run_id (if is_terminal status then "review_result" else "review_progress") t k
    (comment_payload slot_id run_id status (ReviewCommentSlot.result_version slot + 1)) true 0 d →
  slot_gate d (Some (reported slot)) s = (Return None, s) ∧
  ∀ d0 v0, DeliveryOutbox.operation d0 ∈ ["review_progress"; "review_result"] →
    jget_int (DeliveryOutbox.payload_json d0) "result_version" = Some v0 →
    1 ≤ v0 ≤ ReviewCommentSlot.result_version slot →
    slot_gate d0 (Some (reported slot)) s =
      (Return (Some (ReviewCommentSlot.provider_comment_id slot)), s).
Proof.
  intros Hbound Hst Hv0 (_ & _ & _ & Hop & Hpay & _).
  assert (Hrv : ReviewCommentSlot.result_version (reported slot) =
    ReviewCommentSlot.result_version slot + 1) by done.
  assert (Hpc : ReviewCommentSlot.provider_comment_id (reported slot) =
    ReviewCommentSlot.provider_comment_id slot) by (unfold reported; by destruct (_ && _)).
  split.
  - rewrite (gate_by_version d (reported slot) (ReviewCommentSlot.result_version slot + 1));
      [| | |lia|by rewrite Hpc|done|lia].
    + by rewrite Hrv, Z.ltb_irrefl.
    + rewrite Hop. by destruct (is_terminal status); apply (bool_decide_unpack _).
    + rewrite Hpay. apply comment_version.
  - intros d0 v0 Hop0 Hv Hle.
    rewrite (gate_by_version d0 (reported slot) v0); [|done|done|lia|by rewrite Hpc|done|lia].
    by rewrite Hrv, Hpc, (proj2 (Z.ltb_lt v0 _)) by lia.
Qed.

(** C15: The latest report wins.  Reporting a status of a run that has a comment slot
    raises the version of the slot by one and queues exactly one message, which carries
    that version; a terminal status also makes the run wait for its delivery; no
    other slot, task or message changes.  From then on, once the slot is bound to a
    comment, the outbox publishes the new message and drops every earlier report. *)
Theorem latest_report_wins commit_ s slot t run :
  let version := ReviewCommentSlot.result_version slot + 1 in
  let slot_id := ReviewCommentSlot.id slot in
  slot_of_run run_id s = (Return (Some slot), s) → NoDup (ReviewCommentSlot.id <$> slots (work s)) →
  find_row run_id (tasks (work s)) = Some t → review_of t = Some run →
  0 ≤ ReviewCommentSlot.result_version slot →
  with_key (comment_key run_id status version) (outbox (work s)) = [] →
  fresh_uuid (uuids s) ∉ DeliveryOutbox.id <$> outbox (work s) →
  ∃ d s1, enqueue_review_comment_status run_id status commit_ s = (Return tt, s1) ∧
    (outbox (work s1) = outbox (work s) ++ [d] ∧
     enqueued run_id (if is_terminal status then "review_result" else "review_progress")
       (slot_destination slot_id) (comment_key run_id status version)
       (comment_payload slot_id run_id status version) true 0 d) ∧
    (find_row slot_id (slots (work s1)) = Some (reported slot) ∧
     ∀ k, k ≠ slot_id → find_row k (slots (work s1)) = find_row k (slots (work s))) ∧
    (find_row run_id (tasks (work s1)) = Some (reported_task t) ∧
     ∀ k, k ≠ run_id → find_row k (tasks (work s1)) = find_row k (tasks (work s))) ∧
    committed s1 = (if commit_ then work s1 else committed s) ∧
    (truthy (ReviewCommentSlot.provider_comment_id slot) →
     ReviewCommentSlot.status (reported slot) ∈ ["ready"; "finalizing"; "finalized"] →
     ∀ s2, slot_gate d (Some (reported slot)) s2 = (Return None, s2) ∧
       ∀ d0 v0, DeliveryOutbox.operation d0 ∈ ["review_progress"; "review_result"] →
         jget_int (DeliveryOutbox.payload_json d0) "result_version" = Some v0 →
         1 ≤ v0 ≤ ReviewCommentSlot.result_version slot →
         slot_gate d0 (Some (reported slot)) s2 =
           (Return (Some (ReviewCommentSlot.provider_comment_id slot)), s2)).
Proof.
  intros version slot_id Hof Hnd Ht Hrun Hv0 Hkey Hfresh.
  pose proof (slot_of_run_Return _ _ _ Hof) as (_ & Hin & _).
  assert (Hslot : find_row slot_id (slots (work s)) = Some slot)
    by (by apply (find_row_elem_of (R := ReviewCommentSlot.t))).
  destruct (mark_report_run s slot t run Hslot Ht Hrun)
    as (s1 & Hmark & Hc1 & Hu1 & Hs1 & Hso1 & Ht1 & Hto1 & Ho1).
  unfold enqueue_review_comment_status. cbv zeta.
  rewrite (bind_ret_run _ _ _ _ _ Hof), bind_mret_run. fold slot_id.
  rewrite (bind_ret_run _ _ _ _ _ Hmark).
  assert (Hl : load (R := ReviewCommentSlot.t) slot_id s1 = (Return _, s1)) by exact (Models.load_run _ _ _ Hs1).
  rewrite (bind_ret_run _ _ _ _ _ Hl).
  match goal with |- context [ReviewCommentSlot.result_version ?x + 1] =>
    replace (ReviewCommentSlot.result_version x + 1) with version by (by destruct (_ && _)) end.
  rewrite (bind_ret_run _ _ _ _ _ (modify_run _ _ _)).
  match goal with |- context [on_rows ?f s1] => set (s2 := on_rows f s1) end.
  destruct (load_marked_run t run s2 Ht1 Hrun) as (tr & Hload & Htr). rewrite (bind_ret_run _ _ _ _ _ Hload).
  edestruct (enqueue_new_run run_id (ReviewRun.provider tr.2)
      (if is_terminal status then "review_result" else "review_progress") (slot_destination slot_id)
      (comment_key run_id status version) (comment_payload slot_id run_id status version)
      true (Some 100) 0 false s2) as (d & s3 & Henq & Hd & _ & Hc3 & Hw3).
  { change (outbox (work s2)) with (outbox (work s1)). by rewrite Ho1. }
  { exact Ht1. }
  { change (uuids s2) with (uuids s1). change (outbox (work s2)) with (outbox (work s1)).
    by rewrite Hu1, Ho1. }
  rewrite (bind_ret_run _ _ _ _ _ Henq).
  set (s4 := if commit_ then s3 .[ committed := work s3 ] else s3).
  assert (Hw4 : work s4 = work s3) by by destruct commit_.
  exists d, s4. split; [by destruct commit_|]. rewrite Hw4, Hw3. clear Hmark Hload Henq Hl.
  split_and!.
  - change (outbox (work s1) ++ [d] = outbox (work s) ++ [d]). by rewrite Ho1.
  - exact Hd.
  - etrans; [apply (find_set_row (R := ReviewCommentSlot.t)); [done|exact Hs1]|].
    done.
  - intros k Hk. etrans; [|by apply Hso1]. refine (find_other_row (R := ReviewCommentSlot.t)
      (λ s, s .[ ReviewCommentSlot.result_version := version ]) slot_id k _ _ Hk); done.
  - refine (find_set_row (R := Task.t) (λ t, t .[ Task.delivery_status := "pending" ]) run_id
      _ _ _ Ht1); done.
  - intros k Hk. etrans; [|by apply Hto1]. refine (find_other_row (R := Task.t)
      (λ t, t .[ Task.delivery_status := "pending" ]) run_id k _ _ Hk); done.
  - subst s4. destruct commit_; [by rewrite <- Hw3|]. by rewrite Hc3.
  - intros Hbound Hst s5. by eapply report_gate.
Qed.
End report.
