(* ===== verification/ServiceTheorems.v ===== *)
(** * The service as a whole

    The calls the API serves, and what holds whatever calls are made in whatever
    order. *)
From Stdlib Require Import Ascii.
From S2P Require Import Prelude PyText Json Models Scheduler SchedulerAdmin Demo Delivery ReviewRuns ReviewRequests Webhooks ReviewRunFacts.
#[global] Open Scope Z_scope.
#[global] Open Scope orch_scope.

(** A request to the API that may change review runs. *)
Inductive service_call :=
  | CancelReviewRun (run_id : string)
  | RequestRerun (run_id idempotency_key : string)
  | RequestRetry (run_id : string)
  | RequestFromAgent (task_id session_id : string) (action : ReviewReason)
  | ReceiveWebhook (delivery_id provider_event : string) (event : ProviderWebhookEvent.t)
      (payload : json) (raw_body : string)
  | UpdateScheduling (task_id : string) (update : TaskSchedulingUpdate.t).

Section service.
Context `{Runtime}.

Definition serve (c : service_call) : SM () :=
  match c with
  | CancelReviewRun run_id => ignore (cancel_review_run run_id)
  | RequestRerun run_id key => ignore (request_review_rerun run_id key)
  | RequestRetry run_id => ignore (request_review_retry run_id)
  | RequestFromAgent task_id session_id action =>
      ignore (request_review_action_from_agent task_id session_id action)
  | ReceiveWebhook delivery_id provider_event event payload raw_body =>
      ignore (accept_provider_webhook delivery_id provider_event event payload raw_body)
  | UpdateScheduling task_id update => ignore (update_task_scheduling task_id update)
  end.

(** Serving a request in a session of its own, with the next clock readings and
    identifiers; what it did not commit is lost. *)
Definition served (c : service_call) (s : Session) : Session :=
  exec (serve c) (open_session (committed s) (ticks s) (uuids s)).

Section settled.
Context (k : string) (v : string * string * option string * option Z).
Context (Hterminal : v.1.1.1 ∈ TERMINAL_STATUSES).
Abbreviation outcome_kept := (everywhere (settled k v)).

Lemma settled_reject_request {A} a b c d : keeps outcome_kept (_reject_review_request (A := A) a b c d).
Proof. unfold _reject_review_request, reject. sees_auto. Qed.
Hint Resolve settled_reject_request : keeps.

Lemma settled_decide event action run_id context :
  keeps outcome_kept (decide_request event action run_id context).
Proof.
  unfold decide_request, _review_request_result. 
  pose proof (settled_handle k v Hterminal).
  pose proof (settled_availability k v).
  sees_auto.
Qed.
Hint Resolve settled_decide : keeps.

Lemma settled_request fuel run_id action delivery_id :
  keeps outcome_kept (_request_source_review_action fuel run_id action delivery_id).
Proof.
  revert run_id action delivery_id. induction fuel as [|fuel IH]; intros; cbn [_request_source_review_action];
    unfold answer_existing, get_provider_event, get_review_run, _review_request_result, reject,
      _pull_request_context_for_run, context_by_identity, request_event; sees_auto.
Qed.
Hint Resolve settled_request : keeps.

Lemma settled_cancel_commands provider repo n code :
  keeps outcome_kept (cancel_active_agent_tasks_for_pr provider repo n code).
Proof.
  unfold cancel_active_agent_tasks_for_pr. destruct repo as [repo|], n as [n|]; try apply keeps_ret.
  intros s Hs. rewrite bind_run. cbn [select gets].
  set (l := filter _ _).
  assert (Hl : ∀ t, t ∈ l → Task.id t ≠ k).
  { intros t Ht. apply (unfinished_other k v Hterminal (active_command_of provider repo n) (work s));
      [apply Hs| |exact Ht].
    intros x. unfold active_command_of, agent_where. destruct (agent_of x); [|done].
    rewrite !Is_true_andb. intros [_ Hst%bool_decide_unpack].
    unfold CANCELLABLE_STATUSES. set_solver. }
  assert (Hk : keeps outcome_kept
    (for_each l (λ t, modify (Task.id t) (mark_cancellation code)) ;;
     when (negb (bool_decide (Task.id <$> l = []))) commit ;; mret (Task.id <$> l))).
  { apply keeps_bind; [apply keeps_for_each_elem|].
    - intros t Ht. apply settled_modify; [|by left; apply Hl].
      intros t0. unfold mark_cancellation. by rewrite set_agent_id.
    - intros _. sees_auto. }
  exact (Hk s Hs).
Qed.
Hint Resolve settled_cancel_commands : keeps.

Lemma settled_new_command event_id command context :
  keeps outcome_kept (create_agent_task_from_event event_id command context).
Proof.
  unfold create_agent_task_from_event, context_by_identity, new_agent_task.
  sees_auto. by apply settled_append.
Qed.
Hint Resolve settled_new_command : keeps.

Lemma settled_webhook a b c d e : keeps outcome_kept (accept_provider_webhook a b c d e).
Proof.
  pose proof (settled_handle k v Hterminal). pose proof (settled_close_runs k v Hterminal).
  unfold accept_provider_webhook, handle_event, get_provider_event, _get_agent_task_id_for_event,
    inbox_event, only_if, webhook_context, webhook_review, webhook_command, close_pull_request,
    upsert_pull_request_context, context_by_identity, new_context.
  sees_auto.
Qed.

Lemma settled_reschedule task_id update : keeps outcome_kept (update_task_scheduling task_id update).
Proof.
  unfold update_task_scheduling. unfold _is_past. sees_auto.
  all: apply settled_update; [|right|done]; intros ?; cbv zeta;
    destruct update as [[] [] [] [] []]; done.
Qed.

Lemma settled_serve c : keeps outcome_kept (serve c).
Proof.
  destruct c; cbn [serve]; unfold ignore;
    (apply keeps_bind; [|intros; apply keeps_ret]).
  - by apply settled_cancel_run.
  - apply settled_request.
  - apply settled_request.
  - unfold request_review_action_from_agent, get_provider_event, agent_source, source_missing.
    sees_auto. apply settled_update; [intros; apply set_agent_id|right|done].
    intros x. unfold set_agent. by destruct (Task.sub x).
  - apply settled_webhook.
  - apply settled_reschedule.
Qed.
End settled.

End service.

(** ** The inbox makes requests idempotent *)

Section replay.
Context `{Runtime}.

(** The inbox holds [E] and then an event [K] with the given provider, delivery,
    internal event and run, and [L] are the commands of that event. *)
Definition entered (E : list ProviderEventInbox.t) (K provider delivery_id : string)
    (internal review_run_id : option string) (L : list string) (d : Db) : Prop :=
  ∃ e, inbox (E ++ [e]) K L d ∧ ProviderEventInbox.id e = K ∧
    ProviderEventInbox.provider e = provider ∧ ProviderEventInbox.delivery_id e = delivery_id ∧
    ProviderEventInbox.internal_event e = internal ∧
    ProviderEventInbox.review_run_id e = review_run_id.

Context (E : list ProviderEventInbox.t) (K p x : string) (i : option string).
Context (Hnew : K ∉ ProviderEventInbox.id <$> E).

Lemma entered_frame {A} rr L (m : SM A) :
  (∀ E L, keeps (sees (inbox E K L)) m) → keeps (sees (entered E K p x i rr L)) m.
Proof.
  intros Hm s [(e & Hin & Hrest) _]. specialize (Hm (E ++ [e]) L s (conj Hin I)).
  destruct (m s) as [[a|er] s']; (split; [|done]); exists e; (split; [apply Hm|exact Hrest]).
Qed.

Lemma update_last (f : ProviderEventInbox.t → ProviderEventInbox.t) e :
  ProviderEventInbox.id e = K →
  update_rows (λ r, bool_decide (ProviderEventInbox.id r = K)) f (E ++ [e]) = E ++ [f e].
Proof.
  intros He. unfold update_rows. rewrite fmap_app. cbn [fmap list_fmap].
  rewrite bool_decide_true by done. f_equal.
  apply (update_rows_none (λ r, bool_decide (ProviderEventInbox.id r = K))).
  intros r Hr. apply bool_decide_false. intros Hk. apply Hnew. rewrite <- Hk.
  by apply list_elem_of_fmap_2.
Qed.

(** The assignments the program makes to its event. *)
Definition same_entry (e e' : ProviderEventInbox.t) : Prop :=
  ProviderEventInbox.id e' = ProviderEventInbox.id e ∧
  ProviderEventInbox.provider e' = ProviderEventInbox.provider e ∧
  ProviderEventInbox.delivery_id e' = ProviderEventInbox.delivery_id e ∧
  ProviderEventInbox.internal_event e' = ProviderEventInbox.internal_event e.

Lemma entered_modify rr rr' L f :
  (∀ e, same_entry e (f e)) →
  (∀ e, ProviderEventInbox.review_run_id e = rr → ProviderEventInbox.review_run_id (f e) = rr') →
  triple (sees (entered E K p x i rr L)) (modify K f)
    (λ _, sees (entered E K p x i rr' L)) (λ _, sees (entered E K p x i rr' L)).
Proof.
  intros Hf Hr s [(e & [He HL] & Hid & Hp & Hx & Hi & Hrr) _]. simpl. split; [|done].
  exists (f e). destruct (Hf e) as (F1 & F2 & F3 & F4). split; [split|].
  - change (update_rows (λ r, bool_decide (ProviderEventInbox.id r = K)) f (events (work s)) = E ++ [f e]).
    rewrite He. by apply update_last.
  - exact HL.
  - rewrite F1, F2, F3, F4. split_and!; auto.
Qed.

Lemma keeps_entered_modify rr L f :
  (∀ e, same_entry e (f e)) →
  (∀ e, ProviderEventInbox.review_run_id (f e) = ProviderEventInbox.review_run_id e) →
  keeps (sees (entered E K p x i rr L)) (modify K f).
Proof. intros Hf Hr. apply entered_modify; [done|]. intros e <-. apply Hr. Qed.

Lemma triple_load {R} `{Table R} I (k : string) :
  triple I (load (R := R) k) (λ r s, I s ∧ row_key r = k) (λ _, I).
Proof.
  intros s Hs. rewrite load_cases. destruct (find_row k (rows (work s))) as [r|] eqn:Er; [|done].
  split; [done|]. unfold find_row in Er. apply head_Some_elem_of in Er.
  by apply list_elem_of_filter in Er as [? _].
Qed.

Lemma entered_review context L :
  triple (sees (entered E K p x i None L)) (webhook_review K context)
    (λ r, sees (entered E K p x i (Some r) L)) (λ _ _, True).
Proof.
  unfold webhook_review. destruct context as [c|]; [|by intros].
  eapply triple_bind.
  { eapply triple_conseq; [apply (entered_frame None L); intros; apply inbox_handle|done|done|done]. }
  intros record. eapply triple_bind.
  { eapply triple_conseq; [apply (entered_modify None (Some record.1))|done..]; by intros. }
  intros []. apply (triple_bind _ _ _ (λ _, sees (entered E K p x i (Some record.1) L)));
    [|intros []; by apply triple_ret].
  eapply triple_conseq; [apply (entered_frame (Some record.1) L)|done..].
  intros E' L'. sees_auto.
Qed.

Lemma entered_command w context rr :
  triple (sees (entered E K p x i rr [])) (webhook_command K w context)
    (λ t, sees (entered E K p x i rr [t])) (λ _ _, True).
Proof.
  unfold webhook_command. destruct (ProviderWebhookEvent.agent_command w) as [c|]; [|by intros].
  eapply triple_bind with (R := λ t, sees (entered E K p x i rr [t])).
  - unfold create_agent_task_from_event. eapply triple_bind.
    { eapply triple_conseq; [apply triple_load|done|by intros|by intros]. }
    intros event. apply (triple_pure _ (ProviderEventInbox.id event = K)); [by intros s [_ ?]|].
    intros Hid. apply (triple_pre _ (sees (entered E K p x i rr []))); [by intros s [? _]|].
    destruct (ProviderEventInbox.repo_full_name event) as [[|ch repo]|]; try by intros.
    destruct (ProviderEventInbox.pull_request_number event) as [n|]; try by intros.
    eapply triple_bind.
    { eapply triple_conseq; [apply (entered_frame rr [])|done|done|done].
      intros E' L'. unfold context_by_identity. sees_auto. }
    intros ctx. unfold new_agent_task.
    intros s Hs. run_steps.
    match goal with |- context [insert ?t ?s1] => set (task := t); set (s2 := s1) end.
    assert (Hs2 : sees (entered E K p x i rr []) s2) by exact Hs. clearbody s2. clear Hs.
    unfold insert. run_steps.
    destruct (violation task (rows (work s2))); [done|].
    destruct Hs2 as [(e & [He HL] & Hrest) _]. split; [|done]. exists e. split; [split|exact Hrest].
    + exact He.
    + change (Task.id <$> filter (linked_to K) (tasks (work s2) ++ [task]) = [Task.id task]).
      rewrite filter_app, fmap_app, HL, filter_cons, decide_True; [done|].
      unfold linked_to, agent_where. simpl. by rewrite Hid, bool_decide_true.
  - intros t. apply (triple_bind _ _ _ (λ _, sees (entered E K p x i rr [t])));
      [|intros []; by apply triple_ret].
    eapply triple_conseq; [apply (keeps_entered_modify rr [t])|done..]; by intros.
Qed.

Lemma triple_only_if {A} (b : bool) (m : SM A) P (Q : option A → Session → Prop) E' :
  triple P m (λ a, Q (Some a)) E' → (∀ s, P s → Q None s) → triple P (only_if b m) Q E'.
Proof.
  intros Hm Hno. destruct b; [|by apply triple_ret].
  eapply triple_bind; [exact Hm|]. intros a. by apply triple_ret.
Qed.

Lemma keeps_any_error {A} I (m : SM A) : keeps I m → triple I m (λ _, I) (λ _ _, True).
Proof. intros Hm. eapply triple_conseq; [exact Hm|done..]. Qed.

Lemma entered_event w :
  triple (sees (entered E K p x i None [])) (handle_event K w)
    (λ r, sees (entered E K p x i r.1 (option_list r.2))) (λ _ _, True).
Proof.
  unfold handle_event.
  apply (triple_bind _ _ _ (λ _, sees (entered E K p x i None []))).
  { apply keeps_any_error, entered_frame. intros E' L'.
    unfold only_if, webhook_context, upsert_pull_request_context, context_by_identity, new_context.
    sees_auto. }
  intros context. apply (triple_bind _ _ _ (λ _, sees (entered E K p x i None []))).
  { apply keeps_any_error, entered_frame. intros E' L'.
    pose proof (inbox_close_runs E' K L'). pose proof (inbox_cancel_commands E' K L').
    unfold close_pull_request. sees_auto. }
  intros _. apply (triple_bind _ _ _ (λ r, sees (entered E K p x i r []))).
  { apply triple_only_if; [apply entered_review|done]. }
  intros rr. apply (triple_bind _ _ _ (λ t, sees (entered E K p x i rr (option_list t)))).
  { apply triple_only_if; [apply entered_command|done]. }
  intros t.
  assert (Hrest : keeps (sees (entered E K p x i rr (option_list t)))
    (event ← load (R := ProviderEventInbox.t) K;
     when (bool_decide (ProviderEventInbox.status event = "received"))
       (modify K (λ e, e .[ ProviderEventInbox.status := "processed" ])) ;;
     now ← utc_now;
     modify K (λ e, e .[ ProviderEventInbox.processed_at := Some now ]) ;;
     commit ;; mret (rr, t))).
  { apply keeps_bind; [sees_auto|intros ev].
    apply keeps_bind; [apply keeps_when, keeps_entered_modify; by intros|intros _].
    apply keeps_bind; [sees_auto|intros now].
    apply keeps_bind; [apply keeps_entered_modify; by intros|intros _]. sees_auto. }
  intros s Hs. specialize (Hrest s Hs).
  destruct ((event ← load (R := ProviderEventInbox.t) K; _) s) as [[r|e] s'] eqn:Er; [|done].
  repeat (apply bind_Return in Er as (? & ? & _ & Er)). by injection Er as <- <-.
Qed.
End replay.

Section idempotence.
Context `{Runtime}.

Definition is_entry (provider delivery_id : string) (e : ProviderEventInbox.t) : bool :=
  bool_decide (ProviderEventInbox.provider e = provider)
  && bool_decide (ProviderEventInbox.delivery_id e = delivery_id).

Lemma get_event_run p x s e :
  filter (is_entry p x) (events (work s)) = [e] → get_provider_event p x s = (Return (Some e), s).
Proof.
  intros He. unfold get_provider_event. run_steps.
  change (scalar_one_or_none (filter (is_entry p x) (events (work s))) s = (Return (Some e), s)).
  by rewrite He.
Qed.

(** The last event of the inbox is the only one of its delivery. *)
Lemma filter_last E e p x :
  filter (is_entry p x) E = [] → ProviderEventInbox.provider e = p →
  ProviderEventInbox.delivery_id e = x → filter (is_entry p x) (E ++ [e]) = [e].
Proof.
  intros HE <- <-. rewrite filter_app, HE, filter_cons, decide_True; [done|].
  unfold is_entry. by rewrite !bool_decide_true.
Qed.

Lemma no_entry p x s s' :
  get_provider_event p x s = (Return None, s') → s' = s ∧ filter (is_entry p x) (events (work s)) = [].
Proof.
  unfold get_provider_event. run_steps.
  change (rows (work s)) with (events (work s)).
  change (filter _ (events (work s))) with (filter (is_entry p x) (events (work s))).
  destruct (filter (is_entry p x) (events (work s))) as [|e [|e' l]]; [|done..]. by intros [= <-].
Qed.

Lemma latest_of_one (key : Task.t → list Z) l L :
  Task.id <$> l = option_list L → Task.id <$> head (order_by key l) = L.
Proof. destruct l as [|t [|t' l]], L as [i|]; intros [=]; by subst. Qed.

Lemma get_event_none p x s :
  filter (is_entry p x) (events (work s)) = [] → get_provider_event p x s = (Return None, s).
Proof.
  intros He. unfold get_provider_event. run_steps.
  change (scalar_one_or_none (filter (is_entry p x) (events (work s))) s = (Return None, s)).
  by rewrite He.
Qed.

(** The answer to a delivery whose event is in the inbox. *)
Lemma recorded_delivery E e L x pe w payload raw s :
  let p := ProviderWebhookEvent.provider w in
  filter (is_entry p x) E = [] → inbox (E ++ [e]) (ProviderEventInbox.id e) (option_list L) (work s) →
  ProviderEventInbox.provider e = p → ProviderEventInbox.delivery_id e = x →
  accept_provider_webhook x pe w payload raw s =
    (Return (WebhookAccepted.mk p x (ProviderEventInbox.status e)
       (ProviderEventInbox.internal_event e) (ProviderEventInbox.review_run_id e) L true), s).
Proof.
  intros p HE [He HL] Hp Hx. unfold accept_provider_webhook. fold p.
  rewrite (bind_ret_run _ _ _ _ _ (get_event_run p x s e
    ltac:(by rewrite He; apply filter_last))).
  unfold _get_agent_task_id_for_event. run_steps. unfold mret, M_ret. do 3 f_equal.
  exact (latest_of_one _ _ _ HL).
Qed.

(** C12: A webhook takes effect once.  If a delivery is accepted as new, then every later
    delivery with the same identifier from the same provider, whatever its body,
    is answered with the same status, internal event, review run and command
    task, is marked a duplicate, and changes nothing. *)
Theorem webhook_redelivery_is_noop x pe w payload raw a s s1 :
  accept_provider_webhook x pe w payload raw s = (Return a, s1) →
  WebhookAccepted.duplicate a = false →
  (∀ t, t ∈ tasks (work s) → linked_to (fresh_uuid (uuids s)) t = false) →
  ∀ pe' w' payload' raw',
    ProviderWebhookEvent.provider w' = ProviderWebhookEvent.provider w →
    accept_provider_webhook x pe' w' payload' raw' s1 =
    (Return (WebhookAccepted.mk (WebhookAccepted.provider a) (WebhookAccepted.delivery_id a)
       (WebhookAccepted.status a) (WebhookAccepted.internal_event a)
       (WebhookAccepted.review_run_id a) (WebhookAccepted.agent_task_id a) true), s1).
Proof.
  intros Hacc Hdup Hfresh pe' w' payload' raw' Hp.
  set (p := ProviderWebhookEvent.provider w) in *. unfold accept_provider_webhook in Hacc. fold p in Hacc.
  apply bind_Return in Hacc as (found & s0 & Hget & Hacc).
  destruct found as [e|].
  { apply bind_Return in Hacc as (? & ? & _ & Hacc). injection Hacc as <- <-. done. }
  apply no_entry in Hget as [-> HE].
  set (K := fresh_uuid (uuids s)) in *.
  unfold inbox_event in Hacc. revert Hacc. run_steps.
  match goal with |- context [insert ?e ?s2] => set (e0 := e); set (s2' := s2) end.
  unfold insert. run_steps. change (rows (work s2')) with (events (work s)).
  destruct (violation e0 (events (work s))) eqn:Hv; [done|].
  apply violation_None in Hv as [Hk _].
  change (K ∉ ProviderEventInbox.id <$> events (work s)) in Hk.
  change (ProviderEventInbox.id e0) with K.
  cbn [puts]. set (s3 := on_rows (λ l, l ++ [e0]) s2'). rewrite bind_run.
  pose proof (entered_event (events (work s)) K p x (ProviderWebhookEvent.internal_event w) Hk w s3) as Hev.
  destruct (handle_event K w s3) as [[[rr t]|er] s4]; [|done].
  destruct Hev as [(e & [He HL] & Hid & Hep & Hex & Hei & Hrr) _].
  { split; [|done]. exists e0. split_and!; try done. split; [done|].
    change (Task.id <$> filter (linked_to K) (tasks (work s)) = []).
    assert (Hn : filter (linked_to K) (tasks (work s)) = []).
    { apply filter_none. intros t' Ht' Hl. by rewrite (Hfresh t' Ht') in Hl. }
    exact (f_equal (fmap Task.id) Hn). }
  assert (Hload : load (R := ProviderEventInbox.t) K s4 = (Return e, s4)).
  { apply Models.load_run. change (rows (work s4)) with (events (work s4)). rewrite He.
    by apply (find_row_app_absent (R := ProviderEventInbox.t)). }
  rewrite (bind_ret_run _ _ _ _ _ Hload). intros [= <- <-]. cbn [WebhookAccepted.provider WebhookAccepted.delivery_id
    WebhookAccepted.status WebhookAccepted.internal_event WebhookAccepted.review_run_id
    WebhookAccepted.agent_task_id].
  cbn [fst snd] in *. rewrite <- Hrr. subst p. rewrite <- Hp in *.
  apply (recorded_delivery (events (work s))); [done| |done|done]. rewrite Hid. by split.
Qed.

(** *** Requests for another review *)

Lemma request_result_Return a b k d s r s' :
  _review_request_result a b k d s = (Return r, s') →
  s' = s ∧ get_review_run k s = (Return (Some k), s) ∧ ReviewRequestResult.review_run_id r = k ∧
  ∀ a' b' d', _review_request_result a' b' k d' s =
    (Return (ReviewRequestResult.mk a' b' k (ReviewRequestResult.attempt r)
               (ReviewRequestResult.status r) d'), s).
Proof.
  unfold _review_request_result. intros (tr & s0 & Hl & Hr)%bind_Return.
  pose proof Hl as (-> & Hf & Hrun)%load_run_Return. injection Hr as <- <-. split_and!; [done| |done|].
  - unfold get_review_run. rewrite bind_run, fetch_run.
    change (rows (work s)) with (tasks (work s)). by rewrite Hf, Hrun.
  - intros. by rewrite (bind_ret_run _ _ _ _ _ Hl).
Qed.

(** The second answer to a request whose event names a run. *)
Lemma answered_request fuel run_id action x e r a b d s :
  filter (is_entry "internal" x) (events (work s)) = [e] →
  source_of e = Some run_id →
  ProviderEventInbox.review_run_id e = Some (ReviewRequestResult.review_run_id r) →
  ReviewRequestResult.review_run_id r ≠ "" →
  _review_request_result a b (ReviewRequestResult.review_run_id r) d s = (Return r, s) →
  _request_source_review_action fuel run_id action x s =
    (Return (Some (ReviewRequestResult.mk run_id (ProviderEventInbox.id e)
       (ReviewRequestResult.review_run_id r) (ReviewRequestResult.attempt r)
       (ReviewRequestResult.status r) true)), s).
Proof.
  intros He Hsrc Hrr Hne (_ & Hget & _ & Hres)%request_result_Return.
  destruct fuel as [|fuel]; cbn [_request_source_review_action];
    rewrite (bind_ret_run _ _ _ _ _ (get_event_run _ _ _ _ He));
    unfold answer_existing; rewrite bool_decide_true by done; cbn [negb]; rewrite Hrr;
    destruct (ReviewRequestResult.review_run_id r) as [|c rest]; try done;
    rewrite bind_run, (bind_ret_run _ _ _ _ _ Hget); by rewrite Hres.
Qed.

(** An answer that was given before is given again. *)
Lemma answer_existing_Return e run_id s r s' :
  answer_existing e run_id s = (Return r, s') →
  s' = s ∧ source_of e = Some run_id ∧
  ProviderEventInbox.review_run_id e = Some (ReviewRequestResult.review_run_id r) ∧
  ReviewRequestResult.review_run_id r ≠ "" ∧ ReviewRequestResult.deduplicated r = true ∧
  ReviewRequestResult.source_review_run_id r = run_id ∧
  ReviewRequestResult.review_request_event_id r = ProviderEventInbox.id e ∧
  _review_request_result run_id (ProviderEventInbox.id e) (ReviewRequestResult.review_run_id r)
    true s = (Return r, s).
Proof.
  unfold answer_existing. case_bool_decide as Hsrc; [|done]. cbn [negb].
  intros (found & s0 & Hget & Hr)%bind_Return. destruct found as [k|]; [|done].
  destruct (ProviderEventInbox.review_run_id e) as [[|c rest]|] eqn:Hrr; try done.
  unfold get_review_run in Hget. rewrite bind_run, fetch_run in Hget.
  assert (Hk : k = String c rest ∧ s0 = s).
  { destruct (find_row _ _) as [t|]; [destruct (review_of t)|]; by injection Hget. }
  destruct Hk as [-> ->]. pose proof Hr as (-> & _ & Hid & Hres)%request_result_Return.
  rewrite Hid. pose proof (Hres run_id (ProviderEventInbox.id e) true) as Hr'.
  rewrite Hr in Hr'. injection Hr' as Hr'. split_and!; try done; by rewrite Hr'.
Qed.

Lemma keeps_run {A} I (m : SM A) s o s' : keeps I m → I s → m s = (o, s') → I s'.
Proof. intros Hm Hs Hr. specialize (Hm s Hs). rewrite Hr in Hm. by destruct o. Qed.

Lemma decide_request_Return E e0 action run_id context s r s1 :
  ProviderEventInbox.id e0 ∉ ProviderEventInbox.id <$> E → events (work s) = E ++ [e0] →
  decide_request e0 action run_id context s = (Return r, s1) →
  ∃ e d, events (work s1) = E ++ [e] ∧ same_entry e0 e ∧
    ProviderEventInbox.payload e = ProviderEventInbox.payload e0 ∧
    ProviderEventInbox.review_run_id e = Some (ReviewRequestResult.review_run_id r) ∧
    ReviewRequestResult.source_review_run_id r = run_id ∧
    ReviewRequestResult.review_request_event_id r = ProviderEventInbox.id e0 ∧
    _review_request_result run_id (ProviderEventInbox.id e0)
      (ReviewRequestResult.review_run_id r) d s1 = (Return r, s1).
Proof.
  intros Hk He. unfold decide_request. set (K := ProviderEventInbox.id e0) in *.
  set (L := Task.id <$> filter (linked_to K) (tasks (work s))).
  assert (Hin : sees (inbox (E ++ [e0]) K L) s) by by split; [split|].
  intros (availability & s2 & Hav & Hrest)%bind_Return.
  eapply (keeps_run _ _ _ _ _ (inbox_availability _ K L run_id context action K)) in Hav; [|exact Hin].
  clear Hin He. apply bind_Return in Hrest as ([] & s3 & Hallowed & Hrest).
  assert (s3 = s2) as ->.
  { destruct (negb _); [|by injection Hallowed]. unfold _reject_review_request in Hallowed.
    by repeat (apply bind_Return in Hallowed as (? & ? & _ & Hallowed)). }
  destruct context as [c|]; [|done]. apply bind_Return in Hrest as (record & s4 & Hrec & Hrest).
  assert (Hin4 : sees (inbox (E ++ [e0]) K L) s4).
  { unfold try_except in Hrec.
    match type of Hrec with context [handle_review_requested ?q s2] =>
      pose proof (inbox_handle (E ++ [e0]) K L q s2 Hav) as Hh;
      destruct (handle_review_requested q s2) as [[rec|er] s5]; [by injection Hrec as <- <-|] end.
    by destruct er. }
  clear Hav Hallowed Hrec. destruct Hin4 as [[He _] _].
  revert Hrest. run_steps.
  match goal with |- context [modify K ?f ?s5] => set (g := f); set (s5' := s5) end.
  rewrite modify_run. rewrite bind_run. cbn [commit puts].
  match goal with |- _review_request_result _ _ _ _ ?s6 = _ → _ => set (s6' := s6) end.
  intros Hres. pose proof Hres as (-> & _ & Hid & Hsame)%request_result_Return.
  exists (g e0), (negb record.2).
  assert (Hev : events (work s6') = E ++ [g e0]).
  { change (update_rows (λ e, bool_decide (ProviderEventInbox.id e = K)) g (events (work s4)) = E ++ [g e0]).
    rewrite He. by apply update_last. }
  pose proof (Hsame run_id K (negb record.2)) as Hr. rewrite Hres in Hr. injection Hr as Hr.
  split_and!; [exact Hev|by split_and!|done|by rewrite Hid|by rewrite Hr|by rewrite Hr|].
  by rewrite Hid.
Qed.

(** How a request comes to be answered with a run. *)
Lemma entry_found x s e s0 :
  get_provider_event "internal" x s = (Return (Some e), s0) →
  s0 = s ∧ filter (is_entry "internal" x) (events (work s)) = [e].
Proof.
  unfold get_provider_event. run_steps.
  change (scalar_one_or_none (filter (is_entry "internal" x) (events (work s))) s = (Return (Some e), s0) →
    s0 = s ∧ (filter (is_entry "internal" x) (events (work s)) = [e])).
  destruct (filter (is_entry "internal" x) (events (work s))) as [|e' [|e'' l]]; [done| |done].
  by intros [= -> <-].
Qed.

(** Looking up a run and its context changes no event. *)
Lemma lookups_keep_events run_id s source s2 context s3 :
  get_review_run run_id s = (Return source, s2) →
  _pull_request_context_for_run run_id s2 = (Return context, s3) →
  events (work s3) = events (work s).
Proof.
  intros Hsource Hcontext. set (L := Task.id <$> filter (linked_to "") (tasks (work s))).
  assert (Hin : sees (inbox (events (work s)) "" L) s) by by split; [split|].
  eapply keeps_run in Hsource; [| |exact Hin]; [|unfold get_review_run; sees_auto].
  eapply keeps_run in Hcontext; [| |exact Hsource];
    [|unfold _pull_request_context_for_run, context_by_identity; sees_auto].
  by destruct Hcontext as [[? _] _].
Qed.

(** An entry that is not there yet is inserted, or the request fails: the answer "somebody else
    was first" needs an entry to be found. *)
Lemma insert_or_fail x e0 (b : bool) s s1 :
  filter (is_entry "internal" x) (events (work s)) = [] →
  except_integrity
    (begin_nested (insert e0) ;; mret true)
    (λ e, duplicate ← get_provider_event "internal" x;
          match duplicate with None => raise e | Some _ => mret false end) s = (Return b, s1) →
  b = true ∧ (ProviderEventInbox.id e0 ∉ ProviderEventInbox.id <$> events (work s)) ∧
  events (work s1) = events (work s) ++ [e0].
Proof.
  intros Hnone. unfold except_integrity, try_except. rewrite bind_run.
  unfold begin_nested, insert. run_steps. change (rows (work s)) with (events (work s)).
  destruct (violation e0 (events (work s))) as [c|] eqn:Hv.
  - cbn [raise]. set (s6 := s .[ work := work s ]). rewrite bind_run.
    by rewrite (get_event_none "internal" x s6).
  - cbn [puts]. intros [= <- <-]. by apply violation_None in Hv as [Hk _].
Qed.

Lemma request_Return fuel run_id action x s r s1 :
  _request_source_review_action fuel run_id action x s = (Return (Some r), s1) →
  (∃ e, (filter (is_entry "internal" x) (events (work s)) = [e]) ∧
     answer_existing e run_id s = (Return r, s1)) ∨
  (∃ context s2 e0, (filter (is_entry "internal" x) (events (work s)) = []) ∧
     (ProviderEventInbox.id e0 ∉ ProviderEventInbox.id <$> events (work s)) ∧
     events (work s2) = events (work s) ++ [e0] ∧
     ProviderEventInbox.provider e0 = "internal" ∧ ProviderEventInbox.delivery_id e0 = x ∧
     source_of e0 = Some run_id ∧
     decide_request e0 action run_id context s2 = (Return r, s1)).
Proof.
  intros Hreq.
  assert (Hbody : ∃ again : SM (option ReviewRequestResult.t),
    (existing_event ← get_provider_event "internal" x;
     match existing_event with
     | Some event => result ← answer_existing event run_id; mret (Some result)
     | None =>
         source ← get_review_run run_id;
         match source with
         | None => mret None
         | Some _ =>
             context ← _pull_request_context_for_run run_id;
             tr ← load_run run_id;
             event ← request_event action run_id x tr.2;
             added ← except_integrity
               (begin_nested (insert event) ;; mret true)
               (λ e, duplicate ← get_provider_event "internal" x;
                     match duplicate with None => raise e | Some _ => mret false end);
             if (added : bool)
             then result ← decide_request event action run_id context; mret (Some result)
             else again
         end
     end) s = (Return (Some r), s1)).
  { destruct fuel; eexists; exact Hreq. }
  clear Hreq fuel. destruct Hbody as [again Hreq].
  apply bind_Return in Hreq as (found & s0 & Hget & Hreq). destruct found as [e|].
  { left. exists e. apply entry_found in Hget as [-> Hget]. split; [exact Hget|].
    apply bind_Return in Hreq as (r' & s2 & Ha & Hr). by injection Hr as <- <-. }
  right. apply no_entry in Hget as [-> Hnone].
  apply bind_Return in Hreq as (source & s2 & Hsource & Hreq). destruct source as [k|]; [|done].
  apply bind_Return in Hreq as (context & s3 & Hcontext & Hreq).
  apply bind_Return in Hreq as (tr & s4 & Htr & Hreq).
  apply load_run_Return in Htr as [-> _].
  pose proof (lookups_keep_events _ _ _ _ _ _ Hsource Hcontext) as Hev.
  revert Hreq. unfold request_event. run_steps.
  match goal with |- context [begin_nested (insert ?e)] => set (e0 := e) end.
  match goal with |- context [except_integrity _ _ ?st] => set (s5 := st) end.
  change (events (work s3)) with (events (work s5)) in Hev.
  intros (b & s6 & Hins & Hd)%bind_Return.
  apply insert_or_fail in Hins as (-> & Hk & He); [|by rewrite Hev]. rewrite Hev in Hk, He.
  apply bind_Return in Hd as (r' & s7 & Hd & Hr). injection Hr as <- <-.
  exists context, s6, e0. by split_and!.
Qed.

End idempotence.

(** ** The guard against retrying a run twice *)

Lemma StronglySorted_filter {A} (R : relation A) (P : A → Prop) `{∀ x, Decision (P x)} l :
  StronglySorted R l → StronglySorted R (filter P l).
Proof.
  induction 1 as [|x l Hl IH Hx]; [constructor|]. rewrite filter_cons. case_decide; [|done].
  constructor; [done|]. apply Forall_forall. intros y [_ Hy]%list_elem_of_filter.
  by eapply Forall_forall in Hx.
Qed.

(** The newest retry request of a run comes first. *)
Lemma latest_retry_newest run_id run l e :
  e ∈ l → retry_event_for run e → source_of e = Some run_id →
  NoDup (ProviderEventInbox.id <$> l) →
  (∀ e', e' ∈ l → ProviderEventInbox.id e' ≠ ProviderEventInbox.id e →
     ProviderEventInbox.created_at e' < ProviderEventInbox.created_at e) →
  latest_retry_event run_id run l = Some e.
Proof.
  intros He Hr Hs Hnd Hnew. unfold latest_retry_event.
  set (key := λ e, [- ProviderEventInbox.created_at e]).
  set (F := filter _ (order_by key _)).
  assert (HF : e ∈ F).
  { apply list_elem_of_filter. split; [done|]. apply elem_of_order_by, list_elem_of_filter. by split. }
  assert (Hsorted : StronglySorted (lex_cmp key) F)
    by apply StronglySorted_filter, order_by_sorted.
  destruct F as [|h F'] eqn:EF; [by apply elem_of_nil in HF|]. simpl. f_equal.
  apply elem_of_cons in HF as [->|HF]; [done|].
  apply StronglySorted_inv in Hsorted as [_ Hh]. eapply Forall_forall in Hh; [|exact HF].
  assert (Hhl : h ∈ l).
  { assert (Hin : h ∈ h :: F') by left. rewrite <- EF in Hin.
    apply list_elem_of_filter in Hin as [_ Hin]. apply elem_of_order_by, list_elem_of_filter in Hin. tauto. }
  destruct (decide (ProviderEventInbox.created_at h < ProviderEventInbox.created_at e)) as [Hlt|Hge].
  - unfold lex_cmp, key in Hh. simpl in Hh.
    rewrite (proj2 (Z.ltb_ge _ _)), (proj2 (Z.eqb_neq _ _)) in Hh by lia. done.
  - destruct (decide (ProviderEventInbox.id h = ProviderEventInbox.id e)) as [Hid|Hne].
    + by apply (NoDup_key_eq ProviderEventInbox.id l).
    + by destruct Hge; apply Hnew.
Qed.

(** The guard against a second retry does not guard requests.  While a retry is
    being requested its own event is the newest in the inbox, so the check for an
    existing retry finds that event, which it exempts, and never an earlier one: the
    request is judged as if the run had not been retried before. *)
Theorem retry_guard_misses_earlier_retries `{Runtime} run_id context s task run e :
  load_run run_id s = (Return (task, run), s) →
  e ∈ events (work s) → retry_event_for run e → source_of e = Some run_id →
  NoDup (ProviderEventInbox.id <$> events (work s)) →
  (∀ e', e' ∈ events (work s) → ProviderEventInbox.id e' ≠ ProviderEventInbox.id e →
     ProviderEventInbox.created_at e' < ProviderEventInbox.created_at e) →
  get_review_run_retry_availability run_id context (Some (ProviderEventInbox.id e)) s =
  _get_source_review_action_availability run_id retry ["failed"] context s.
Proof.
  intros Hload He Hr Hs Hnd Hnew. unfold get_review_run_retry_availability.
  rewrite (bind_ret_run _ _ _ _ _ Hload), bind_run. cbn [gets snd].
  rewrite (latest_retry_newest run_id run _ e) by done. by rewrite bool_decide_true.
Qed.

(** *** A failed run that is retried twice *)

(** The run "r0" failed; a retry asked for by an agent made "r1", which failed too. *)
Definition retried_context : PullRequestContext.t :=
  PullRequestContext.mk "ctx" "github" "octo/app" None 7 None None None None (Some "base000")
    None "head111" None false "open" None None None None None None 0.

Definition earlier_retry : ProviderEventInbox.t :=
  ProviderEventInbox.mk "ev-agent" "internal" "agent-review-action:t:retry" "review_request"
    (Some "retry") (Some "review_requested") (Some "octo/app") (Some 7) (Some "head111")
    "agent-review-action:t:retry" None "digest"
    (JObj [("source_review_run_id", JStr "r0")]) "queued" None None (Some "r1") (-1) (Some 0).

Definition retried_db : Db :=
  (with_tasks [demo_review "r0" "failed" "failed" (demo_run "head111" 1);
               demo_review "r1" "failed" "failed" (demo_run "head111" 2)])
    .[ events := [earlier_retry] ] .[ contexts := [retried_context] ].

(** Before a request the retry is refused, and yet the request creates a third run. *)
Example failed_run_retried_twice :
  let _ := demo_runtime in
  (∃ s, get_review_run_retry_availability "r0" (Some retried_context) None (demo_session retried_db)
    = (Return (unavailable "retry_already_requested" "该失败任务已经创建过重试任务。" (Some "r1")
                 (Some "base000") (Some "head111")), s)) ∧
  (∃ r s, request_review_retry "r0" (demo_session retried_db) = (Return (Some r), s) ∧
    ReviewRequestResult.attempt r = 3 ∧ ReviewRequestResult.deduplicated r = false).
Proof.
  split; [eexists; vm_compute; reflexivity|].
  eexists _, _. split; [vm_compute; reflexivity|]. split; reflexivity.
Qed.

(** The session in which the second request is judged. *)
Definition second_request : ProviderEventInbox.t :=
  earlier_retry .[ ProviderEventInbox.id := "ev-dashboard" ]
    .[ ProviderEventInbox.delivery_id := "review-retry:r0" ]
    .[ ProviderEventInbox.review_run_id := None ] .[ ProviderEventInbox.created_at := 5 ].

Lemma retry_guard_misses_earlier_retries_witness :
  let _ := demo_runtime in
  let s := demo_session (retried_db .[ events := [earlier_retry; second_request] ]) in
  get_review_run_retry_availability "r0" (Some retried_context) (Some "ev-dashboard") s =
  _get_source_review_action_availability "r0" retry ["failed"] (Some retried_context) s.
Proof.
  intros R s. apply (retry_guard_misses_earlier_retries (H := demo_runtime) "r0" (Some retried_context) s
    (demo_review "r0" "failed" "failed" (demo_run "head111" 1)) (demo_run "head111" 1) second_request).
  - vm_compute; reflexivity.
  - right. left.
  - exact I.
  - reflexivity.
  - decide_by_computation.
  - intros e' [->|[->|[]%elem_of_nil]%elem_of_cons]%elem_of_cons Hne; [reflexivity|]. by destruct Hne.
Defined.
