(* ===== verification/ServiceExamples.v ===== *)
(** * The service on concrete inputs *)
From Stdlib Require Import Ascii.
From S2P Require Import Prelude PyText Json Models Scheduler SchedulerAdmin Demo Delivery DeliveryTheorems ReviewRuns ReviewRequests Webhooks ReviewRunFacts LifecycleTheorems ReportTheorems ServiceTheorems.
#[global] Open Scope Z_scope.
#[global] Open Scope orch_scope.

(** A webhook that opens, or pushes to, a pull request. *)
Definition demo_push (head_sha : string) : ProviderWebhookEvent.t :=
  ProviderWebhookEvent.mk "github" "pull_request" (Some "synchronize") (Some "pr_updated")
    (Some "octo/app") (Some 7) (Some head_sha) true true false "received" None
    (Some (PullRequestSnapshot.mk "octo/app" 7 head_sha None None (Some "A change") (Some "eve")
       (Some "main") (Some "base000") (Some "topic") (Some "octo/app") (Some "octo/app") "open"
       None None None)).

(** The session after a first push. *)
Definition pushed : Session :=
  let _ := demo_runtime in
  served (ReceiveWebhook "d1" "pull_request" (demo_push "head111") JNull "body")
    (demo_session empty_db).

(** A second push supersedes the run of the first, which then waits for the delivery
    of its end. *)
Example second_push_supersedes :
  let _ := demo_runtime in
  let s := served (ReceiveWebhook "d2" "pull_request" (demo_push "head222") JNull "body") pushed in
  (λ t, (Task.status t, Task.execution_status t, Task.stage t)) <$> tasks (committed s) =
    [("awaiting_delivery", "cancelled", Some "superseded_delivery_pending");
     ("awaiting_delivery", "pending", Some "placeholder_delivery_pending")].
Proof. vm_compute. reflexivity. Qed.

Lemma webhook_redelivery_is_noop_witness :
  let _ := demo_runtime in
  ∃ a s1, accept_provider_webhook "d1" "pull_request" (demo_push "head111") JNull "body"
      (demo_session empty_db) = (Return a, s1) ∧
    WebhookAccepted.duplicate a = false ∧
    ∃ a', accept_provider_webhook "d1" "ping" (demo_push "head999") JNull "other" s1 = (Return a', s1) ∧
      WebhookAccepted.duplicate a' = true ∧
      WebhookAccepted.review_run_id a' = WebhookAccepted.review_run_id a.
Proof.
  intros R.
  destruct (accept_provider_webhook "d1" "pull_request" (demo_push "head111") JNull "body"
    (demo_session empty_db)) as [[a|e] s1] eqn:E; [|by vm_compute in E].
  exists a, s1. split; [reflexivity|].
  assert (Hd : WebhookAccepted.duplicate a = false).
  { vm_compute in E. injection E as <- _. reflexivity. }
  split; [exact Hd|]. eexists. split.
  - apply (webhook_redelivery_is_noop (H := demo_runtime) _ _ _ _ _ _ _ _ E Hd); [|reflexivity].
    intros t Ht. exfalso. change (t ∈ ([] : list Task.t)) in Ht. inversion Ht.
  - split; reflexivity.
Defined.




Lemma latest_report_wins_witness :
  let _ := demo_runtime in
  let d := (with_tasks [demo_review "r" "running" "running" (demo_run "head111" 1)])
             .[ slots := [demo_slot "slot" "r" "ready" (Some "c-1") 4] ] in
  ∃ d1 s1, enqueue_review_comment_status "r" "completed" true (demo_session d) = (Return tt, s1) ∧
    outbox (work s1) = [d1] ∧
    find_row "slot" (slots (work s1)) =
      Some (demo_slot "slot" "r" "finalizing" (Some "c-1") 5).
Proof.
  intros R d.
  destruct (latest_report_wins (H := demo_runtime) "r" "completed" true (demo_session d)
    (demo_slot "slot" "r" "ready" (Some "c-1") 4)
    (demo_review "r" "running" "running" (demo_run "head111" 1)) (demo_run "head111" 1))
    as (d1 & s1 & Hrun & [Hout _] & [Hslot _] & _);
    [reflexivity|decide_by_computation|reflexivity|reflexivity|decide_by_computation|reflexivity
    |decide_by_computation|].
  exists d1, s1. split; [exact Hrun|]. split; [exact Hout|]. exact Hslot.
Defined.
