(* ===== verification/PyRegex.v ===== *)
(** * Python regular expressions

    The fragment of [re] the redaction code uses, as a backtracking matcher that
    tries the alternatives in Python's order: character classes, greedy and lazy
    repetition of a class, alternation, one kind of group, two anchors, and negative
    lookaround of one character.
    The patterns it is used with never match the empty string. *)
From Stdlib Require Import Ascii.
From S2P Require Import Prelude PyText.
#[global] Open Scope orch_scope.

Inductive re :=
  | Class (p : ascii → bool)
  | Many (greedy : bool) (least : nat) (p : ascii → bool)
  | Seq (a b : re)
  | Alt (a b : re)
  | Group (a : re)
  | WordBoundary
  | LineStart
  | NotBehind (p : ascii → bool)
  | NotAhead (p : ascii → bool).

(** The text between a position and a later one. *)
Definition consumed (s rest : string) : string :=
  String.substring 0 (String.length s - String.length rest) s.

(** [\w] on the character before or after a position. *)
Definition word_at (c : option ascii) : bool :=
  match c with Some c => is_word c | None => false end.
Definition first_char (s : string) : option ascii :=
  match s with "" => None | String c _ => Some c end.

Section matcher.
Context {A : Type}.
(** What to do with the groups captured, the character before the position
    reached, and the text after it. *)
Abbreviation cont := (list string → option ascii → string → option A).

Fixpoint many (greedy : bool) (p : ascii → bool) (groups : list string) (k : cont)
    (least : nat) (before : option ascii) (s : string) : option A :=
  let stop := match least with O => k groups before s | S _ => None end in
  match s with
  | String c s =>
      if p c then
        let more := many greedy p groups k (pred least) (Some c) s in
        if greedy then match more with Some x => Some x | None => stop end
        else match stop with Some x => Some x | None => more end
      else stop
  | "" => stop
  end.

Fixpoint re_match (r : re) (groups : list string) (before : option ascii) (s : string)
    (k : cont) : option A :=
  match r with
  | Class p =>
      match s with
      | String c s => if p c then k groups (Some c) s else None
      | "" => None
      end
  | Many greedy least p => many greedy p groups k least before s
  | Seq a b => re_match a groups before s (λ groups before s, re_match b groups before s k)
  | Alt a b =>
      match re_match a groups before s k with
      | Some x => Some x
      | None => re_match b groups before s k
      end
  | Group a =>
      re_match a groups before s (λ groups before rest,
        k (groups ++ [consumed s rest]) before rest)
  | WordBoundary =>
      if xorb (word_at before) (word_at (first_char s)) then k groups before s else None
  | LineStart =>
      if match before with None => true | Some c => code c =? 10 end
      then k groups before s else None
  | NotBehind p =>
      match before with
      | Some c => if p c then None else k groups before s
      | None => k groups before s
      end
  | NotAhead p =>
      match s with
      | String c _ => if p c then None else k groups before s
      | "" => k groups before s
      end
  end.
End matcher.

(** A match at one position: its groups and the text after it. *)
Definition match_at (r : re) (before : option ascii) (s : string)
    : option (list string * string) :=
  re_match r [] before s (λ groups _ rest, Some (groups, rest)).

Fixpoint search_from (r : re) (before : option ascii) (s : string) : bool :=
  bool_decide (is_Some (match_at r before s)) ||
  match s with
  | String c s => search_from r (Some c) s
  | "" => false
  end.

(** [pattern.search(s) is not None]. *)
Definition re_search (r : re) (s : string) : bool := search_from r None s.

(** [skip] characters of the text are part of a match already replaced. *)
Fixpoint sub_from (r : re) (f : list string → string) (skip : nat) (before : option ascii)
    (s : string) : string :=
  match s with
  | "" => ""
  | String c s' =>
      match skip with
      | S skip => sub_from r f skip (Some c) s'
      | O =>
          match match_at r before s with
          | Some (groups, rest) =>
              f groups +:+
              sub_from r f (String.length s - String.length rest - 1) (Some c) s'
          | None => String c (sub_from r f 0 (Some c) s')
          end
      end
  end.

(** [pattern.sub(f, s)]. *)
Definition re_sub (r : re) (f : list string → string) (s : string) : string :=
  sub_from r f 0 None s.

(** ** Building patterns *)

Fixpoint literal_by (same : ascii → ascii → bool) (c : ascii) (s : string) : re :=
  match s with
  | "" => Class (same c)
  | String c' s => Seq (Class (same c)) (literal_by same c' s)
  end.

(** The characters of a non-empty literal. *)
Definition literal (s : string) : re :=
  match s with "" => Many true 0 (λ _, false) | String c s => literal_by char_eqb c s end.

(** A literal under [re.IGNORECASE]. *)
Definition literal_ignore_case (s : string) : re :=
  match s with
  | "" => Many true 0 (λ _, false)
  | String c s => literal_by (λ a b, char_eqb (lower_char a) (lower_char b)) c s
  end.

Definition seqs (r : re) (l : list re) : re :=
  match reverse l with
  | [] => r
  | last :: front => Seq r (foldl (λ acc x, Seq x acc) last front)
  end.
Definition alts (r : re) (l : list re) : re := foldl Alt r l.

(** [[A-Za-z0-9]] and some more characters. *)
Definition alphanumeric (c : ascii) : bool :=
  in_range 48 57 c || in_range 65 90 c || in_range 97 122 c.
Definition one_of (chars : string) (c : ascii) : bool :=
  bool_decide (c ∈ String.list_ascii_of_string chars).
(** [.] without and with [re.DOTALL]. *)
Definition any_but_newline (c : ascii) : bool := negb (code c =? 10).
Definition any (c : ascii) : bool := true.
