(* ===== verification/Observability.v ===== *)
(** * Redaction of what is shown and archived

    Model of [redact_value], [is_sensitive_key] and [redact_text] of
    [src/src/review_orchestrator/infrastructure/observability.py], and of
    [_redact_archive_value] of
    [src/src/review_orchestrator/application/session_archive.py]. *)
From Stdlib Require Import Ascii.
From S2P Require Import Prelude PyText Json PyRegex.
#[global] Open Scope Z_scope.
#[global] Open Scope orch_scope.

Definition REDACTED : string := "[redacted]".
Definition REDACTED_STACK_TRACE : string := "[redacted stack trace]".
Definition DEFAULT_OBSERVABILITY_SORT : string := "-created_at".

Definition SENSITIVE_KEY_TERMS : list string :=
  ["access_token"; "api_key"; "authorization"; "client_secret"; "cookie"; "hook";
   "installation"; "password"; "private_key"; "secret"; "set-cookie"; "signature"; "token";
   "x-gitlab-token"; "x-hub-signature-256"].

(** ** The patterns *)

Definition key_name : re := Many true 0 (λ c, in_range 65 90 c || (code c =? 32)).

Definition PRIVATE_KEY_PATTERN : re :=
  seqs (literal "-----BEGIN ")
    [key_name; literal "PRIVATE KEY-----"; Many false 0 any; literal "-----END ";
     key_name; literal "PRIVATE KEY-----"].

Definition base64url : ascii → bool := λ c, alphanumeric c || one_of "_-" c.

Definition JWT_PATTERN : re :=
  seqs WordBoundary
    [literal "eyJ"; Many true 10 base64url; literal "."; Many true 10 base64url; literal ".";
     Many true 10 base64url; WordBoundary].

Definition TOKEN_PATTERN : re :=
  let word : ascii → bool := λ c, alphanumeric c || one_of "_" c in
  seqs WordBoundary
    [alts (seqs (literal "gh") [Class (one_of "pousr"); literal "_"; Many true 20 word])
       [Seq (literal "github_pat_") (Many true 20 word);
        Seq (literal "glpat-") (Many true 20 base64url);
        Seq (literal "sk-") (Many true 20 base64url);
        seqs (literal "xox") [Class (one_of "baprs"); literal "-";
          Many true 10 (λ c, alphanumeric c || one_of "-" c)]];
     WordBoundary].

Definition AUTH_HEADER_PATTERN : re :=
  seqs WordBoundary
    [Group (alts (literal_ignore_case "Bearer")
              [literal_ignore_case "Basic"; literal_ignore_case "token"]);
     Many true 1 is_space; Many true 8 (λ c, alphanumeric c || one_of "._~+/=-" c)].

Definition quote_mark : string := String "034" "".

Definition STACK_TRACE_PATTERN : re :=
  alts (literal "Traceback (most recent call last):")
    [seqs LineStart [Many true 1 is_space; literal "at ";
       Many true 1 (λ c, is_word c || one_of ".$" c); literal "("; Many true 0 any_but_newline;
       literal ":"; Many true 1 is_digit; literal ")"];
     seqs LineStart [Many true 1 is_space; literal ("File " +:+ quote_mark);
       Many true 1 any_but_newline; literal (quote_mark +:+ ", line "); Many true 1 is_digit]].

(** ** Redaction *)

Definition redact_text (value : string) : string :=
  if re_search STACK_TRACE_PATTERN value then REDACTED_STACK_TRACE
  else
    let redacted := re_sub PRIVATE_KEY_PATTERN (λ _, REDACTED) value in
    let redacted := re_sub JWT_PATTERN (λ _, REDACTED) redacted in
    let redacted := re_sub TOKEN_PATTERN (λ _, REDACTED) redacted in
    re_sub AUTH_HEADER_PATTERN
      (λ groups, match groups with scheme :: _ => scheme | [] => "" end +:+ " " +:+ REDACTED)
      redacted.

Definition is_sensitive_key (key : string) : bool :=
  let lowered := py_replace_char "_" "-" (py_lower key) in
  let compact := py_replace_char "-" "_" lowered in
  existsb (λ term, py_contains term lowered || py_contains term compact) SENSITIVE_KEY_TERMS.

Fixpoint redact_value (value : json) : json :=
  match value with
  | JObj fields =>
      JObj (map (λ '(key, item),
        (key, if is_sensitive_key key then JStr REDACTED else redact_value item)) fields)
  | JList items => JList (map redact_value items)
  | JStr s => JStr (redact_text s)
  | JNull | JBool _ | JInt _ => value
  end.

(** [isinstance(item, (bool, int, float))]. *)
Definition is_number (value : json) : bool :=
  match value with JBool _ | JInt _ => true | _ => false end.

(** Counters keep their value under a key that looks sensitive. *)
Fixpoint _redact_archive_value (value : json) : json :=
  match value with
  | JObj fields =>
      JObj (map (λ '(key, item),
        (key, if is_sensitive_key key && negb (is_number item)
              then match jget (redact_value (JObj [(key, item)])) key with
                   | Some redacted => redacted
                   | None => JNull
                   end
              else _redact_archive_value item)) fields)
  | JList items => JList (map _redact_archive_value items)
  | JStr s => JStr (redact_text s)
  | JNull | JBool _ | JInt _ => value
  end.
