(* ===== verification/PiAgent.v ===== *)
(** * The agent runtime

    Model of [src/src/review_orchestrator/integrations/pi_agent.py]: the session
    record, the presets and inputs, and the client, whose calls are requests to a
    service reached over HTTP.  The service, the HTTP library and the validation
    library are the class [PiAgentRuntime]. *)
From S2P Require Import Prelude PyText Json World Models Delivery.
#[global] Open Scope Z_scope.
#[global] Open Scope orch_scope.

Inductive PiAgentSessionStatus :=
  | starting | preparing | running | waiting_for_input | validating_result
  | completed | failed | cancelled.
#[export] Instance PiAgentSessionStatus_eq_dec : EqDecision PiAgentSessionStatus.
Proof. solve_decision. Defined.

Definition runtime_status_str (s : PiAgentSessionStatus) : string :=
  match s with
  | starting => "starting" | preparing => "preparing" | running => "running"
  | waiting_for_input => "waiting_for_input" | validating_result => "validating_result"
  | completed => "completed" | failed => "failed" | cancelled => "cancelled"
  end.

Module PiAgentSession.
Record t := mk {
  id : string;
  agent_id : option string;
  agent_version : option string;
  status : PiAgentSessionStatus;
  stage : string;
  provider : option string;
  model : option string;
  thinking_level : option string;
  skills : list string;
  profile : option string;
  tools : list string;
  execution_limits : list (string * json);
  execution_counters : list (string * json);
  resolved_preset : option json;
  execution_environment : option json;
  result : option json;
  session_archive : option json;
  error : option string;
  session_file : option string;
  events : list json
}.
End PiAgentSession.

Module AgentDomainPreset.
Record t := mk {
  agent_id : string;
  task_type : string;
  repository_skills : list string
}.
End AgentDomainPreset.

Module ReviewSkillInput.
Record t := mk {
  provider : string;
  repo_full_name : string;
  pr_number : Z;
  base_sha : string;
  head_sha : string;
  workspace_path : string;
  review_mode : string
}.

Definition model_dump (i : t) : json :=
  JObj [("provider", JStr (provider i)); ("repo_full_name", JStr (repo_full_name i));
        ("pr_number", JInt (pr_number i)); ("base_sha", JStr (base_sha i));
        ("head_sha", JStr (head_sha i)); ("workspace_path", JStr (workspace_path i));
        ("review_mode", JStr (review_mode i))].
End ReviewSkillInput.

(** [min_length <= len(s) <= max_length]. *)
Definition length_within (least most : Z) (s : string) : bool :=
  (least <=? Z.of_nat (String.length s)) && (Z.of_nat (String.length s) <=? most).

(** The constructor of [ReviewSkillInput], which validates its fields. *)
Definition review_skill_input (provider repo_full_name : string) (pr_number : Z)
    (base_sha head_sha workspace_path : string) : outcome ReviewSkillInput.t :=
  if length_within 1 64 provider && length_within 1 512 repo_full_name && (0 <? pr_number)
     && length_within 7 80 base_sha && length_within 7 80 head_sha
     && negb (bool_decide (workspace_path = ""))
  then Return (ReviewSkillInput.mk provider repo_full_name pr_number base_sha head_sha
                 workspace_path "pull_request_review")
  else Raise (ValueError "validation error for ReviewSkillInput").

Module AgentInstructionHistoryItem.
Record t := mk {
  author_login : string;
  command : string;
  answer : string;
  outcome : string;
  head_sha : string
}.

Definition model_dump (i : t) : json :=
  JObj [("author_login", JStr (author_login i)); ("command", JStr (command i));
        ("answer", JStr (answer i)); ("outcome", JStr (outcome i));
        ("head_sha", JStr (head_sha i))].
End AgentInstructionHistoryItem.

Module AgentInstructionInput.
Record t := mk {
  idempotency_key : string;
  workspace_path : string;
  repository_context : json;
  pr_number : Z;
  text : string;
  author_login : string;
  source_url : option string;
  agent_task_id : option string;
  history : list AgentInstructionHistoryItem.t
}.
End AgentInstructionInput.

(** The constructors of [AgentInstructionRepositoryContext],
    [AgentInstructionOrchestrationContext] and [AgentInstructionInput], which validate their
    fields. *)
Definition agent_instruction_input (idempotency_key workspace_path provider repo_full_name : string)
    (pr_number : Z) (base_sha : option string) (head_sha text author_login : string)
    (source_url : option string) (agent_task_id : string)
    (history : list AgentInstructionHistoryItem.t) : outcome AgentInstructionInput.t :=
  match base_sha with
  | Some base_sha =>
      if (0 <? pr_number) && length_within 1 256 idempotency_key
         && negb (bool_decide (workspace_path = "")) && length_within 1 8000 text
         && length_within 1 255 author_login && length_within 1 36 agent_task_id
         && (length history <=? 6)%nat
      then Return (AgentInstructionInput.mk idempotency_key workspace_path
             (JObj [("provider", JStr provider); ("repo_full_name", JStr repo_full_name);
                    ("pr_number", JInt pr_number); ("base_sha", JStr base_sha);
                    ("head_sha", JStr head_sha)])
             pr_number text author_login source_url (Some agent_task_id) history)
      else Raise (ValueError "validation error for AgentInstructionInput")
  | None => Raise (ValueError "validation error for AgentInstructionRepositoryContext")
  end.

Module AgentTaskReference.
Record t := mk { path : string; line_start : option Z; line_end : option Z }.

Definition model_dump (r : t) : json :=
  let line (n : option Z) : json := match n with Some n => JInt n | None => JNull end in
  JObj [("path", JStr (path r)); ("line_start", line (line_start r));
        ("line_end", line (line_end r))].
End AgentTaskReference.

Module AgentTaskResult.
Record t := mk {
  outcome : string;
  answer : string;
  references : list AgentTaskReference.t
}.

Definition model_dump (r : t) : json :=
  JObj [("outcome", JStr (outcome r)); ("answer", JStr (answer r));
        ("references", JList (map AgentTaskReference.model_dump (references r)))].
End AgentTaskResult.

(** [AgentTaskResult.model_validate], by the validation library. *)
Class TaskResultSchema := {
  validate_task_result : option json → outcome AgentTaskResult.t
}.

Class PiAgentRuntime := {
  http_send : Session → string → string → option json → http_reply;
  response_json : string → option json;
  validate_session : json → outcome PiAgentSession.t
}.

(** [PiAgentClientError.infrastructure_failure]. *)
Definition infrastructure_failure (status_code : option Z) : bool :=
  match status_code with None => true | Some c => 500 <=? c end.

Definition client_error (message : string) (status_code : option Z) : exn :=
  PiAgentClientError message (infrastructure_failure status_code).

Section client.
Context `{PiAgentRuntime}.

Definition _request (method path : string) (payload : option json) : SM json :=
  reply ← gets (λ s, http_send s method path payload);
  match reply with
  | HTTPStatusError code text =>
      raise (client_error ("pi-agent runtime request failed (" +:+ str_int code +:+ " "
        +:+ method +:+ " " +:+ path +:+ "): " +:+ String.substring 0 500 text) (Some code))
  | RequestError message =>
      raise (client_error ("pi-agent runtime request failed (" +:+ method +:+ " " +:+ path
        +:+ "): " +:+ message) None)
  | HttpReply code content =>
      if (code =? 204) || bool_decide (content = "") then mret (JObj [])
      else
        match response_json content with
        | Some j => mret j
        | None => raise (client_error ("pi-agent runtime returned invalid JSON (" +:+ method
                    +:+ " " +:+ path +:+ ").") (Some code))
        end
  end.

Definition _agent_start_payload (preset : AgentDomainPreset.t) (workspace_path : string)
    (input_data : json) (idempotency_key title : option string) : json :=
  JObj ([("agent_id", JStr (AgentDomainPreset.agent_id preset));
         ("task_type", JStr (AgentDomainPreset.task_type preset));
         ("repository_skills", JList (map JStr (AgentDomainPreset.repository_skills preset)));
         ("workspace_path", JStr workspace_path); ("input", input_data)]
        ++ (match idempotency_key with
            | Some (String c k) => [("idempotency_key", JStr (String c k))]
            | _ => []
            end)
        ++ (match title with Some (String c t) => [("title", JStr (String c t))] | _ => [] end)).

Definition start_agent_session (preset : AgentDomainPreset.t) (workspace_path : string)
    (input_data : json) (idempotency_key title : option string) : SM PiAgentSession.t :=
  response ← _request "POST" "/v1/sessions"
    (Some (_agent_start_payload preset workspace_path input_data idempotency_key title));
  lift (validate_session response).

Definition start_session (review_input : ReviewSkillInput.t) (preset : AgentDomainPreset.t)
    : SM PiAgentSession.t :=
  start_agent_session preset (ReviewSkillInput.workspace_path review_input)
    (ReviewSkillInput.model_dump review_input) None
    (Some ("Review PR #" +:+ str_int (ReviewSkillInput.pr_number review_input) +:+ ": "
           +:+ ReviewSkillInput.repo_full_name review_input)).

Definition instruction_data (i : AgentInstructionInput.t) : json :=
  JObj ([("repository_context", AgentInstructionInput.repository_context i);
         ("instruction", JObj
            ([("text", JStr (AgentInstructionInput.text i));
              ("author_login", JStr (AgentInstructionInput.author_login i));
              ("history", JList (map AgentInstructionHistoryItem.model_dump
                                   (AgentInstructionInput.history i)))]
             ++ match AgentInstructionInput.source_url i with
                | Some (String c u) => [("source_url", JStr (String c u))]
                | _ => []
                end))]
        ++ match AgentInstructionInput.agent_task_id i with
           | Some id => [("orchestration_context", JObj [("agent_task_id", JStr id)])]
           | None => []
           end).

Definition start_instruction_session (i : AgentInstructionInput.t)
    (preset : AgentDomainPreset.t) : SM PiAgentSession.t :=
  start_agent_session preset (AgentInstructionInput.workspace_path i) (instruction_data i)
    (Some (AgentInstructionInput.idempotency_key i))
    (Some ("PR #" +:+ str_int (AgentInstructionInput.pr_number i) +:+ " command from "
           +:+ AgentInstructionInput.author_login i)).

Definition get_session (session_id : string) : SM PiAgentSession.t :=
  response ← _request "GET" ("/v1/sessions/" +:+ session_id) None;
  lift (validate_session response).

Definition cancel_session (session_id : string) : SM PiAgentSession.t :=
  response ← _request "DELETE" ("/v1/sessions/" +:+ session_id) None;
  lift (validate_session response).
End client.
