(* ===== verification/SessionArchives.v ===== *)
(** * The permanent archive of agent sessions

    Model of [src/src/review_orchestrator/application/session_archive.py].  The
    workspace directory and the git processes are the class [GitWorkspace]: a
    process that cannot be started or times out has no output.  Bytes are strings;
    decoding them is left to the class, since text beyond code point 255 is not
    modelled. *)
From Stdlib Require Import Ascii.
From S2P Require Import Prelude PyText Json Models Delivery PyRegex Observability PiAgent.
#[global] Open Scope Z_scope.
#[global] Open Scope orch_scope.

Definition MAX_WORKSPACE_DIFF_BYTES : Z := 500000.

Definition bytes_length (s : string) : Z := Z.of_nat (String.length s).

(** [content[:n]]. *)
Fixpoint take_bytes (n : Z) (s : string) : string :=
  match s with
  | "" => ""
  | String c s => if n <=? 0 then "" else String c (take_bytes (n - 1) s)
  end.

Class GitWorkspace := {
  is_work_tree : string → bool;
  git_diff : string → option string;
  git_untracked : string → option string;
  git_diff_untracked : string → string → option string;
  decode_bytes : string → string
}.

Section diff.
Context `{GitWorkspace}.

(** The loop over the untracked files. *)
Fixpoint untracked_diffs (workspace : string) (limit : Z) (content : string) (truncated : bool)
    (paths : list string) : string * bool :=
  match paths with
  | [] => (content, truncated)
  | "" :: paths => untracked_diffs workspace limit content truncated paths
  | path :: paths =>
      if limit <=? bytes_length content then (content, true)
      else
        match git_diff_untracked workspace path with
        | None => untracked_diffs workspace limit content truncated paths
        | Some output =>
            let remaining := limit - bytes_length content in
            untracked_diffs workspace limit (content +:+ take_bytes remaining output)
              (truncated || (remaining <? bytes_length output)) paths
        end
  end.

Definition _capture_untracked_diffs (workspace : string) (limit : Z) : string * bool :=
  match git_untracked workspace with
  | None => ("", false)
  | Some listed => untracked_diffs workspace limit "" false (py_split "000" listed)
  end.

(** The bytes captured, before they are decoded. *)
Definition captured_diff (workspace : string) : option (string * bool) :=
  if negb (is_work_tree workspace) then None
  else
    match git_diff workspace with
    | None => None
    | Some content =>
        let remaining :=
          MAX_WORKSPACE_DIFF_BYTES - Z.min (bytes_length content) MAX_WORKSPACE_DIFF_BYTES in
        let untracked :=
          if 0 <? remaining then _capture_untracked_diffs workspace remaining else ("", false) in
        let content := content +:+ untracked.1 in
        let truncated := (MAX_WORKSPACE_DIFF_BYTES <? bytes_length content) || untracked.2 in
        Some (if truncated then take_bytes MAX_WORKSPACE_DIFF_BYTES content else content, truncated)
    end.

Definition _capture_workspace_diff (workspace_path : string) : option string * bool :=
  match captured_diff workspace_path with
  | None => (None, false)
  | Some (content, truncated) => (Some (decode_bytes content), truncated)
  end.

Definition _workspace_diff (workspace_path : option string) : option string * bool :=
  match workspace_path with
  | Some (String c p) => _capture_workspace_diff (String c p)
  | _ => (None, false)
  end.
End diff.

(** [getattr(task, "workspace_path", None)]. *)
Definition workspace_path_of (task : Task.t) : option string :=
  match Task.sub task with
  | Task.Review r => ReviewRun.workspace_path r
  | Task.Agent a => AgentTask.workspace_path a
  | Task.Plain => None
  end.

Definition _runtime_status (runtime : PiAgentSession.t) : string :=
  runtime_status_str (PiAgentSession.status runtime).

Definition option_str (o : option string) : json :=
  match o with Some s => JStr s | None => JNull end.
Definition option_value (o : option json) : json := default JNull o.

Definition _task_metadata (task : Task.t) (runtime : PiAgentSession.t) : json :=
  JObj ([("task", JObj
            [("id", JStr (Task.id task)); ("kind", JStr (Task.kind task));
             ("capability_id", JStr (Task.capability_id task)); ("status", JStr (Task.status task));
             ("stage", option_str (Task.stage task));
             ("execution_status", JStr (Task.execution_status task));
             ("delivery_status", JStr (Task.delivery_status task)); ("queue", JStr (Task.queue task));
             ("priority", JInt (Task.priority task));
             ("resource_class", JStr (Task.resource_class task));
             ("resource_context",
                match Task.resource_context_json task with Some c => JObj c | None => JNull end);
             ("resolved_preset", option_value (Task.resolved_preset_json task))]);
         ("runtime", JObj
            [("agent_run_id", JStr (PiAgentSession.id runtime));
             ("agent_id", option_str (PiAgentSession.agent_id runtime));
             ("agent_version", option_str (PiAgentSession.agent_version runtime));
             ("provider", option_str (PiAgentSession.provider runtime));
             ("model", option_str (PiAgentSession.model runtime));
             ("thinking_level", option_str (PiAgentSession.thinking_level runtime));
             ("skills", JList (map JStr (PiAgentSession.skills runtime)));
             ("tools", JList (map JStr (PiAgentSession.tools runtime)));
             ("execution_limits", JObj (PiAgentSession.execution_limits runtime));
             ("execution_counters", JObj (PiAgentSession.execution_counters runtime));
             ("execution_environment", option_value (PiAgentSession.execution_environment runtime));
             ("resolved_preset", option_value (PiAgentSession.resolved_preset runtime))])]
        ++ match Task.sub task with
           | Task.Review r =>
               [("subject", JObj
                   [("provider", JStr (ReviewRun.provider r));
                    ("repository", JStr (ReviewRun.repo_full_name r));
                    ("pull_request_number", JInt (ReviewRun.pull_request_number r));
                    ("base_sha", option_str (ReviewRun.base_sha r));
                    ("head_sha", JStr (ReviewRun.head_sha r))])]
           | Task.Agent a =>
               [("subject", JObj
                   [("provider", JStr (AgentTask.provider a));
                    ("repository", JStr (AgentTask.repo_full_name a));
                    ("pull_request_number", JInt (AgentTask.pull_request_number a));
                    ("head_sha", option_str (AgentTask.head_sha a));
                    ("source_comment_id", option_str (AgentTask.source_comment_id a));
                    ("source_author_login", option_str (AgentTask.source_author_login a));
                    ("command_text", option_str (AgentTask.command_text a))])]
           | Task.Plain => []
           end).

(** [runtime_session.session_archive or {...}]. *)
Definition live_archive (runtime : PiAgentSession.t) : json :=
  JObj [("session_id", JStr (PiAgentSession.id runtime));
        ("status", JStr (_runtime_status runtime)); ("stage", JStr (PiAgentSession.stage runtime));
        ("events", JList (PiAgentSession.events runtime));
        ("result", option_value (PiAgentSession.result runtime));
        ("session_file", option_str (PiAgentSession.session_file runtime))].

Definition raw_archive (runtime : PiAgentSession.t) : json :=
  match PiAgentSession.session_archive runtime with
  | Some archive => if json_truthy archive then archive else live_archive runtime
  | None => live_archive runtime
  end.

Definition archive_stats (runtime : PiAgentSession.t) : option json :=
  match jget (default (JObj []) (PiAgentSession.session_archive runtime)) "stats" with
  | Some (JObj stats) => Some (JObj stats)
  | _ => None
  end.

Definition ended_statuses : list string := ["completed"; "failed"; "cancelled"].

Section archive.
Context `{Runtime} `{GitWorkspace}.

(** The assignments of [_get_or_create_attempt] to a found or new attempt. *)
Definition record_attempt (task : Task.t) (runtime : PiAgentSession.t) (now : Z)
    (a : TaskAttempt.t) : TaskAttempt.t :=
  let runtime_status := _runtime_status runtime in
  let a := a .[ TaskAttempt.status := runtime_status ]
             .[ TaskAttempt.stage := Some (PiAgentSession.stage runtime) ]
             .[ TaskAttempt.agent_run_id := Some (PiAgentSession.id runtime) ]
             .[ TaskAttempt.workspace_path := workspace_path_of task ]
             .[ TaskAttempt.resolved_preset_json := Task.resolved_preset_json task ] in
  let a := match archive_stats runtime with
           | Some stats => a .[ TaskAttempt.usage_json := Some (_redact_archive_value stats) ]
           | None => a
           end in
  if bool_decide (runtime_status ∈ ended_statuses) then
    a .[ TaskAttempt.completed_at := Some now ]
      .[ TaskAttempt.error_message := PiAgentSession.error runtime ]
      .[ TaskAttempt.failure_category :=
           if bool_decide (runtime_status = "completed") then None else Some "agent_failure" ]
  else a.

Definition attempt_of (task_id agent_run_id : string) (a : TaskAttempt.t) : bool :=
  bool_decide (TaskAttempt.task_id a = task_id)
  && bool_decide (TaskAttempt.agent_run_id a = Some agent_run_id).

(** [coalesce(max(attempt_no), 0)]. *)
Definition last_attempt_no (task_id : string) (l : list TaskAttempt.t) : Z :=
  match TaskAttempt.attempt_no <$> filter (λ a, TaskAttempt.task_id a = task_id) l with
  | [] => 0
  | n :: ns => foldl Z.max n ns
  end.

Definition _get_or_create_attempt (task_id : string) (runtime : PiAgentSession.t) : SM string :=
  task ← load (R := Task.t) task_id;
  l ← select (attempt_of task_id (PiAgentSession.id runtime));
  found ← scalar_one_or_none l;
  attempt_no ← gets (λ s, last_attempt_no task_id (attempts (work s)) + 1);
  now ← (if bool_decide (_runtime_status runtime ∈ ended_statuses) then utc_now else mret 0);
  match found with
  | Some attempt =>
      modify (TaskAttempt.id attempt) (record_attempt task runtime now) ;;
      mret (TaskAttempt.id attempt)
  | None =>
      id ← uuid4;
      started_at ← utc_now;
      insert (record_attempt task runtime now
        (TaskAttempt.mk id task_id attempt_no "running" None (Some (PiAgentSession.id runtime)) None
           (workspace_path_of task) (Task.resolved_preset_json task) None None None started_at
           None)) ;;
      mret id
  end.

(** The assignments of [archive_agent_session] to a found or new archive. *)
Definition record_archive (task : Task.t) (runtime : PiAgentSession.t) (attempt_id : string)
    (now : Z) (a : SessionArchive.t) : SessionArchive.t :=
  let diff := _workspace_diff (workspace_path_of task) in
  a .[ SessionArchive.task_attempt_id := Some attempt_id ]
    .[ SessionArchive.session_json := _redact_archive_value (raw_archive runtime) ]
    .[ SessionArchive.task_metadata_json := _redact_archive_value (_task_metadata task runtime) ]
    .[ SessionArchive.workspace_diff := redact_text <$> diff.1 ]
    .[ SessionArchive.workspace_diff_truncated := diff.2 ]
    .[ SessionArchive.redaction_version := "1" ]
    .[ SessionArchive.updated_at := now ].

Definition archive_of (task_id agent_run_id : string) (a : SessionArchive.t) : bool :=
  bool_decide (SessionArchive.task_id a = task_id)
  && bool_decide (SessionArchive.agent_run_id a = agent_run_id).

Definition archive_agent_session (task_id : string) (runtime : PiAgentSession.t) : SM string :=
  attempt_id ← _get_or_create_attempt task_id runtime;
  task ← load (R := Task.t) task_id;
  l ← select (archive_of task_id (PiAgentSession.id runtime));
  found ← scalar_one_or_none l;
  now ← utc_now;
  match found with
  | Some archived =>
      modify (SessionArchive.id archived) (record_archive task runtime attempt_id now) ;;
      mret (SessionArchive.id archived)
  | None =>
      id ← uuid4;
      created_at ← utc_now;
      insert (record_archive task runtime attempt_id now
        (SessionArchive.mk id task_id (Some attempt_id) (PiAgentSession.id runtime) (JObj [])
           (JObj []) None false "1" created_at now)) ;;
      mret id
  end.
End archive.
