(* ===== verification/AgentSessions.v ===== *)
(** * Agent sessions of runs and command tasks

    Model of the use cases of [src/src/review_orchestrator/application/services.py]
    that talk to the agent runtime: starting, synchronising and cancelling the
    session of a review run, collecting its result, and cancelling a command
    task. *)
From S2P Require Import Prelude PyText Json Models SchedulerAdmin Delivery ReviewResults Reconciliation ReviewRuns PiAgent SessionArchives.
#[global] Open Scope Z_scope.
#[global] Open Scope orch_scope.

(** The settings the use cases read. *)
Module AgentSettings.
Record t := mk {
  pi_agent_review_agent : string;
  pi_agent_review_skill : string;
  agent_command_agent : string;
  agent_command_skill : string
}.
End AgentSettings.

(** [except PiAgentClientError as exc]. *)
Definition except_client_error {A} (m : SM A) (h : string → bool → SM A) : SM A :=
  try_except m (λ e,
    match e with
    | PiAgentClientError message infrastructure => h message infrastructure
    | _ => raise e
    end).

(** [try: m except PiAgentClientError ... else: ...], the outcome of [m] being
    returned. *)
Definition attempt_client {A} (m : SM A) : SM (A + string * bool) :=
  except_client_error (a ← m; mret (inl a))
    (λ message infrastructure, mret (inr (message, infrastructure))).

Definition failure_code_of (infrastructure : bool) : string :=
  if infrastructure then "pi_agent_infrastructure_error" else "pi_agent_error".

Definition _copy_pi_agent_state (runtime : PiAgentSession.t) (r : ReviewRun.t) : ReviewRun.t :=
  r .[ ReviewRun.agent_session_id := Some (PiAgentSession.id runtime) ]
    .[ ReviewRun.agent_status := Some (runtime_status_str (PiAgentSession.status runtime)) ]
    .[ ReviewRun.agent_provider := PiAgentSession.provider runtime ]
    .[ ReviewRun.agent_model := PiAgentSession.model runtime ]
    .[ ReviewRun.agent_thinking_level := PiAgentSession.thinking_level runtime ].

Definition _runtime_profile (runtime : PiAgentSession.t) : option string :=
  let task_type :=
    preset ← PiAgentSession.resolved_preset runtime;
    composition ← jget preset "composition";
    jget composition "task_type" in
  match task_type with
  | Some (JObj fields) =>
      match fget fields "profile" with
      | Some (JStr profile) => Some profile
      | _ => PiAgentSession.profile runtime
      end
  | _ => PiAgentSession.profile runtime
  end.

(** The preset recorded before the runtime has resolved it. *)
Definition requested_preset (preset : AgentDomainPreset.t) : json :=
  JObj [("schema_version", JStr "1");
        ("composition", JObj
           [("agent", JObj [("id", JStr (AgentDomainPreset.agent_id preset))]);
            ("repository", JObj
               [("skills", JList (map JStr (AgentDomainPreset.repository_skills preset)))]);
            ("task_type", JObj [("id", JStr (AgentDomainPreset.task_type preset))])])].

Section agent_sessions.
Context `{Runtime} `{PiAgentRuntime} `{GitWorkspace}.

Definition get_or_create_review_config (provider repo_full_name default_skill : string)
    (default_command_skill : string) : SM ReviewConfig.t :=
  l ← select (λ c, bool_decide (ReviewConfig.provider c = provider)
                   && bool_decide (ReviewConfig.repo_full_name c = repo_full_name));
  found ← scalar_one_or_none l;
  match found with
  | Some config => mret config
  | None =>
      id ← uuid4;
      let config :=
        ReviewConfig.mk id provider repo_full_name false default_skill true default_command_skill in
      insert config ;;
      commit ;;
      load (R := ReviewConfig.t) id
  end.

(** ** Starting *)

(** The checks of [start_review_session] before anything is changed: the
    workspace path and the base the session is started with. *)
Definition start_preconditions (run_id : string) (workspace_path : option string)
    : SM (string * string) :=
  tr ← load_run run_id;
  when (bool_decide (Task.status tr.1 ∈ ["cancelled"; "superseded"; "completed"]))
    (raise (ReviewRunTransitionError ("Review run " +:+ run_id +:+ " cannot be started from "
       +:+ Task.status tr.1 +:+ ".") 409)) ;;
  comment_slot ← slot_of_run run_id;
  when (match comment_slot with
        | None => true
        | Some slot => negb (bool_decide (ReviewCommentSlot.status slot = "ready"))
                       || negb (truthy (ReviewCommentSlot.provider_comment_id slot))
        end)
    (raise (ReviewRunTransitionError
       "Review placeholder must be delivered before Agent execution." 409)) ;;
  match or_none workspace_path, or_none (ReviewRun.workspace_path tr.2) with
  | None, None =>
      raise (ReviewRunTransitionError "workspace_path is required to start review." 409)
  | Some path, _ | None, Some path =>
      match or_none (ReviewRun.base_sha tr.2) with
      | None => raise (ReviewRunTransitionError "base_sha is required to start review." 409)
      | Some base_sha => mret (path, base_sha)
      end
  end.

(** The run is failed because the runtime could not start its session. *)
Definition start_failed (run_id message : string) (infrastructure : bool) : SM string :=
  now ← utc_now;
  modify run_id (λ t, set_review (λ r,
      r .[ ReviewRun.failure_code := Some (failure_code_of infrastructure) ]
        .[ ReviewRun.error := Some message ])
    (t .[ Task.status := "failed" ] .[ Task.completed_at := Some now ])) ;;
  commit ;;
  mret run_id.

(** The assignments to a run whose session has started. *)
Definition mark_started (workspace_path : string) (runtime : PiAgentSession.t) (now : Z)
    (t : Task.t) : Task.t :=
  let t := t .[ Task.status := "running" ] .[ Task.started_at := Some now ]
             .[ Task.completed_at := None ] in
  let t := match PiAgentSession.resolved_preset runtime with
           | Some preset => t .[ Task.resolved_preset_json := Some preset ]
           | None => t
           end in
  set_review (λ r,
    let r := _copy_pi_agent_state runtime (r .[ ReviewRun.workspace_path := Some workspace_path ]) in
    let r := match PiAgentSession.result runtime with
             | Some result => r .[ ReviewRun.result_raw_json := Some result ]
             | None => r
             end in
    r .[ ReviewRun.failure_code := None ] .[ ReviewRun.error := None ]) t.

(** The assignments to the session row of a run that has started. *)
Definition record_session (runtime : PiAgentSession.t) (skill : string)
    (review_input : ReviewSkillInput.t) (x : ReviewSession.t) : ReviewSession.t :=
  x .[ ReviewSession.agent_session_id := Some (PiAgentSession.id runtime) ]
    .[ ReviewSession.status := runtime_status_str (PiAgentSession.status runtime) ]
    .[ ReviewSession.skill_name := Some skill ]
    .[ ReviewSession.profile_name := _runtime_profile runtime ]
    .[ ReviewSession.input_snapshot_json := Some (ReviewSkillInput.model_dump review_input) ].

Definition start_review_session (run_id : string) (settings : AgentSettings.t)
    (workspace_path : option string) : SM string :=
  checked ← start_preconditions run_id workspace_path;
  tr ← load_run run_id;
  let run := tr.2 in
  review_input ← lift (review_skill_input (ReviewRun.provider run) (ReviewRun.repo_full_name run)
    (ReviewRun.pull_request_number run) checked.2 (ReviewRun.head_sha run) checked.1);
  review_config ← get_or_create_review_config (ReviewRun.provider run)
    (ReviewRun.repo_full_name run) (AgentSettings.pi_agent_review_skill settings) "pr-assistant";
  let skill := ReviewConfig.default_review_skill review_config in
  let preset :=
    AgentDomainPreset.mk (AgentSettings.pi_agent_review_agent settings) "code-review" [skill] in
  modify run_id (λ t, t .[ Task.resolved_preset_json := Some (requested_preset preset) ]) ;;
  started ← attempt_client (start_session review_input preset);
  match started with
  | inr (message, infrastructure) => start_failed run_id message infrastructure
  | inl runtime =>
      now ← utc_now;
      modify run_id (mark_started checked.1 runtime now) ;;
      found ← _review_session_for_run run_id;
      (match found with
       | Some id => modify id (record_session runtime skill review_input)
       | None =>
           id ← uuid4;
           insert (record_session runtime skill review_input
             (ReviewSession.mk id run_id None "pending" None None None None None))
       end) ;;
      _ ← archive_agent_session run_id runtime;
      commit ;;
      mret run_id
  end.

(** ** Synchronising *)

(** The assignments of a synchronisation to the run. *)
Definition mark_synced (runtime : PiAgentSession.t) (t : Task.t) : Task.t :=
  set_review (λ r,
    let r := _copy_pi_agent_state runtime r in
    match PiAgentSession.result runtime with
    | Some result => r .[ ReviewRun.result_raw_json := Some result ]
    | None => r
    end) t.

Definition sync_session_row (runtime : PiAgentSession.t) (x : ReviewSession.t) : ReviewSession.t :=
  let x := x .[ ReviewSession.status := runtime_status_str (PiAgentSession.status runtime) ]
             .[ ReviewSession.error_message := PiAgentSession.error runtime ] in
  match PiAgentSession.result runtime with
  | Some _ => x .[ ReviewSession.result_ref :=
                     Some ("pi-agent:" +:+ PiAgentSession.id runtime +:+ ":result") ]
  | None => x
  end.

(** The state of the run after a session that has not failed. *)
Definition mark_progress (runtime : PiAgentSession.t) (now : Z) (t : Task.t) : Task.t :=
  if bool_decide (PiAgentSession.status runtime = cancelled) then
    t .[ Task.status := "cancelled" ] .[ Task.stage := Some "cancelled" ]
      .[ Task.completed_at := Some now ]
  else if bool_decide (PiAgentSession.status runtime = completed) then
    t .[ Task.status := "running" ] .[ Task.stage := Some "agent_completed" ]
  else t .[ Task.status := "running" ] .[ Task.stage := Some (PiAgentSession.stage runtime) ].

Definition sync_review_session (run_id : string) : SM string :=
  tr ← load_run run_id;
  if bool_decide (Task.status tr.1 ∈ ["cancelled"; "superseded"; "completed"; "failed"])
  then mret run_id
  else
    match or_none (ReviewRun.agent_session_id tr.2) with
    | None =>
        _mark_failed run_id "pi-agent session id is missing." "pi_agent_error" ;; mret run_id
    | Some session_id =>
        reply ← attempt_client (get_session session_id);
        match reply with
        | inr (message, infrastructure) =>
            _mark_failed run_id message (failure_code_of infrastructure) ;; mret run_id
        | inl runtime =>
            modify run_id (mark_synced runtime) ;;
            review_session ← _review_session_for_run run_id;
            with_session review_session (sync_session_row runtime) ;;
            (if bool_decide (PiAgentSession.status runtime = failed) then
               _mark_failed run_id
                 (or_else (PiAgentSession.error runtime) "pi-agent review failed.")
                 "pi_agent_error"
             else
               now ← (if bool_decide (PiAgentSession.status runtime = cancelled)
                      then utc_now else mret 0);
               modify run_id (mark_progress runtime now)) ;;
            _ ← archive_agent_session run_id runtime;
            commit ;;
            mret run_id
        end
    end.

(** ** Cancelling *)

Definition set_error (message : string) : Task.t → Task.t :=
  set_review (λ r, r .[ ReviewRun.error := Some message ]).

Definition cancel_review_session (run_id reason : string) : SM string :=
  tr ← load_run run_id;
  if bool_decide (Task.status tr.1 ∈ ["completed"; "cancelled"; "superseded"]) then mret run_id
  else
    (match or_none (ReviewRun.agent_session_id tr.2) with
     | None => modify run_id (set_error reason)
     | Some session_id =>
         reply ← attempt_client (cancel_session session_id);
         match reply with
         | inr (message, _) =>
             modify run_id
               (set_error ("Cancel requested; pi-agent cleanup failed: " +:+ message))
         | inl runtime =>
             modify run_id (λ t, set_error reason (set_review (_copy_pi_agent_state runtime) t)) ;;
             _ ← archive_agent_session run_id runtime;
             mret tt
         end
     end) ;;
    now ← utc_now;
    modify run_id (λ t, t .[ Task.status := "cancelled" ] .[ Task.stage := Some "cancelled" ]
                          .[ Task.completed_at := Some now ]) ;;
    tr ← load_run run_id;
    review_session ← _review_session_for_run run_id;
    with_session review_session (λ x, x .[ ReviewSession.status := "cancelled" ]
      .[ ReviewSession.error_message := ReviewRun.error tr.2 ]) ;;
    commit ;;
    mret run_id.

(** ** Collecting *)

Context `{ResultSchema}.

(** The assignments to a run whose result was accepted. *)
Definition mark_collected (parsed : ParsedReviewResult.t) (now : Z) (t : Task.t) : Task.t :=
  set_review (λ r,
    r .[ ReviewRun.review_summary := Some (ReviewResult.summary (ParsedReviewResult.result parsed)) ]
      .[ ReviewRun.failure_code := None ] .[ ReviewRun.error := None ])
    (t .[ Task.status := "completed" ] .[ Task.stage := Some "completed" ]
       .[ Task.completed_at := Some now ]).

Definition collect_review_result (run_id : string) (raw_output : string + list (string * json))
    (changed_files : option (list ChangedFile.t)) : SM ParsedReviewResult.t :=
  tr ← load_run run_id;
  let run := tr.2 in
  match or_none (ReviewRun.base_sha run) with
  | None => raise (ReviewRunTransitionError "base_sha is required to collect review result." 409)
  | Some base_sha =>
      match parse_review_result raw_output changed_files (ReviewRun.provider run)
              (ReviewRun.repo_full_name run) (ReviewRun.pull_request_number run) base_sha
              (ReviewRun.head_sha run) with
      | inl (code, message) =>
          modify run_id (λ t, set_review (λ r,
              r .[ ReviewRun.failure_code := Some "invalid_result" ]
                .[ ReviewRun.error := Some (error_code_str code +:+ ": " +:+ message) ])
            (t .[ Task.status := "failed" ])) ;;
          enqueue_review_comment_status run_id "failed" true ;;
          raise (ReviewResultInvalid (error_code_str code) message)
      | inr parsed =>
          _ ← persist_and_reconcile_findings run_id parsed false;
          now ← utc_now;
          modify run_id (mark_collected parsed now) ;;
          review_session ← _review_session_for_run run_id;
          with_session review_session (λ x, x .[ ReviewSession.status := "completed" ]
            .[ ReviewSession.result_ref := Some ("review-run:" +:+ run_id +:+ ":result") ]
            .[ ReviewSession.error_message := None ]) ;;
          enqueue_review_comment_status run_id "completed" true ;;
          mret parsed
      end
  end.

(** ** Command tasks *)

Context `{ProviderRegistry}.

Definition cancel_agent_task (task_id : string) : SM (option string) :=
  found ← fetch (R := Task.t) task_id;
  match found ≫= (λ t, a ← agent_of t; mret (t, a)) with
  | None => mret None
  | Some (task, agent) =>
      when (negb (bool_decide (AgentTask.task_type agent = "message_command")))
        (raise (ReviewRunTransitionError "Only message-command tasks can be cancelled." 409)) ;;
      when (negb (bool_decide (Task.status task ∈ ["queued"; "running"])))
        (raise (ReviewRunTransitionError
           ("Agent task cannot be cancelled from status " +:+ Task.status task +:+ ".") 409)) ;;
      modify task_id (λ t, t .[ Task.status := "running" ]
                             .[ Task.stage := Some "cancellation_pending" ]) ;;
      commit ;;
      (match or_none (AgentTask.agent_session_id agent) with
       | Some session_id => _ ← attempt_client (cancel_session session_id); mret tt
       | None => mret tt
       end) ;;
      when (negb (has_capability (AgentTask.provider agent) AgentTaskCommentsCapability))
        (raise (ReviewRunTransitionError ("Provider " +:+ AgentTask.provider agent
           +:+ " cannot publish agent task comments.") 503)) ;;
      try_except
        (_ ← publish_agent_task_comment (AgentTask.provider agent) task_id "cancelled"; mret tt)
        (λ e,
          modify task_id (set_agent (λ a,
            a .[ AgentTask.last_publish_error := Some (exn_str e) ])) ;;
          commit ;;
          raise (ReviewRunTransitionError (exn_str e) 503)) ;;
      now ← utc_now;
      modify task_id (λ t, t .[ Task.status := "cancelled" ] .[ Task.stage := Some "cancelled" ]
        .[ Task.completed_at := Some now ] .[ Task.lock_owner := None ]
        .[ Task.locked_until := None ]) ;;
      commit ;;
      mret (Some task_id)
  end.
End agent_sessions.
