(* ===== verification/AgentSessionTheorems.v ===== *)
(** * The agent session of a run

    What the four calls that drive the agent session of a review run do to it:
    they refine a small state machine, and touch no other task. *)
From S2P Require Import Prelude PyText Json Models SchedulerAdmin Demo Delivery ReviewResults Reconciliation ReviewRuns ReviewRunFacts PiAgent SessionArchives AgentSessions.
#[global] Open Scope Z_scope.
#[global] Open Scope orch_scope.

(** ** The calls and the state machine they implement *)

Inductive agent_call :=
  | StartSession (settings : AgentSettings.t) (workspace_path : option string)
  | SyncSession
  | CancelSession (reason : string)
  | CollectResult (raw_output : string + list (string * json))
      (changed_files : option (list ChangedFile.t)).

(** The status of a run and that of its execution. *)
Definition phase (t : Task.t) : string * string := (Task.status t, Task.execution_status t).

(** What a call may do to the phase of its run. *)
Inductive lifecycle : agent_call → string * string → string * string → Prop :=
  | Stay c p : lifecycle c p p
  | Started settings path st st' e :
      st ∉ ["cancelled"; "superseded"; "completed"] → st' ∈ ["running"; "failed"] →
      lifecycle (StartSession settings path) (st, e) (st', e)
  | Synced st st' e :
      st ∉ ["cancelled"; "superseded"; "completed"; "failed"] →
      st' ∈ ["running"; "failed"; "cancelled"] →
      lifecycle SyncSession (st, e) (st', e)
  | Cancelled reason st e :
      st ∉ ["completed"; "cancelled"; "superseded"] →
      lifecycle (CancelSession reason) (st, e) ("cancelled", e)
  | Collected raw files p e :
      e ∈ ["completed"; "failed"] →
      lifecycle (CollectResult raw files) p ("awaiting_delivery", e).

Section calls.
Context `{Runtime} `{PiAgentRuntime} `{GitWorkspace} `{ResultSchema}.

Definition serve_agent (run_id : string) (c : agent_call) : SM () :=
  match c with
  | StartSession settings path => ignore (start_review_session run_id settings path)
  | SyncSession => ignore (sync_review_session run_id)
  | CancelSession reason => ignore (cancel_review_session run_id reason)
  | CollectResult raw files => ignore (collect_review_result run_id raw files)
  end.

(** As [sees_auto], using the facts at hand on the assignments to a row. *)
Ltac calls_auto :=
  repeat first
    [match goal with |- keeps _ (modify _ _) => solve [auto 2] end | sees_step];
  try assumption; eauto 3 with keeps.

(** ** Rows left alone *)

(** Every task but [run_id] is a row of [d0], and the phase of [run_id] is in [R]. *)
Definition confined (run_id : string) (d0 : Db) (R : string * string → Prop) (t : Task.t) : Prop :=
  if decide (Task.id t = run_id) then R (phase t) else t ∈ tasks d0.

Section confined.
Context (run_id : string) (d0 : Db) (R : string * string → Prop).
Abbreviation kept := (everywhere (all_tasks (confined run_id d0 R))).

Lemma confined_modify (f : Task.t → Task.t) Q :
  (∀ t, R (phase t) → Task.id t = run_id → R (phase (f t))) → (∀ t, Task.id (f t) = Task.id t) →
  keeps (tracks (all_tasks (confined run_id d0 R)) Q) (modify run_id f).
Proof.
  intros Hf Hid. apply keeps_modify. intros d Hd.
  eapply all_tasks_update; [| |exact Hd]; unfold confined; intros t.
  - intros HC E. rewrite Hid. rewrite decide_True in * by done. auto.
  - intros HC E. by rewrite decide_False in * by done.
Qed.

(** Assignments to the columns of the run itself keep its phase. *)
Lemma confined_review f Q :
  keeps (tracks (all_tasks (confined run_id d0 R)) Q) (modify run_id (set_review f)).
Proof.
  apply confined_modify; [|intros; apply set_review_id].
  intros t. unfold phase, set_review. by destruct (Task.sub t).
Qed.

Lemma rows_archive C Q session_id runtime :
  keeps (tracks (all_tasks C) Q) (archive_agent_session session_id runtime).
Proof. unfold archive_agent_session, _get_or_create_attempt. sees_auto. Qed.

Lemma rows_slot C Q k : keeps (tracks (all_tasks C) Q) (slot_of_run k).
Proof. unfold slot_of_run. sees_auto. Qed.

Lemma rows_session C Q k : keeps (tracks (all_tasks C) Q) (_review_session_for_run k).
Proof. unfold _review_session_for_run. sees_auto. Qed.

Lemma rows_config C a b c d :
  keeps (everywhere (all_tasks C)) (get_or_create_review_config a b c d).
Proof. unfold get_or_create_review_config. sees_auto. Qed.

Lemma rows_with_session C Q k f : keeps (tracks (all_tasks C) Q) (with_session k f).
Proof. unfold with_session. sees_auto. Qed.

Lemma rows_request C Q a b c : keeps (tracks (all_tasks C) Q) (_request a b c).
Proof. unfold _request. sees_auto. Qed.

Lemma rows_client {A} C Q (m : SM A) :
  keeps (tracks (all_tasks C) Q) m → keeps (tracks (all_tasks C) Q) (attempt_client m).
Proof. intros Hm. unfold attempt_client, except_client_error. sees_auto. Qed.
End confined.
Hint Resolve confined_review rows_archive rows_slot rows_session rows_config rows_with_session
  rows_request rows_client : keeps.

Lemma load_run_known k s t :
  find_row k (tasks (work s)) = Some t →
  load_run k s =
    (match review_of t with Some r => Return (t, r) | None => Raise (TypeError "not a ReviewRun") end, s).
Proof.
  intros Ht. unfold load_run. rewrite bind_run, (Models.load_run _ _ t Ht). by destruct (review_of t).
Qed.

Section from.
Context (run_id : string) (d : Db) (t : Task.t).
Context (Hnd : NoDup (Task.id <$> tasks d)) (Ht : find_row run_id (tasks d) = Some t).

Abbreviation kept R := (everywhere (all_tasks (confined run_id d R))).

Lemma confined_start (R : string * string → Prop) n m : R (phase t) → kept R (open_session d n m).
Proof.
  intros HR. assert (Hd : all_tasks (confined run_id d R) d); [|by split].
  intros t' Ht'. unfold confined. destruct (decide (Task.id t' = run_id)) as [Hid|]; [|exact Ht'].
  apply find_row_Some in Ht as [Hin Hk]. change (Task.id t = run_id) in Hk.
  assert (t' = t) as -> by (eapply (NoDup_key_eq Task.id); [exact Hnd|done|done|congruence]). exact HR.
Qed.

(** A run whose phase is one of [R] is started: only the guards matter. *)
Lemma start_preconditions_run path s :
  find_row run_id (tasks (work s)) = Some t →
  match start_preconditions run_id path s with
  | (Return _, s') => s' = s ∧ Task.status t ∉ ["cancelled"; "superseded"; "completed"]
  | (Raise _, s') => s' = s
  end.
Proof.
  intros Hs. unfold start_preconditions. rewrite bind_run, (load_run_known _ _ t Hs).
  destruct (review_of t) as [run|]; [|done]. cbn [fst snd]. rewrite bind_run.
  case_bool_decide as Hst; [done|]. cbn [when mret M_ret]. rewrite bind_run.
  unfold slot_of_run. rewrite bind_run. cbn [select gets].
  destruct (filter _ _) as [|x [|y l]]; [done| |done]. cbn [scalar_one_or_none mret M_ret].
  rewrite bind_run. destruct (_ || _); [done|]. cbn [when mret M_ret].
  repeat (case_match; unfold mret, M_ret, raise in *; simplify_eq; try done).
Qed.

Lemma phase_to R Q st' (f : Task.t → Task.t) :
  (∀ p, R p → R (st', p.2)) → (∀ x, phase (f x) = (st', (phase x).2)) →
  (∀ x, Task.id (f x) = Task.id x) →
  keeps (tracks (all_tasks (confined run_id d R)) Q) (modify run_id f).
Proof. intros HR Hf Hid. apply confined_modify; [|done]. intros x Hx _. rewrite Hf. by apply HR. Qed.

Lemma phase_same R Q (f : Task.t → Task.t) :
  (∀ x, phase (f x) = phase x) → (∀ x, Task.id (f x) = Task.id x) →
  keeps (tracks (all_tasks (confined run_id d R)) Q) (modify run_id f).
Proof. intros Hf Hid. apply confined_modify; [|done]. intros x Hx _. by rewrite Hf. Qed.

Lemma set_review_phase f x : phase (set_review f x) = phase x.
Proof. unfold set_review. by destruct (Task.sub x). Qed.

Lemma rows_mark_failed R error code :
  (∀ p, R p → R ("failed", p.2)) → keeps (kept R) (_mark_failed run_id error code).
Proof.
  intros HR. unfold _mark_failed. pose proof (phase_to R) as Hto.
  apply keeps_bind; [sees_auto|intros now]. apply keeps_bind.
  { apply (Hto _ "failed"); [done|..]; intros x; by rewrite ?set_review_phase, ?set_review_id. }
  intros _. sees_auto.
Qed.

(** *** Starting *)

Lemma start_follows settings path n m :
  kept (lifecycle (StartSession settings path) (phase t))
    (exec (start_review_session run_id settings path) (open_session d n m)).
Proof.
  set (R := lifecycle _ _). set (s := open_session d n m).
  assert (Hs : kept R s) by (apply confined_start; constructor).
  unfold start_review_session.
  pose proof (start_preconditions_run path s Ht) as Hpre.
  destruct (start_preconditions run_id path s) as [[checked|e] s'] eqn:E;
    [|rewrite (exec_raise_bind _ _ _ _ _ E); by subst s'].
  destruct Hpre as [-> Hst]. rewrite (exec_bind _ _ _ _ _ E). apply keeps_exec; [|exact Hs].
  assert (HR : ∀ st' p, st' ∈ ["running"; "failed"] → R p → R (st', p.2)).
  { intros st' p Hst' Hp. assert (p.2 = (phase t).2) as -> by (unfold R in Hp; by inversion Hp).
    by constructor. }
  assert (Hstart : ∀ i p, keeps (kept R) (attempt_client (start_session i p))).
  { intros. unfold start_session, start_agent_session. apply rows_client. sees_auto. }
  assert (Hto : ∀ path runtime now, keeps (kept R) (modify run_id (mark_started path runtime now))).
  { intros. apply (phase_to _ _ "running"); [by intros p; apply HR, list_elem_of_here|..];
      intros x; unfold mark_started; rewrite ?set_review_phase, ?set_review_id;
      by destruct (PiAgentSession.resolved_preset runtime). }
  assert (Hfail : ∀ message infra, keeps (kept R) (start_failed run_id message infra)).
  { intros. unfold start_failed. apply keeps_bind; [sees_auto|intros now]. apply keeps_bind; [|intros _; sees_auto].
    apply (phase_to _ _ "failed"); [intros p; apply HR; set_solver|..];
      intros x; by rewrite ?set_review_phase, ?set_review_id. }
  assert (Hpreset : ∀ j, keeps (kept R) (modify run_id (λ x, x .[ Task.resolved_preset_json := j ])))
    by (intros; by apply phase_same).
  calls_auto.
Qed.

(** *** Synchronising *)

Lemma sync_follows n m :
  kept (lifecycle SyncSession (phase t)) (exec (sync_review_session run_id) (open_session d n m)).
Proof.
  set (R := lifecycle _ _). set (s := open_session d n m).
  assert (Hs : kept R s) by (apply confined_start; constructor).
  unfold sync_review_session. pose proof (load_run_known run_id s t Ht) as E.
  destruct (review_of t) as [run|]; [|by rewrite (exec_raise_bind _ _ _ _ _ E)].
  rewrite (exec_bind _ _ _ _ _ E). cbn [fst snd]. case_bool_decide as Hst; [done|].
  apply keeps_exec; [|exact Hs].
  assert (HR : ∀ st' p, st' ∈ ["running"; "failed"; "cancelled"] → R p → R (st', p.2)).
  { intros st' p Hst' Hp. assert (p.2 = (phase t).2) as -> by (unfold R in Hp; by inversion Hp).
    constructor; [set_solver|done]. }
  assert (Hget : ∀ i, keeps (kept R) (attempt_client (get_session i))).
  { intros. unfold get_session. apply rows_client. sees_auto. }
  assert (Hfail : ∀ error code, keeps (kept R) (_mark_failed run_id error code)).
  { intros. apply rows_mark_failed. intros p. apply HR. set_solver. }
  assert (Hsync : ∀ runtime, keeps (kept R) (modify run_id (mark_synced runtime)))
    by (intros; apply confined_review).
  assert (Hprogress : ∀ runtime now, keeps (kept R) (modify run_id (mark_progress runtime now))).
  { intros. assert (∃ st', st' ∈ ["running"; "failed"; "cancelled"] ∧
      ∀ x, phase (mark_progress runtime now x) = (st', (phase x).2)) as (st' & Hst' & Hphase).
    { unfold mark_progress. destruct (bool_decide (_ = cancelled)); [exists "cancelled"; set_solver|].
      destruct (bool_decide (_ = completed)); exists "running"; set_solver. }
    apply (phase_to _ _ st'); [intros p; by apply HR|exact Hphase|].
    intros x. unfold mark_progress. by repeat case_bool_decide. }
  calls_auto.
Qed.

(** *** Cancelling *)

Lemma cancel_follows reason n m :
  kept (lifecycle (CancelSession reason) (phase t))
    (exec (cancel_review_session run_id reason) (open_session d n m)).
Proof.
  set (R := lifecycle _ _). set (s := open_session d n m).
  assert (Hs : kept R s) by (apply confined_start; constructor).
  unfold cancel_review_session. pose proof (load_run_known run_id s t Ht) as E.
  destruct (review_of t) as [run|]; [|by rewrite (exec_raise_bind _ _ _ _ _ E)].
  rewrite (exec_bind _ _ _ _ _ E). cbn [fst snd]. case_bool_decide as Hst; [done|].
  apply keeps_exec; [|exact Hs].
  assert (HR : ∀ p, R p → R ("cancelled", p.2)).
  { intros p Hp. assert (p.2 = (phase t).2) as -> by (unfold R in Hp; by inversion Hp).
    by constructor. }
  assert (Hcancel : ∀ i, keeps (kept R) (attempt_client (PiAgent.cancel_session i))).
  { intros. unfold PiAgent.cancel_session. apply rows_client. sees_auto. }
  assert (Herror : ∀ message, keeps (kept R) (modify run_id (set_error message)))
    by (intros; apply confined_review).
  assert (Hcopy : ∀ message runtime, keeps (kept R) (modify run_id
    (λ x, set_error message (set_review (_copy_pi_agent_state runtime) x)))).
  { intros. unfold set_error.
    apply phase_same; intros x; by rewrite ?set_review_phase, ?set_review_id. }
  assert (Hend : ∀ now, keeps (kept R) (modify run_id (λ x,
    x .[ Task.status := "cancelled" ] .[ Task.stage := Some "cancelled" ]
      .[ Task.completed_at := Some now ]))) by (intros; by eapply phase_to).
  calls_auto.
Qed.

(** *** Collecting *)

(** While a result is collected the phase of the run is open. *)
Abbreviation loose Q := (tracks (all_tasks (confined run_id d (λ _, True))) Q).

Lemma rows_store_findings C Q k run previous current parsed stats seen :
  keeps (tracks (all_tasks C) Q) (store_findings k run previous current parsed stats seen).
Proof.
  revert current stats seen. induction parsed as [|p parsed IH]; intros; cbn [store_findings]; unfold new_finding; sees_auto.
Qed.

Lemma rows_resolve_missing C Q k previous seen stats :
  keeps (tracks (all_tasks C) Q) (resolve_missing k previous seen stats).
Proof. revert stats. induction previous as [|f previous IH]; intros; simpl; sees_auto. Qed.

Lemma loose_reconcile Q parsed : keeps (loose Q) (persist_and_reconcile_findings run_id parsed false).
Proof.
  unfold persist_and_reconcile_findings, _previous_active_findings, _current_run_findings. cbn [when].
  pose proof (rows_store_findings (confined run_id d (λ _, True)) Q).
  pose proof (rows_resolve_missing (confined run_id d (λ _, True)) Q).
  pose proof (λ f, confined_review run_id d (λ _, True) f Q).
  calls_auto.
Qed.

(** Reporting the end commits a phase the state machine allows. *)
Lemma collected_report raw files e :
  e ∈ ["completed"; "failed"] →
  let Q := all_tasks (confined run_id d (lifecycle (CollectResult raw files) (phase t))) in
  triple (loose Q) (enqueue_review_comment_status run_id e true)
    (λ _ s, Q (committed s)) (λ _ s, Q (committed s)).
Proof.
  intros He Q.
  assert (Hends : ∀ x, after_report run_id e (λ x, x ∈ tasks d) (λ _, True) x →
    confined run_id d (lifecycle (CollectResult raw files) (phase t)) x).
  { intros x. unfold after_report, confined. destruct (decide (Task.id x = run_id)); [|done].
    intros [(Hst & Hex & _) _]. unfold phase at 2. rewrite Hst, Hex, bool_decide_false;
      [by constructor|]. intros ->. set_solver. }
  eapply triple_conseq; [apply (report_run_committed run_id e (λ x, x ∈ tasks d) (λ _, True) Q)|..].
  - unfold is_terminal. apply bool_decide_eq_true_2. set_solver.
  - done.
  - done.
  - intros _ s [_ Hs] x Hx. by apply Hends, Hs.
  - done.
Qed.

Lemma collect_follows raw files n m :
  all_tasks (confined run_id d (lifecycle (CollectResult raw files) (phase t)))
    (committed (exec (collect_review_result run_id raw files) (open_session d n m))).
Proof.
  set (Q := all_tasks _). set (s := open_session d n m).
  assert (Hs : loose Q s).
  { split; [by apply (confined_start (λ _, True))|].
    by apply (confined_start (lifecycle (CollectResult raw files) (phase t)) n m (Stay _ _)). }
  assert (Hrun : triple (loose Q) (collect_review_result run_id raw files)
    (λ _ s, Q (committed s)) (λ _ s, Q (committed s))).
  { assert (Hweak : ∀ x, loose Q x → Q (committed x)) by by intros x [_ ?].
    assert (Hany : ∀ f, (∀ x, Task.id (f x) = Task.id x) → keeps (loose Q) (modify run_id f))
      by (intros; by apply confined_modify).
    unfold collect_review_result.
    eapply triple_bind; [apply (triple_keeps (loose Q)); [sees_auto|exact Hweak]|]. intros tr.
    destruct (or_none _) as [base|]; [|by apply triple_raise].
    destruct (parse_review_result _ _ _ _ _ _ _) as [[code message]|parsed].
    - eapply triple_bind; [apply (triple_keeps (loose Q)); [|exact Hweak]|].
      { apply Hany. intros x; etrans; [apply set_review_id|done]. }
      intros []. eapply triple_bind; [apply collected_report; set_solver|].
      intros []. by apply triple_raise.
    - eapply triple_bind; [apply (triple_keeps (loose Q)), Hweak; apply loose_reconcile|].
      intros stats. eapply triple_bind; [apply (triple_keeps (loose Q)); [sees_auto|exact Hweak]|].
      intros now. eapply triple_bind; [apply (triple_keeps (loose Q)); [|exact Hweak]|].
      { apply Hany. intros x; etrans; [apply set_review_id|done]. }
      intros []. eapply triple_bind; [apply (triple_keeps (loose Q)); [sees_auto|exact Hweak]|].
      intros x. eapply triple_bind; [apply (triple_keeps (loose Q)); [sees_auto|exact Hweak]|].
      intros []. eapply triple_bind; [apply collected_report; set_solver|].
      intros []. by apply triple_ret. }
  unfold exec. specialize (Hrun s Hs). by destruct (collect_review_result run_id raw files s) as [[?|?] ?].
Qed.
End from.

(** C16: the calls on the agent session of a run implement its life cycle.  Whatever
    the runtime answers and wherever a call fails, the committed database has the same
    other tasks, and the phase of the run has changed as [lifecycle] allows: a session
    is started only for a run that has not ended well or been withdrawn, an ended run
    is never synchronised or cancelled again, and a collected result always ends in a
    run that awaits the delivery of its report. *)
Theorem agent_calls_follow_lifecycle c run_id t d n m :
  NoDup (Task.id <$> tasks d) → find_row run_id (tasks d) = Some t →
  ∀ t', t' ∈ tasks (committed (exec (serve_agent run_id c) (open_session d n m))) →
    if decide (Task.id t' = run_id) then lifecycle c (phase t) (phase t') else t' ∈ tasks d.
Proof.
  intros Hnd Ht. destruct c as [settings path| |reason|raw files]; cbn [serve_agent]; unfold ignore;
    rewrite exec_ignore.
  - apply (start_follows run_id d t Hnd Ht settings path n m).
  - apply (sync_follows run_id d t Hnd Ht n m).
  - apply (cancel_follows run_id d t Hnd Ht reason n m).
  - apply (collect_follows run_id d t Hnd Ht raw files n m).
Qed.

(** ** Rejected results *)

(** An exception other than the rejection of a result. *)
Definition not_a_rejection (e : exn) : Prop :=
  match e with ReviewResultInvalid _ _ => False | _ => True end.

(** A computation that never raises a rejection. *)
Definition quiet {A} (m : SM A) : Prop :=
  triple (λ _, True) m (λ _ _, True) (λ e _, not_a_rejection e).

Lemma quiet_bind {A B} (m : SM A) (k : A → SM B) :
  quiet m → (∀ a, quiet (k a)) → quiet (m ≫= k).
Proof. intros Hm Hk. by eapply triple_bind. Qed.
Lemma quiet_insert {R} `{Table R} (r : R) : quiet (insert r).
Proof. intros s _. unfold insert. run_steps. by destruct (violation r _). Qed.
Lemma quiet_load {R} `{Table R} k : quiet (load (R := R) k).
Proof. intros s _. rewrite load_cases. by destruct (find_row k _). Qed.
Lemma quiet_one {R} (l : list R) : quiet (scalar_one_or_none l).
Proof. by destruct l as [|x [|y l]]. Qed.
Create HintDb quiet.
Hint Resolve quiet_insert quiet_load quiet_one : quiet.

Ltac quiet_step :=
  lazymatch goal with
  | |- quiet (mbind _ _) => apply quiet_bind; [|intros ?]
  | |- quiet (if ?b then _ else _) => destruct b
  | |- quiet (when ?b _) => unfold when; destruct b
  | |- quiet (match ?x with _ => _ end) => destruct x
  | |- quiet _ => first [solve [eauto 3 with quiet] | by intros ? ?]
  end.

Lemma quiet_report k st c : quiet (enqueue_review_comment_status k st c).
Proof.
  unfold enqueue_review_comment_status, slot_of_run, ensure_review_placeholder_requested,
    create_slot, request_placeholder, load_run, enqueue_delivery, new_delivery, slot_of_run.
  repeat quiet_step.
Qed.

Lemma quiet_reconcile k parsed c : quiet (persist_and_reconcile_findings k parsed c).
Proof.
  unfold persist_and_reconcile_findings, _previous_active_findings, _current_run_findings.
  assert (Hs : ∀ run previous current l stats seen,
    quiet (store_findings k run previous current l stats seen)).
  { intros run previous current l. revert current.
    induction l; intros; cbn [store_findings]; unfold new_finding; repeat quiet_step. }
  assert (Hr : ∀ l seen stats, quiet (resolve_missing k l seen stats)).
  { intros l seen. induction l; intros; cbn [resolve_missing]; repeat quiet_step. }
  repeat quiet_step.
Qed.

(** The failure is recorded in the columns a report does not touch. *)
Definition rejected_with (code message : string) (t : Task.t) : Prop :=
  (λ r, (ReviewRun.failure_code r, ReviewRun.error r)) <$> review_of t =
  Some (Some "invalid_result", Some (code +:+ ": " +:+ message)).

Lemma rejected_assignment code message t st sg ex dl :
  rejected_with code message t →
  rejected_with code message (t .[ Task.status := st ] .[ Task.stage := sg ]
    .[ Task.execution_status := ex ] .[ Task.delivery_status := dl ]).
Proof. done. Qed.

(** The part of [collect_review_result] that rejects a result. *)
Lemma reject_records run_id code message :
  triple (sees (all_tasks (λ t, Task.id t = run_id → is_Some (review_of t))))
    (modify run_id (λ t, set_review (λ r,
        r .[ ReviewRun.failure_code := Some "invalid_result" ]
          .[ ReviewRun.error := Some (error_code_str code +:+ ": " +:+ message) ])
       (t .[ Task.status := "failed" ])) ;;
     enqueue_review_comment_status run_id "failed" true ;;
     raise (A := ParsedReviewResult.t) (ReviewResultInvalid (error_code_str code) message))
    (λ _ _, False)
    (λ e s, not_a_rejection e ∨
       e = ReviewResultInvalid (error_code_str code) message ∧
       all_tasks (λ t, Task.id t = run_id →
         reported "failed" t ∧ rejected_with (error_code_str code) message t) (committed s)).
Proof.
  set (X := rejected_with (error_code_str code) message). set (Q := λ _ : Db, True).
  eapply (triple_bind _ _ _ (λ _, tracks (all_tasks (before_report run_id (λ _, True) X)) Q)).
  - intros s [Hs _]. split; [|done]. eapply all_tasks_update; [| |exact Hs].
    + intros t Ht Hid. unfold before_report. rewrite set_review_id, decide_True by done.
      destruct (Ht Hid) as [run Hrun]. unfold X, rejected_with, set_review, review_of in *. simpl.
      by destruct (Task.sub t).
    + intros t _ Hid. unfold before_report. by rewrite decide_False by done.
  - intros u s Hs.
    pose proof (report_run_committed run_id "failed" (λ _, True) X Q eq_refl
      (rejected_assignment _ _) s Hs) as Hr.
    pose proof (quiet_report run_id "failed" true s I) as Hq. rewrite bind_run.
    destruct (enqueue_review_comment_status run_id "failed" true s) as [[v|e] s']; [|by left].
    right. split; [done|]. intros t Ht Hid. destruct Hr as [_ Hr]. specialize (Hr t Ht).
    unfold after_report in Hr. by rewrite decide_True in Hr by done.
Qed.

(** A rejected result is on record before the caller sees the error.  When
    [collect_review_result] raises [ReviewResultError], the run has been committed as
    failed: its execution failed with code [invalid_result] and the message of the
    error, and it awaits the delivery of that report. *)
Theorem invalid_result_is_recorded run_id raw files s code message s' :
  NoDup (Task.id <$> tasks (work s)) →
  collect_review_result run_id raw files s = (Raise (ReviewResultInvalid code message), s') →
  ∀ t, t ∈ tasks (committed s') → Task.id t = run_id →
    reported "failed" t ∧ rejected_with code message t.
Proof.
  intros Hnd. unfold collect_review_result. rewrite bind_run.
  assert (Hq : quiet (load_run run_id)) by (unfold load_run; repeat quiet_step).
  specialize (Hq s I). destruct (load_run run_id s) as [[tr|e] s0] eqn:E;
    [|intros [= -> _]; by destruct Hq].
  apply load_run_Return in E as (-> & Hfind & Hrev).
  destruct (or_none _) as [base|]; [|by intros [=]].
  destruct (parse_review_result _ _ _ _ _ _ _) as [[c msg]|parsed].
  - intros Hrun.
    assert (Hs : sees (all_tasks (λ t, Task.id t = run_id → is_Some (review_of t))) s).
    { split; [|done]. intros t Ht Hid. apply find_row_Some in Hfind as [Hin Hk].
      change (Task.id tr.1 = run_id) in Hk.
      assert (t = tr.1) as ->; [|by rewrite Hrev].
      eapply (NoDup_key_eq Task.id); [exact Hnd|done|done|congruence]. }
    destruct (triple_Raise _ _ _ _ _ _ _ (reject_records run_id c msg) Hs Hrun)
      as [[]|[[= -> ->] Hr]]. exact Hr.
  - match goal with |- ?m s = _ → _ => assert (Hq' : quiet m) end.
    { unfold _review_session_for_run, with_session.
      pose proof quiet_report. pose proof quiet_reconcile. repeat quiet_step. }
    intros Hrun. specialize (Hq' s I). rewrite Hrun in Hq'. by destruct Hq'.
Qed.
End calls.
