(* ===== verification/ArchiveTheorems.v ===== *)
(** * What is archived, and what is not

    Redaction hides the values of sensitive keys, the captured diff is bounded, and an
    agent session has one archive. *)
From Stdlib Require Import Ascii.
From S2P Require Import Prelude PyText Json Models Demo Delivery PyRegex Observability PiAgent SessionArchives ReviewRunFacts.
#[global] Open Scope Z_scope.
#[global] Open Scope orch_scope.

(** ** Redaction *)

(** Two values that agree wherever [hidden] does not apply: the value of a hidden key
    may differ, nothing else may. *)
Section agree.
Context (hidden : string → json → bool).

#[global] Set Elimination Schemes.
Inductive agree : json → json → Prop :=
  | agree_same j : agree j j
  | agree_list l l' : agree_items l l' → agree (JList l) (JList l')
  | agree_obj l l' : agree_fields l l' → agree (JObj l) (JObj l')
with agree_items : list json → list json → Prop :=
  | agree_nil : agree_items [] []
  | agree_cons j j' l l' : agree j j' → agree_items l l' → agree_items (j :: l) (j' :: l')
with agree_fields : list (string * json) → list (string * json) → Prop :=
  | agree_no_fields : agree_fields [] []
  | agree_hidden key v v' l l' :
      hidden key v → hidden key v' → agree_fields l l' → agree_fields ((key, v) :: l) ((key, v') :: l')
  | agree_shown key v v' l l' :
      hidden key v = hidden key v' → agree v v' → agree_fields l l' →
      agree_fields ((key, v) :: l) ((key, v') :: l').
End agree.

Scheme agree_rect1 := Minimality for agree Sort Prop
  with agree_items_rect1 := Minimality for agree_items Sort Prop
  with agree_fields_rect1 := Minimality for agree_fields Sort Prop.

(** A function on values that maps items and fields, and does not look at hidden
    values, does not distinguish values that agree. *)
Lemma agree_redacted (hidden : string → json → bool) (f : json → json) (mask : json) j j' :
  (∀ l, f (JList l) = JList (map f l)) →
  (∀ l, f (JObj l) = JObj (map (λ '(key, v), (key, if hidden key v then mask else f v)) l)) →
  agree hidden j j' → f j = f j'.
Proof.
  intros Hlist Hobj. set (g := λ '(key, v), (key, if hidden key v then mask else f v)).
  apply (agree_rect1 hidden (λ j j', f j = f j') (λ l l', map f l = map f l')
    (λ l l', map g l = map g l')); simpl; try done.
  - intros l l' _ IH. by rewrite !Hlist, IH.
  - intros l l' _ IH. by rewrite !Hobj; fold g; rewrite IH.
  - intros x x' l l' _ -> _ ->. done.
  - intros key v v' l l' Hv Hv' _ ->. by apply Is_true_true in Hv as ->, Hv' as ->.
  - intros key v v' l l' -> _ -> _ ->. done.
Qed.

Lemma redact_archive_fields l :
  _redact_archive_value (JObj l) =
  JObj (map (λ '(key, v), (key, if is_sensitive_key key && negb (is_number v)
    then JStr REDACTED else _redact_archive_value v)) l).
Proof.
  simpl. f_equal. apply map_ext. intros [key v]. f_equal.
  destruct (is_sensitive_key key) eqn:Hk; [|done]. destruct (is_number v); [done|].
  simpl. unfold jget. simpl. by rewrite bool_decide_true by done.
Qed.

(** C17: redaction does not leak what a sensitive key holds.  Two payloads that differ
    only in values under sensitive keys, at any depth, have the same redaction; for the
    session archive the same is true except of numbers and booleans, which are kept as
    counters. *)
Theorem redaction_hides_secrets j j' :
  (agree (λ key _, is_sensitive_key key) j j' → redact_value j = redact_value j') ∧
  (agree (λ key v, is_sensitive_key key && negb (is_number v)) j j' →
   _redact_archive_value j = _redact_archive_value j').
Proof.
  split.
  - by apply (agree_redacted _ _ (JStr REDACTED)).
  - apply (agree_redacted _ _ (JStr REDACTED)); [done|apply redact_archive_fields].
Qed.

Lemma redaction_hides_secrets_witness :
  let login (secret : string) (count : Z) : json :=
    JObj [("user", JStr "eve"); ("auth", JObj [("Access-Token", JStr secret); ("token_count", JInt count)])] in
  redact_value (login "ghs_1" 3) = redact_value (login "ghs_2" 4) ∧
  _redact_archive_value (login "ghs_1" 3) = _redact_archive_value (login "ghs_2" 3) ∧
  _redact_archive_value (login "ghs_1" 3) =
    JObj [("user", JStr "eve"); ("auth", JObj [("Access-Token", JStr "[redacted]"); ("token_count", JInt 3)])].
Proof.
  intros login. split; [|split; [|vm_compute; reflexivity]].
  - apply (proj1 (redaction_hides_secrets (login "ghs_1" 3) (login "ghs_2" 4))).
    apply agree_obj, agree_shown; [reflexivity|apply agree_same|].
    apply agree_shown; [reflexivity| |constructor].
    apply agree_obj. do 2 (apply agree_hidden; [vm_compute; exact I|vm_compute; exact I|]). constructor.
  - apply (proj2 (redaction_hides_secrets (login "ghs_1" 3) (login "ghs_2" 3))).
    apply agree_obj, agree_shown; [reflexivity|apply agree_same|].
    apply agree_shown; [reflexivity| |constructor].
    apply agree_obj, agree_hidden; [vm_compute; exact I|vm_compute; exact I|].
    apply agree_shown; [reflexivity|apply agree_same|constructor].
Defined.

(** ** The captured diff *)

Lemma bytes_length_nonneg s : 0 ≤ bytes_length s.
Proof. unfold bytes_length. lia. Qed.

Lemma bytes_length_app a b : bytes_length (a +:+ b) = bytes_length a + bytes_length b.
Proof.
  unfold bytes_length. induction a as [|c a IH]; [done|].
  change (String c a +:+ b) with (String c (a +:+ b)). simpl String.length. lia.
Qed.

Lemma bytes_length_cons c s : bytes_length (String c s) = 1 + bytes_length s.
Proof. unfold bytes_length. simpl String.length. lia. Qed.

Lemma take_bytes_all n s : bytes_length s ≤ n → take_bytes n s = s.
Proof.
  revert n. induction s as [|c s IH]; intros n Hn; [done|]. rewrite bytes_length_cons in Hn.
  pose proof (bytes_length_nonneg s). simpl. rewrite (proj2 (Z.leb_gt n 0)) by lia.
  by rewrite IH by lia.
Qed.

Lemma take_bytes_none n s : n ≤ 0 → take_bytes n s = "".
Proof. intros Hn. destruct s; [done|]. simpl. by rewrite (proj2 (Z.leb_le n 0)) by lia. Qed.

Lemma take_bytes_app n a b :
  bytes_length a ≤ n → take_bytes n (a +:+ b) = a +:+ take_bytes (n - bytes_length a) b.
Proof.
  revert n. induction a as [|c a IH]; intros n Hn.
  - change (bytes_length "") with 0. by rewrite Z.sub_0_r.
  - rewrite bytes_length_cons in Hn. pose proof (bytes_length_nonneg a).
    change (String c a +:+ b) with (String c (a +:+ b)). simpl.
    rewrite (proj2 (Z.leb_gt n 0)), IH, bytes_length_cons by lia.
    change (String c a +:+ ?x) with (String c (a +:+ x)). do 3 f_equal. lia.
Qed.

Lemma take_bytes_twice n m s : n ≤ m → take_bytes n (take_bytes m s) = take_bytes n s.
Proof.
  revert n m. induction s as [|c s IH]; intros n m Hn; [done|]. simpl.
  destruct (m <=? 0) eqn:Hm; [rewrite (proj2 (Z.leb_le n 0)) by lia; done|].
  simpl. destruct (n <=? 0); [done|]. by rewrite IH by lia.
Qed.

Lemma take_bytes_length n s : bytes_length (take_bytes n s) ≤ Z.max 0 n.
Proof.
  revert n. induction s as [|c s IH]; intros n; simpl; [change (bytes_length "") with 0; lia|].
  destruct (n <=? 0) eqn:Hn; [change (bytes_length "") with 0; lia|].
  rewrite bytes_length_cons. specialize (IH (n - 1)). lia.
Qed.

Lemma take_bytes_app_l n a b : n ≤ bytes_length a → take_bytes n (a +:+ b) = take_bytes n a.
Proof.
  revert n. induction a as [|c a IH]; intros n Hn.
  - change (bytes_length "") with 0 in Hn. by rewrite take_bytes_none.
  - rewrite bytes_length_cons in Hn. change (String c a +:+ b) with (String c (a +:+ b)). simpl.
    destruct (n <=? 0); [done|]. by rewrite IH by lia.
Qed.

Lemma take_bytes_exact n s : 0 ≤ n ≤ bytes_length s → bytes_length (take_bytes n s) = n.
Proof.
  revert n. induction s as [|c s IH]; intros n Hn; simpl.
  - change (bytes_length "") with 0 in *. lia.
  - rewrite bytes_length_cons in Hn. destruct (n <=? 0) eqn:E.
    + change (bytes_length "") with 0. lia.
    + rewrite bytes_length_cons, IH by lia. lia.
Qed.

Section diff.
Context `{GitWorkspace}.

(** Everything the processes over the listed files would print. *)
Fixpoint outputs (workspace : string) (paths : list string) : string :=
  match paths with
  | [] => ""
  | path :: paths =>
      (if bool_decide (path = "") then "" else default "" (git_diff_untracked workspace path))
      +:+ outputs workspace paths
  end.

Definition untracked_output (workspace : string) : string :=
  match git_untracked workspace with
  | Some listed => outputs workspace (py_split "000" listed)
  | None => ""
  end.

Lemma untracked_diffs_spec workspace limit content truncated paths :
  bytes_length content ≤ limit →
  let r := untracked_diffs workspace limit content truncated paths in
  r.1 = take_bytes limit (content +:+ outputs workspace paths) ∧
  (r.2 = false → truncated = false ∧ bytes_length (content +:+ outputs workspace paths) ≤ limit).
Proof.
  revert content truncated. induction paths as [|path paths IH]; intros content truncated Hlen.
  - simpl. rewrite str_app_nil_r. by rewrite take_bytes_all.
  - destruct path as [|c p]; [by apply IH|]. cbn [untracked_diffs outputs].
    rewrite bool_decide_false by done. destruct (limit <=? bytes_length content) eqn:Hfull.
    + split; [|done]. cbn [fst]. rewrite take_bytes_app by done.
      by rewrite take_bytes_none, str_app_nil_r by lia.
    + destruct (git_diff_untracked workspace (String c p)) as [output|]; cbn [default]; [|by apply IH].
      set (remaining := limit - bytes_length content).
      assert (Hnew : bytes_length (content +:+ take_bytes remaining output) ≤ limit).
      { rewrite bytes_length_app. pose proof (take_bytes_length remaining output). lia. }
      destruct (IH _ (truncated || (remaining <? bytes_length output)) Hnew) as [H1 H2].
      rewrite H1. clear H1 IH. destruct (remaining <? bytes_length output) eqn:Hcut.
      * split; [|intros Hr; apply H2 in Hr as [Hr _]; by rewrite orb_true_r in Hr].
        assert (Hexact : bytes_length (content +:+ take_bytes remaining output) = limit).
        { rewrite bytes_length_app, take_bytes_exact by lia. lia. }
        rewrite (take_bytes_app _ (content +:+ _)), Hexact, Z.sub_diag, (take_bytes_none 0), str_app_nil_r by lia.
        rewrite (take_bytes_app limit content) by lia. fold remaining.
        by rewrite (take_bytes_app_l remaining output) by lia.
      * rewrite (take_bytes_all remaining output), str_app_assoc in * by lia.
        rewrite orb_false_r in *. by split.
Qed.

(** The whole diff of a workspace. *)
Definition whole_diff (workspace : string) : string :=
  default "" (git_diff workspace) +:+ untracked_output workspace.

Lemma untracked_capture workspace limit :
  0 ≤ limit →
  let r := _capture_untracked_diffs workspace limit in
  r.1 = take_bytes limit (untracked_output workspace) ∧
  (r.2 = false → bytes_length (untracked_output workspace) ≤ limit).
Proof.
  intros Hlimit. unfold _capture_untracked_diffs, untracked_output.
  destruct (git_untracked workspace) as [listed|]; [|split; [done|intros _; exact Hlimit]].
  destruct (untracked_diffs_spec workspace limit "" false (py_split "000" listed) Hlimit) as [H1 H2].
  split; [exact H1|]. intros Hr. by apply H2.
Qed.

(** The archived diff is a bounded prefix of the whole diff, and says when it is cut:
    it never exceeds 500000 bytes; what is captured is the first 500000 bytes of the
    diff of the tracked files followed by those of the untracked ones; and when it is
    not marked as truncated it is the whole of it, unless the tracked files alone
    filled the limit exactly. *)
Theorem captured_diff_is_bounded_prefix workspace content truncated :
  captured_diff workspace = Some (content, truncated) →
  bytes_length content ≤ MAX_WORKSPACE_DIFF_BYTES ∧
  content = take_bytes MAX_WORKSPACE_DIFF_BYTES (whole_diff workspace) ∧
  (truncated = false → bytes_length (default "" (git_diff workspace)) ≠ MAX_WORKSPACE_DIFF_BYTES →
   content = whole_diff workspace).
Proof.
  set (M := MAX_WORKSPACE_DIFF_BYTES). assert (HM : 0 < M) by done.
  unfold captured_diff, whole_diff. fold M.
  destruct (negb (is_work_tree workspace)); [done|].
  destruct (git_diff workspace) as [main|]; [|done]. cbn [default id].
  set (remaining := M - Z.min (bytes_length main) M).
  set (rest := untracked_output workspace).
  pose proof (bytes_length_nonneg main). pose proof (bytes_length_nonneg rest).
  destruct (0 <? remaining) eqn:Hrem.
  - destruct (untracked_capture workspace remaining ltac:(lia)) as [Hu Hflag]. fold rest in Hu, Hflag.
    destruct (_capture_untracked_diffs workspace remaining) as [untracked flag]. cbn [fst snd] in *.
    subst untracked. assert (Hr : remaining = M - bytes_length main) by lia.
    assert (Hlen : bytes_length (main +:+ take_bytes remaining rest) ≤ M).
    { rewrite bytes_length_app. pose proof (take_bytes_length remaining rest). lia. }
    rewrite (proj2 (Z.ltb_ge _ _) Hlen). cbn [orb]. intros [= <- <-].
    rewrite (take_bytes_app M main rest), <- Hr by lia. destruct flag.
    + rewrite (take_bytes_all M) by done. by split_and!.
    + split; [done|]. split; [done|]. intros _ _. by rewrite take_bytes_all by auto.
  - cbn [fst snd orb]. rewrite str_app_nil_r, orb_false_r. assert (M ≤ bytes_length main) by lia.
    rewrite take_bytes_app_l by done. intros [= <- <-].
    destruct (M <? bytes_length main) eqn:Hcut.
    + split; [pose proof (take_bytes_length M main); lia|]. done.
    + assert (bytes_length main = M) by lia. rewrite take_bytes_all by lia.
      split; [lia|]. split; [done|]. intros _ []. done.
Qed.

(** When the tracked files fill the limit exactly, the untracked ones are left out
    and the diff is not marked as truncated. *)
Lemma full_diff_hides_untracked workspace main :
  is_work_tree workspace → git_diff workspace = Some main →
  bytes_length main = MAX_WORKSPACE_DIFF_BYTES → captured_diff workspace = Some (main, false).
Proof.
  intros Htree%Is_true_true Hdiff Hlen. unfold captured_diff. rewrite Htree, Hdiff, Hlen. cbn [negb].
  change (0 <? _) with false. cbn [fst snd]. by rewrite str_app_nil_r, Hlen.
Qed.
End diff.

(** A workspace with one changed file and two new ones. *)
Definition demo_git : GitWorkspace := {|
  is_work_tree w := bool_decide (w = "/ws");
  git_diff _ := Some "diff a";
  git_untracked _ := Some ("b" +:+ String "000" ("c" +:+ String "000" ""));
  git_diff_untracked _ p := if bool_decide (p = "b") then None else Some ("new " +:+ p);
  decode_bytes s := s
|}.

Lemma captured_diff_is_bounded_prefix_witness :
  captured_diff (H := demo_git) "/ws" = Some ("diff anew c", false) ∧
  whole_diff (H := demo_git) "/ws" = "diff anew c".
Proof.
  split; [vm_compute; reflexivity|]. symmetry.
  apply (captured_diff_is_bounded_prefix (H := demo_git) "/ws" "diff anew c" false);
    [vm_compute; reflexivity|reflexivity|vm_compute; discriminate].
Defined.
