(* ===== verification/AgentSessionExamples.v ===== *)
(** * Agent sessions on concrete inputs *)
From S2P Require Import Prelude PyText Json World Models SchedulerAdmin Demo Delivery ReviewResults FindingsTheorems ReviewRuns ReviewRunFacts PiAgent SessionArchives ArchiveTheorems AgentSessions AgentSessionTheorems.
#[global] Open Scope Z_scope.
#[global] Open Scope orch_scope.

(** A runtime whose sessions are all in one state. *)
Definition demo_agent (status : PiAgentSessionStatus) : PiAgentSession.t :=
  PiAgentSession.mk "s1" None None status "work" (Some "openai") (Some "m1") None [] None [] [] []
    None None None None None None [].

Definition demo_pi (status : PiAgentSessionStatus) : PiAgentRuntime := {|
  http_send _ _ _ _ := HttpReply 200 "{}";
  response_json _ := Some (JObj []);
  validate_session _ := Return (demo_agent status)
|}.

(** A runtime that does not answer. *)
Definition demo_no_pi : PiAgentRuntime := {|
  http_send _ _ _ _ := RequestError "timed out";
  response_json _ := None;
  validate_session _ := Raise (ValueError "unreachable")
|}.

Definition demo_settings : AgentSettings.t :=
  AgentSettings.mk "reviewer" "code-review" "assistant" "pr-assistant".

Definition sha (c : string) : string := c +:+ "0000000".

(** A run whose placeholder is published, and another task. *)
Definition agent_db (status : string) : Db :=
  (with_tasks
    [demo_high;
     demo_review "r" status "pending"
       ((demo_run (sha "a") 1) .[ ReviewRun.base_sha := Some (sha "b") ]
          .[ ReviewRun.agent_session_id := Some "s1" ])])
    .[ slots := [demo_slot "slot" "r" "ready" (Some "c-1") 0] ].

Definition call_result (pi : PiAgentRuntime) (c : agent_call) (status : string) : Session :=
  exec (serve_agent (H := demo_runtime) (H0 := pi) (H1 := demo_git) (H2 := demo_schema) "r" c)
    (demo_session (agent_db status)).

Definition run_phase (s : Session) : list (string * string) :=
  phase <$> filter (λ t, Task.id t = "r") (tasks (committed s)).

(** Starting, synchronising, cancelling and collecting. *)
Example calls_on_demo :
  let start := StartSession demo_settings (Some "/ws") in
  run_phase (call_result (demo_pi running) start "queued") = [("running", "pending")] ∧
  run_phase (call_result demo_no_pi start "queued") = [("failed", "pending")] ∧
  run_phase (call_result (demo_pi completed) SyncSession "running") = [("running", "pending")] ∧
  run_phase (call_result (demo_pi failed) SyncSession "running") = [("failed", "pending")] ∧
  run_phase (call_result demo_no_pi (CancelSession "stop") "running") = [("cancelled", "pending")] ∧
  run_phase (call_result demo_no_pi (CollectResult (inr demo_output) None) "running") =
    [("awaiting_delivery", "completed")].
Proof. vm_compute. split_and!; reflexivity. Qed.

(** A session cancelled by the runtime ends the run, and nobody is told: no message is
    queued for the comment of the run, which goes on saying that it is being reviewed. *)
Example cancelled_by_runtime_is_not_reported :
  let s := call_result (demo_pi cancelled) SyncSession "running" in
  run_phase s = [("cancelled", "pending")] ∧ outbox (committed s) = [].
Proof. vm_compute. split; reflexivity. Qed.

(** A result delivered late revives a run that was withdrawn. *)
Example collect_revives_withdrawn_runs :
  run_phase (call_result demo_no_pi (CollectResult (inr demo_output) None) "superseded") =
    [("awaiting_delivery", "completed")] ∧
  run_phase (call_result demo_no_pi (CollectResult (inr demo_output) None) "cancelled") =
    [("awaiting_delivery", "completed")].
Proof. vm_compute. split; reflexivity. Qed.

(** A reply without a body is not a session: the error is not the one that is caught,
    so the run stays as it was. *)
Example empty_reply_escapes :
  let pi := {| http_send _ _ _ _ := HttpReply 204 ""; response_json _ := None;
               validate_session _ := Raise (ValueError "Field required") |} in
  let _ := demo_runtime in let _ := demo_git in
  result (sync_review_session "r") (demo_session (agent_db "running")) =
    Raise (ValueError "Field required").
Proof. vm_compute. reflexivity. Qed.

Lemma agent_calls_follow_lifecycle_witness :
  lifecycle SyncSession ("running", "pending") ("failed", "pending").
Proof.
  pose proof (agent_calls_follow_lifecycle (H := demo_runtime) (H0 := demo_pi failed)
    (H1 := demo_git) (H2 := demo_schema) SyncSession "r"
    (demo_review "r" "running" "pending"
       ((demo_run (sha "a") 1) .[ ReviewRun.base_sha := Some (sha "b") ]
          .[ ReviewRun.agent_session_id := Some "s1" ]))
    (agent_db "running") 0 3 ltac:(decide_by_computation) eq_refl) as Hc.
  match type of Hc with ∀ t', t' ∈ ?L → _ =>
    let v := eval vm_compute in L in
    assert (EL : L = v) by (vm_compute; reflexivity) end.
  rewrite EL in Hc. specialize (Hc _ (list_elem_of_further _ _ _ (list_elem_of_here _ _))).
  rewrite decide_True in Hc by reflexivity. exact Hc.
Defined.

Lemma invalid_result_is_recorded_witness :
  let _ := demo_runtime in let _ := demo_schema in
  ∃ s', collect_review_result "r" (inr [("summary", JStr "no findings")]) None
      (demo_session (agent_db "running"))
      = (Raise (ReviewResultInvalid "schema_error" "Field required"), s') ∧
    ∃ t, find_row "r" (tasks (committed s')) = Some t ∧
      reported "failed" t ∧ rejected_with "schema_error" "Field required" t.
Proof.
  intros R S.
  destruct (collect_review_result "r" (inr [("summary", JStr "no findings")]) None
    (demo_session (agent_db "running"))) as [o s'] eqn:E.
  assert (Ho : o = Raise (ReviewResultInvalid "schema_error" "Field required"))
    by (vm_compute in E; injection E as <- _; reflexivity). subst o.
  exists s'. split; [reflexivity|].
  destruct (find_row "r" (tasks (committed s'))) as [t|] eqn:Ef;
    [|exfalso; vm_compute in E; injection E as <-; vm_compute in Ef; discriminate].
  exists t. split; [reflexivity|]. apply find_row_Some in Ef as [Hin Hid].
  refine (invalid_result_is_recorded (H := demo_runtime) (H2 := demo_schema) "r" _ None _ _ _ s' _ E t Hin Hid). decide_by_computation.
Defined.
