(* ===== verification/Views.v ===== *)
(** * What the dashboard shows of review runs

    Model of the read side of [src/src/review_orchestrator/application/services.py]
    for review runs: the list with its filters and pages, the detail of a run, and the
    diagnostics of its agent session.  A response is a record of what it shows; where
    it copies a row column by column, the row itself stands for the copy. *)
From Stdlib Require Import Ascii.
From S2P Require Import Prelude PyText Json Models SchedulerAdmin Delivery ReviewRuns Webhooks PiAgent AgentSessions.
#[global] Open Scope Z_scope.
#[global] Open Scope orch_scope.

(** ** Error messages *)

Fixpoint first_line (s : string) : string :=
  match s with
  | "" => ""
  | String c s => if is_line_break c then "" else String c (first_line s)
  end.

(** [error_message.splitlines()[0]] has no element when the message is empty. *)
Definition _safe_error_message (error_message : option string) : outcome (option string) :=
  match error_message with
  | None => Return None
  | Some "" => Raise (IndexError "list index out of range")
  | Some text =>
      let line := first_line text in
      Return (Some (if 1000 <? Z.of_nat (String.length line)
                    then String.substring 0 1000 line +:+ "..." else line))
  end.

Definition _str_or_none (value : option json) : option string :=
  match value with Some (JStr (String c s)) => Some (String c s) | _ => None end.

(** ** The state of a run *)

Module ReviewRunOperationalState.
Record t := mk { lock_state : string; timeout_state : string; worker_state : string }.
End ReviewRunOperationalState.

Section states.
Context `{Runtime}.

Definition _lock_state (t : Task.t) : SM string :=
  match Task.lock_owner t, Task.locked_until t with
  | None, _ => mret "unlocked"
  | Some _, None => mret "locked"
  | Some _, Some until => past ← _is_past until; mret (if (past : bool) then "expired" else "locked")
  end.

Definition _timeout_state (t : Task.t) (r : ReviewRun.t) : SM string :=
  match ReviewRun.hard_timeout_emitted_at r, ReviewRun.soft_timeout_emitted_at r,
        Task.deadline_at t with
  | Some _, _, _ => mret "hard_timeout"
  | None, Some _, _ => mret "soft_timeout"
  | None, None, Some deadline =>
      past ← _is_past deadline; mret (if (past : bool) then "deadline_elapsed" else "none")
  | None, None, None => mret "none"
  end.

Definition _worker_state (t : Task.t) (r : ReviewRun.t) : SM string :=
  let status := Task.status t in
  if bool_decide (status ∈ TERMINAL_STATUSES) then mret "terminal"
  else
    lock_state ← _lock_state t;
    mret
      (if bool_decide (lock_state = "locked") then "locked_by_worker"
       else if bool_decide (lock_state = "expired") then "worker_lock_expired"
       else if bool_decide (status = "awaiting_delivery") then
         (if bool_decide (Task.stage t = Some "placeholder_delivery_pending")
          then "waiting_for_placeholder" else "waiting_for_result_delivery")
       else if bool_decide (status = "queued") then "waiting_for_worker"
       else if bool_decide (status = "running") && negb (truthy (ReviewRun.agent_session_id r))
       then "waiting_for_agent"
       else if bool_decide (status = "running") then "running_in_pi_agent"
       else status).

Definition _operational_state (t : Task.t) (r : ReviewRun.t)
    : SM ReviewRunOperationalState.t :=
  lock_state ← _lock_state t;
  timeout_state ← _timeout_state t r;
  worker_state ← _worker_state t r;
  mret (ReviewRunOperationalState.mk lock_state timeout_state worker_state).
End states.

(** ** The comments of a run *)

Module ReviewRunProviderPublishing.
Record t := mk {
  summary_comment_id : option string;
  summary_comment_ref_id : option string;
  summary_comment_status : option string;
  summary_published : bool;
  line_comment_count : Z;
  line_comment_status_counts : gmap string Z
}.
Definition default : t := mk None None None false 0 ∅.
End ReviewRunProviderPublishing.

(** [counts[key] = counts.get(key, 0) + 1]. *)
Definition count_key (counts : gmap string Z) (key : string) : gmap string Z :=
  <[key := default 0 (counts !! key) + 1]> counts.

Definition is_comment_type (type : string) (ref : ReviewCommentRef.t) : bool :=
  bool_decide (ReviewCommentRef.comment_type ref = type).

Definition _provider_publishing_from_refs (refs : list ReviewCommentRef.t)
    : ReviewRunProviderPublishing.t :=
  let summary_ref := head (filter (is_comment_type "summary") refs) in
  let lines := filter (is_comment_type "line") refs in
  ReviewRunProviderPublishing.mk
    (ReviewCommentRef.provider_comment_id <$> summary_ref)
    (ReviewCommentRef.id <$> summary_ref) (ReviewCommentRef.status <$> summary_ref)
    (bool_decide (is_Some summary_ref)) (Z.of_nat (length lines))
    (foldl count_key ∅ (ReviewCommentRef.status <$> lines)).

(** [refs_by_run_id.setdefault(ref.review_run_id, []).append(ref)]. *)
Definition add_ref (m : gmap string (list ReviewCommentRef.t)) (ref : ReviewCommentRef.t)
    : gmap string (list ReviewCommentRef.t) :=
  match ReviewCommentRef.review_run_id ref with
  | Some run_id => <[run_id := default [] (m !! run_id) ++ [ref]]> m
  | None => m
  end.

Definition _provider_publishing_for_runs (review_run_ids : list string)
    : SM (gmap string ReviewRunProviderPublishing.t) :=
  match review_run_ids with
  | [] => mret ∅
  | _ =>
      refs ← select (λ ref, match ReviewCommentRef.review_run_id ref with
                            | Some run_id => bool_decide (run_id ∈ review_run_ids)
                            | None => false
                            end);
      mret (_provider_publishing_from_refs <$> foldl add_ref ∅ refs)
  end.

Definition _provider_publishing_for_run (review_run_id : string)
    : SM ReviewRunProviderPublishing.t :=
  publishing ← _provider_publishing_for_runs [review_run_id];
  mret (default ReviewRunProviderPublishing.default (publishing !! review_run_id)).

(** ** The contexts of several runs *)

Definition _review_run_identity (r : ReviewRun.t) : string * string * Z :=
  (ReviewRun.provider r, ReviewRun.repo_full_name r, ReviewRun.pull_request_number r).

Definition context_identity (c : PullRequestContext.t) : string * string * Z :=
  (PullRequestContext.provider c, PullRequestContext.repo_full_name c,
   PullRequestContext.pull_request_number c).

(** [{key(x): x for x in l}]. *)
Definition dict_by {A} {K} `{Countable K} (key : A → K) (l : list A) : gmap K A :=
  foldl (λ m x, <[key x := x]> m) ∅ l.

Definition bound_context_id (r : ReviewRun.t) : option string :=
  or_none (ReviewRun.pull_request_context_id r).

Definition _pull_request_contexts_for_runs (review_runs : list ReviewRun.t)
    : SM (gmap string PullRequestContext.t * gmap (string * string * Z) PullRequestContext.t) :=
  match review_runs with
  | [] => mret (∅, ∅)
  | _ =>
      let context_ids := omap bound_context_id review_runs in
      let identities := _review_run_identity <$> review_runs in
      contexts ← select (λ c,
        bool_decide (context_identity c ∈ identities)
        || bool_decide (PullRequestContext.id c ∈ context_ids));
      mret (dict_by PullRequestContext.id contexts, dict_by context_identity contexts)
  end.

(** [contexts_by_id.get(context_id) or contexts_by_identity.get(identity)]. *)
Definition context_shown
    (contexts : gmap string PullRequestContext.t * gmap (string * string * Z) PullRequestContext.t)
    (r : ReviewRun.t) : option PullRequestContext.t :=
  match ReviewRun.pull_request_context_id r ≫= (λ id, contexts.1 !! id) with
  | Some c => Some c
  | None => contexts.2 !! _review_run_identity r
  end.

(** ** The list of runs *)

Module ReviewRunListItem.
Record t := mk {
  base : Task.t * ReviewRun.t;
  operational_state : ReviewRunOperationalState.t;
  provider_publishing : ReviewRunProviderPublishing.t;
  pull_request_context : option PullRequestContext.t
}.
End ReviewRunListItem.

(** A page of a listing. *)
Record ListResponse (A : Type) := mkListResponse {
  items : list A;
  total : Z;
  limit : Z;
  offset : Z
}.
Arguments mkListResponse {A}.
Arguments items {A}.
Arguments total {A}.

(** [.limit(limit).offset(offset)]. *)
Definition page {A} (limit offset : Z) (l : list A) : list A :=
  take (Z.to_nat limit) (drop (Z.to_nat offset) l).

(** [for x in l] in a list comprehension whose element may raise. *)
Fixpoint each {A B} (f : A → SM B) (l : list A) : SM (list B) :=
  match l with
  | [] => mret []
  | x :: l => y ← f x; ys ← each f l; mret (y :: ys)
  end.

(** [if value: filters.append(column == value)]. *)
Definition eq_filter (value : option string) (column : option string) : bool :=
  match or_none value with Some v => bool_decide (column = Some v) | None => true end.
Definition int_filter (value : option Z) (column : option Z) : bool :=
  match value with Some v => bool_decide (column = Some v) | None => true end.

(** ** The detail of a run, as shown *)

Module ReviewRunDetail.
Record t := mk {
  item : ReviewRunListItem.t;
  workspace : option (Workspace.t + string);
  review_session : option ReviewSession.t;
  findings_summary : Z * gmap string Z * gmap string Z * gmap string Z;
  validation_warnings : list json;
  validation_errors : list json;
  trigger_event : option (ProviderEventInbox.t * option string);
  agent_task : option (Task.t * AgentTask.t);
  placeholder : option (ReviewCommentSlot.t * option DeliveryOutbox.t);
  retry : ReviewRunActionAvailability.t;
  rerun : ReviewRunActionAvailability.t
}.
End ReviewRunDetail.

(** The lock filter, as SQL compares the columns with one reading of the clock. *)
Definition lock_filter (lock_state : option string) (now : Z) (t : Task.t) : bool :=
  if bool_decide (lock_state = Some "unlocked") then bool_decide (Task.lock_owner t = None)
  else if bool_decide (lock_state = Some "locked") then
    negb (bool_decide (Task.lock_owner t = None))
    && match Task.locked_until t with None => true | Some until => now <? until end
  else if bool_decide (lock_state = Some "expired") then
    negb (bool_decide (Task.lock_owner t = None))
    && match Task.locked_until t with None => false | Some until => until <=? now end
  else true.

Definition newest_first (t : Task.t) : list Z := (- Task.created_at t) :: string_desc (Task.id t).

Section run_views.
Context `{Runtime}.

Definition _review_run_filters (provider repo_full_name : option string)
    (pull_request_number : option Z) (status stage head_sha trigger_type lock_state : option string)
    : SM (Task.t → bool) :=
  now ← (if bool_decide (lock_state = Some "locked") || bool_decide (lock_state = Some "expired")
         then utc_now else mret 0);
  mret (run_where (λ t r,
    eq_filter provider (Some (ReviewRun.provider r))
    && eq_filter repo_full_name (Some (ReviewRun.repo_full_name r))
    && int_filter pull_request_number (Some (ReviewRun.pull_request_number r))
    && eq_filter status (Some (Task.status t)) && eq_filter stage (Task.stage t)
    && eq_filter head_sha (Some (ReviewRun.head_sha r))
    && eq_filter trigger_type (Some (ReviewRun.trigger_type r))
    && lock_filter lock_state now t)).

Definition _review_run_list_item (t : Task.t) (r : ReviewRun.t)
    (publishing : option ReviewRunProviderPublishing.t) (context : option PullRequestContext.t)
    : SM ReviewRunListItem.t :=
  error ← lift (_safe_error_message (ReviewRun.error r));
  state ← _operational_state t r;
  mret (ReviewRunListItem.mk (t, r .[ ReviewRun.error := error ]) state
    (match publishing with
     | Some p => p
     | None =>
         ReviewRunProviderPublishing.mk (ReviewRun.summary_comment_id r) None None
           (bool_decide (is_Some (ReviewRun.summary_comment_id r))) 0 ∅
     end) context).

(** The runs among the rows of a selection. *)
Definition runs_among (l : list Task.t) : list (Task.t * ReviewRun.t) :=
  omap (λ t, r ← review_of t; mret (t, r)) l.

Definition list_review_runs (provider repo_full_name : option string)
    (pull_request_number merge_request_number : option Z)
    (status stage head_sha trigger_type lock_state : option string) (limit offset : Z)
    : SM (ListResponse ReviewRunListItem.t) :=
  let number := match pull_request_number with
                | Some 0 | None => merge_request_number
                | Some n => Some n
                end in
  keep ← _review_run_filters provider repo_full_name number status stage head_sha trigger_type
           lock_state;
  matching ← select (R := Task.t) keep;
  let review_runs := runs_among (page limit offset (order_by newest_first matching)) in
  publishing ← _provider_publishing_for_runs (Task.id <$> review_runs.*1);
  contexts ← _pull_request_contexts_for_runs review_runs.*2;
  shown ← each (λ tr, _review_run_list_item tr.1 tr.2 (publishing !! Task.id tr.1)
                        (context_shown contexts tr.2)) review_runs;
  mret (mkListResponse shown (Z.of_nat (length matching)) limit offset).

(** ** The detail of a run *)

Definition _workspace_for_run (r : ReviewRun.t) : SM (option Workspace.t) :=
  gets (λ s, head (order_by
    (λ w, (- Workspace.updated_at w) :: string_desc (Workspace.id w))
    (filter (λ w, Workspace.provider w = ReviewRun.provider r
                  ∧ Workspace.repository w = ReviewRun.repo_full_name r
                  ∧ Workspace.pull_request_number w = ReviewRun.pull_request_number r
                  ∧ Workspace.head_sha w = ReviewRun.head_sha r) (workspaces (work s))))).

(** The counts of the findings of a run: by severity, by state and by status. *)
Definition _findings_summary_for_run (run_id : string)
    : SM (Z * gmap string Z * gmap string Z * gmap string Z) :=
  l ← select (λ f, bool_decide (Finding.review_run_id f = run_id));
  mret (Z.of_nat (length l), foldl count_key ∅ (Finding.severity <$> l),
        foldl count_key ∅ (Finding.state <$> l), foldl count_key ∅ (Finding.status <$> l)).

Definition event_order (e : ProviderEventInbox.t) : list Z :=
  (- ProviderEventInbox.created_at e) :: string_desc (ProviderEventInbox.id e).

Definition _trigger_event_for_run (run_id : string) (r : ReviewRun.t)
    : SM (option ProviderEventInbox.t) :=
  match or_none (ReviewRun.trigger_event_id r) with
  | Some event_id => fetch (R := ProviderEventInbox.t) event_id
  | None =>
      gets (λ s, head (order_by event_order
        (filter (λ e, ProviderEventInbox.review_run_id e = Some run_id) (events (work s)))))
  end.

Definition _agent_task_for_run (r : ReviewRun.t) : SM (option (Task.t * AgentTask.t)) :=
  gets (λ s,
    t ← head (order_by newest_first
          (filter (agent_where (λ _ a,
             bool_decide (AgentTask.provider a = ReviewRun.provider r)
             && bool_decide (AgentTask.repo_full_name a = ReviewRun.repo_full_name r)
             && (AgentTask.pull_request_number a =? ReviewRun.pull_request_number r)))
             (tasks (work s))));
    a ← agent_of t; mret (t, a)).

(** The slot of a run and the latest delivery of its placeholder. *)
Definition _review_comment_slot_summary (run_id : string)
    : SM (option (ReviewCommentSlot.t * option DeliveryOutbox.t)) :=
  found ← slot_of_run run_id;
  match found with
  | None => mret None
  | Some slot =>
      delivery ← gets (λ s, head (order_by
        (λ d, (- DeliveryOutbox.created_at d) :: string_desc (DeliveryOutbox.id d))
        (filter (λ d, DeliveryOutbox.task_id d = run_id
                      ∧ DeliveryOutbox.operation d = "review_placeholder") (outbox (work s)))));
      error ← lift (_safe_error_message (ReviewCommentSlot.last_error slot));
      mret (Some (slot .[ ReviewCommentSlot.last_error := error ], delivery))
  end.

(** The workspace shown: the row, or the path alone when there is none. *)
Definition _workspace_summary (workspace : option Workspace.t) (workspace_path : option string)
    : outcome (option (Workspace.t + string)) :=
  match workspace, workspace_path with
  | None, None => Return None
  | None, Some path => Return (Some (inr path))
  | Some w, _ =>
      message ← _safe_error_message (Workspace.failure_message w);
      mret (Some (inl (w .[ Workspace.failure_message := message ])))
  end.

Definition _review_session_summary (review_session : option ReviewSession.t)
    : outcome (option ReviewSession.t) :=
  match review_session with
  | None => Return None
  | Some x =>
      message ← _safe_error_message (ReviewSession.error_message x);
      mret (Some (x .[ ReviewSession.error_message := message ]))
  end.

(** An event with its message shortened, and the run a request was made for. *)
Definition _linked_event_summary (event : option ProviderEventInbox.t)
    : outcome (option (ProviderEventInbox.t * option string)) :=
  match event with
  | None => Return None
  | Some e =>
      message ← _safe_error_message (ProviderEventInbox.error_message e);
      mret (Some (e .[ ProviderEventInbox.error_message := message ],
                  _str_or_none (jget (ProviderEventInbox.payload e) "source_review_run_id")))
  end.

Definition _linked_task_summary (task : option (Task.t * AgentTask.t))
    : outcome (option (Task.t * AgentTask.t)) :=
  match task with
  | None => Return None
  | Some (t, a) =>
      message ← _safe_error_message (AgentTask.error_message a);
      mret (Some (t, a .[ AgentTask.error_message := message ]))
  end.

Definition get_review_run_detail (review_run_id : string) : SM (option ReviewRunDetail.t) :=
  found ← get_review_run review_run_id;
  match found with
  | None => mret None
  | Some run_id =>
      tr ← load_run run_id;
      let r := tr.2 in
      publishing ← _provider_publishing_for_run run_id;
      context ← _pull_request_context_for_run run_id;
      workspace ← _workspace_for_run r;
      session_id ← _review_session_for_run run_id;
      review_session ← (match session_id with
                        | Some id => fetch (R := ReviewSession.t) id
                        | None => mret None
                        end);
      findings ← _findings_summary_for_run run_id;
      trigger_event ← _trigger_event_for_run run_id r;
      agent_task ← _agent_task_for_run r;
      placeholder ← _review_comment_slot_summary run_id;
      retry ← get_review_run_retry_availability run_id context None;
      rerun ← get_review_run_rerun_availability run_id context;
      item ← _review_run_list_item tr.1 r (Some publishing) context;
      workspace ← lift (_workspace_summary workspace (ReviewRun.workspace_path r));
      review_session ← lift (_review_session_summary review_session);
      trigger_event ← lift (_linked_event_summary trigger_event);
      agent_task ← lift (_linked_task_summary agent_task);
      mret (Some (ReviewRunDetail.mk item workspace review_session findings
        (default [] (ReviewRun.validation_warnings_json r))
        (default [] (ReviewRun.validation_errors_json r)) trigger_event agent_task placeholder
        retry rerun))
  end.
End run_views.

(** ** The agent session of a run or of a command task *)

Module PiAgentSessionDiagnostics.
Record t := mk {
  review_run_id : option string;
  agent_task_ids : list string;
  task : Task.t;
  agent_session_id : option string;
  execution_status : option string;
  execution_stage : option string;
  event_count : Z;
  session_available : bool;
  live_status_available : bool;
  live_status_error : option string
}.
End PiAgentSessionDiagnostics.

Section diagnostics.
Context `{PiAgentRuntime}.

(** What the runtime reports now: status, stage, number of events, and why there is
    no report.  [enabled] tells whether there is a client. *)
Definition live_status (agent_session_id : option string) (enabled : bool)
    (disabled_reason : option string)
    : SM (option string * option string * Z * option string) :=
  match or_none agent_session_id, enabled with
  | Some session_id, true =>
      reply ← attempt_client (get_session session_id);
      mret (match reply with
            | inr (message, _) => (None, None, 0, Some message)
            | inl runtime =>
                (Some (runtime_status_str (PiAgentSession.status runtime)),
                 Some (PiAgentSession.stage runtime),
                 Z.of_nat (length (PiAgentSession.events runtime)), None)
            end)
  | _, _ => mret (None, None, 0, disabled_reason)
  end.

(** The command tasks of the pull request that triggered the run or asked for it. *)
Definition _get_agent_task_ids_for_review_run (run_id : string) (r : ReviewRun.t)
    : SM (list string) :=
  l ← select (agent_where (λ _ a,
    bool_decide (AgentTask.provider a = ReviewRun.provider r)
    && bool_decide (AgentTask.repo_full_name a = ReviewRun.repo_full_name r)
    && (AgentTask.pull_request_number a =? ReviewRun.pull_request_number r)));
  mret (Task.id <$> filter (agent_where (λ _ a,
    bool_decide (AgentTask.provider_event_id a = ReviewRun.trigger_event_id r)
    || bool_decide (jget_str (default (JObj []) (AgentTask.result_json a)) "review_run_id"
                    = Some run_id))) l).

Definition diagnostics (review_run_id : option string) (agent_task_ids : list string) (t : Task.t)
    (agent_session_id : option string) (live : option string * option string * Z * option string)
    : PiAgentSessionDiagnostics.t :=
  PiAgentSessionDiagnostics.mk review_run_id agent_task_ids t agent_session_id
    live.1.1.1 live.1.1.2 live.1.2 (truthy agent_session_id)
    (bool_decide (is_Some live.1.1.1)) live.2.

Definition get_pi_agent_session_diagnostics_for_review_run (run_id : string) (enabled : bool)
    (disabled_reason : option string) : SM PiAgentSessionDiagnostics.t :=
  tr ← load_run run_id;
  agent_task_ids ← _get_agent_task_ids_for_review_run run_id tr.2;
  live ← live_status (ReviewRun.agent_session_id tr.2) enabled disabled_reason;
  mret (diagnostics (Some run_id) agent_task_ids tr.1 (ReviewRun.agent_session_id tr.2) live).

Definition get_pi_agent_session_diagnostics_for_agent_task (t : Task.t) (a : AgentTask.t)
    (enabled : bool) (disabled_reason : option string) : SM PiAgentSessionDiagnostics.t :=
  live ← live_status (AgentTask.agent_session_id a) enabled disabled_reason;
  mret (diagnostics None [Task.id t] t (AgentTask.agent_session_id a) live).

Definition get_pi_agent_session_diagnostics_for_session (agent_session_id : string)
    (enabled : bool) (disabled_reason : option string) : SM (option PiAgentSessionDiagnostics.t) :=
  runs ← select (run_where (λ _ r,
    bool_decide (ReviewRun.agent_session_id r = Some agent_session_id)));
  match head (order_by newest_first runs) with
  | Some t =>
      found ← get_pi_agent_session_diagnostics_for_review_run (Task.id t) enabled disabled_reason;
      mret (Some found)
  | None =>
      commands ← select (agent_where (λ _ a,
        bool_decide (AgentTask.agent_session_id a = Some agent_session_id)));
      match head (order_by newest_first commands) ≫= (λ t, a ← agent_of t; mret (t, a)) with
      | None => mret None
      | Some (t, a) =>
          found ← get_pi_agent_session_diagnostics_for_agent_task t a enabled disabled_reason;
          mret (Some found)
      end
  end.
End diagnostics.
