(* ===== verification/Listings.v ===== *)
(** * What the dashboard lists besides review runs

    Model of the remaining read side of
    [src/src/review_orchestrator/application/services.py]: the inbox, the tasks and
    their session archives, the resource pools, the outbox and the command tasks. *)
From Stdlib Require Import Ascii.
From S2P Require Import Prelude PyText Json Models Scheduler SchedulerAdmin Delivery ReviewRuns Webhooks Observability Views.
#[global] Open Scope Z_scope.
#[global] Open Scope orch_scope.

(** [if created_from is not None: column >= created_from], and the same for the end. *)
Definition created_between (created_from created_to : option Z) (created_at : Z) : bool :=
  match created_from with Some from => from <=? created_at | None => true end
  && match created_to with Some to => created_at <=? to | None => true end.

(** The sort key of a string column in ascending order. *)
Definition string_asc (s : string) : list Z := Z.opp <$> string_desc s.

(** The health of the command queue: tasks by status, and the age of the oldest one
    waiting. *)
Module AgentTaskQueueHealth.
Record t := mk {
  queued : Z; running : Z; completed : Z; failed : Z; cancelled : Z;
  oldest_queued_age_seconds : option Z
}.
End AgentTaskQueueHealth.

(** ** The inbox *)

(** The first task of an event is kept. *)
Definition first_task (m : gmap string string) (t : Task.t) : gmap string string :=
  match agent_of t ≫= AgentTask.provider_event_id with
  | Some event_id =>
      match m !! event_id with Some _ => m | None => <[event_id := Task.id t]> m end
  | None => m
  end.

Definition _get_agent_task_ids_for_events (provider_event_ids : list string)
    : SM (gmap string string) :=
  match provider_event_ids with
  | [] => mret ∅
  | _ =>
      found ← gets (λ s, order_by (λ t, [- Task.created_at t])
        (filter (agent_where (λ _ a, match AgentTask.provider_event_id a with
                                     | Some event_id => bool_decide (event_id ∈ provider_event_ids)
                                     | None => false
                                     end)) (tasks (work s))));
      mret (foldl first_task ∅ found)
  end.

Definition _provider_event_filters (provider repo_full_name : option string)
    (pull_request_number : option Z) (internal_event status delivery_id : option string)
    (created_from created_to : option Z) (e : ProviderEventInbox.t) : bool :=
  eq_filter provider (Some (ProviderEventInbox.provider e))
  && eq_filter repo_full_name (ProviderEventInbox.repo_full_name e)
  && int_filter pull_request_number (ProviderEventInbox.pull_request_number e)
  && eq_filter internal_event (ProviderEventInbox.internal_event e)
  && eq_filter status (Some (ProviderEventInbox.status e))
  && eq_filter delivery_id (Some (ProviderEventInbox.delivery_id e))
  && created_between created_from created_to (ProviderEventInbox.created_at e).

Module ProviderEventInboxSummary.
Record t := mk {
  event : ProviderEventInbox.t;
  source_review_run_id : option string;
  agent_task_id : option string
}.
End ProviderEventInboxSummary.

Definition _provider_event_summary (event : ProviderEventInbox.t) (agent_task_id : option string)
    : outcome ProviderEventInboxSummary.t :=
  message ← _safe_error_message (ProviderEventInbox.error_message event);
  mret (ProviderEventInboxSummary.mk (event .[ ProviderEventInbox.error_message := message ])
    (_str_or_none (jget (ProviderEventInbox.payload event) "source_review_run_id")) agent_task_id).

Definition list_provider_event_inbox (provider repo_full_name : option string)
    (pull_request_number : option Z) (internal_event status delivery_id : option string)
    (created_from created_to : option Z) (limit offset : Z)
    : SM (ListResponse ProviderEventInboxSummary.t) :=
  matching ← select (_provider_event_filters provider repo_full_name pull_request_number
    internal_event status delivery_id created_from created_to);
  let shown := page limit offset (order_by event_order matching) in
  agent_task_ids ← _get_agent_task_ids_for_events (ProviderEventInbox.id <$> shown);
  summaries ← each (λ e, lift (_provider_event_summary e (agent_task_ids !! ProviderEventInbox.id e)))
                shown;
  mret (mkListResponse summaries (Z.of_nat (length matching)) limit offset).

(** The detail of an event: its summary and, when asked for, its redacted payload. *)
Definition get_provider_event_inbox_detail (event_id : string) (include_payload : bool)
    : SM (option (ProviderEventInboxSummary.t * option json)) :=
  found ← fetch (R := ProviderEventInbox.t) event_id;
  match found with
  | None => mret None
  | Some event =>
      agent_task_id ← _get_agent_task_id_for_event (ProviderEventInbox.id event);
      summary ← lift (_provider_event_summary event agent_task_id);
      mret (Some (summary,
        if include_payload then Some (redact_value (ProviderEventInbox.payload event)) else None))
  end.

(** ** Tasks *)

(** The columns of the subclass that a task summary shows. *)
Definition _task_summary (task : Task.t) : Task.t * json :=
  (task,
   match Task.sub task with
   | Task.Review r =>
       JObj [("provider", JStr (ReviewRun.provider r));
             ("repo_full_name", JStr (ReviewRun.repo_full_name r));
             ("pull_request_number", JInt (ReviewRun.pull_request_number r));
             ("head_sha", JStr (ReviewRun.head_sha r));
             ("trigger_type", JStr (ReviewRun.trigger_type r))]
   | Task.Agent a =>
       JObj [("provider", JStr (AgentTask.provider a));
             ("repo_full_name", JStr (AgentTask.repo_full_name a));
             ("pull_request_number", JInt (AgentTask.pull_request_number a));
             ("task_type", JStr (AgentTask.task_type a));
             ("source_comment_id", option_json (AgentTask.source_comment_id a))]
   | Task.Plain => JObj []
   end).

Definition task_order (t : Task.t) : list Z :=
  [- Task.effective_priority t; Task.available_at t; Task.created_at t].

Definition list_tasks (kind capability_id status queue resource_class : option string)
    (limit offset : Z) : SM (ListResponse (Task.t * json)) :=
  matching ← select (λ t,
    eq_filter kind (Some (Task.kind t)) && eq_filter capability_id (Some (Task.capability_id t))
    && eq_filter status (Some (Task.status t)) && eq_filter queue (Some (Task.queue t))
    && eq_filter resource_class (Some (Task.resource_class t)));
  mret (mkListResponse (_task_summary <$> page limit offset (order_by task_order matching))
          (Z.of_nat (length matching)) limit offset).

Definition get_task_summary (task_id : string) : SM (option (Task.t * json)) :=
  found ← fetch (R := Task.t) task_id;
  mret (_task_summary <$> found).

(** ** Session archives *)

Definition _attempts_for_archives (l : list SessionArchive.t) : SM (gmap string TaskAttempt.t) :=
  match omap SessionArchive.task_attempt_id l with
  | [] => mret ∅
  | attempt_ids =>
      found ← select (λ a, bool_decide (TaskAttempt.id a ∈ attempt_ids));
      mret (dict_by TaskAttempt.id found)
  end.

(** An archive and the attempt it belongs to, with its message shortened. *)
Definition _session_archive_read (archive : SessionArchive.t)
    (attempts : gmap string TaskAttempt.t)
    : outcome (SessionArchive.t * option TaskAttempt.t) :=
  match SessionArchive.task_attempt_id archive ≫= (λ id, attempts !! id) with
  | None => mret (archive, None)
  | Some attempt =>
      message ← _safe_error_message (TaskAttempt.error_message attempt);
      mret (archive, Some (attempt .[ TaskAttempt.error_message := message ]))
  end.

Definition list_task_session_archives (task_id : string)
    : SM (option (list (SessionArchive.t * option TaskAttempt.t))) :=
  found ← fetch (R := Task.t) task_id;
  match found with
  | None => mret None
  | Some _ =>
      l ← gets (λ s, order_by
        (λ a, SessionArchive.created_at a :: string_asc (SessionArchive.id a))
        (filter (λ a, SessionArchive.task_id a = task_id) (archives (work s))));
      attempts ← _attempts_for_archives l;
      shown ← each (λ a, lift (_session_archive_read a attempts)) l;
      mret (Some shown)
  end.

Definition get_session_archive (archive_id : string)
    : SM (option (SessionArchive.t * option TaskAttempt.t)) :=
  found ← fetch (R := SessionArchive.t) archive_id;
  match found with
  | None => mret None
  | Some archive =>
      attempts ← _attempts_for_archives [archive];
      shown ← lift (_session_archive_read archive attempts);
      mret (Some shown)
  end.

(** ** Pools and outbox *)

Section listings.
Context `{Runtime}.

(** A pool and the units under its unexpired leases. *)
Definition list_resource_pools : SM (list (ResourcePool.t * Z)) :=
  l ← gets (λ s, order_by
    (λ p, string_asc (ResourcePool.dimension p) ++ string_asc (ResourcePool.resource_key p))
    (pools (work s)));
  now ← utc_now;
  held ← gets (λ s, leases (work s));
  mret ((λ p, (p, used_units (ResourcePool.resource_key p) now held)) <$> l).

Definition list_delivery_outbox (task_id provider status queue : option string) (limit offset : Z)
    : SM (ListResponse DeliveryOutbox.t) :=
  matching ← select (λ d,
    eq_filter task_id (Some (DeliveryOutbox.task_id d))
    && eq_filter provider (Some (DeliveryOutbox.provider d))
    && eq_filter status (Some (DeliveryOutbox.status d))
    && eq_filter queue (Some (DeliveryOutbox.queue d)));
  mret (mkListResponse (page limit offset (order_by delivery_order matching))
          (Z.of_nat (length matching)) limit offset).

Definition get_delivery_outbox (delivery_id : string) : SM (option DeliveryOutbox.t) :=
  fetch (R := DeliveryOutbox.t) delivery_id.

(** ** Command tasks *)

Definition _agent_task_filters (status provider repo_full_name : option string)
    (pull_request_number : option Z) (task_type : option string) (created_from created_to : option Z)
    : Task.t → bool :=
  agent_where (λ t a,
    eq_filter status (Some (Task.status t)) && eq_filter provider (Some (AgentTask.provider a))
    && eq_filter repo_full_name (Some (AgentTask.repo_full_name a))
    && int_filter pull_request_number (Some (AgentTask.pull_request_number a))
    && eq_filter task_type (Some (AgentTask.task_type a))
    && created_between created_from created_to (Task.created_at t)).

(** [int(x.total_seconds())] of a difference of two times. *)
Definition whole_seconds (difference : Z) : Z := Z.quot difference second.

Definition oldest_queued (l : list Task.t) : option Z :=
  match Task.created_at <$> filter (λ t, Task.status t = "queued") l with
  | [] => None
  | c :: cs => Some (foldl Z.min c cs)
  end.

Definition _agent_task_queue_health (filters : Task.t → bool) : SM AgentTaskQueueHealth.t :=
  l ← select filters;
  let counts := foldl count_key ∅ (Task.status <$> l) in
  let count (status : string) : Z := default 0 (counts !! status) in
  age ← match oldest_queued l with
        | None => mret None
        | Some oldest => now ← utc_now; mret (Some (Z.max 0 (whole_seconds (now - oldest))))
        end;
  mret (AgentTaskQueueHealth.mk (count "queued") (count "running") (count "completed")
    (count "failed") (count "cancelled") age).

(** The links of a provider to the comments it published, when it offers them. *)
Context (agent_task_comment_url : option (Task.t → option string)).

Definition link (prefix : string) (id : option string) : option string :=
  (λ id, prefix +:+ id) <$> (match id with Some (String c s) => Some (String c s) | _ => None end).

(** A command task with its message shortened, and its links: to the published comment,
    to its event and to its pull request. *)
Definition _agent_task_summary (t : Task.t) (a : AgentTask.t)
    : outcome (Task.t * AgentTask.t * option string * option string * option string) :=
  message ← _safe_error_message (AgentTask.error_message a);
  mret (t, a .[ AgentTask.error_message := message ],
        agent_task_comment_url ≫= (λ url, url t),
        link "/api/v1/provider-events/" (AgentTask.provider_event_id a),
        link "/api/v1/pull-request-contexts/" (AgentTask.pull_request_context_id a)).

Definition commands_among (l : list Task.t) : list (Task.t * AgentTask.t) :=
  omap (λ t, a ← agent_of t; mret (t, a)) l.

Definition list_agent_tasks (status provider repo_full_name : option string)
    (pull_request_number : option Z) (task_type : option string) (created_from created_to : option Z)
    (limit offset : Z)
    : SM (ListResponse (Task.t * AgentTask.t * option string * option string * option string)
          * AgentTaskQueueHealth.t) :=
  matching ← select (R := Task.t) (_agent_task_filters status provider repo_full_name
    pull_request_number task_type created_from created_to);
  shown ← each (λ ta, lift (_agent_task_summary ta.1 ta.2))
            (commands_among (page limit offset (order_by newest_first matching)));
  health ← _agent_task_queue_health (_agent_task_filters None provider repo_full_name
    pull_request_number task_type created_from created_to);
  mret (mkListResponse shown (Z.of_nat (length matching)) limit offset, health).

(** The detail of a command task: its summary, its redacted input and its result. *)
Definition get_agent_task_detail (task_id : string)
    : SM (option ((Task.t * AgentTask.t * option string * option string * option string)
                  * option json * option json)) :=
  found ← fetch (R := Task.t) task_id;
  match found ≫= (λ t, a ← agent_of t; mret (t, a)) with
  | None => mret None
  | Some (t, a) =>
      summary ← lift (_agent_task_summary t a);
      mret (Some (summary, redact_value <$> AgentTask.input_json a, AgentTask.result_json a))
  end.
End listings.
