(* ===== verification/ViewTheorems.v ===== *)
(** * What the list shows is what the detail shows

    The list of runs fetches the contexts and the comments of all its runs at once;
    the detail of a run fetches its own.  The lock filter of the list selects by the
    state it shows. *)
From S2P Require Import Prelude PyText Json Models SchedulerAdmin Demo Delivery ReviewRuns Views.
#[global] Open Scope Z_scope.
#[global] Open Scope orch_scope.

Lemma filter_filter_inner {A} (P Q : A → Prop) `{∀ x, Decision (P x), ∀ x, Decision (Q x)}
    (l : list A) :
  (∀ x, P x → Q x) → filter P (filter Q l) = filter P l.
Proof.
  intros HPQ. induction l as [|x l IH]; [done|]. rewrite !filter_cons.
  destruct (decide (Q x)) as [HQ|HQ].
  - rewrite filter_cons, IH. done.
  - rewrite IH, decide_False by auto. done.
Qed.

Lemma dict_by_lookup {A K} `{Countable K} (key : A → K) l k :
  dict_by key l !! k = last (filter (λ x, key x = k) l).
Proof.
  unfold dict_by. induction l as [|x l IH] using rev_ind; [done|].
  rewrite foldl_app, filter_app. simpl. rewrite filter_cons, filter_nil.
  destruct (decide (key x = k)) as [<-|Hne].
  - by rewrite lookup_insert_eq, last_snoc.
  - by rewrite lookup_insert_ne, app_nil_r by done.
Qed.

Lemma add_ref_lookup refs run_id :
  foldl add_ref ∅ refs !! run_id =
  match filter (λ x, ReviewCommentRef.review_run_id x = Some run_id) refs with
  | [] => None
  | l => Some l
  end.
Proof.
  induction refs as [|x refs IH] using rev_ind; [done|].
  rewrite foldl_app, filter_app. simpl. rewrite filter_cons, filter_nil. unfold add_ref at 1.
  destruct (ReviewCommentRef.review_run_id x) as [id|] eqn:Ex;
    [|by rewrite decide_False, app_nil_r by done].
  destruct (decide (Some id = Some run_id)) as [[= ->]|Hne].
  - rewrite lookup_insert_eq, IH. by destruct (filter _ refs).
  - rewrite lookup_insert_ne by congruence. by rewrite app_nil_r.
Qed.

Section views.
Context `{Runtime}.

Lemma publishing_lookup run_ids run_id s :
  run_id ∈ run_ids →
  match _provider_publishing_for_runs run_ids s with
  | (Return m, s') => s' = s ∧ m !! run_id =
      match filter (λ x, ReviewCommentRef.review_run_id x = Some run_id) (comment_refs (work s)) with
      | [] => None
      | l => Some (_provider_publishing_from_refs l)
      end
  | (Raise _, _) => False
  end.
Proof.
  intros Hin. unfold _provider_publishing_for_runs. destruct run_ids as [|k ks]; [set_solver|].
  run_steps. split; [done|]. rewrite lookup_fmap, add_ref_lookup, filter_filter_inner.
  - change (rows (work s)) with (comment_refs (work s)). by destruct (filter _ _).
  - intros x Hx. rewrite Hx. by apply bool_decide_pack.
Qed.

(** The contexts of the database have distinct keys and belong to distinct pull
    requests. *)
Definition contexts_distinct (d : Db) : Prop :=
  NoDup (PullRequestContext.id <$> contexts d) ∧ NoDup (context_identity <$> contexts d).

Lemma filter_key_one {A} {K} `{EqDecision K} (key : A → K) (l : list A) k :
  NoDup (key <$> l) →
  filter (λ x, key x = k) l = [] ∨ ∃ x, filter (λ x, key x = k) l = [x].
Proof.
  induction l as [|x l IH]; [by left|]. rewrite fmap_cons, filter_cons.
  intros [Hx Hnd]%NoDup_cons. case_decide as Hk; [|by apply IH]. right. exists x. f_equal.
  apply filter_none. intros y Hy Hky. apply Hx. rewrite Hk, <- Hky. by apply list_elem_of_fmap_2.
Qed.

Lemma context_of_identity r c :
  context_of (ReviewRun.provider r) (ReviewRun.repo_full_name r) (ReviewRun.pull_request_number r) c
  ↔ context_identity c = _review_run_identity r.
Proof.
  unfold context_of, context_identity, _review_run_identity.
  rewrite !Is_true_andb, !bool_decide_spec, Is_true_true, Z.eqb_eq.
  split; [by intros [[-> ->] ->]|by intros [= -> -> ->]].
Qed.

Lemma context_by_identity_run r s :
  contexts_distinct (work s) →
  context_by_identity (ReviewRun.provider r) (ReviewRun.repo_full_name r)
    (ReviewRun.pull_request_number r) s =
  (Return (last (filter (λ c, context_identity c = _review_run_identity r) (contexts (work s)))), s).
Proof.
  intros [_ Hnd]. unfold context_by_identity. run_steps.
  change (rows (work s)) with (contexts (work s)).
  rewrite (list_filter_iff _ (λ c, context_identity c = _review_run_identity r))
    by apply context_of_identity.
  by destruct (filter_key_one context_identity _ (_review_run_identity r) Hnd) as [->|[c ->]].
Qed.

(** The contexts a batch of runs selects. *)
Definition selected_contexts (rs : list ReviewRun.t) (d : Db) : list PullRequestContext.t :=
  filter (λ c, bool_decide (context_identity c ∈ _review_run_identity <$> rs)
               || bool_decide (PullRequestContext.id c ∈ omap bound_context_id rs)) (contexts d).

Lemma selected_by_identity rs r d :
  r ∈ rs →
  dict_by context_identity (selected_contexts rs d) !! _review_run_identity r =
  last (filter (λ c, context_identity c = _review_run_identity r) (contexts d)).
Proof.
  intros Hr. rewrite dict_by_lookup. unfold selected_contexts. rewrite filter_filter_inner; [done|].
  intros c ->. rewrite bool_decide_true; [done|]. by apply list_elem_of_fmap_2.
Qed.

Lemma selected_by_id rs r id d :
  r ∈ rs → bound_context_id r = Some id → NoDup (PullRequestContext.id <$> contexts d) →
  dict_by PullRequestContext.id (selected_contexts rs d) !! id = find_row id (contexts d).
Proof.
  intros Hr Hid Hnd. rewrite dict_by_lookup. unfold selected_contexts. rewrite filter_filter_inner.
  - unfold find_row. change (row_key (R := PullRequestContext.t)) with PullRequestContext.id.
    by destruct (filter_key_one PullRequestContext.id _ id Hnd) as [->|[c ->]].
  - intros c ->. apply orb_True. right. apply bool_decide_pack, list_elem_of_omap. eauto.
Qed.

Lemma context_shown_run rs r run_id t s :
  contexts_distinct (work s) → r ∈ rs →
  find_row run_id (tasks (work s)) = Some t → review_of t = Some r →
  ReviewRun.pull_request_context_id r ≠ Some "" →
  _pull_request_context_for_run run_id s =
  (Return (context_shown (dict_by PullRequestContext.id (selected_contexts rs (work s)),
                          dict_by context_identity (selected_contexts rs (work s))) r), s).
Proof.
  intros Hd Hr Ht Hrun Hne. pose proof (proj1 Hd) as Hnd. unfold _pull_request_context_for_run, load_run.
  rewrite !bind_run, (Models.load_run _ _ t Ht), Hrun. cbn [mret M_ret fst snd].
  unfold context_shown. cbn [fst snd]. rewrite selected_by_identity by done.
  rewrite bind_run. destruct (ReviewRun.pull_request_context_id r) as [[|c id]|] eqn:Eid; [done| |].
  - cbn [mbind option_bind]. rewrite (selected_by_id _ r) by (done || by unfold bound_context_id; rewrite Eid).
    simpl. change (rows (work s)) with (contexts (work s)).
    destruct (find_row (String c id) (contexts (work s))); [done|]. by apply context_by_identity_run.
  - cbn [mret M_ret]. by apply context_by_identity_run.
Qed.


(** The lock filter of the list selects the runs whose lock state is shown as asked,
    at one reading of the clock. *)
Lemma lock_filter_shows_state t s state :
  state ∈ ["unlocked"; "locked"; "expired"] →
  lock_filter (Some state) (clock (ticks s)) t = bool_decide (result (_lock_state t) s = Return state).
Proof.
  intros Hstate. unfold lock_filter, _lock_state, _is_past, result.
  destruct (Task.lock_owner t) as [owner|]; cycle 1.
  { repeat (apply elem_of_cons in Hstate as [->|Hstate]); [done..|by apply elem_of_nil in Hstate]. }
  destruct (Task.locked_until t) as [until|]; cycle 1.
  { repeat (apply elem_of_cons in Hstate as [->|Hstate]); [done..|by apply elem_of_nil in Hstate]. }
  rewrite Z.ltb_antisym. run_steps. cbn [fst]. generalize (until <=? clock (ticks s)). intros past.
  repeat (apply elem_of_cons in Hstate as [->|Hstate]); [by destruct past..|by apply elem_of_nil in Hstate].
Qed.
End views.

(** A listed run whose context is found by its key, and one found by its pull
    request. *)
Definition demo_context (id : string) (n : Z) : PullRequestContext.t :=
  PullRequestContext.mk id "github" "octo/app" None n None None None None None None "head111" None
    false "open" None None None None None None 0.

Definition demo_ref (id run_id type : string) : ReviewCommentRef.t :=
  ReviewCommentRef.mk id "github" "octo/app" 7 (Some run_id) None type ("c-" +:+ id) None "active" None.

Definition listed_run : ReviewRun.t :=
  (demo_run "head111" 1) .[ ReviewRun.pull_request_context_id := Some "ctx-2" ].

Definition listing_db : Db :=
  (with_tasks [demo_review "r1" "running" "running" (demo_run "head111" 1);
               demo_review "r2" "running" "running" listed_run])
    .[ contexts := [demo_context "ctx-1" 7; demo_context "ctx-2" 8] ]
    .[ comment_refs := [demo_ref "a" "r1" "summary"; demo_ref "b" "r2" "line"] ].


(** What the list shows of the two runs: their contexts, and how many line comments
    they have. *)
Example listing_on_demo :
  let _ := demo_runtime in
  match result (list_review_runs None None None None None None None None None 50 0)
          (demo_session listing_db) with
  | Return l =>
      (λ i, (PullRequestContext.id <$> ReviewRunListItem.pull_request_context i,
             ReviewRunProviderPublishing.line_comment_count
               (ReviewRunListItem.provider_publishing i))) <$> items l
  | Raise _ => []
  end = [(Some "ctx-2", 1); (Some "ctx-1", 0)].
Proof. vm_compute. reflexivity. Qed.

(** One run whose error text is empty makes the whole list fail. *)
Example blank_error_breaks_the_list :
  let _ := demo_runtime in
  let blank := (demo_run "head111" 1) .[ ReviewRun.error := Some "" ] in
  result (list_review_runs None None None None None None None None None 50 0)
    (demo_session (with_tasks [demo_review "r1" "running" "running" (demo_run "head222" 1);
                               demo_review "r2" "failed" "failed" blank]))
    = Raise (IndexError "list index out of range").
Proof. vm_compute. reflexivity. Qed.
