(* ===== verification/Diffs.v ===== *)
(** * The lines of a diff that can carry a comment

    Model of [parse_commentable_lines] in
    [src/src/review_orchestrator/integrations/github.py], which the clients of both
    platforms use: from the patch of a file to the numbers of its new lines. *)
From Stdlib Require Import Ascii.
From S2P Require Import Prelude PyText Json.
#[global] Open Scope Z_scope.
#[global] Open Scope orch_scope.

(** [int(start)], where a text that is not a number has no value. *)
Definition _parse_hunk_new_start (header : string) : option Z :=
  match split_once " +" header with
  | None => None
  | Some (_, after) =>
      let range_part := (py_partition " "%char after).1.1 in
      let start := (py_partition ","%char range_part).1.1 in
      py_int start
  end.

(** [lines.add(n)]. *)
Definition set_add (n : Z) (l : list Z) : list Z := if bool_decide (n ∈ l) then l else l ++ [n].

(** One line of the loop: the number of the next new line, and the lines found. *)
Definition patch_line (raw_line : string) (st : option Z * list Z) : option Z * list Z :=
  if starts_with "@@" raw_line then (_parse_hunk_new_start raw_line, st.2)
  else
    match st.1 with
    | None => st
    | Some new_line =>
        if starts_with "+" raw_line && negb (starts_with "+++" raw_line)
        then (Some (new_line + 1), set_add new_line st.2)
        else if starts_with "-" raw_line && negb (starts_with "---" raw_line) then st
        else (Some (new_line + 1), st.2)
    end.

Definition parse_commentable_lines (patch : option json) : list Z :=
  match patch with
  | Some (JStr patch) => (foldl (λ st raw_line, patch_line raw_line st) (None, []) (splitlines patch)).2
  | _ => []
  end.
