(* ===== verification/DiffTheorems.v ===== *)
(** * Where a comment can go

    The lines found in the patch of a file are its added lines, under the number they
    have in the new file: for the patches in which the text of a line cannot be taken for
    a file header.  Two patches in which it can show how the numbers go wrong. *)
From Stdlib Require Import Ascii.
From S2P Require Import Prelude PyText Json Diffs.
#[global] Open Scope Z_scope.
#[global] Open Scope orch_scope.

(** ** Patches *)

Inductive diff_line :=
  | Unchanged (text : string)
  | Added (text : string)
  | Removed (text : string).

Module Hunk.
Record t := mk {
  old_start : Z; old_count : Z; new_start : Z; new_count : Z;
  section : string;
  body : list diff_line
}.
End Hunk.

Definition render_line (l : diff_line) : string :=
  match l with
  | Unchanged text => String " " text
  | Added text => String "+" text
  | Removed text => String "-" text
  end.

Definition render_header (h : Hunk.t) : string :=
  "@@ -" +:+ str_int (Hunk.old_start h) +:+ "," +:+ str_int (Hunk.old_count h)
  +:+ " +" +:+ str_int (Hunk.new_start h) +:+ "," +:+ str_int (Hunk.new_count h)
  +:+ " @@" +:+ Hunk.section h.

Definition render_hunk (h : Hunk.t) : list string :=
  render_header h :: (render_line <$> Hunk.body h).

Definition newline : string := String "010" "".

Definition render_patch (hunks : list Hunk.t) : string :=
  py_join newline (hunks ≫= render_hunk).

(** The part of the new file that a hunk shows: which of its lines are added. *)
Definition new_side (body : list diff_line) : list (bool * string) :=
  omap (λ l, match l with
             | Unchanged text => Some (false, text)
             | Added text => Some (true, text)
             | Removed _ => None
             end) body.

Definition unbroken (text : string) : bool := str_all (λ c, negb (is_line_break c)) text.

(** No line of the hunk looks like the header of a file. *)
Definition plain_line (l : diff_line) : bool :=
  match l with
  | Unchanged text => unbroken text
  | Added text => unbroken text && negb (starts_with "++" text)
  | Removed text => unbroken text && negb (starts_with "--" text)
  end.

Definition plain_hunk (h : Hunk.t) : bool :=
  (0 <=? Hunk.old_start h) && (0 <=? Hunk.old_count h) && (0 <=? Hunk.new_start h)
  && (0 <=? Hunk.new_count h) && unbroken (Hunk.section h) && forallb plain_line (Hunk.body h).

(** ** Lines *)

Lemma splitlines_unbroken l : unbroken l → l ≠ "" → splitlines l = [l].
Proof.
  induction l as [|c l IH]; unfold unbroken; cbn [str_all]; [done|].
  rewrite Is_true_andb. intros [Hc Hl] _. cbn [splitlines].
  destruct (is_line_break c); [done|]. destruct l as [|d l]; [done|]. by rewrite IH.
Qed.

Lemma splitlines_app l rest : unbroken l → splitlines (l +:+ String "010" rest) = l :: splitlines rest.
Proof.
  induction l as [|c l IH]; unfold unbroken; cbn [str_all].
  - intros _. rewrite str_app_nil_l. by destruct rest.
  - rewrite Is_true_andb, str_app_cons. intros [Hc Hl]. cbn [splitlines].
    rewrite IH by done. by destruct (is_line_break c).
Qed.

Lemma splitlines_join ls :
  Forall (λ l, Is_true (unbroken l) ∧ l ≠ "") ls → splitlines (py_join newline ls) = ls.
Proof.
  induction 1 as [|l ls [Hl Hne] Hls IH]; [done|].
  destruct ls as [|l' ls]; cbn [py_join]; [by apply splitlines_unbroken|].
  change (l +:+ newline +:+ ?x) with (l +:+ String "010" x).
  rewrite splitlines_app by done. f_equal. exact IH.
Qed.

Lemma split_once_later sep c s :
  starts_with sep (String c s) = false →
  split_once sep (String c s) = '(before, after) ← split_once sep s; Some (String c before, after).
Proof. intros H. cbn [split_once]. by rewrite H. Qed.

Lemma split_once_skip x rest :
  str_all (λ a, negb (char_eqb a " ")) x →
  split_once " +" (x +:+ rest) = '(before, after) ← split_once " +" rest; Some (x +:+ before, after).
Proof.
  induction x as [|a x IH]; cbn [str_all].
  - intros _. rewrite str_app_nil_l. by destruct (split_once _ rest) as [[??]|].
  - rewrite Is_true_andb, str_app_cons. intros [Ha Hx]. rewrite split_once_later.
    + rewrite IH by done. by destruct (split_once _ rest) as [[??]|].
    + cbn [starts_with]. rewrite char_eqb_neq; [done|]. intros <-. done.
Qed.

Lemma str_drop_app p s : str_drop (String.length p) (p +:+ s) = s.
Proof. by induction p. Qed.

Lemma str_int_numeral n : 0 ≤ n → str_all is_digit (str_int n).
Proof. intros Hn. assert (str_int n = pretty (Z.to_N n)) as -> by (by destruct n). apply pretty_N_digits. Qed.

Lemma digits_free c s : negb (is_digit c) → str_all is_digit s → free_of c s.
Proof.
  intros Hc. apply str_all_weaken. intros d Hd. destruct (decide (d = c)) as [->|Hne].
  - by destruct (is_digit c).
  - by rewrite char_eqb_neq.
Qed.

Lemma py_partition_char c s t : free_of c s → (py_partition c (s +:+ String c t)).1.1 = s.
Proof. intros H. by rewrite py_partition_app. Qed.

(** The header of a hunk gives the number of its first new line. *)
Lemma header_start h :
  0 ≤ Hunk.old_start h → 0 ≤ Hunk.old_count h → 0 ≤ Hunk.new_start h →
  0 ≤ Hunk.new_count h → _parse_hunk_new_start (render_header h) = Some (Hunk.new_start h).
Proof.
  intros Ha Hb Hc Hd. unfold _parse_hunk_new_start, render_header.
  set (new := str_int (Hunk.new_start h) +:+ _).
  assert (split_once " +" (String " " (String "+" new)) = Some ("", new)) as Hnew by done.
  assert (∃ before, split_once " +" ("@@ -" +:+ str_int (Hunk.old_start h) +:+ "," +:+
    str_int (Hunk.old_count h) +:+ " +" +:+ new) = Some (before, new)) as [before ->].
  { assert (Hspace : ∀ n, 0 ≤ n → str_all (λ a, negb (char_eqb a " ")) (str_int n))
      by (intros; by apply digits_free, str_int_numeral).
    rewrite ?str_app_cons, ?str_app_nil_l. do 4 rewrite split_once_later by reflexivity.
    rewrite split_once_skip by by apply Hspace. rewrite split_once_later by reflexivity.
    rewrite split_once_skip by by apply Hspace. rewrite Hnew. by eexists. }
  subst new.
  assert (Hfree : ∀ n, 0 ≤ n → ∀ c, negb (is_digit c) → free_of c (str_int n))
    by (intros; by apply digits_free, str_int_numeral).
  replace (str_int (Hunk.new_start h) +:+ _) with
    ((str_int (Hunk.new_start h) +:+ String "," (str_int (Hunk.new_count h)))
     +:+ String " " ("@@" +:+ Hunk.section h))
    by by rewrite !str_app_assoc.
  cbv zeta. rewrite py_partition_char.
  - rewrite py_partition_char by by apply Hfree. by apply py_int_str_int.
  - unfold free_of. rewrite str_all_app, Is_true_andb. split; [by apply Hfree|]. by apply Hfree.
Qed.

(** ** The loop *)

(** The numbers of the added lines among new lines that start at a number. *)
Definition added_at (n : Z) (body : list diff_line) (m : Z) : Prop :=
  ∃ (i : nat) text, new_side body !! i = Some (true, text) ∧ m = n + Z.of_nat i.

Lemma added_at_nil n m : ¬ added_at n [] m.
Proof. by intros (i & text & Hi & _). Qed.

Lemma added_at_cons n l body m :
  added_at n (l :: body) m ↔
  match l with
  | Unchanged _ => added_at (n + 1) body m
  | Added _ => m = n ∨ added_at (n + 1) body m
  | Removed _ => added_at n body m
  end.
Proof.
  unfold added_at. destruct l; cbn; [| |done].
  - split.
    + intros ([|i] & t & Hi & ->); [done|]. exists i, t. split; [done|lia].
    + intros (i & t & Hi & ->). exists (S i), t. split; [done|lia].
  - split.
    + intros ([|i] & t & Hi & ->); [left; lia|]. right. exists i, t. split; [done|lia].
    + intros [->|(i & t & Hi & ->)]; [exists 0%nat, text; split; [done|lia]|].
      exists (S i), t. split; [done|lia].
Qed.

Lemma elem_of_set_add m n l : m ∈ set_add n l ↔ m = n ∨ m ∈ l.
Proof. unfold set_add. case_bool_decide; set_solver. Qed.

Abbreviation patch_lines := (foldl (λ st raw_line, patch_line raw_line st)).

Lemma body_lines body n acc :
  forallb plain_line body →
  ∃ n' acc', patch_lines (Some n, acc) (render_line <$> body) = (Some n', acc') ∧
    ∀ m, m ∈ acc' ↔ m ∈ acc ∨ added_at n body m.
Proof.
  revert n acc. induction body as [|l body IH]; intros n acc; cbn [forallb].
  - intros _. exists n, acc. split; [done|]. intros m. pose proof (added_at_nil n m). tauto.
  - rewrite Is_true_andb. intros [Hl Hbody]. cbn [fmap list_fmap foldl].
    assert (∃ n1 acc1, patch_line (render_line l) (Some n, acc) = (Some n1, acc1) ∧
      ∀ m, m ∈ acc1 ∨ added_at n1 body m ↔ m ∈ acc ∨ added_at n (l :: body) m)
      as (n1 & acc1 & -> & Hstep).
    { setoid_rewrite added_at_cons. destruct l as [text|text|text]; unfold patch_line.
      - by exists (n + 1), acc.
      - apply Is_true_andb in Hl as [_ Hl]. cbn. apply negb_True in Hl.
        destruct (starts_with "++" text) eqn:E; [done|]. cbn in E. rewrite E.
        exists (n + 1), (set_add n acc). split; [done|]. intros m. rewrite elem_of_set_add. tauto.
      - apply Is_true_andb in Hl as [_ Hl]. cbn.
        destruct (starts_with "--" text) eqn:E; [done|]. cbn in E. rewrite E.
        by exists n, acc. }
    destruct (IH n1 acc1 Hbody) as (n' & acc' & -> & Hacc').
    exists n', acc'. split; [done|]. intros m. by rewrite Hacc', Hstep.
Qed.

Lemma plain_hunk_spec h :
  plain_hunk h →
  (0 ≤ Hunk.old_start h ∧ 0 ≤ Hunk.old_count h ∧ 0 ≤ Hunk.new_start h ∧ 0 ≤ Hunk.new_count h) ∧
  unbroken (Hunk.section h) ∧ forallb plain_line (Hunk.body h).
Proof.
  unfold plain_hunk. rewrite !Is_true_andb, !Is_true_true, !Z.leb_le. tauto.
Qed.

Lemma hunk_lines h st :
  plain_hunk h →
  ∃ n' acc', patch_lines st (render_hunk h) = (Some n', acc') ∧
    ∀ m, m ∈ acc' ↔ m ∈ st.2 ∨ added_at (Hunk.new_start h) (Hunk.body h) m.
Proof.
  intros [(Ha & Hb & Hc & Hd) [_ Hbody]]%plain_hunk_spec. unfold render_hunk. cbn [foldl].
  assert (patch_line (render_header h) st = (Some (Hunk.new_start h), st.2)) as ->.
  { unfold patch_line. change (starts_with "@@" (render_header h)) with true. cbv iota.
    by rewrite header_start. }
  by apply body_lines.
Qed.

Lemma hunks_lines hunks st :
  Forall (λ h, Is_true (plain_hunk h)) hunks →
  ∀ m, m ∈ (patch_lines st (hunks ≫= render_hunk)).2 ↔
    m ∈ st.2 ∨ ∃ h, h ∈ hunks ∧ added_at (Hunk.new_start h) (Hunk.body h) m.
Proof.
  intros Hall. revert st. induction Hall as [|h hunks Hh Hall IH]; intros st m.
  - cbn. set_solver.
  - rewrite bind_cons, foldl_app. destruct (hunk_lines h st Hh) as (n' & acc' & -> & Hacc').
    rewrite IH. cbn. rewrite Hacc'. set_solver.
Qed.

Lemma rendered_unbroken h : plain_hunk h → Forall (λ l, Is_true (unbroken l) ∧ l ≠ "") (render_hunk h).
Proof.
  intros [(Ha & Hb & Hc & Hd) [Hs Hbody]]%plain_hunk_spec.
  assert (Hdigits : ∀ n, 0 ≤ n → unbroken (str_int n)).
  { intros n Hn. eapply str_all_weaken; [|by apply str_int_numeral]. intros c.
    rewrite !Is_true_true, negb_true_iff. unfold is_digit, is_line_break, in_range.
    rewrite !andb_true_iff, !orb_false_iff, !andb_false_iff, !Z.leb_le, !Z.leb_gt, Z.eqb_neq. lia. }
  unfold render_hunk. constructor.
  - split; [|done]. unfold render_header, unbroken. rewrite !str_all_app, !Is_true_andb.
    split_and!; try done; by apply Hdigits.
  - apply Forall_fmap, Forall_forall. intros l Hl.
    assert (plain_line l) as Hplain.
    { apply Is_true_true in Hbody. rewrite forallb_forall in Hbody.
      apply Is_true_true, Hbody. by apply list_elem_of_In. }
    destruct l; cbn in *; rewrite ?Is_true_andb in Hplain; split; done || tauto.
Qed.

(** C19: the lines of a patch that can carry a comment are its added lines, each under
    its number in the new file.  It is so for every patch whose lines contain no line
    break of their own and cannot be taken for the header of a file: no added text begins
    with "++", no removed text with "--", and no marker for a missing final newline
    occurs. *)
Theorem commentable_lines_are_added_lines hunks m :
  Forall (λ h, Is_true (plain_hunk h)) hunks →
  m ∈ parse_commentable_lines (Some (JStr (render_patch hunks))) ↔
  ∃ h (i : nat) text, h ∈ hunks ∧ new_side (Hunk.body h) !! i = Some (true, text) ∧
    m = Hunk.new_start h + Z.of_nat i.
Proof.
  intros Hall. unfold parse_commentable_lines, render_patch. rewrite splitlines_join.
  - rewrite hunks_lines by done. cbn. unfold added_at. set_solver.
  - apply Forall_forall. intros l (h & Hl & Hh)%list_elem_of_bind.
    rewrite Forall_forall in Hall. pose proof (rendered_unbroken h (Hall h Hh)) as Hr.
    rewrite Forall_forall in Hr. by apply Hr.
Qed.

Definition example_patch : list Hunk.t :=
  [Hunk.mk 1 3 1 3 "" [Unchanged "a"; Removed "b"; Added "B"; Unchanged "c"];
   Hunk.mk 10 2 10 3 " def f():" [Unchanged "x"; Added "y"; Unchanged "z"]].

Lemma commentable_lines_are_added_lines_witness :
  11 ∈ parse_commentable_lines (Some (JStr (render_patch example_patch))).
Proof.
  apply (commentable_lines_are_added_lines example_patch 11).
  - repeat constructor.
  - exists (Hunk.mk 10 2 10 3 " def f():" [Unchanged "x"; Added "y"; Unchanged "z"]), 1%nat, "y".
    split; [by apply list_elem_of_further, list_elem_of_here|]. by split.
Defined.

(** A removed comment of SQL or Lua begins with two dashes.  Its line is then counted as
    a line of the new file, and the line added after it gets the number 2, not 1. *)
Example removed_dashes_shift_lines :
  parse_commentable_lines (Some (JStr (render_patch
    [Hunk.mk 1 1 1 1 "" [Removed "-- old comment"; Added "SELECT 1"]]))) = [2].
Proof. reflexivity. Qed.

(** The marker for a missing newline at the end of the old file is counted as well. *)
Example missing_newline_shifts_lines :
  parse_commentable_lines (Some (JStr (py_join newline
    ["@@ -1 +1 @@"; "-a"; "\ No newline at end of file"; "+b"]))) = [2].
Proof. reflexivity. Qed.

(** An added line that begins with "++", an increment in C, is not found. *)
Example added_increment_is_missed :
  parse_commentable_lines (Some (JStr (render_patch
    [Hunk.mk 0 0 1 1 "" [Added "++i;"]]))) = [].
Proof. reflexivity. Qed.
