(* ===== verification/PlatformClient.v ===== *)
(** * Talking to a code platform

    What the clients of both platforms,
    [src/src/review_orchestrator/integrations/github.py] and [gitlab.py], have in
    common: sending a request, reading its reply, and reading all pages of a list.  The
    HTTP library and the validation of comments are the class [PlatformHttp]; how a
    platform replies may depend on the requests it has received. *)
From S2P Require Import Prelude PyText Json World Models.
#[global] Open Scope Z_scope.
#[global] Open Scope orch_scope.

(** [GitHubComment] and [GitLabNote]: the identifier, the text, and all fields, which
    the model keeps. *)
Module PlatformComment.
Record t := mk { id : json; body : option string; fields : json }.
End PlatformComment.

Class PlatformHttp := {
  http_exchange : list HttpRequest.t → HttpRequest.t → http_reply;
  parse_json : string → option json;
  validate_comment : json → outcome PlatformComment.t;
  (** the authentication of [github_auth.py]: a token, or why there is none *)
  github_token : list HttpRequest.t → string → option string + string;
  github_static_token : option string;
  gitlab_token : option string;
  (** the number of pages a list is read to at most *)
  page_limit : nat
}.

Section client.
Context `{PlatformHttp}.

Definition http_send (request : HttpRequest.t) : SM http_reply := λ s,
  (Return (http_exchange (sent s) request), s .[ sent := sent s ++ [request] ]).

(** The end of [_request]: errors of the platform and of the connection become the
    exception of the client; a reply without content is an empty object. *)
Definition read_reply (platform method path : string) (client_error : string → exn)
    (reply : http_reply) : outcome json :=
  match reply with
  | HTTPStatusError status_code _ =>
      Raise (client_error (platform +:+ " request failed (" +:+ str_int status_code +:+ " "
        +:+ method +:+ " " +:+ path +:+ ")."))
  | RequestError _ =>
      Raise (client_error (platform +:+ " request failed (" +:+ method +:+ " " +:+ path
        +:+ "): transport error."))
  | HttpReply _ "" => Return (JObj [])
  | HttpReply _ content =>
      match parse_json content with
      | Some value => Return value
      | None => Raise (ValueError "Expecting value")
      end
  end.

(** [_paginate]: pages of a hundred until one is shorter. *)
Fixpoint paginate_from (get_page : Z → SM json) (not_a_list : exn) (fuel : nat) (page : Z)
    (items : list json) : SM (list json) :=
  match fuel with
  | O => raise (OtherError "page limit")
  | S fuel =>
      response ← get_page page;
      match response with
      | JList found =>
          let items := items ++ found in
          if Z.of_nat (length found) <? 100 then mret items
          else paginate_from get_page not_a_list fuel (page + 1) items
      | _ => raise not_a_list
      end
  end.

Definition page_params (page : Z) : list (string * Z) := [("per_page", 100); ("page", page)].

(** [[Comment.model_validate(item) for item in items]]. *)
Definition comments_of (items : list json) : outcome (list PlatformComment.t) :=
  outcome_concat (λ item, comment ← validate_comment item; mret [comment]) items.

(** [value[key]] for a value that need not be an object. *)
Definition subscript (value : json) (key : string) : outcome json :=
  match value with
  | JObj _ => jindex value key
  | JList _ => Raise (TypeError "list indices must be integers or slices, not str")
  | JStr _ => Raise (TypeError "string indices must be integers, not 'str'")
  | JNull | JBool _ | JInt _ => Raise (TypeError "object is not subscriptable")
  end.

(** [str(response["id"])]. *)
Definition id_of (response : json) : outcome string :=
  id ← subscript response "id"; mret (py_str id).
End client.
