(* ===== verification/GitHubClient.v ===== *)
(** * The GitHub client

    Model of [GitHubClient] in [src/src/review_orchestrator/integrations/github.py]
    and of [fetch_changed_files]. *)
From S2P Require Import Prelude PyText Json World Models Delivery Diffs PlatformClient.
#[global] Open Scope Z_scope.
#[global] Open Scope orch_scope.

Section github_client.
Context `{PlatformHttp}.

Definition get_token (repo_full_name : string) : SM (option string) :=
  found ← gets (λ s, github_token (sent s) repo_full_name);
  match found with
  | inl token => mret token
  | inr message => raise (GitHubClientError message)
  end.

Definition _request (method path : string) (body : option json) (params : list (string * Z))
    (repo_full_name : string) : SM json :=
  token ← (if bool_decide (repo_full_name = "") then mret github_static_token
           else get_token repo_full_name);
  reply ← http_send (HttpRequest.mk "github" method path params (or_none token) body);
  lift (read_reply "GitHub" method path GitHubClientError reply).

Definition _paginate (path repo_full_name : string) : SM (list json) :=
  paginate_from (λ page, _request "GET" path None (page_params page) repo_full_name)
    (GitHubClientError ("GitHub response for " +:+ path +:+ " is not a list.")) page_limit 1 [].

(** The path of a resource of a repository. *)
Definition repo_path (repo_full_name rest : string) : string :=
  "/repos/" +:+ repo_full_name +:+ rest.
Definition issue_comments_path (repo_full_name : string) (number : Z) : string :=
  repo_path repo_full_name ("/issues/" +:+ str_int number +:+ "/comments").
Definition pull_path (repo_full_name : string) (number : Z) (rest : string) : string :=
  repo_path repo_full_name ("/pulls/" +:+ str_int number +:+ rest).

Definition list_pull_request_files (repo_full_name : string) (pull_request_number : Z)
    : SM (list json) :=
  _paginate (pull_path repo_full_name pull_request_number "/files") repo_full_name.

Definition get_pull_request (repo_full_name : string) (pull_request_number : Z) : SM json :=
  response ← _request "GET" (pull_path repo_full_name pull_request_number "") None [] repo_full_name;
  match response with
  | JObj _ => mret response
  | _ => raise (GitHubClientError "GitHub pull request response is not an object.")
  end.

Definition list_issue_comments (repo_full_name : string) (pull_request_number : Z)
    : SM (list PlatformComment.t) :=
  items ← _paginate (issue_comments_path repo_full_name pull_request_number) repo_full_name;
  lift (comments_of items).

Definition list_review_comments (repo_full_name : string) (pull_request_number : Z)
    : SM (list PlatformComment.t) :=
  items ← _paginate (pull_path repo_full_name pull_request_number "/comments") repo_full_name;
  lift (comments_of items).

Definition create_issue_comment (repo_full_name : string) (pull_request_number : Z) (body : string)
    : SM string :=
  response ← _request "POST" (issue_comments_path repo_full_name pull_request_number)
    (Some (JObj [("body", JStr body)])) [] repo_full_name;
  lift (id_of response).

Definition update_issue_comment (repo_full_name comment_id body : string) : SM string :=
  response ← _request "PATCH" (repo_path repo_full_name ("/issues/comments/" +:+ comment_id))
    (Some (JObj [("body", JStr body)])) [] repo_full_name;
  lift (id_of response).

Definition create_review_comment (repo_full_name : string) (pull_request_number : Z)
    (body commit_id path : string) (line : Z) : SM string :=
  response ← _request "POST" (pull_path repo_full_name pull_request_number "/comments")
    (Some (JObj [("body", JStr body); ("commit_id", JStr commit_id); ("path", JStr path);
                 ("line", JInt line); ("side", JStr "RIGHT")])) [] repo_full_name;
  lift (id_of response).

Definition update_review_comment (repo_full_name comment_id body : string) : SM string :=
  response ← _request "PATCH" (repo_path repo_full_name ("/pulls/comments/" +:+ comment_id))
    (Some (JObj [("body", JStr body)])) [] repo_full_name;
  lift (id_of response).
End github_client.

(** The files of a pull request that have a name; an item that is not an object has no
    [get]. *)
Definition changed_file (item : json) : outcome (list ChangedFile.t) :=
  match item with
  | JObj _ =>
      match non_empty_str item "filename" with
      | Some filename =>
          Return [ChangedFile.mk filename (parse_commentable_lines (jget item "patch"))]
      | None => Return []
      end
  | _ => Raise (TypeError "object has no attribute 'get'")
  end.

Definition fetch_changed_files `{PlatformHttp} (repo_full_name : string) (pull_request_number : Z)
    : SM (list ChangedFile.t) :=
  files ← list_pull_request_files repo_full_name pull_request_number;
  lift (outcome_concat changed_file files).
