(* ===== verification/GitLabClient.v ===== *)
(** * The GitLab client

    Model of [GitLabClient] in [src/src/review_orchestrator/integrations/gitlab.py] and
    of [fetch_gitlab_changed_files]. *)
From Stdlib Require Import Ascii.
From S2P Require Import Prelude PyText Json World Models Delivery Diffs PlatformClient.
#[global] Open Scope Z_scope.
#[global] Open Scope orch_scope.

(** [quote(value, safe="")]: the UTF-8 encoding of every character but the unreserved
    ones is written in percent notation. *)
Definition unreserved (c : ascii) : bool :=
  in_range 48 57 c || in_range 65 90 c || in_range 97 122 c
  || (code c =? 45) || (code c =? 46) || (code c =? 95) || (code c =? 126).
Definition hex_upper (n : Z) : ascii :=
  ascii_of_N (Z.to_N (if n <? 10 then 48 + n else 55 + n)).
Definition percent (byte : Z) : string :=
  String "%" (String (hex_upper (byte / 16)) (String (hex_upper (byte mod 16)) "")).
Definition quote_char (c : ascii) : string :=
  if unreserved c then String c ""
  else if code c <? 128 then percent (code c)
  else percent (192 + code c / 64) +:+ percent (128 + code c mod 64).
Fixpoint _quoted (value : string) : string :=
  match value with
  | "" => ""
  | String c s => quote_char c +:+ _quoted s
  end.

(** The path of a merge request, and of what belongs to it. *)
Definition merge_request_path (project_path : string) (iid : Z) (rest : string) : string :=
  "/projects/" +:+ _quoted project_path +:+ "/merge_requests/" +:+ str_int iid +:+ rest.

Definition body_field (body : string) : option json := Some (JObj [("body", JStr body)]).

Section gitlab_client.
Context `{PlatformHttp}.

Definition _request (method path : string) (body : option json) (params : list (string * Z))
    : SM json :=
  reply ← http_send (HttpRequest.mk "gitlab" method path params (or_none gitlab_token) body);
  lift (read_reply "GitLab" method path GitLabClientError reply).

Definition _paginate (path : string) : SM (list json) :=
  paginate_from (λ page, _request "GET" path None (page_params page))
    (GitLabClientError ("GitLab response for " +:+ path +:+ " is not a list.")) page_limit 1 [].

(** A reply that must be an object. *)
Definition object_reply (what : string) (response : json) : SM json :=
  match response with
  | JObj _ => mret response
  | _ => raise (GitLabClientError ("GitLab " +:+ what +:+ " response is not an object."))
  end.

Definition get_merge_request (project_path : string) (iid : Z) : SM json :=
  response ← _request "GET" (merge_request_path project_path iid "") None [];
  object_reply "merge request" response.

Definition get_merge_request_changes (project_path : string) (iid : Z) : SM json :=
  response ← _request "GET" (merge_request_path project_path iid "/changes") None [];
  object_reply "changes" response.

Definition list_merge_request_notes (project_path : string) (iid : Z)
    : SM (list PlatformComment.t) :=
  items ← _paginate (merge_request_path project_path iid "/notes");
  lift (comments_of items).

Definition create_merge_request_note (project_path : string) (iid : Z) (body : string)
    : SM string :=
  response ← _request "POST" (merge_request_path project_path iid "/notes") (body_field body) [];
  lift (id_of response).

Definition update_merge_request_note (project_path : string) (iid : Z) (note_id body : string)
    : SM string :=
  response ← _request "PUT" (merge_request_path project_path iid ("/notes/" +:+ note_id))
    (body_field body) [];
  lift (id_of response).

Definition list_merge_request_discussions (project_path : string) (iid : Z) : SM (list json) :=
  _paginate (merge_request_path project_path iid "/discussions").

Definition create_merge_request_discussion (project_path : string) (iid : Z) (body : string)
    (position : json) : SM (string * string) :=
  response ← _request "POST" (merge_request_path project_path iid "/discussions")
    (Some (JObj [("body", JStr body); ("position", position)])) [];
  response ← object_reply "discussion" response;
  match jget response "notes" with
  | Some (JList (JObj note :: _)) =>
      note_id ← lift (id_of (JObj note));
      discussion_id ← lift (id_of response);
      mret (note_id, discussion_id)
  | _ => raise (GitLabClientError "GitLab discussion response has no note.")
  end.

Definition update_merge_request_discussion_note (project_path : string) (iid : Z)
    (discussion_id note_id body : string) : SM (string * string) :=
  response ← _request "PUT" (merge_request_path project_path iid
    ("/discussions/" +:+ discussion_id +:+ "/notes/" +:+ note_id)) (body_field body) [];
  note_id ← lift (id_of response);
  mret (note_id, discussion_id).
End gitlab_client.

(** [item.get(a) or item.get(b)]. *)
Definition get_or (item : json) (a b : string) : option json :=
  match jget item a with
  | Some value => if json_truthy value then Some value else jget item b
  | None => jget item b
  end.

Definition gitlab_changed_files (response : json) : list ChangedFile.t :=
  match jget response "changes" with
  | Some (JList changes) =>
      omap (λ item,
        match get_or item "new_path" "old_path" with
        | Some (JStr (String c path)) =>
            Some (ChangedFile.mk (String c path) (parse_commentable_lines (jget item "diff")))
        | _ => None
        end) changes
  | _ => []
  end.

Definition fetch_gitlab_changed_files `{PlatformHttp} (project_path : string) (iid : Z)
    : SM (list ChangedFile.t) :=
  response ← get_merge_request_changes project_path iid;
  mret (gitlab_changed_files response).
