(* ===== verification/ProviderCore.v ===== *)
(** * The contracts of the code platforms

    Model of the provider-neutral requests and results of
    [src/src/review_orchestrator/integrations/providers.py], of [urlsplit] as far as the
    clone addresses need it, and of the helpers of
    [src/src/review_orchestrator/integrations/github.py] that both platforms share.  The
    lengths and formats the validation library checks are not repeated here. *)
From Stdlib Require Import Ascii.
From S2P Require Import Prelude PyText Json PyRegex World Models Delivery PlatformClient.
#[global] Open Scope Z_scope.
#[global] Open Scope orch_scope.

(** ** Contracts *)

Module Credential.
Record t := mk { value : string; username : option string; expires_at : option Z }.
End Credential.

Module GitCheckoutRequest.
Record t := mk { repository : string; clone_url : option string }.
End GitCheckoutRequest.

Module GitCheckoutTarget.
Record t := mk {
  remote_url : string; username : option string; password : option string;
  expires_at : option Z
}.
End GitCheckoutTarget.

Module ProviderWorkspaceCheckout.
Record t := mk { clone_url : string; auth_token : option string; auth_username : string }.
End ProviderWorkspaceCheckout.

Inductive CommentKind := SummaryComment | LineComment | AgentComment.
#[export] Instance CommentKind_eq_dec : EqDecision CommentKind.
Proof. solve_decision. Defined.

Module CommentPublishItem.
Record t := mk {
  kind : CommentKind;
  body : string;
  comment_id : option string;
  thread_id : option string;
  idempotency_key : option string;
  path : option string;
  line : option Z;
  commit_sha : option string
}.

(** The constructor, with the check of [validate_line_comment]. *)
Definition validate (i : t) : outcome t :=
  if bool_decide (kind i = LineComment)
     && (bool_decide (path i = None) || bool_decide (line i = None)
         || bool_decide (commit_sha i = None))
  then Raise (ValueError "line comments require path, line, and commit_sha")
  else Return i.
End CommentPublishItem.

Module CommentPublishRequest.
Record t := mk {
  repository : string;
  pull_request_number : Z;
  comments : list CommentPublishItem.t
}.

(** The constructor: [comments], or a single comment given field by field, the kind and
    the body of which are optional. *)
Definition normalize_single_comment (repository : string) (pull_request_number : Z)
    (comments : list CommentPublishItem.t) (kind : option CommentKind) (body : option string)
    (comment_id thread_id idempotency_key path : option string) (line : option Z)
    (commit_sha : option string) : outcome t :=
  match comments, kind, body with
  | _ :: _, None, None => Return (mk repository pull_request_number comments)
  | _ :: _, _, _ => Raise (ValueError "use comments or a single kind/body comment, not both")
  | [], Some kind, Some body =>
      item ← CommentPublishItem.validate (CommentPublishItem.mk kind body comment_id thread_id
        idempotency_key path line commit_sha);
      mret (mk repository pull_request_number [item])
  | [], _, _ => Raise (ValueError "at least one comment is required")
  end.
End CommentPublishRequest.

Module PublishedComment.
Record t := mk {
  kind : CommentKind;
  comment_id : option string;
  thread_id : option string;
  url : option string;
  error : option string
}.
End PublishedComment.

Module CommentPublishResult.
Record t := mk {
  comments : list PublishedComment.t;
  published : Z;
  failed : Z;
  comment_id : option string;
  thread_id : option string;
  url : option string;
  error : option string
}.

(** The constructor: the fields of a single comment are repeated at the top. *)
Definition expose_single_comment (comments : list PublishedComment.t) (published failed : Z) : t :=
  match comments with
  | [item] =>
      mk comments published failed (PublishedComment.comment_id item)
        (PublishedComment.thread_id item) (PublishedComment.url item) (PublishedComment.error item)
  | _ => mk comments published failed None None None None
  end.
End CommentPublishResult.

Inductive PlatformQueryAction := PullRequestGet | ChangesList | CommentsList | StatusGet.
#[export] Instance PlatformQueryAction_eq_dec : EqDecision PlatformQueryAction.
Proof. solve_decision. Defined.

Definition action_str (a : PlatformQueryAction) : string :=
  match a with
  | PullRequestGet => "pull_request.get"
  | ChangesList => "pull_request.changes.list"
  | CommentsList => "pull_request.comments.list"
  | StatusGet => "pull_request.status.get"
  end.

Module PlatformQueryRequest.
Record t := mk {
  action : PlatformQueryAction;
  repository : string;
  pull_request_number : Z;
  cursor : option string;
  page_size : Z
}.
End PlatformQueryRequest.

Module PlatformQueryResult.
Record t := mk {
  action : PlatformQueryAction;
  data : option json;
  items : list json;
  next_cursor : option string
}.
End PlatformQueryResult.

(** What was published, with the counts of what was and what was not. *)
Definition publish_result (results : list PublishedComment.t) : CommentPublishResult.t :=
  let failed := Z.of_nat (length (filter (λ i, PublishedComment.error i ≠ None) results)) in
  CommentPublishResult.expose_single_comment results (Z.of_nat (length results) - failed) failed.

(** ** Idempotent comments *)

Section idempotency.
Context `{Runtime}.

Definition _idempotency_marker (key : string) : string :=
  "<!-- review-orchestrator:" +:+ sha256_hexdigest key +:+ " -->".

Definition _idempotent_comment_body (body : string) (key : option string) : string :=
  match key with
  | None => body
  | Some key =>
      let marker := _idempotency_marker key in
      if py_contains marker body then body
      else body +:+ String "010" (String "010" "") +:+ marker
  end.
End idempotency.

(** ** Messages of platform errors *)

Definition not_space_or_stop (c : ascii) : bool :=
  negb (is_space c || char_eqb c "," || char_eqb c ";").

Definition ERROR_SECRET_PATTERN : re :=
  Seq
    (Group (Alt
      (seqs WordBoundary [literal_ignore_case "bearer"; Many true 1 is_space])
      (seqs WordBoundary
        [alts (literal_ignore_case "private-token")
           [literal_ignore_case "token"; literal_ignore_case "password"];
         Many true 0 is_space; Class (one_of ":="); Many true 0 is_space])))
    (Many true 1 not_space_or_stop).

(** [str(error).splitlines()[0][:1000]] with what looks like a credential masked. *)
Definition _safe_platform_error (message : string) : outcome string :=
  match splitlines message with
  | [] => Raise (IndexError "list index out of range")
  | line :: _ =>
      Return (re_sub ERROR_SECRET_PATTERN (λ groups, default "" (head groups) +:+ "[REDACTED]")
                (String.substring 0 1000 line))
  end.

(** ** Pages of a query *)

(** The page at a cursor, and the cursor after it. *)
Definition _query_page (items : list json) (cursor : option string) (page_size : Z)
    : outcome (list json * option string) :=
  let bad_cursor := ProviderCapabilityError "Query cursor must be a non-negative integer." in
  match match cursor with Some text => py_int text | None => Some 0 end with
  | None => Raise bad_cursor
  | Some offset =>
      if offset <? 0 then Raise bad_cursor
      else
        let page := take (Z.to_nat page_size) (drop (Z.to_nat offset) items) in
        let next_offset := offset + Z.of_nat (length page) in
        Return (page, if next_offset <? Z.of_nat (length items)
                      then Some (str_int next_offset) else None)
  end.

(** ** Reading what a platform returns *)

(** [value if isinstance(value, str) and value else None]. *)
Definition _optional_str (value : option json) : option string :=
  match value with Some (JStr (String c s)) => Some (String c s) | _ => None end.

(** [str(value) if isinstance(value, int | str) else None]. *)
Definition _id_to_str (value : option json) : option string :=
  match value with
  | Some (JStr s) => Some s
  | Some (JInt n) => Some (str_int n)
  | Some (JBool b) => Some (py_str (JBool b))
  | _ => None
  end.

(** A text field of something that should be an object. *)
Definition field_str (object : option json) (key : string) : option string :=
  object ≫= λ o, _optional_str (jget o key).

(** [value.get(key)], which is [None] for a missing field and for JSON's null. *)
Definition get_json (object : json) (key : string) : json := default JNull (jget object key).

Definition opt_json (o : option string) : json :=
  match o with Some s => JStr s | None => JNull end.

(** [item.get]: only an object has it. *)
Definition with_get (item : json) (f : json → json) : outcome json :=
  match item with
  | JObj _ => Return (f item)
  | _ => Raise (TypeError "object has no attribute 'get'")
  end.

(** [tuple(converter(item) for item in page)] and its cursor. *)
Definition page_result (action : PlatformQueryAction) (converter : json → outcome json)
    (items : list json) (cursor : option string) (page_size : Z)
    : outcome PlatformQueryResult.t :=
  page ← _query_page items cursor page_size;
  shown ← outcome_concat (λ item, x ← converter item; mret [x]) page.1;
  mret (PlatformQueryResult.mk action None shown page.2).

(** ** Addresses *)

Module Url.
Record t := mk { scheme : string; netloc : string; path : string }.
End Url.

(** The leading characters of a class, and the rest. *)
Fixpoint break_at (p : ascii → bool) (s : string) : string * string :=
  match s with
  | "" => ("", "")
  | String c s' => if p c then ("", s) else let '(a, b) := break_at p s' in (String c a, b)
  end.

Definition scheme_char (c : ascii) : bool :=
  alphanumeric c || char_eqb c "+" || char_eqb c "-" || char_eqb c ".".
Definition is_alpha (c : ascii) : bool := in_range 65 90 c || in_range 97 122 c.

(** [urlsplit(url)], without its query and fragment: the scheme before the first colon
    if it is one, the network location after two slashes, and the path.  The addresses
    are those of a configuration: no control characters and no brackets. *)
Definition urlsplit (url : string) : Url.t :=
  let '(scheme, rest) :=
    match break_at (char_eqb ":") url with
    | (String c s, String _ rest) =>
        if is_alpha c && str_all scheme_char (String c s) then (py_lower (String c s), rest)
        else ("", url)
    | _ => ("", url)
    end in
  let '(netloc, rest) :=
    match rest with
    | String "/" (String "/" rest) =>
        break_at (λ c, char_eqb c "/" || char_eqb c "?" || char_eqb c "#") rest
    | _ => ("", rest)
    end in
  Url.mk scheme netloc (break_at (λ c, char_eqb c "?" || char_eqb c "#") rest).1.

(** [urlunsplit((scheme, netloc, path, "", ""))]; of the schemes that have a network
    location even when it is empty, those of the web. *)
Definition urlunsplit (u : Url.t) : string :=
  let path := if starts_with "/" (Url.path u) || bool_decide (Url.path u = "") then Url.path u
              else "/" +:+ Url.path u in
  let rest := if bool_decide (Url.netloc u = "")
                 && negb (bool_decide (Url.scheme u ∈ ["http"; "https"]))
              then Url.path u else "//" +:+ Url.netloc u +:+ path in
  if bool_decide (Url.scheme u = "") then rest else Url.scheme u +:+ ":" +:+ rest.

(** The part of a text after the last occurrence of a character, or all of it. *)
Definition after_last (c : ascii) (s : string) : string :=
  str_rev (break_at (char_eqb c) (str_rev s)).1.

(** [parsed.hostname]. *)
Definition hostname (u : Url.t) : string :=
  py_lower (break_at (char_eqb ":") (after_last "@" (Url.netloc u))).1.

Definition ends_with (suffix s : string) : bool := starts_with (str_rev suffix) (str_rev s).

(** [s[:-len(suffix)]] when [s.endswith(suffix)]. *)
Definition remove_suffix (suffix s : string) : string :=
  if ends_with suffix s then String.substring 0 (String.length s - String.length suffix) s else s.

Definition rstrip_slash : string → string := rstrip_by (char_eqb "/").

(** The address of a repository next to an API whose path ends as given. *)
Definition origin_clone_url (api_suffix api_base_url repo_full_name : string) : string :=
  let parsed := urlsplit api_base_url in
  let path := remove_suffix api_suffix (rstrip_slash (Url.path parsed)) in
  let origin := rstrip_slash (urlunsplit (Url.mk (Url.scheme parsed) (Url.netloc parsed) path)) in
  origin +:+ "/" +:+ repo_full_name +:+ ".git".

Definition github_clone_url (api_base_url repo_full_name : string) : string :=
  if bool_decide (hostname (urlsplit api_base_url) = "api.github.com")
  then "https://github.com/" +:+ repo_full_name +:+ ".git"
  else origin_clone_url "/api/v3" api_base_url repo_full_name.

Definition gitlab_clone_url (api_base_url repo_full_name : string) : string :=
  origin_clone_url "/api/v4" api_base_url repo_full_name.
