(* ===== verification/Comments.v ===== *)
(** * Comments

    Model of [src/src/review_orchestrator/integrations/comments.py]: the texts published
    on pull requests, how a text finds the comment it replaces, and the references kept
    of what was published.  Symbols outside ASCII are the bytes of their UTF-8 text. *)
From Stdlib Require Import Ascii.
From S2P Require Import Prelude PyText Json World Models Delivery ReviewRuns PlatformClient GitHubClient GitLabClient.
#[global] Open Scope Z_scope.
#[global] Open Scope orch_scope.

Definition SUMMARY_MARKER : string := "<!-- review-orchestrator:summary".
Definition AGENT_TASK_MARKER : string := "<!-- review-orchestrator:agent-task".

(** ** Masking what follows a word *)

(** The number of leading characters in a class. *)
Fixpoint span (p : ascii → bool) (s : string) : nat :=
  match s with
  | String c s => if p c then S (span p s) else 0
  | "" => 0
  end.

(** [s.find(sub)]. *)
Fixpoint find_from (sub s : string) : option nat :=
  if starts_with sub s then Some 0%nat
  else match s with String _ s => S <$> find_from sub s | "" => None end.

(** [s.find(sub, start)]. *)
Definition py_find (sub s : string) (start : nat) : option nat :=
  if (String.length s <? start)%nat then None
  else (λ i, (start + i)%nat) <$> find_from sub (str_drop start s).

Definition tab : ascii := "009".
Definition separator (c : ascii) : bool :=
  char_eqb c " " || char_eqb c tab || char_eqb c ":" || char_eqb c "=" || char_eqb c "_"
  || char_eqb c "-".
Definition ends_value (c : ascii) : bool :=
  char_eqb c " " || char_eqb c tab || char_eqb c "," || char_eqb c ";".

Definition REDACTED_TEXT : string := "[redacted]".

(** One turn of the loop of [_redact_marker_value]; [None] ends it. *)
Definition redact_step (marker text : string) (start : nat) : option (string * nat) :=
  match py_find marker (py_lower text) start with
  | None => None
  | Some index =>
      let after := (index + String.length marker)%nat in
      let value_start := (after + span separator (str_drop after text))%nat in
      let value_end :=
        (value_start + span (λ c, negb (ends_value c)) (str_drop value_start text))%nat in
      if (value_start <? value_end)%nat
      then Some (String.substring 0 value_start text +:+ REDACTED_TEXT +:+ str_drop value_end text,
                 (value_start + String.length REDACTED_TEXT)%nat)
      else Some (text, value_start)
  end.

Fixpoint redact_loop (fuel : nat) (marker text : string) (start : nat) : string :=
  match fuel with
  | O => text
  | S fuel =>
      match redact_step marker text start with
      | None => text
      | Some (text, start) => redact_loop fuel marker text start
      end
  end.

(** Each turn passes at least one character of the text it started with. *)
Definition _redact_marker_value (text marker : string) : string :=
  redact_loop (S (String.length text)) marker text 0.

Definition _safe_error_text (error : string) : string :=
  let redacted :=
    foldl _redact_marker_value (py_replace_char "010" " " (py_replace_char "013" " " error))
      ["token"; "secret"; "password"; "authorization"] in
  if 500 <? Z.of_nat (String.length redacted)
  then rstrip_by is_space (String.substring 0 497 redacted) +:+ "..."
  else redacted.

(** ** Texts *)

Definition newline : string := String "010" "".

Definition agent_task_marker (task_id : string) (a : AgentTask.t) : string :=
  AGENT_TASK_MARKER +:+ " task_id=" +:+ task_id +:+ " source_id="
  +:+ or_else (AgentTask.source_comment_id a) "unknown" +:+ " -->".

(** [isinstance(value, int)] with its text and its number. *)
Definition as_int (value : option json) : option (string * Z) :=
  match value with
  | Some (JInt n) => Some (str_int n, n)
  | Some (JBool b) => Some (py_str (JBool b), if b then 1 else 0)
  | _ => None
  end.

Definition reference_line (reference : json) : option string :=
  match reference, jget_str reference "path" with
  | JObj _, Some path =>
      let suffix :=
        match as_int (jget reference "line_start") with
        | None => ""
        | Some (start_text, start) =>
            ":" +:+ start_text +:+
            match as_int (jget reference "line_end") with
            | Some (end_text, end_) => if end_ =? start then "" else "-" +:+ end_text
            | None => ""
            end
        end in
      Some ("- `" +:+ path +:+ suffix +:+ "`")
  | _, _ => None
  end.

Definition references_of (a : AgentTask.t) : list json :=
  match jget (default (JObj []) (AgentTask.result_json a)) "references" with
  | Some (JList references) => references
  | _ => []
  end.

Definition build_agent_task_comment_body (task_id : string) (a : AgentTask.t) (state : string)
    : string :=
  let author := or_else (AgentTask.source_author_login a) "user" in
  let marker := agent_task_marker task_id a in
  let short_id := String.substring 0 8 task_id in
  py_join newline
    (if bool_decide (state = "completed") then
       [marker; "🤖 Answer for @" +:+ author; "";
        or_else (AgentTask.result_text a) "The agent completed without an answer."]
       ++ match references_of a with
          | [] => []
          | references => [""; "References:"] ++ omap reference_line (take 50 references)
          end
       ++ [""; "Task: `" +:+ short_id +:+ "` · completed"]
     else if bool_decide (state = "soft_timeout") then
       [marker; "🤖 Still working on @" +:+ author +:+ "'s request…"; "";
        "The task is taking longer than expected and is still running.";
        "Task: `" +:+ short_id +:+ "`"]
     else if bool_decide (state = "cancelled") then
       [marker; "🤖 Request for @" +:+ author +:+ " was cancelled."; "";
        "Task: `" +:+ short_id +:+ "` · cancelled"]
     else if bool_decide (state = "failed") then
       [marker; "🤖 Request for @" +:+ author +:+ " failed."; "";
        if bool_decide (AgentTask.failure_code a = Some "hard_timeout")
        then "The task timed out before the agent produced a valid result."
        else "Could not complete the request."]
       ++ match or_none (AgentTask.failure_code a) with
          | Some code => ["Failure category: `" +:+ code +:+ "`"]
          | None => []
          end
       ++ match or_none (AgentTask.error_message a) with
          | Some error => ["Error: " +:+ _safe_error_text error]
          | None => []
          end
       ++ [""; "Task: `" +:+ short_id +:+ "` · failed"]
     else
       [marker; "🤖 Working on @" +:+ author +:+ "'s request…"; "";
        "Status: " +:+ (if bool_decide (state = "queued") then "queued"
                        else "preparing repository context");
        "Task: `" +:+ short_id +:+ "`"]).

(** [", ".join(f"{key}: {value}" for key, value in sorted(stats.items()))]. *)
Definition stat_text (stats : option (gmap string Z)) : string :=
  let text := py_join ", " ((λ kv, kv.1 +:+ ": " +:+ str_int kv.2)
    <$> sort_by fst (map_to_list (default ∅ stats))) in
  if bool_decide (text = "") then "no findings published" else text.

Definition build_summary_comment_body (run_id : string) (r : ReviewRun.t) (status_text : string)
    (finding_stats : option (gmap string Z)) (comment_slot : option ReviewCommentSlot.t) : string :=
  let marker := match comment_slot with
                | Some slot => "<!-- " +:+ ReviewCommentSlot.marker slot
                | None => SUMMARY_MARKER
                end in
  py_join newline
    ([marker +:+ " run_id=" +:+ run_id +:+ " head_sha=" +:+ ReviewRun.head_sha r
        +:+ " attempt=" +:+ str_int (ReviewRun.attempt r) +:+ " -->";
      "Review status: " +:+ status_text]
     ++ match or_none (ReviewRun.failure_code r) with
        | Some code => ["Failure category: " +:+ code]
        | None => []
        end
     ++ match or_none (ReviewRun.error r) with
        | Some error => ["Error: " +:+ _safe_error_text error]
        | None => []
        end
     ++ [""; "Findings: " +:+ stat_text finding_stats]).

Definition _line_comment_body (f : Finding.t) : string :=
  Finding.message f +:+ newline +:+ newline +:+ "Severity: " +:+ Finding.severity f
  +:+ match or_none (Finding.suggestion f) with
      | Some suggestion => newline +:+ newline +:+ "Suggestion: " +:+ suggestion
      | None => ""
      end.

(** What became of the findings that could be commented on their line. *)
Module LineStats.
Record t := mk { published : Z; summary_only : Z; deduped : Z; failed : Z }.
End LineStats.

Inductive line_outcome := Published | SummaryOnly | Deduped | Failed.

Definition count_line (o : line_outcome) (s : LineStats.t) : LineStats.t :=
  let '(LineStats.mk p so d f) := s in
  match o with
  | Published => LineStats.mk (p + 1) so d f
  | SummaryOnly => LineStats.mk p (so + 1) d f
  | Deduped => LineStats.mk p so (d + 1) f
  | Failed => LineStats.mk p so d (f + 1)
  end.

(** ** Publishing *)

Section publishing.
Context `{Runtime} `{PlatformHttp}.

Definition body_hash (body : string) : string := sha256_hexdigest body.

Definition load_agent (task_id : string) : SM AgentTask.t :=
  task ← load (R := Task.t) task_id;
  match agent_of task with
  | Some agent => mret agent
  | None => raise (TypeError "not an AgentTask")
  end.

(** The first comment whose text contains a marker. *)
Definition marked_comment (marker : string) (comments : list PlatformComment.t) : option string :=
  py_str ∘ PlatformComment.id <$>
  head (filter (λ c, Is_true (match PlatformComment.body c with
                              | Some (String a body) => py_contains marker (String a body)
                              | _ => false
                              end)) comments).

Definition record_agent_comment (comment_id digest : string) (now : Z) : Task.t → Task.t :=
  set_agent (λ a, a .[ AgentTask.response_comment_id := Some comment_id ]
    .[ AgentTask.response_body_hash := Some digest ]
    .[ AgentTask.response_published_at := Some now ]
    .[ AgentTask.publish_attempts := AgentTask.publish_attempts a + 1 ]
    .[ AgentTask.last_publish_error := None ]).

Definition publish_github_agent_task_comment (task_id state : string) : SM string :=
  a ← load_agent task_id;
  let body := build_agent_task_comment_body task_id a state in
  let digest := body_hash body in
  match AgentTask.response_comment_id a,
        truthy (AgentTask.response_comment_id a)
        && bool_decide (AgentTask.response_body_hash a = Some digest) with
  | Some comment_id, true => mret comment_id
  | known, _ =>
      target ← (match known with
                | Some comment_id => mret (Some comment_id)
                | None =>
                    comments ← list_issue_comments (AgentTask.repo_full_name a)
                      (AgentTask.pull_request_number a);
                    mret (marked_comment (agent_task_marker task_id a) comments)
                end);
      comment_id ← (match target with
                    | None => create_issue_comment (AgentTask.repo_full_name a)
                                (AgentTask.pull_request_number a) body
                    | Some comment_id =>
                        update_issue_comment (AgentTask.repo_full_name a) comment_id body
                    end);
      now ← utc_now;
      modify task_id (record_agent_comment comment_id digest now) ;;
      commit ;;
      mret comment_id
  end.

(** *** Summaries *)

Definition _comment_slot_for_run (run_id : string) : SM (option ReviewCommentSlot.t) :=
  slot_of_run run_id.

Definition summary_ref (run_id : string) (ref : ReviewCommentRef.t) : bool :=
  bool_decide (ReviewCommentRef.review_run_id ref = Some run_id)
  && bool_decide (ReviewCommentRef.comment_type ref = "summary").

Definition _existing_summary_ref_with_body (run_id body : string)
    : SM (option ReviewCommentRef.t) :=
  l ← select (λ ref, summary_ref run_id ref
    && bool_decide (ReviewCommentRef.last_published_body_hash ref = Some (body_hash body)));
  scalar_one_or_none l.

(** A new reference to a comment of a run. *)
Definition new_comment_ref (r : ReviewRun.t) (run_id comment_type provider_comment_id : string)
    (finding_id body_hash : option string) : SM ReviewCommentRef.t :=
  id ← uuid4;
  mret (ReviewCommentRef.mk id (ReviewRun.provider r) (ReviewRun.repo_full_name r)
    (ReviewRun.pull_request_number r) (Some run_id) finding_id comment_type provider_comment_id
    None "active" body_hash).

Definition upsert_summary_comment_ref (run_id provider_comment_id body : string)
    (comment_slot : option ReviewCommentSlot.t) : SM string :=
  l ← select (summary_ref run_id);
  existing ← scalar_one_or_none l;
  tr ← load_run run_id;
  let publish (ref : ReviewCommentRef.t) : ReviewCommentRef.t :=
    ref .[ ReviewCommentRef.review_run_id := Some run_id ]
        .[ ReviewCommentRef.provider_comment_id := provider_comment_id ]
        .[ ReviewCommentRef.status := "active" ]
        .[ ReviewCommentRef.last_published_body_hash := Some (body_hash body) ] in
  ref_id ← (match existing with
            | None =>
                ref ← new_comment_ref tr.2 run_id "summary" provider_comment_id None None;
                insert (publish ref) ;; mret (ReviewCommentRef.id ref)
            | Some ref =>
                modify_unique (ReviewCommentRef.id ref) publish ;; mret (ReviewCommentRef.id ref)
            end);
  modify run_id (set_review (λ r,
    r .[ ReviewRun.summary_comment_id := Some provider_comment_id ])) ;;
  (match comment_slot with
   | Some slot =>
       modify_unique (ReviewCommentSlot.id slot) (λ s,
         s .[ ReviewCommentSlot.provider_comment_id := Some provider_comment_id ]
           .[ ReviewCommentSlot.last_error := None ])
   | None => mret tt
   end) ;;
  commit ;;
  mret ref_id.

(** Creating or updating the comment of a run: the one its row names, else the first one
    with the marker, else a new one. *)
Definition _upsert_github_issue_comment (r : ReviewRun.t) (body marker : string) : SM string :=
  match or_none (ReviewRun.summary_comment_id r) with
  | Some comment_id => update_issue_comment (ReviewRun.repo_full_name r) comment_id body
  | None =>
      comments ← list_issue_comments (ReviewRun.repo_full_name r) (ReviewRun.pull_request_number r);
      match marked_comment marker comments with
      | Some comment_id => update_issue_comment (ReviewRun.repo_full_name r) comment_id body
      | None => create_issue_comment (ReviewRun.repo_full_name r)
                  (ReviewRun.pull_request_number r) body
      end
  end.

Definition _upsert_gitlab_note (r : ReviewRun.t) (body marker : string) : SM string :=
  let repo := ReviewRun.repo_full_name r in
  let number := ReviewRun.pull_request_number r in
  match or_none (ReviewRun.summary_comment_id r) with
  | Some note_id => update_merge_request_note repo number note_id body
  | None =>
      notes ← list_merge_request_notes repo number;
      match marked_comment marker notes with
      | Some note_id => update_merge_request_note repo number note_id body
      | None => create_merge_request_note repo number body
      end
  end.

(** A failure of the platform is recorded on the run. *)
Definition record_denied (run_id message : string) : SM () :=
  modify run_id (set_review (λ r,
    r .[ ReviewRun.failure_code := Some "provider_permission_denied" ]
      .[ ReviewRun.error := Some message ])) ;;
  commit.

(** What both platforms do with a summary.  [upsert] makes the comment, and [denied] gives
    the message of the exceptions of the platform's client. *)
Definition publish_summary (upsert : ReviewRun.t → string → string → SM string)
    (denied : exn → option string) (run_id status_text : string)
    (finding_stats : option (gmap string Z)) : SM (option string) :=
  comment_slot ← _comment_slot_for_run run_id;
  tr ← load_run run_id;
  let body := build_summary_comment_body run_id tr.2 status_text finding_stats comment_slot in
  existing_ref ← _existing_summary_ref_with_body run_id body;
  match existing_ref with
  | Some ref => mret (Some (ReviewCommentRef.id ref))
  | None =>
      published ← try_except
        (id ← upsert tr.2 body
                (match comment_slot with
                 | Some slot => ReviewCommentSlot.marker slot
                 | None => SUMMARY_MARKER
                 end);
         mret (Some id))
        (λ e, match denied e with
              | Some message => record_denied run_id message ;; mret None
              | None => raise e
              end);
      match published with
      | None => mret None
      | Some provider_comment_id =>
          ref_id ← upsert_summary_comment_ref run_id provider_comment_id body comment_slot;
          mret (Some ref_id)
      end
  end.

Definition github_denied (e : exn) : option string :=
  match e with GitHubClientError message => Some message | _ => None end.
Definition gitlab_denied (e : exn) : option string :=
  match e with GitLabClientError message => Some message | _ => None end.

Definition publish_github_summary_comment :
    string → string → option (gmap string Z) → SM (option string) :=
  publish_summary _upsert_github_issue_comment github_denied.

Definition publish_gitlab_summary_comment :
    string → string → option (gmap string Z) → SM (option string) :=
  publish_summary _upsert_gitlab_note gitlab_denied.

(** *** Line comments *)

Definition line_ref (finding_id : string) (ref : ReviewCommentRef.t) : bool :=
  bool_decide (ReviewCommentRef.finding_id ref = Some finding_id)
  && bool_decide (ReviewCommentRef.comment_type ref = "line").

Definition _existing_line_ref (finding_id : string) : SM (option ReviewCommentRef.t) :=
  l ← select (line_ref finding_id);
  scalar_one_or_none l.

(** The reference to the comment of a finding, and whether it is new. *)
Definition ensure_line_comment_ref (run_id finding_id provider_comment_id body : string)
    : SM (string * bool) :=
  existing ← _existing_line_ref finding_id;
  match existing with
  | Some ref => mret (ReviewCommentRef.id ref, false)
  | None =>
      tr ← load_run run_id;
      ref ← new_comment_ref tr.2 run_id "line" provider_comment_id (Some finding_id)
              (Some (body_hash body));
      insert ref ;;
      commit ;;
      mret (ReviewCommentRef.id ref, true)
  end.

(** [{item.path: item.commentable_lines for item in changed_files}.get(path)]: the last
    entry of a path counts. *)
Definition commentable_at (changed_files : list ChangedFile.t) (path : string) : option (list Z) :=
  ChangedFile.commentable_lines <$>
  last (filter (λ f, ChangedFile.path f = path) changed_files).

Definition comment_line (changed_files : list ChangedFile.t) (f : Finding.t) : option Z :=
  line ← Finding.line_start f;
  lines ← commentable_at changed_files (Finding.file_path f);
  if bool_decide (line ∈ lines) then Some line else None.

Definition publish_line (run_id : string) (changed_files : list ChangedFile.t) (f : Finding.t)
    : SM line_outcome :=
  match comment_line changed_files f with
  | None => mret SummaryOnly
  | Some line =>
      let body := _line_comment_body f in
      existing ← _existing_line_ref (Finding.id f);
      match existing with
      | Some _ => mret Deduped
      | None =>
          tr ← load_run run_id;
          created ← try_except
            (id ← create_review_comment (ReviewRun.repo_full_name tr.2)
                    (ReviewRun.pull_request_number tr.2) body (ReviewRun.head_sha tr.2)
                    (Finding.file_path f) line;
             mret (Some id))
            (λ e, match github_denied e with
                  | Some message => record_denied run_id message ;; mret None
                  | None => raise e
                  end);
          match created with
          | None => mret Failed
          | Some provider_comment_id =>
              ref ← ensure_line_comment_ref run_id (Finding.id f) provider_comment_id body;
              mret (if (ref.2 : bool) then Published else Deduped)
          end
      end
  end.

Fixpoint publish_lines (run_id : string) (changed_files : list ChangedFile.t)
    (findings : list Finding.t) (stats : LineStats.t) : SM LineStats.t :=
  match findings with
  | [] => mret stats
  | f :: findings =>
      o ← publish_line run_id changed_files f;
      publish_lines run_id changed_files findings (count_line o stats)
  end.

Definition publish_github_line_comments (run_id : string) (changed_files : list ChangedFile.t)
    : SM LineStats.t :=
  active ← select (λ f, bool_decide (Finding.review_run_id f = run_id)
                        && bool_decide (Finding.status f = "active"));
  publish_lines run_id changed_files active (LineStats.mk 0 0 0 0).
End publishing.
