(* ===== verification/GitHub.v ===== *)
(** * GitHub

    Model of [GitHubPlatform] and [GitHubProvider] in
    [src/src/review_orchestrator/integrations/github.py]: the provider-neutral requests,
    answered through the client. *)
From S2P Require Import Prelude PyText Json World Models Delivery ReviewRuns Webhooks PlatformClient GitHubClient ProviderCore Comments.
#[global] Open Scope Z_scope.
#[global] Open Scope orch_scope.

(** ** Reading what GitHub returns *)

Definition _sha (ref_object : option json) : option string := field_str ref_object "sha".
Definition _ref (ref_object : option json) : option string := field_str ref_object "ref".
Definition _repo_full_name (repo : option json) : option string := field_str repo "full_name".
Definition _login (user : option json) : option string := field_str user "login".

Definition _github_query_pull_request (repository : string) (number : Z) (pull_request : json)
    : json :=
  let base := jget pull_request "base" in
  let head := jget pull_request "head" in
  let status := if json_truthy (get_json pull_request "merged") then JStr "merged"
                else get_json pull_request "state" in
  JObj [("provider", JStr "github"); ("repository", JStr repository);
        ("number", default (JInt number) (jget pull_request "number"));
        ("provider_id", opt_json (_id_to_str (jget pull_request "id")));
        ("title", get_json pull_request "title");
        ("author", opt_json (_login (jget pull_request "user")));
        ("status", status); ("url", get_json pull_request "html_url");
        ("base_ref", opt_json (_ref base)); ("base_sha", opt_json (_sha base));
        ("head_ref", opt_json (_ref head)); ("head_sha", opt_json (_sha head))].

Definition _github_query_change (item : json) : outcome json :=
  with_get item (λ item,
    JObj [("path", get_json item "filename"); ("previous_path", get_json item "previous_filename");
          ("status", get_json item "status"); ("patch", get_json item "patch");
          ("additions", get_json item "additions"); ("deletions", get_json item "deletions")]).

Definition _github_query_comment (item : json) : outcome json :=
  with_get item (λ item,
    JObj [("comment_id", opt_json (_id_to_str (jget item "id")));
          ("thread_id", opt_json (_id_to_str (jget item "pull_request_review_id")));
          ("kind", JStr (if json_truthy (get_json item "path") then "line" else "summary"));
          ("body", get_json item "body"); ("author", opt_json (_login (jget item "user")));
          ("url", get_json item "html_url"); ("created_at", get_json item "created_at");
          ("updated_at", get_json item "updated_at"); ("path", get_json item "path");
          ("line", if json_truthy (get_json item "line") then get_json item "line"
                   else get_json item "original_line")]).

Definition query_status (pull_request : json) : json :=
  let merged := json_truthy (get_json pull_request "merged") in
  JObj [("status", if merged then JStr "merged" else get_json pull_request "state");
        ("state", get_json pull_request "state"); ("merged", JBool merged);
        ("head_sha", opt_json (_sha (jget pull_request "head")))].

(** ** The platform *)

(** Whether a client is configured, the address of its API, and the webhook secret. *)
Class GitHubSettings := {
  github_client : bool;
  github_api_base_url : string;
  github_webhook_secret : option string
}.

Section github.
Context `{Runtime} `{PlatformHttp} `{GitHubSettings}.

Definition require_client (operation : string) : SM () :=
  if github_client then mret tt
  else raise (ProviderCapabilityError "GitHub client is not configured.").

(** An error of the client becomes one of the provider. *)
Definition operation_error {A} (m : SM A) : SM A :=
  try_except m (λ e, match e with
                     | GitHubClientError message =>
                         safe ← lift (_safe_platform_error message); raise (ProviderError safe)
                     | _ => raise e
                     end).

Definition get_credential (target scope : string) : SM Credential.t :=
  if bool_decide (scope = "webhook") then
    mret (Credential.mk (default "" github_webhook_secret) None None)
  else if negb (bool_decide (scope ∈ ["git:read"; "comment:write"; "query:read"])) then
    raise (ProviderCapabilityError ("GitHub does not support credential scope " +:+ repr_string scope +:+ "."))
  else
    require_client "get_credential" ;;
    token ← operation_error (get_token target);
    mret (Credential.mk (default "" token) (Some "x-access-token") None).

Definition clone_url (repository : string) : SM string :=
  require_client "resolve_git_checkout" ;;
  mret (github_clone_url github_api_base_url repository).

Definition platform_pull_request (repository : string) (number : Z) : SM json :=
  require_client "pull_request.get" ;; get_pull_request repository number.

Definition platform_pull_request_files (repository : string) (number : Z) : SM (list json) :=
  require_client "pull_request.changes.list" ;; list_pull_request_files repository number.

Definition list_pull_request_comments (repository : string) (number : Z) : SM (list json) :=
  require_client "pull_request.comments.list" ;;
  issue_comments ← list_issue_comments repository number;
  review_comments ← list_review_comments repository number;
  mret (PlatformComment.fields <$> issue_comments ++ review_comments).

(** The comment an idempotency key was used for. *)
Definition comment_with_key (key : string) (comments : list PlatformComment.t) : option string :=
  py_str ∘ PlatformComment.id <$>
  head (filter (λ c, Is_true (py_contains (_idempotency_marker key)
                                (default "" (PlatformComment.body c)))) comments).

Definition find_published (repository : string) (number : Z) (item : CommentPublishItem.t)
    : SM (option string) :=
  let comment_id := match or_none (CommentPublishItem.comment_id item) with
                    | Some id => Some id
                    | None => CommentPublishItem.thread_id item
                    end in
  match comment_id, or_none (CommentPublishItem.idempotency_key item) with
  | None, Some key =>
      comments ← (if bool_decide (CommentPublishItem.kind item = LineComment)
                  then list_review_comments repository number
                  else list_issue_comments repository number);
      mret (comment_with_key key comments)
  | _, _ => mret comment_id
  end.

Definition publish_comment (repository : string) (number : Z) (item : CommentPublishItem.t)
    : SM string :=
  require_client "publish_comments" ;;
  let body := _idempotent_comment_body (CommentPublishItem.body item)
                (CommentPublishItem.idempotency_key item) in
  comment_id ← find_published repository number item;
  if bool_decide (CommentPublishItem.kind item = LineComment) then
    match comment_id with
    | Some comment_id => update_review_comment repository comment_id body
    | None =>
        match CommentPublishItem.path item, CommentPublishItem.line item,
              CommentPublishItem.commit_sha item with
        | Some path, Some line, Some commit_sha =>
            create_review_comment repository number body commit_sha path line
        | _, _, _ => raise (AssertionError "")
        end
    end
  else
    match comment_id with
    | Some comment_id => update_issue_comment repository comment_id body
    | None => create_issue_comment repository number body
    end.

Definition platform_summary_comment (run_id status_text : string)
    (finding_stats : option (gmap string Z)) : SM (option string) :=
  require_client "publish_summary_comment" ;;
  publish_github_summary_comment run_id status_text finding_stats.

Definition platform_line_comments (run_id : string) (changed_files : list ChangedFile.t)
    : SM LineStats.t :=
  require_client "publish_line_comments" ;; publish_github_line_comments run_id changed_files.

Definition platform_agent_comment (task_id state : string) : SM string :=
  require_client "publish_agent_task_comment" ;; publish_github_agent_task_comment task_id state.

(** ** The provider *)

Definition resolve_git_checkout (request : GitCheckoutRequest.t) : SM GitCheckoutTarget.t :=
  credential ← get_credential (GitCheckoutRequest.repository request) "git:read";
  remote_url ← (match or_none (GitCheckoutRequest.clone_url request) with
                | Some url => mret url
                | None => clone_url (GitCheckoutRequest.repository request)
                end);
  mret (GitCheckoutTarget.mk remote_url (Credential.username credential)
    (or_none (Some (Credential.value credential))) (Credential.expires_at credential)).

Definition get_workspace_checkout (repo_full_name : string) (url : option string)
    : SM ProviderWorkspaceCheckout.t :=
  resolved ← resolve_git_checkout (GitCheckoutRequest.mk repo_full_name url);
  mret (ProviderWorkspaceCheckout.mk (GitCheckoutTarget.remote_url resolved)
    (GitCheckoutTarget.password resolved)
    (or_else (GitCheckoutTarget.username resolved) "x-access-token")).

Definition _comment_url (repository : string) (number : Z) (comment_id : string)
    (kind : CommentKind) : SM string :=
  url ← clone_url repository;
  let anchor := if bool_decide (kind = LineComment) then "discussion_r" else "issuecomment-" in
  mret (remove_suffix ".git" url +:+ "/pull/" +:+ str_int number +:+ "#" +:+ anchor +:+ comment_id).

(** One comment of a request; a failure of the client is its result. *)
Definition publish_item (request : CommentPublishRequest.t) (item : CommentPublishItem.t)
    : SM PublishedComment.t :=
  let repository := CommentPublishRequest.repository request in
  let number := CommentPublishRequest.pull_request_number request in
  let kind := CommentPublishItem.kind item in
  try_except
    (comment_id ← publish_comment repository number item;
     url ← _comment_url repository number comment_id kind;
     mret (PublishedComment.mk kind (Some comment_id)
             (if bool_decide (kind = LineComment) then Some comment_id else None) (Some url) None))
    (λ e, match e with
          | GitHubClientError message =>
              error ← lift (_safe_platform_error message);
              mret (PublishedComment.mk kind None None None (Some error))
          | _ => raise e
          end).

(** [results.append(...)] for every comment of the request. *)
Fixpoint publish_items (request : CommentPublishRequest.t) (items : list CommentPublishItem.t)
    : SM (list PublishedComment.t) :=
  match items with
  | [] => mret []
  | item :: items =>
      r ← publish_item request item;
      rs ← publish_items request items;
      mret (r :: rs)
  end.

Definition publish_comments (request : CommentPublishRequest.t) : SM CommentPublishResult.t :=
  _ ← get_credential (CommentPublishRequest.repository request) "comment:write";
  results ← publish_items request (CommentPublishRequest.comments request);
  mret (publish_result results).

Definition query (request : PlatformQueryRequest.t) : SM PlatformQueryResult.t :=
  let action := PlatformQueryRequest.action request in
  let repository := PlatformQueryRequest.repository request in
  let number := PlatformQueryRequest.pull_request_number request in
  _ ← get_credential repository "query:read";
  let paged (converter : json → outcome json) (items : SM (list json)) : SM PlatformQueryResult.t :=
    found ← operation_error items;
    lift (page_result action converter found (PlatformQueryRequest.cursor request)
            (PlatformQueryRequest.page_size request)) in
  let of_pull_request (view : json → json) : SM PlatformQueryResult.t :=
    pull_request ← operation_error (platform_pull_request repository number);
    mret (PlatformQueryResult.mk action (Some (view pull_request)) [] None) in
  match action with
  | PullRequestGet => of_pull_request (_github_query_pull_request repository number)
  | StatusGet => of_pull_request query_status
  | ChangesList => paged _github_query_change (platform_pull_request_files repository number)
  | CommentsList => paged _github_query_comment (list_pull_request_comments repository number)
  end.

Definition list_changed_files (r : ReviewRun.t) : SM (list ChangedFile.t) :=
  operation_error
    (require_client "list_changed_files" ;;
     fetch_changed_files (ReviewRun.repo_full_name r) (ReviewRun.pull_request_number r)).

Definition github_summary (run_id status_text : string) (finding_stats : option (gmap string Z))
    : SM (option string) :=
  operation_error (platform_summary_comment run_id status_text finding_stats).

Definition github_line_comments (run_id : string) (changed_files : list ChangedFile.t)
    : SM LineStats.t :=
  operation_error (platform_line_comments run_id changed_files).

Definition github_agent_comment (task_id state : string) : SM string :=
  operation_error (platform_agent_comment task_id state).

Definition agent_task_comment_url (a : AgentTask.t) : SM (option string) :=
  match or_none (AgentTask.response_comment_id a) with
  | None => mret None
  | Some comment_id =>
      url ← _comment_url (AgentTask.repo_full_name a) (AgentTask.pull_request_number a) comment_id
              AgentComment;
      mret (Some url)
  end.

(** The pull request of a command task as a context; the identifier and the time are those
    it gets when it is stored. *)
Definition context_from_pull_request_task (a : AgentTask.t) (pull_request : json)
    : SM PullRequestContext.t :=
  let base := jget pull_request "base" in
  let head := jget pull_request "head" in
  let head_repo := _repo_full_name (head ≫= λ h, jget h "repo") in
  let base_repo := _repo_full_name (base ≫= λ b, jget b "repo") in
  context ← new_context (AgentTask.provider a) (AgentTask.repo_full_name a)
    (AgentTask.pull_request_number a) (default "" (_sha head));
  mret (context .[ PullRequestContext.provider_pr_id := _id_to_str (jget pull_request "id") ]
    .[ PullRequestContext.title := _optional_str (jget pull_request "title") ]
    .[ PullRequestContext.author_login := _login (jget pull_request "user") ]
    .[ PullRequestContext.base_ref := _ref base ] .[ PullRequestContext.base_sha := _sha base ]
    .[ PullRequestContext.head_ref := _ref head ]
    .[ PullRequestContext.head_repo_full_name := head_repo ]
    .[ PullRequestContext.is_fork :=
         truthy head_repo && negb (bool_decide (head_repo = base_repo)) ]
    .[ PullRequestContext.status := or_else (_optional_str (jget pull_request "state")) "open" ]
    .[ PullRequestContext.html_url := _optional_str (jget pull_request "html_url") ]).

Definition get_pull_request_context (a : AgentTask.t) : SM PullRequestContext.t :=
  pull_request ← operation_error
    (require_client "pull_request.get" ;;
     get_pull_request (AgentTask.repo_full_name a) (AgentTask.pull_request_number a));
  context_from_pull_request_task a pull_request.
End github.
