(* ===== verification/GitLab.v ===== *)
(** * GitLab

    Model of [GitLabPlatform] and [GitLabProvider] in
    [src/src/review_orchestrator/integrations/gitlab.py]: the provider-neutral requests,
    answered through the client. *)
From S2P Require Import Prelude PyText Json World Models Delivery ReviewRuns Webhooks PlatformClient GitLabClient ProviderCore Comments.
#[global] Open Scope Z_scope.
#[global] Open Scope orch_scope.

(** ** Reading what GitLab returns *)

Definition _gitlab_author (author : option json) : option string :=
  match field_str author "username" with
  | Some name => Some name
  | None => field_str author "name"
  end.

Definition _gitlab_status (value : option json) : option string :=
  match value with
  | Some (JStr s) => Some (if bool_decide (s = "opened") then "open" else s)
  | _ => None
  end.

Definition is_object (value : option json) : bool :=
  match value with Some (JObj _) => true | _ => false end.

(** A field of something that should be an object. *)
Definition field_json (object : option json) (key : string) : json :=
  match object with Some (JObj fields) => get_json (JObj fields) key | _ => JNull end.

Definition _gitlab_query_pull_request (repository : string) (number : Z) (merge_request : json)
    : json :=
  JObj [("provider", JStr "gitlab"); ("repository", JStr repository);
        ("number", default (JInt number) (jget merge_request "iid"));
        ("provider_id", opt_json (_id_to_str (jget merge_request "id")));
        ("title", get_json merge_request "title");
        ("author", opt_json (_gitlab_author (jget merge_request "author")));
        ("status", opt_json (_gitlab_status (jget merge_request "state")));
        ("url", get_json merge_request "web_url");
        ("base_ref", get_json merge_request "target_branch");
        ("base_sha", field_json (jget merge_request "diff_refs") "base_sha");
        ("head_ref", get_json merge_request "source_branch");
        ("head_sha", get_json merge_request "sha")].

Definition _gitlab_query_change (item : json) : outcome json :=
  with_get item (λ item,
    let status :=
      if json_truthy (get_json item "new_file") then "added"
      else if json_truthy (get_json item "deleted_file") then "removed"
      else if json_truthy (get_json item "renamed_file") then "renamed"
      else "modified" in
    JObj [("path", default JNull (get_or item "new_path" "old_path"));
          ("previous_path", get_json item "old_path"); ("status", JStr status);
          ("patch", get_json item "diff"); ("additions", JNull); ("deletions", JNull)]).

Definition _gitlab_query_comment (item : json) : outcome json :=
  with_get item (λ item,
    let position := jget item "position" in
    JObj [("comment_id", opt_json (_id_to_str (jget item "id")));
          ("thread_id", opt_json (_id_to_str (jget item "discussion_id")));
          ("kind", JStr (if is_object position then "line" else "summary"));
          ("body", get_json item "body"); ("author", opt_json (_gitlab_author (jget item "author")));
          ("url", get_json item "web_url"); ("created_at", get_json item "created_at");
          ("updated_at", get_json item "updated_at");
          ("path", field_json position "new_path"); ("line", field_json position "new_line")]).

Definition query_status (merge_request : json) : json :=
  let status := opt_json (_gitlab_status (jget merge_request "state")) in
  JObj [("status", status); ("state", status);
        ("merged", JBool (bool_decide (jget_str merge_request "state" = Some "merged")));
        ("head_sha", get_json merge_request "sha")].

(** ** The platform *)

(** Whether a client is configured, the address of its API, and the webhook secret. *)
Class GitLabSettings := {
  gitlab_client : bool;
  gitlab_api_base_url : string;
  gitlab_webhook_secret : option string
}.

Section gitlab.
Context `{Runtime} `{PlatformHttp} `{GitLabSettings}.

Definition require_client (operation : string) : SM () :=
  if gitlab_client then mret tt
  else raise (ProviderCapabilityError "GitLab client is not configured.").

(** An error of the client becomes one of the provider. *)
Definition operation_error {A} (m : SM A) : SM A :=
  try_except m (λ e, match e with
                     | GitLabClientError message =>
                         safe ← lift (_safe_platform_error message); raise (ProviderError safe)
                     | _ => raise e
                     end).

Definition get_credential (target scope : string) : SM Credential.t :=
  if bool_decide (scope = "webhook") then
    mret (Credential.mk (default "" gitlab_webhook_secret) None None)
  else if negb (bool_decide (scope ∈ ["git:read"; "comment:write"; "query:read"])) then
    raise (ProviderCapabilityError ("GitLab does not support credential scope " +:+ repr_string scope +:+ "."))
  else
    require_client "get_credential" ;;
    mret (Credential.mk (default "" gitlab_token) (Some "oauth2") None).

Definition clone_url (repository : string) : SM string :=
  require_client "resolve_git_checkout" ;;
  mret (gitlab_clone_url gitlab_api_base_url repository).

Definition platform_merge_request (repository : string) (number : Z) : SM json :=
  require_client "pull_request.get" ;; get_merge_request repository number.

Definition platform_merge_request_changes (repository : string) (number : Z) : SM json :=
  require_client "pull_request.changes.list" ;; get_merge_request_changes repository number.

(** [isinstance(value, str | int)], as text. *)
Definition marked_note (marker : string) (note : json) : option string :=
  match note with
  | JObj fields =>
      if py_contains marker (py_str (default (JStr "") (jget note "body")))
      then _id_to_str (jget note "id") else None
  | _ => None
  end.

(** The note and the discussion that carry a marker. *)
Definition marked_discussion (marker : string) (discussion : json) : option (string * string) :=
  match _id_to_str (jget discussion "id"), jget discussion "notes" with
  | Some discussion_id, Some (JList notes) =>
      note_id ← head (omap (marked_note marker) notes); Some (note_id, discussion_id)
  | _, _ => None
  end.

(** [discussion.get]: only an object has it. *)
Fixpoint find_discussion (marker : string) (discussions : list json)
    : outcome (option (string * string)) :=
  match discussions with
  | [] => Return None
  | JObj fields :: discussions =>
      match marked_discussion marker (JObj fields) with
      | Some found => Return (Some found)
      | None => find_discussion marker discussions
      end
  | _ :: _ => Raise (TypeError "object has no attribute 'get'")
  end.

Definition _find_discussion_comment (repository : string) (number : Z) (marker : string)
    : SM (option (string * string)) :=
  require_client "publish_comments" ;;
  discussions ← list_merge_request_discussions repository number;
  lift (find_discussion marker discussions).

Definition note_with_key (key : string) (notes : list PlatformComment.t) : option string :=
  py_str ∘ PlatformComment.id <$>
  head (filter (λ c, Is_true (py_contains (_idempotency_marker key)
                                (default "" (PlatformComment.body c)))) notes).

(** The note an item names or its key was used for, and its discussion. *)
Definition find_published (repository : string) (number : Z) (item : CommentPublishItem.t)
    : SM (option string * option string) :=
  let thread_id := CommentPublishItem.thread_id item in
  let comment_id := match or_none (CommentPublishItem.comment_id item) with
                    | Some id => Some id
                    | None => thread_id
                    end in
  match comment_id, or_none (CommentPublishItem.idempotency_key item) with
  | None, Some key =>
      if bool_decide (CommentPublishItem.kind item = LineComment) then
        found ← _find_discussion_comment repository number (_idempotency_marker key);
        mret (fst <$> found, snd <$> found)
      else
        notes ← list_merge_request_notes repository number;
        mret (note_with_key key notes, thread_id)
  | _, _ => mret (comment_id, thread_id)
  end.

(** The position of a new line comment. *)
Definition line_position (merge_request : json) (item : CommentPublishItem.t) : outcome json :=
  match jget merge_request "diff_refs" with
  | Some (JObj diff_refs) =>
      match jget_str (JObj diff_refs) "base_sha", jget_str (JObj diff_refs) "start_sha" with
      | Some base_sha, Some start_sha =>
          match CommentPublishItem.commit_sha item, CommentPublishItem.path item,
                CommentPublishItem.line item with
          | Some commit_sha, Some path, Some line =>
              Return (JObj [("position_type", JStr "text"); ("base_sha", JStr base_sha);
                            ("start_sha", JStr start_sha); ("head_sha", JStr commit_sha);
                            ("new_path", JStr path); ("new_line", JInt line)])
          | _, _, _ => Raise (AssertionError "")
          end
      | _, _ => Raise (GitLabClientError "GitLab merge request has incomplete diff refs.")
      end
  | _ => Raise (GitLabClientError "GitLab merge request has no diff refs for a line comment.")
  end.

Definition publish_comment (repository : string) (number : Z) (item : CommentPublishItem.t)
    : SM (string * option string) :=
  require_client "publish_comments" ;;
  let body := _idempotent_comment_body (CommentPublishItem.body item)
                (CommentPublishItem.idempotency_key item) in
  found ← find_published repository number item;
  if bool_decide (CommentPublishItem.kind item = LineComment) then
    match found with
    | (Some comment_id, Some thread_id) =>
        updated ← update_merge_request_discussion_note repository number thread_id comment_id body;
        mret (updated.1, Some updated.2)
    | (Some comment_id, None) =>
        updated ← update_merge_request_note repository number comment_id body;
        mret (updated, None)
    | (None, _) =>
        require_client "pull_request.get" ;;
        merge_request ← get_merge_request repository number;
        position ← lift (line_position merge_request item);
        created ← create_merge_request_discussion repository number body position;
        mret (created.1, Some created.2)
    end
  else
    match found.1 with
    | Some comment_id =>
        updated ← update_merge_request_note repository number comment_id body;
        mret (updated, None)
    | None =>
        created ← create_merge_request_note repository number body;
        mret (created, None)
    end.

Definition platform_summary_comment (run_id status_text : string)
    (finding_stats : option (gmap string Z)) : SM (option string) :=
  require_client "publish_summary_comment" ;;
  publish_gitlab_summary_comment run_id status_text finding_stats.

(** ** The provider *)

Definition resolve_git_checkout (request : GitCheckoutRequest.t) : SM GitCheckoutTarget.t :=
  credential ← get_credential (GitCheckoutRequest.repository request) "git:read";
  remote_url ← (match or_none (GitCheckoutRequest.clone_url request) with
                | Some url => mret url
                | None => clone_url (GitCheckoutRequest.repository request)
                end);
  mret (GitCheckoutTarget.mk remote_url (Credential.username credential)
    (or_none (Some (Credential.value credential))) (Credential.expires_at credential)).

Definition get_workspace_checkout (repo_full_name : string) (url : option string)
    : SM ProviderWorkspaceCheckout.t :=
  resolved ← resolve_git_checkout (GitCheckoutRequest.mk repo_full_name url);
  mret (ProviderWorkspaceCheckout.mk (GitCheckoutTarget.remote_url resolved)
    (GitCheckoutTarget.password resolved)
    (or_else (GitCheckoutTarget.username resolved) "oauth2")).

Definition _comment_url (repository : string) (number : Z) (comment_id : string) : SM string :=
  url ← clone_url repository;
  mret (remove_suffix ".git" url +:+ "/-/merge_requests/" +:+ str_int number +:+ "#note_"
        +:+ comment_id).

(** One comment of a request; a failure of the client is its result. *)
Definition publish_item (request : CommentPublishRequest.t) (item : CommentPublishItem.t)
    : SM PublishedComment.t :=
  let repository := CommentPublishRequest.repository request in
  let number := CommentPublishRequest.pull_request_number request in
  let kind := CommentPublishItem.kind item in
  try_except
    (published ← publish_comment repository number item;
     url ← _comment_url repository number published.1;
     mret (PublishedComment.mk kind (Some published.1) published.2 (Some url) None))
    (λ e, match e with
          | GitLabClientError message =>
              error ← lift (_safe_platform_error message);
              mret (PublishedComment.mk kind None None None (Some error))
          | _ => raise e
          end).

Fixpoint publish_items (request : CommentPublishRequest.t) (items : list CommentPublishItem.t)
    : SM (list PublishedComment.t) :=
  match items with
  | [] => mret []
  | item :: items =>
      r ← publish_item request item;
      rs ← publish_items request items;
      mret (r :: rs)
  end.

Definition publish_comments (request : CommentPublishRequest.t) : SM CommentPublishResult.t :=
  _ ← get_credential (CommentPublishRequest.repository request) "comment:write";
  results ← publish_items request (CommentPublishRequest.comments request);
  mret (publish_result results).

Definition list_merge_request_comments (repository : string) (number : Z) : SM (list json) :=
  require_client "pull_request.comments.list" ;;
  notes ← list_merge_request_notes repository number;
  mret (PlatformComment.fields <$> notes).

Definition query (request : PlatformQueryRequest.t) : SM PlatformQueryResult.t :=
  let action := PlatformQueryRequest.action request in
  let repository := PlatformQueryRequest.repository request in
  let number := PlatformQueryRequest.pull_request_number request in
  _ ← get_credential repository "query:read";
  let paged (converter : json → outcome json) (items : SM (list json)) : SM PlatformQueryResult.t :=
    found ← operation_error items;
    lift (page_result action converter found (PlatformQueryRequest.cursor request)
            (PlatformQueryRequest.page_size request)) in
  let of_merge_request (view : json → json) : SM PlatformQueryResult.t :=
    merge_request ← operation_error (platform_merge_request repository number);
    mret (PlatformQueryResult.mk action (Some (view merge_request)) [] None) in
  match action with
  | PullRequestGet => of_merge_request (_gitlab_query_pull_request repository number)
  | StatusGet => of_merge_request query_status
  | ChangesList =>
      paged _gitlab_query_change
        (response ← platform_merge_request_changes repository number;
         mret (match jget response "changes" with Some (JList items) => items | _ => [] end))
  | CommentsList => paged _gitlab_query_comment (list_merge_request_comments repository number)
  end.

Definition list_changed_files (r : ReviewRun.t) : SM (list ChangedFile.t) :=
  operation_error
    (require_client "list_changed_files" ;;
     fetch_gitlab_changed_files (ReviewRun.repo_full_name r) (ReviewRun.pull_request_number r)).

Definition gitlab_summary (run_id status_text : string) (finding_stats : option (gmap string Z))
    : SM (option string) :=
  operation_error (platform_summary_comment run_id status_text finding_stats).

Definition agent_task_comment_url (a : AgentTask.t) : SM (option string) :=
  match or_none (AgentTask.response_comment_id a) with
  | None => mret None
  | Some comment_id =>
      url ← _comment_url (AgentTask.repo_full_name a) (AgentTask.pull_request_number a) comment_id;
      mret (Some url)
  end.

(** The merge request of a command task as a context; the identifier and the time are those
    it gets when it is stored. *)
Definition context_from_merge_request_task (a : AgentTask.t) (merge_request : json)
    : SM PullRequestContext.t :=
  let text (key : string) : option string := _optional_str (jget merge_request key) in
  context ← new_context (AgentTask.provider a) (AgentTask.repo_full_name a)
    (AgentTask.pull_request_number a) (default "" (text "sha"));
  mret (context .[ PullRequestContext.provider_pr_id := _id_to_str (jget merge_request "id") ]
    .[ PullRequestContext.title := text "title" ]
    .[ PullRequestContext.author_login := _gitlab_author (jget merge_request "author") ]
    .[ PullRequestContext.base_ref := text "target_branch" ]
    .[ PullRequestContext.base_sha := field_str (jget merge_request "diff_refs") "base_sha" ]
    .[ PullRequestContext.head_ref := text "source_branch" ]
    .[ PullRequestContext.head_repo_full_name := Some (AgentTask.repo_full_name a) ]
    .[ PullRequestContext.is_fork := false ]
    .[ PullRequestContext.status := or_else (text "state") "opened" ]
    .[ PullRequestContext.html_url := text "web_url" ]).

Definition get_pull_request_context (a : AgentTask.t) : SM PullRequestContext.t :=
  merge_request ← operation_error
    (require_client "pull_request.get" ;;
     get_merge_request (AgentTask.repo_full_name a) (AgentTask.pull_request_number a));
  context_from_merge_request_task a merge_request.
End gitlab.
