(* ===== verification/Registry.v ===== *)
(** * The registry of providers

    Model of [ProviderRuntime] and [ProviderRegistry] in
    [src/src/review_orchestrator/integrations/providers.py] and of [create_provider_registry]
    in [provider_plugins.py].  An adapter is known by its keys and by the names of its
    attributes, which decide what it can do. *)
From Stdlib Require Import Ascii.
From S2P Require Import Prelude PyText Json.
#[global] Open Scope Z_scope.
#[global] Open Scope orch_scope.

Module ProviderAdapter.
Record t := mk {
  key : option string;
  provider : option string;
  attributes : list string
}.
End ProviderAdapter.

Module ProviderDescriptor.
Record t := mk { key : string; kind : string; display_name : string }.
End ProviderDescriptor.

(** [close] tells whether the runtime owns something to close. *)
Module ProviderRuntime.
Record t := mk {
  provider : ProviderAdapter.t;
  descriptor : ProviderDescriptor.t;
  close : bool
}.
End ProviderRuntime.

(** The attributes a capability needs besides [provider]. *)
Definition CAPABILITY_PROTOCOLS : list (string * string) :=
  [("webhook", "parse_webhook"); ("pull_request", "get_pull_request_context");
   ("workspace_checkout", "get_workspace_checkout"); ("changed_files", "list_changed_files");
   ("review_summary", "publish_summary_comment"); ("line_comments", "publish_line_comments");
   ("agent_task_comments", "publish_agent_task_comment");
   ("diagnostics", "diagnose_permissions"); ("resource_links", "agent_task_comment_url")].

(** [isinstance(adapter, protocol)]. *)
Definition satisfies (adapter : ProviderAdapter.t) (method : string) : bool :=
  bool_decide (is_Some (ProviderAdapter.provider adapter))
  && bool_decide (method ∈ ProviderAdapter.attributes adapter).

Definition _provider_key (adapter : ProviderAdapter.t) : outcome string :=
  match or_none (ProviderAdapter.key adapter) with
  | Some key => Return key
  | None =>
      match or_none (ProviderAdapter.provider adapter) with
      | Some key => Return key
      | None => Raise (ValueError "Provider must declare a non-empty key.")
      end
  end.

(** [s.title()] on text whose letters are those of ASCII. *)
Definition is_letter (c : ascii) : bool := in_range 65 90 c || in_range 97 122 c.
Definition upper_char (c : ascii) : ascii :=
  if in_range 97 122 c then ascii_of_N (Z.to_N (code c - 32)) else c.
Fixpoint title_from (in_word : bool) (s : string) : string :=
  match s with
  | "" => ""
  | String c s =>
      String (if is_letter c then (if in_word then lower_char c else upper_char c) else c)
        (title_from (is_letter c) s)
  end.
Definition py_title : string → string := title_from false.

(** The constructor of [ProviderRuntime], from a provider or an adapter. *)
Definition provider_runtime (provider adapter : option ProviderAdapter.t)
    (descriptor : option ProviderDescriptor.t) (close : bool) : outcome ProviderRuntime.t :=
  match provider, adapter with
  | Some _, Some _ => Raise (TypeError "Pass provider or adapter, not both.")
  | None, None => Raise (TypeError "ProviderRuntime requires a provider.")
  | Some a, None | None, Some a =>
      match descriptor with
      | Some d => Return (ProviderRuntime.mk a d close)
      | None =>
          key ← _provider_key a;
          mret (ProviderRuntime.mk a
            (ProviderDescriptor.mk key key (py_title (py_replace_char "-" " " key))) close)
      end
  end.

(** The runtimes by key, in the order they were registered. *)
Module Registry.
Record t := mk { runtimes : list (string * ProviderRuntime.t); closed : bool }.
End Registry.

Definition get_runtime (r : Registry.t) (key : string) : option ProviderRuntime.t :=
  snd <$> head (filter (λ kr, kr.1 = key) (Registry.runtimes r)).

Definition _register_runtime (r : Registry.t) (runtime : ProviderRuntime.t)
    : outcome Registry.t :=
  key ← _provider_key (ProviderRuntime.provider runtime);
  if bool_decide (is_Some (get_runtime r key)) then
    Raise (ValueError ("Provider " +:+ repr_string key +:+ " is registered more than once."))
  else if negb (bool_decide (ProviderDescriptor.key (ProviderRuntime.descriptor runtime) = key)) then
    Raise (ValueError "Provider descriptor key must match provider key.")
  else
    Return (Registry.mk (Registry.runtimes r ++ [(key, runtime)]) (Registry.closed r)).

(** The constructor. *)
Fixpoint register_all (r : Registry.t) (runtimes : list ProviderRuntime.t) : outcome Registry.t :=
  match runtimes with
  | [] => Return r
  | runtime :: runtimes => r ← _register_runtime r runtime; register_all r runtimes
  end.

Definition provider_registry (runtimes : list ProviderRuntime.t) : outcome Registry.t :=
  register_all (Registry.mk [] false) runtimes.

(** [register]: [factory] is what the factory of the runtime returns. *)
Definition register (r : Registry.t) (key : string) (factory : outcome ProviderRuntime.t)
    : outcome (Registry.t * ProviderRuntime.t) :=
  if Registry.closed r then Raise (OtherError "Provider registry is already closed.")
  else
    runtime ← factory;
    actual_key ← _provider_key (ProviderRuntime.provider runtime);
    if negb (bool_decide (actual_key = key)) then
      Raise (ValueError ("Provider factory registered as " +:+ repr_string key +:+ " returned "
        +:+ repr_string actual_key +:+ "."))
    else
      r ← _register_runtime r runtime;
      mret (r, runtime).

Definition get_adapter (r : Registry.t) (provider : string) : option ProviderAdapter.t :=
  ProviderRuntime.provider <$> get_runtime r provider.

Definition require (r : Registry.t) (provider : string) : outcome ProviderAdapter.t :=
  match get_adapter r provider with
  | Some adapter => Return adapter
  | None => Raise (KeyError provider)
  end.

(** [capability], for the protocol that needs a method. *)
Definition capability (r : Registry.t) (provider method : string) : option ProviderAdapter.t :=
  adapter ← get_adapter r provider;
  if satisfies adapter method then Some adapter else None.

Definition require_capability (r : Registry.t) (provider method operation : string)
    : outcome ProviderAdapter.t :=
  match capability r provider method with
  | Some adapter => Return adapter
  | None => Raise (ProviderCapabilityError ("Provider " +:+ repr_string provider +:+ " does not support "
              +:+ operation +:+ "."))
  end.

Definition capabilities (r : Registry.t) (provider : string) : list string :=
  match get_adapter r provider with
  | None => []
  | Some adapter => (filter (λ p, Is_true (satisfies adapter p.2)) CAPABILITY_PROTOCOLS).*1
  end.

Definition descriptors (r : Registry.t) : list ProviderDescriptor.t :=
  ProviderRuntime.descriptor <$> (Registry.runtimes r).*2.

(** Closing the runtimes from the last registered to the first: the keys whose closer was
    called, and the first error. *)
Fixpoint close_all (close : string → outcome ()) (runtimes : list (string * ProviderRuntime.t))
    : list string * outcome () :=
  match runtimes with
  | [] => ([], Return tt)
  | (key, runtime) :: runtimes =>
      if ProviderRuntime.close runtime then
        match close key with
        | Return _ => let '(called, o) := close_all close runtimes in (key :: called, o)
        | Raise e => ([key], Raise e)
        end
      else close_all close runtimes
  end.

Definition aclose (close : string → outcome ()) (r : Registry.t)
    : list string * outcome () * Registry.t :=
  if Registry.closed r then ([], Return tt, r)
  else (close_all close (reverse (Registry.runtimes r)), Registry.mk (Registry.runtimes r) true).

(** ** Plugins *)

(** A plugin: its key and what it builds. *)
Module ProviderPlugin.
Record t := mk { provider : string; build : outcome ProviderRuntime.t }.
End ProviderPlugin.

(** [tuple(dict.fromkeys(l))]: the first of equal elements stays. *)
Fixpoint unique_keys (l : list string) : list string :=
  match l with
  | [] => []
  | k :: l => k :: filter (λ k', k' ≠ k) (unique_keys l)
  end.

Definition enabled_provider_keys (providers_enabled : string) : list string :=
  unique_keys (omap (λ key, let key := py_strip key in
                            if bool_decide (key = "") then None else Some (py_lower key))
                 (py_split "," providers_enabled)).

Definition find_plugin (key : string) (catalog : list (string * ProviderPlugin.t))
    : option ProviderPlugin.t := snd <$> head (filter (λ kp, kp.1 = key) catalog).

(** The plugins by key, in the order given. *)
Fixpoint plugin_catalog (catalog : list (string * ProviderPlugin.t))
    (plugins : list ProviderPlugin.t) : outcome (list (string * ProviderPlugin.t)) :=
  match plugins with
  | [] => Return catalog
  | plugin :: plugins =>
      let key := py_lower (ProviderPlugin.provider plugin) in
      if bool_decide (is_Some (find_plugin key catalog)) then
        Raise (ValueError ("Provider plugin " +:+ repr_string key +:+ " is registered more than once."))
      else plugin_catalog (catalog ++ [(key, plugin)]) plugins
  end.

Definition create_provider_registry (providers_enabled : string)
    (available_plugins : list ProviderPlugin.t) : outcome Registry.t :=
  let enabled := enabled_provider_keys providers_enabled in
  catalog ← plugin_catalog [] available_plugins;
  match filter (λ key, find_plugin key catalog = None) enabled with
  | [] =>
      runtimes ← outcome_concat
        (λ key, match find_plugin key catalog with
                | Some plugin => runtime ← ProviderPlugin.build plugin; mret [runtime]
                | None => mret []
                end) enabled;
      provider_registry runtimes
  | unknown =>
      Raise (ValueError ("Enabled provider plugins are not installed: " +:+ py_join ", " unknown))
  end.

(** The two platforms of this repository. *)
Definition github_adapter : ProviderAdapter.t :=
  ProviderAdapter.mk (Some "github") (Some "github")
    ["parse_webhook"; "normalize_webhook"; "resolve_git_checkout"; "publish_comments"; "query";
     "get_pull_request_context"; "get_workspace_checkout"; "list_changed_files";
     "publish_summary_comment"; "publish_line_comments"; "publish_agent_task_comment";
     "diagnose_permissions"; "agent_task_comment_url"].

Definition gitlab_adapter : ProviderAdapter.t :=
  ProviderAdapter.mk (Some "gitlab") (Some "gitlab")
    ["parse_webhook"; "normalize_webhook"; "resolve_git_checkout"; "publish_comments"; "query";
     "get_pull_request_context"; "get_workspace_checkout"; "list_changed_files";
     "publish_summary_comment"; "diagnose_permissions"; "agent_task_comment_url"].
