(* ===== verification/Platforms.v ===== *)
(** * The outbox on the two platforms

    The adapters of the outbox, [ProviderRegistry] of [Delivery.v], as the registry of the
    application offers them: [GitHubProvider] and [GitLabProvider] with their clients. *)
From S2P Require Import Prelude PyText Json World Models Delivery PlatformClient Comments Registry GitHub GitLab.
#[global] Open Scope Z_scope.
#[global] Open Scope orch_scope.

Definition capability_method (c : Delivery.capability) : string :=
  match c with
  | AgentTaskCommentsCapability => "publish_agent_task_comment"
  | ReviewSummaryCapability => "publish_summary_comment"
  | LineCommentsCapability => "publish_line_comments"
  end.

Section platforms.
Context `{Runtime} `{PlatformHttp} `{GitHubSettings} `{GitLabSettings}.
(** The registry, and the validation of a changed file by the validation library. *)
Context (registry : Registry.t) (validate : json → outcome ChangedFile.t).

(** [result.provider_comment_id if result is not None else None]. *)
Definition published_comment (ref_id : option string) : SM (option (option string)) :=
  match ref_id with
  | None => mret None
  | Some ref_id =>
      ref ← load (R := ReviewCommentRef.t) ref_id;
      mret (Some (Some (ReviewCommentRef.provider_comment_id ref)))
  end.

Definition unsupported {A} (provider : string) : SM A :=
  raise (ProviderError ("Provider " +:+ repr_string provider +:+ " has no such operation.")).

#[global] Instance code_platforms : ProviderRegistry := {|
  has_capability provider c :=
    bool_decide (is_Some (capability registry provider (capability_method c)));
  publish_agent_task_comment provider task_id state :=
    if bool_decide (provider = "github") then github_agent_comment task_id state
    else unsupported provider;
  publish_summary_comment provider run_id status_text stats :=
    ref_id ← (if bool_decide (provider = "github") then github_summary run_id status_text stats
              else if bool_decide (provider = "gitlab") then gitlab_summary run_id status_text stats
              else unsupported provider);
    published_comment ref_id;
  publish_line_comments provider run_id changed_files :=
    if bool_decide (provider = "github")
    then stats ← github_line_comments run_id changed_files; mret (LineStats.failed stats)
    else unsupported provider;
  validate_changed_file := validate
|}.
End platforms.
