(* ===== verification/PlatformWebhooks.v ===== *)
(** * Webhooks of the two platforms

    Model of the webhook side of [src/src/review_orchestrator/integrations/github.py] and
    [gitlab.py]: authenticating a delivery, reading its payload, and turning it into the
    provider-neutral event that [Webhooks.v] accepts. *)
From Stdlib Require Import Ascii.
From S2P Require Import Prelude PyText Json PyRegex Models Webhooks ProviderCore GitLab.
#[global] Open Scope Z_scope.
#[global] Open Scope orch_scope.

(** Why a body is not read: it is not JSON, or not text at all. *)
Inductive decode_error := JSONDecodeError | UnicodeDecodeError.

(** What the code takes from the standard library: [json.loads], HMAC with SHA-256, and
    [datetime.fromisoformat], which fails on what is not a date. *)
Class WebhookLibrary := {
  json_loads : string → json + decode_error;
  hmac_sha256_hexdigest : string → string → string;
  fromisoformat : string → option Z
}.

Module ParsedProviderWebhook.
Record t := mk {
  delivery_id : string;
  provider_event : ProviderWebhookEvent.t;
  payload : json;
  raw_body : string
}.
End ParsedProviderWebhook.

(** ** Headers *)

(** [{key.lower(): value for key, value in headers.items()}]. *)
Definition lower_headers (headers : list (string * string)) : list (string * string) :=
  (λ kv, (py_lower kv.1, kv.2)) <$> headers.

(** [headers.get(key)]: of equal keys the last one is in the dictionary. *)
Definition header (headers : list (string * string)) (key : string) : option string :=
  snd <$> last (filter (λ kv, kv.1 = key) headers).

(** [hmac.compare_digest] of two texts, which must be ASCII. *)
Definition compare_digest (a b : string) : outcome bool :=
  if str_all is_ascii a && str_all is_ascii b then Return (bool_decide (a = b))
  else Raise (TypeError "comparing strings with non-ASCII characters is not supported").

(** ** Errors *)

Definition GitHubPayloadError (message : string) : exn :=
  ProviderWebhookError message "github_payload_invalid" 400.
Definition GitHubSignatureError (message : string) : exn :=
  ProviderWebhookError message "github_signature_invalid" 401.
Definition ProviderPayloadError (message : string) : exn :=
  ProviderWebhookError message "provider_payload_invalid" 400.
Definition ProviderSignatureError (message : string) : exn :=
  ProviderWebhookError message "provider_signature_invalid" 401.

(** [isinstance(value, int)], and what it is: in Python a [bool] is an [int]. *)
Definition int_of (value : option json) : option Z :=
  match value with
  | Some (JInt n) => Some n
  | Some (JBool b) => Some (if b then 1 else 0)
  | _ => None
  end.

Definition object_of (value : option json) : option json :=
  match value with Some (JObj fields) => Some (JObj fields) | _ => None end.

(** [str.replace("Z", "+00:00")]. *)
Fixpoint replace_zulu (s : string) : string :=
  match s with
  | "" => ""
  | String c s => if char_eqb c "Z" then "+00:00" +:+ replace_zulu s else String c (replace_zulu s)
  end.

Section webhooks.
Context `{Runtime} `{WebhookLibrary}.

Definition parse_datetime (value : option json) : outcome (option Z) :=
  match value with
  | Some (JStr (String c s)) =>
      match fromisoformat (replace_zulu (String c s)) with
      | Some t => Return (Some t)
      | None => Raise (ValueError "Invalid isoformat string")
      end
  | _ => Return None
  end.

(** Reading a body: what is not JSON or not an object is a payload error; what is not
    text raises the decoder's own exception. *)
Definition read_body (not_json not_object : exn) (body : string) : outcome json :=
  match json_loads body with
  | inr JSONDecodeError => Raise not_json
  | inr UnicodeDecodeError => Raise (ValueError "'utf-8' codec can't decode")
  | inl (JObj fields) => Return (JObj fields)
  | inl _ => Raise not_object
  end.

(** ** GitHub *)

Definition parse_json_body : string → outcome json :=
  read_body (GitHubPayloadError "GitHub webhook payload is not valid JSON.")
    (GitHubPayloadError "GitHub webhook payload must be a JSON object.").

Definition expected_signature (secret body : string) : string :=
  "sha256=" +:+ hmac_sha256_hexdigest secret body.

Definition verify_signature (body : string) (signature secret : option string) : outcome () :=
  match or_none secret, or_none signature with
  | None, _ => Return tt
  | Some _, None => Raise (GitHubSignatureError "Missing X-Hub-Signature-256 header.")
  | Some secret, Some signature =>
      same ← compare_digest (expected_signature secret body) signature;
      if same : bool then Return tt
      else Raise (GitHubSignatureError "Invalid GitHub webhook signature.")
  end.

Definition PR_ACTIONS_TO_INTERNAL_EVENT : list (string * string) :=
  [("opened", "pr_opened"); ("synchronize", "pr_updated"); ("reopened", "pr_reopened");
   ("closed", "pr_closed"); ("edited", "pr_metadata_changed");
   ("ready_for_review", "pr_ready_for_review"); ("converted_to_draft", "pr_converted_to_draft");
   ("labeled", "pr_metadata_changed"); ("unlabeled", "pr_metadata_changed");
   ("assigned", "pr_metadata_changed"); ("unassigned", "pr_metadata_changed")].
Definition REVIEW_RUN_ACTIONS : list string :=
  ["opened"; "synchronize"; "reopened"; "ready_for_review"].
Definition COMMENT_CONTEXT_EVENTS : list string :=
  ["issue_comment"; "pull_request_review"; "pull_request_review_comment"].

Fixpoint assoc (key : string) (l : list (string * string)) : option string :=
  match l with
  | [] => None
  | (k, v) :: l => if bool_decide (k = key) then Some v else assoc key l
  end.

Definition _repository_name (payload : json) : option string :=
  field_str (jget payload "repository") "full_name".

Definition _pull_request_number (payload : json) : option Z :=
  match object_of (jget payload "pull_request") ≫= (λ pr, int_of (jget pr "number")) with
  | Some n => Some n
  | None =>
      issue ← object_of (jget payload "issue");
      n ← int_of (jget issue "number");
      _ ← object_of (jget issue "pull_request");
      Some n
  end.

Definition _pull_request_head_sha (payload : json) : option string :=
  pull_request ← jget payload "pull_request";
  field_str (jget pull_request "head") "sha".

Definition _pull_request_merged (payload : json) : bool :=
  match jget payload "pull_request" ≫= (λ pr, jget pr "merged") with
  | Some (JBool true) => true
  | _ => false
  end.

Definition github_pull_request_snapshot (payload : json) : outcome (option PullRequestSnapshot.t) :=
  match object_of (jget payload "pull_request"), object_of (jget payload "repository") with
  | Some pr, Some repository =>
      match _optional_str (jget repository "full_name"), int_of (jget pr "number"),
            _pull_request_head_sha payload with
      | Some name, Some number, Some head_sha =>
          let base := jget pr "base" in
          let head := jget pr "head" in
          let repo_of (side : option json) : option string :=
            field_str (side ≫= λ o, jget o "repo") "full_name" in
          let status := if _pull_request_merged payload then "merged"
                        else or_else (_optional_str (jget pr "state")) "open" in
          closed_at ← parse_datetime (jget pr "closed_at");
          merged_at ← parse_datetime (jget pr "merged_at");
          mret (Some (PullRequestSnapshot.mk name number head_sha
            (_id_to_str (jget repository "id")) (_id_to_str (jget pr "id"))
            (_optional_str (jget pr "title")) (field_str (jget pr "user") "login")
            (field_str base "ref") (field_str base "sha") (field_str head "ref")
            (repo_of base) (repo_of head) status (_optional_str (jget pr "html_url"))
            closed_at merged_at))
      | _, _, _ => Return None
      end
  | _, _ => Return None
  end.

Definition _normalize_pull_request_event (action : option string) (payload : json)
    : outcome ProviderWebhookEvent.t :=
  let internal_event :=
    if bool_decide (action = Some "closed") && _pull_request_merged payload then Some "pr_merged"
    else assoc (default "" action) PR_ACTIONS_TO_INTERNAL_EVENT in
  snapshot ← github_pull_request_snapshot payload;
  if bool_decide (is_Some internal_event) && negb (bool_decide (is_Some snapshot)) then
    Raise (GitHubPayloadError "GitHub pull_request payload is missing PR identity fields.")
  else
    mret (ProviderWebhookEvent.mk "github" "pull_request" action internal_event
      (_repository_name payload) (_pull_request_number payload) (_pull_request_head_sha payload)
      (bool_decide (is_Some internal_event))
      (match action with Some a => bool_decide (a ∈ REVIEW_RUN_ACTIONS) | None => false end)
      false (if bool_decide (is_Some internal_event) then "received" else "ignored") None snapshot).
End webhooks.

(** ** Message commands *)

(** What the settings say about commands: the login of the bot, whether commands are
    enabled, who may give them, and how long they may be. *)
Module CommandSettings.
Record t := mk {
  bot_login : option string;
  command_enabled : bool;
  allowed_associations : option (list string);
  max_command_chars : Z
}.
End CommandSettings.

(** [s.upper()] on letters that have a capital of their own below code point 256. *)
Definition upper_char (c : ascii) : ascii :=
  if in_range 97 122 c || (in_range 224 254 c && negb (code c =? 247))
  then ascii_of_N (Z.to_N (code c - 32)) else c.
Definition py_upper : string → string := str_map upper_char.

Definition login_char (c : ascii) : bool := alphanumeric c || char_eqb c "_" || char_eqb c "-".

Definition mention_pattern (bot_login : string) : re :=
  seqs (NotBehind login_char)
    [Class (char_eqb "@"); literal_ignore_case bot_login; NotAhead login_char].

Definition accepted_action (provider_event : string) : option string :=
  assoc provider_event
    [("issue_comment", "created"); ("pull_request_review", "submitted");
     ("pull_request_review_comment", "created")].

(** Whether an author may command the bot. *)
Definition may_command (settings : CommandSettings.t) (bot_login author_login : string)
    (author_type association : option string) : bool :=
  negb (bool_decide (py_lower author_login = py_lower bot_login))
  && negb (bool_decide (py_lower (default "" author_type) = "bot"))
  && match CommandSettings.allowed_associations settings with
     | None => true
     | Some allowed =>
         match association with
         | Some a => bool_decide (py_upper a ∈ allowed)
         | None => false
         end
     end.

(** The text of a command: the body without the mentions of the bot. *)
Definition command_text_of (bot_login body : string) : option string :=
  if re_search (mention_pattern bot_login) body
  then Some (py_strip (re_sub (mention_pattern bot_login) (λ _, "") body)) else None.

Definition _extract_agent_command (settings : CommandSettings.t) (provider_event : string)
    (action : option string) (payload : json) : option AgentCommand.t :=
  bot_login ← (if CommandSettings.command_enabled settings
               then or_none (CommandSettings.bot_login settings) else None);
  if negb (bool_decide (action = accepted_action provider_event)) then None
  else
    source ← (match object_of (jget payload "comment") with
              | Some comment => Some comment
              | None => object_of (jget payload "review")
              end);
    body ← jget_str source "body";
    source_id ← _id_to_str (jget source "id");
    user ← object_of (jget source "user");
    author_login ← _optional_str (jget user "login");
    let association := match _optional_str (jget source "author_association") with
                       | Some a => Some a
                       | None => _optional_str (jget payload "author_association")
                       end in
    if negb (may_command settings bot_login author_login (_optional_str (jget user "type"))
               association) then None
    else
      command_text ← command_text_of bot_login body;
      if CommandSettings.max_command_chars settings <? Z.of_nat (String.length command_text)
      then None
      else Some (AgentCommand.mk provider_event source_id (_optional_str (jget source "html_url"))
                   author_login association command_text).

(** [if n]. *)
Definition truthy_number (n : option Z) : bool :=
  match n with Some n => negb (n =? 0) | None => false end.

Definition _normalize_comment_context_event (settings : CommandSettings.t)
    (provider_event : string) (action : option string) (payload : json) : ProviderWebhookEvent.t :=
  let number := _pull_request_number payload in
  let command := _extract_agent_command settings provider_event action payload in
  let internal_event :=
    if truthy_number number
    then Some (if bool_decide (is_Some command) then "agent_command" else "pr_comment_context")
    else None in
  ProviderWebhookEvent.mk "github" provider_event action internal_event
    (_repository_name payload) number (_pull_request_head_sha payload) false false
    (bool_decide (is_Some number) && bool_decide (is_Some command))
    (if bool_decide (is_Some internal_event) then "received" else "ignored") command None.

(** [settings.agent_task_allowed_associations] as the set it names. *)
Definition allowed_associations_of (configured : string) : list string :=
  omap (λ item, let item := py_strip item in
                if bool_decide (item = "") then None else Some (py_upper item))
    (py_split "," configured).

Section parsing.
Context `{Runtime} `{WebhookLibrary}.

Definition normalize_github_event (settings : CommandSettings.t) (provider_event : string)
    (payload : json) : outcome ProviderWebhookEvent.t :=
  let action := _optional_str (jget payload "action") in
  if bool_decide (provider_event = "pull_request") then
    _normalize_pull_request_event action payload
  else if bool_decide (provider_event ∈ COMMENT_CONTEXT_EVENTS) then
    mret (_normalize_comment_context_event settings provider_event action payload)
  else
    mret (ProviderWebhookEvent.mk "github" provider_event action None (_repository_name payload)
      (_pull_request_number payload) (_pull_request_head_sha payload) false false false "ignored"
      None None).

Definition _parse_github_webhook (settings : CommandSettings.t) (webhook_secret : option string)
    (headers : list (string * string)) (raw_body : string)
    : outcome ParsedProviderWebhook.t :=
  let headers := lower_headers headers in
  match or_none (header headers "x-github-delivery"), or_none (header headers "x-github-event") with
  | None, _ => Raise (GitHubPayloadError "Missing X-GitHub-Delivery header.")
  | Some _, None => Raise (GitHubPayloadError "Missing X-GitHub-Event header.")
  | Some delivery_id, Some provider_event =>
      _ ← verify_signature raw_body (header headers "x-hub-signature-256") webhook_secret;
      payload ← parse_json_body raw_body;
      event ← normalize_github_event settings provider_event payload;
      mret (ParsedProviderWebhook.mk delivery_id event payload raw_body)
  end.

(** ** GitLab *)

Definition _parse_json_body : string → outcome json :=
  read_body (ProviderPayloadError "GitLab webhook payload is not valid JSON.")
    (ProviderPayloadError "GitLab webhook payload must be a JSON object.").

Definition _project_path (payload : json) : option string :=
  field_str (jget payload "project") "path_with_namespace".

(** Whether a change of the head is reported. *)
Definition _source_commit_changed (attrs : json) : bool :=
  match object_of (jget attrs "changes") with
  | None => false
  | Some changes =>
      existsb (λ key,
        match object_of (jget changes key) with
        | Some value => negb (py_eq (get_json value "previous") (get_json value "current"))
        | None => false
        end) ["last_commit"; "source_branch_sha"]
  end.

Definition gitlab_pull_request_snapshot (payload : json) : outcome (option PullRequestSnapshot.t) :=
  match object_of (jget payload "object_attributes"), object_of (jget payload "project") with
  | Some attrs, Some project =>
      let text (key : string) : option string := _optional_str (jget attrs key) in
      let head_sha := match field_str (object_of (jget attrs "last_commit")) "id" with
                      | Some sha => Some sha
                      | None => text "last_commit_id"
                      end in
      match _optional_str (jget project "path_with_namespace"), int_of (jget attrs "iid"), head_sha with
      | Some repository, Some number, Some head_sha =>
          let path_of (key : string) : option string :=
            field_str (jget attrs key) "path_with_namespace" in
          closed_at ← parse_datetime (jget attrs "closed_at");
          merged_at ← parse_datetime (jget attrs "merged_at");
          mret (Some (PullRequestSnapshot.mk repository number head_sha
            (_id_to_str (jget project "id")) (_id_to_str (jget attrs "id")) (text "title")
            (_gitlab_author (jget payload "user")) (text "target_branch")
            (text "target_branch_sha") (text "source_branch") (path_of "target") (path_of "source")
            (or_else (text "state") "open") (text "url") closed_at merged_at))
      | _, _, _ => Return None
      end
  | _, _ => Return None
  end.

Definition merge_request_event (action : string) (source_changed : bool) : option string :=
  if bool_decide (action ∈ ["update"; "updated"]) then
    Some (if source_changed then "pr_updated" else "pr_metadata_changed")
  else
    assoc action
      [("open", "pr_opened"); ("opened", "pr_opened"); ("reopen", "pr_reopened");
       ("reopened", "pr_reopened"); ("merge", "pr_merged"); ("merged", "pr_merged");
       ("close", "pr_closed"); ("closed", "pr_closed")].

Definition normalize_gitlab_event (event_name : string) (payload : json)
    : outcome ProviderWebhookEvent.t :=
  if negb (bool_decide (event_name = "Merge Request Hook")) then
    mret (ProviderWebhookEvent.mk "gitlab" event_name (_optional_str (jget payload "object_kind"))
      None (_project_path payload) None None false false false "ignored" None None)
  else
    match object_of (jget payload "object_attributes") with
    | None => Raise (ProviderPayloadError "GitLab merge request payload is missing attributes.")
    | Some attrs =>
        let action := match _optional_str (jget attrs "action") with
                      | Some a => Some a
                      | None => _optional_str (jget attrs "state")
                      end in
        let internal_event :=
          merge_request_event (default "" action) (_source_commit_changed attrs) in
        let should_review :=
          bool_decide (default "" action ∈ ["open"; "opened"; "reopen"; "reopened"])
          || bool_decide (internal_event = Some "pr_updated") in
        snapshot ← gitlab_pull_request_snapshot payload;
        if bool_decide (is_Some internal_event) && negb (bool_decide (is_Some snapshot)) then
          Raise (ProviderPayloadError "GitLab merge request payload is missing MR identity fields.")
        else
          mret (ProviderWebhookEvent.mk "gitlab" event_name action internal_event
            (_project_path payload) (int_of (jget attrs "iid"))
            (match object_of (jget attrs "last_commit") with
             | Some last_commit => _optional_str (jget last_commit "id")
             | None => _optional_str (jget attrs "last_commit_id")
             end)
            (bool_decide (is_Some internal_event)) should_review false
            (if bool_decide (is_Some internal_event) then "received" else "ignored") None snapshot)
    end.

Definition check_token (token webhook_secret : option string) : outcome () :=
  let invalid := ProviderSignatureError "Invalid GitLab webhook token." in
  match or_none webhook_secret, token with
  | None, _ => Return tt
  | Some _, None => Raise invalid
  | Some secret, Some token =>
      same ← compare_digest token secret; if same : bool then Return tt else Raise invalid
  end.

Definition _parse_gitlab_webhook (webhook_secret : option string)
    (headers : list (string * string)) (raw_body : string)
    : outcome ParsedProviderWebhook.t :=
  let headers := lower_headers headers in
  let delivery_id := match or_none (header headers "x-gitlab-event-uuid") with
                     | Some id => Some id
                     | None => or_none (header headers "x-request-id")
                     end in
  match delivery_id, or_none (header headers "x-gitlab-event") with
  | None, _ => Raise (ProviderPayloadError "Missing X-Gitlab-Event-UUID header.")
  | Some _, None => Raise (ProviderPayloadError "Missing X-Gitlab-Event header.")
  | Some delivery_id, Some event_name =>
      _ ← check_token (header headers "x-gitlab-token") webhook_secret;
      payload ← _parse_json_body raw_body;
      event ← normalize_gitlab_event event_name payload;
      mret (ParsedProviderWebhook.mk delivery_id event payload raw_body)
  end.
End parsing.
