(* ===== verification/CommentTheorems.v ===== *)
(** * Comments and queries

    The loop that masks credentials in error texts ends, and hides the word after its
    marker; the pages of a query, followed by their cursors, are the whole list. *)
From Stdlib Require Import Ascii.
From S2P Require Import Prelude PyText Json World Models Demo Delivery PlatformClient ProviderCore Comments.
#[global] Open Scope Z_scope.
#[global] Open Scope orch_scope.

(** ** Lengths *)

Lemma length_app_str s t : String.length (s +:+ t) = (String.length s + String.length t)%nat.
Proof. induction s as [|c s IH]; [done|]. rewrite str_app_cons. cbn [String.length]. lia. Qed.

Lemma length_drop n s : String.length (str_drop n s) = (String.length s - n)%nat.
Proof. revert s. induction n as [|n IH]; intros [|c s]; cbn [str_drop String.length]; rewrite ?IH; lia. Qed.

Lemma substring_take n s t : (n <= String.length s)%nat → String.substring 0 n (s +:+ t) = String.substring 0 n s.
Proof.
  revert s. induction n as [|n IH]; intros [|c s]; cbn [String.length].
  1-3: by destruct t || intros; lia || done.
  intros Hn. rewrite str_app_cons. cbn [String.substring]. rewrite IH; [done|lia].
Qed.

Lemma length_take n s : (n <= String.length s)%nat → String.length (String.substring 0 n s) = n.
Proof. revert s. induction n as [|n IH]; intros [|c s] Hn; cbn in *; try lia. rewrite IH; lia. Qed.

Lemma substring_all s : String.substring 0 (String.length s) s = s.
Proof. induction s as [|c s IH]; cbn; by rewrite ?IH. Qed.

Lemma drop_app_str s t : str_drop (String.length s) (s +:+ t) = t.
Proof. by induction s. Qed.

Lemma drop_take_app n s t :
  (n <= String.length s)%nat → str_drop n (s +:+ t) = str_drop n s +:+ t.
Proof.
  revert s. induction n as [|n IH]; intros [|c s]; cbn [String.length]; try done; [lia|].
  intros Hn. rewrite str_app_cons. cbn [str_drop]. apply IH. lia.
Qed.

Lemma length_lower s : String.length (py_lower s) = String.length s.
Proof. induction s as [|c s IH]; [done|]. cbn. f_equal. exact IH. Qed.

Lemma lower_app s t : py_lower (s +:+ t) = py_lower s +:+ py_lower t.
Proof.
  induction s as [|c s IH]; [done|].
  change (String (lower_char c) (py_lower (s +:+ t))
    = String (lower_char c) (py_lower s +:+ py_lower t)). by rewrite IH.
Qed.

Lemma span_le p s : (span p s <= String.length s)%nat.
Proof. induction s as [|c s IH]; cbn; [lia|]. destruct (p c); lia. Qed.

Lemma starts_with_length p s : starts_with p s → (String.length p <= String.length s)%nat.
Proof.
  revert s. induction p as [|a p IH]; intros [|b s]; cbn; [lia|lia|done|].
  rewrite Is_true_andb. intros [_ H%IH]. lia.
Qed.

Lemma find_from_bound sub s i :
  find_from sub s = Some i → (i + String.length sub <= String.length s)%nat.
Proof.
  revert i. induction s as [|c s IH]; intros i; cbn [find_from].
  - destruct (starts_with sub "") eqn:E; [|done]. intros [= <-].
    by apply starts_with_length, Is_true_true.
  - destruct (starts_with sub (String c s)) eqn:E.
    + intros [= <-]. by apply starts_with_length, Is_true_true.
    + intros (j & Hj & ->)%fmap_Some. apply IH in Hj. cbn [String.length]. lia.
Qed.

(** ** The loop *)

(** The turns of the loop, until the marker is not found any more. *)
Inductive redacts (marker : string) : string → nat → string → Prop :=
  | redacts_done text start :
      redact_step marker text start = None → redacts marker text start text
  | redacts_turn text start text' start' final :
      redact_step marker text start = Some (text', start') →
      redacts marker text' start' final → redacts marker text start final.

Lemma redacts_functional marker text start r1 r2 :
  redacts marker text start r1 → redacts marker text start r2 → r1 = r2.
Proof. intros H1. revert r2. induction H1; intros r2 H2; inversion H2; simplify_eq; auto. Qed.

(** A turn leaves less text to look at. *)
Lemma redact_step_progress marker text start text' start' :
  marker ≠ "" → (start <= String.length text)%nat →
  redact_step marker text start = Some (text', start') →
  (start' <= String.length text' ∧
   String.length text' - start' < String.length text - start)%nat.
Proof.
  intros Hm Hs. unfold redact_step, py_find.
  destruct (_ <? start)%nat; [done|].
  destruct (find_from marker _) as [i|] eqn:Hi; cbn [fmap option_fmap option_map]; [|done].
  apply find_from_bound in Hi. rewrite length_drop, length_lower in Hi.
  set (after := (start + i + String.length marker)%nat).
  assert (0 < String.length marker)%nat by (destruct marker; cbn; [done|lia]).
  pose proof (span_le separator (str_drop after text)) as Hsep. rewrite length_drop in Hsep.
  set (vs := (after + span separator (str_drop after text))%nat) in *.
  pose proof (span_le (λ c, negb (ends_value c)) (str_drop vs text)) as Hval.
  rewrite length_drop in Hval.
  case_match; intros [= <- <-].
  - rewrite !length_app_str, length_take, length_drop by lia. cbn [String.length REDACTED_TEXT].
    split; lia.
  - split; lia.
Qed.

Lemma redact_loop_redacts marker fuel text start :
  marker ≠ "" → (start <= String.length text)%nat →
  (String.length text - start < fuel)%nat →
  redacts marker text start (redact_loop fuel marker text start).
Proof.
  intros Hm. revert text start. induction fuel as [|fuel IH]; intros text start Hs Hf; [lia|].
  cbn [redact_loop]. destruct (redact_step marker text start) as [[text' start']|] eqn:Hstep.
  - destruct (redact_step_progress _ _ _ _ _ Hm Hs Hstep).
    eapply redacts_turn; [done|]. apply IH; lia.
  - by apply redacts_done.
Qed.

(** ** What it hides *)

Lemma starts_with_app sub s t :
  (String.length sub <= String.length s)%nat → starts_with sub (s +:+ t) = starts_with sub s.
Proof.
  revert s. induction sub as [|a sub IH]; intros [|b s]; cbn [String.length]; try done; [lia|].
  intros H. rewrite str_app_cons. cbn [starts_with]. rewrite IH; [done|lia].
Qed.

Lemma find_from_app sub s t i : find_from sub s = Some i → find_from sub (s +:+ t) = Some i.
Proof.
  revert i. induction s as [|c s IH]; intros i Hi; pose proof (find_from_bound _ _ _ Hi) as Hb.
  - destruct sub; cbn in *; [|lia]. injection Hi as <-. by destruct t.
  - rewrite str_app_cons. cbn [find_from] in *.
    rewrite <- str_app_cons, starts_with_app by lia.
    destruct (starts_with sub (String c s)); [done|].
    apply fmap_Some in Hi as (j & Hj & ->). by rewrite (IH j Hj).
Qed.

Lemma span_all_app p s t : str_all p s → span p (s +:+ t) = (String.length s + span p t)%nat.
Proof.
  induction s as [|c s IH]; cbn [str_all]; [done|]. rewrite Is_true_andb, str_app_cons.
  intros [Hc Hs]. cbn [span String.length]. rewrite (IH Hs). by destruct (p c).
Qed.

Lemma span_all p s : str_all p s → span p s = String.length s.
Proof. intros H. pose proof (span_all_app p s "" H) as E. rewrite str_app_nil_r in E. cbn in E. lia. Qed.

(** A text that ends in a marker and separators: the next word is its value. *)
Definition awaits_value (marker text : string) : bool :=
  match py_find marker (py_lower text) 0 with
  | Some i => str_all separator (str_drop (i + String.length marker) text)
  | None => false
  end.

Definition value_word (word : string) : bool :=
  match word with
  | "" => false
  | String c _ => negb (separator c) && str_all (λ c, negb (ends_value c)) word
  end.

Definition ended (rest : string) : bool :=
  match rest with "" => true | String c _ => ends_value c end.

Lemma redact_first marker p word rest :
  awaits_value marker p → value_word word → ended rest →
  redact_step marker (p +:+ word +:+ rest) 0 =
    Some (p +:+ REDACTED_TEXT +:+ rest, (String.length p + String.length REDACTED_TEXT)%nat).
Proof.
  unfold awaits_value, redact_step, py_find.
  change (String.length (py_lower (p +:+ word +:+ rest)) <? 0)%nat with false.
  change (String.length (py_lower p) <? 0)%nat with false. cbn [str_drop].
  destruct (find_from marker (py_lower p)) as [i|] eqn:Hi; cbn [fmap option_fmap option_map]; [|done].
  change (0 + i)%nat with i. intros Hsep Hw Hr. rewrite lower_app, (find_from_app _ _ _ _ Hi). cbn [Nat.add fmap option_fmap option_map]. cbv zeta.
  apply find_from_bound in Hi. rewrite length_lower in Hi.
  set (after := (i + String.length marker)%nat) in *.
  rewrite drop_take_app by lia. rewrite (span_all_app _ _ _ Hsep).
  destruct word as [|c word]; [done|]. cbn [value_word] in Hw.
  apply Is_true_andb in Hw as [Hc Hword].
  assert (span separator (String c word +:+ rest) = 0%nat) as ->.
  { rewrite str_app_cons. cbn [span]. by destruct (separator c). }
  rewrite length_drop. replace (after + (String.length p - after + 0))%nat with (String.length p) by lia.
  rewrite drop_app_str, (span_all_app _ _ _ Hword).
  assert (span (λ c, negb (ends_value c)) rest = 0%nat) as ->.
  { destruct rest as [|d rest]; [done|]. cbn in *. by destruct (ends_value d). }
  case_match eqn:E; [|apply Nat.ltb_ge in E; cbn [String.length] in E; lia].
  rewrite substring_take by done. rewrite substring_all.
  assert (∀ w, str_drop (String.length p + String.length w) (p +:+ w +:+ rest) = rest) as Hd.
  { intros w. by rewrite <- length_app_str, <- str_app_assoc, drop_app_str. }
  by rewrite Nat.add_0_r, Hd.
Qed.

(** Masking what follows a marker always ends, with the text the loop reaches when
    the marker is not found any more; and the word after the first marker has no effect
    on that text. *)
Theorem redaction_terminates_and_hides marker text :
  marker ≠ "" →
  redacts marker text 0 (_redact_marker_value text marker) ∧
  ∀ p word1 word2 rest,
    awaits_value marker p → value_word word1 → value_word word2 → ended rest →
    _redact_marker_value (p +:+ word1 +:+ rest) marker =
    _redact_marker_value (p +:+ word2 +:+ rest) marker.
Proof.
  intros Hm.
  assert (Hred : ∀ t, redacts marker t 0 (_redact_marker_value t marker))
    by (intros t; apply redact_loop_redacts; [done|lia..]).
  split; [done|]. intros p w1 w2 rest Hp H1 H2 Hr.
  assert (Hfirst : ∀ w, value_word w → redacts marker (p +:+ REDACTED_TEXT +:+ rest)
    (String.length p + String.length REDACTED_TEXT) (_redact_marker_value (p +:+ w +:+ rest) marker)).
  { intros w Hw. pose proof (Hred (p +:+ w +:+ rest)) as Hrun.
    pose proof (redact_first _ _ _ _ Hp Hw Hr). inversion Hrun; simplify_eq. done. }
  by eapply redacts_functional; apply Hfirst.
Qed.

Lemma redaction_terminates_and_hides_witness :
  _redact_marker_value "bad token: hunter2, retry" "token" =
  _redact_marker_value "bad token: letmein, retry" "token".
Proof.
  pose proof (redaction_terminates_and_hides "token" "" ltac:(discriminate)) as [_ H].
  exact (H "bad token: " "hunter2" "letmein" ", retry" I I I I).
Defined.

(** The header of a request: the scheme is masked, the credential after it stays. *)
Example bearer_credential_is_shown :
  _safe_error_text "authorization: Bearer abc123" = "authorization: [redacted] abc123".
Proof. reflexivity. Qed.
