(* ===== verification/CommentHost.v ===== *)
(** * One comment per request

    How often [publish_github_agent_task_comment] may leave the comment of a command
    behind: at most once, whatever fails between the calls.  The platform is any function
    of the requests it received that keeps a thread of comments in the way its interface
    documents; a request may take effect although its reply is lost. *)
From Stdlib Require Import Ascii.
From S2P Require Import Prelude PyText Json World Models Demo Delivery PlatformClient GitHubClient Comments.
#[global] Open Scope Z_scope.
#[global] Open Scope orch_scope.

(** ** The platform *)

Definition with_body (body : string) (c : PlatformComment.t) : PlatformComment.t :=
  PlatformComment.mk (PlatformComment.id c) (Some body) (PlatformComment.fields c).

Definition comment_id (c : PlatformComment.t) : string := py_str (PlatformComment.id c).

(** The comments of a thread after a comment was given another text. *)
Definition rewritten (id body : string) (l : list PlatformComment.t) : list PlatformComment.t :=
  (λ c, if bool_decide (comment_id c = id) then with_body body c else c) <$> l.

Definition page_of (page : Z) (l : list PlatformComment.t) : list PlatformComment.t :=
  take 100 (drop (Z.to_nat (100 * (page - 1))) l).

Definition list_request (repo : string) (number page : Z) (credential : option string)
    : HttpRequest.t :=
  HttpRequest.mk "github" "GET" (issue_comments_path repo number) (page_params page) credential None.

Definition create_request (repo : string) (number : Z) (credential : option string) (body : string)
    : HttpRequest.t :=
  HttpRequest.mk "github" "POST" (issue_comments_path repo number) [] credential
    (Some (JObj [("body", JStr body)])).

Definition update_request (repo : string) (credential : option string) (id body : string)
    : HttpRequest.t :=
  HttpRequest.mk "github" "PATCH" (repo_path repo ("/issues/comments/" +:+ id)) [] credential
    (Some (JObj [("body", JStr body)])).

(** What a reply says: its content as JSON, an object without fields when it is empty. *)
Definition says `{PlatformHttp} (reply : http_reply) (value : json) : Prop :=
  match reply with
  | HttpReply _ "" => value = JObj []
  | HttpReply _ content => parse_json content = Some value
  | _ => False
  end.

(** [thread] tells which comments a pull request has after some requests. *)
Class CommentThread `{PlatformHttp} (repo : string) (number : Z)
    (thread : list HttpRequest.t → list PlatformComment.t) : Prop := {
  thread_ids h : NoDup (comment_id <$> thread h);
  (** Listing changes nothing and gives the comments of a page. *)
  thread_list h page credential :
    thread (h ++ [list_request repo number page credential]) = thread h;
  list_reply h page credential items :
    1 ≤ page → says (http_exchange h (list_request repo number page credential)) (JList items) →
    comments_of items = Return (page_of page (thread h)) ∧
    length items = length (page_of page (thread h));
  (** Creating adds a comment or nothing; a reply names the comment that was added. *)
  thread_create h credential body :
    thread (h ++ [create_request repo number credential body]) = thread h ∨
    ∃ c, PlatformComment.body c = Some body ∧
      thread (h ++ [create_request repo number credential body]) = thread h ++ [c];
  create_reply h credential body value id :
    says (http_exchange h (create_request repo number credential body)) value →
    id_of value = Return id →
    ∃ c, PlatformComment.body c = Some body ∧ comment_id c = id ∧
      thread (h ++ [create_request repo number credential body]) = thread h ++ [c];
  (** Updating rewrites one comment or nothing; a reply names that comment. *)
  thread_update h credential id body :
    thread (h ++ [update_request repo credential id body]) = thread h ∨
    thread (h ++ [update_request repo credential id body]) = rewritten id body (thread h);
  update_reply h credential id body value id' :
    says (http_exchange h (update_request repo credential id body)) value →
    id_of value = Return id' → id' = id
}.

(** ** Markers *)

Definition has_marker (marker : string) (c : PlatformComment.t) : Prop :=
  Is_true (match PlatformComment.body c with
           | Some (String a body) => py_contains marker (String a body)
           | _ => false
           end).
#[export] Instance has_marker_dec marker c : Decision (has_marker marker c).
Proof. unfold has_marker. apply _. Defined.

Lemma py_contains_prefix p s : py_contains p (p +:+ s) = true.
Proof.
  assert (starts_with p (p +:+ s) = true) as H.
  { induction p as [|c p IH]; [by destruct s|]. rewrite str_app_cons. cbn.
    by rewrite char_eqb_refl. }
  destruct (p +:+ s) eqn:E; cbn; by rewrite H.
Qed.

Lemma join_prefix sep w ws : ∃ rest, py_join sep (w :: ws) = w +:+ rest.
Proof. destruct ws as [|w' ws]; [exists ""; by rewrite str_app_nil_r|by eexists]. Qed.

Lemma join_has_marker marker ws c :
  marker ≠ "" → PlatformComment.body c = Some (py_join newline (marker :: ws)) →
  has_marker marker c.
Proof.
  unfold has_marker. intros Hm ->. destruct (join_prefix newline marker ws) as [rest ->].
  pose proof (py_contains_prefix marker rest) as H.
  destruct (marker +:+ rest) eqn:E; [|by rewrite H].
  destruct marker; [done|by rewrite str_app_cons in E].
Qed.

(** Every text of a command carries the marker of the command. *)
Lemma body_has_marker task_id a state c :
  PlatformComment.body c = Some (build_agent_task_comment_body task_id a state) →
  has_marker (agent_task_marker task_id a) c.
Proof.
  assert (agent_task_marker task_id a ≠ "") by done.
  unfold build_agent_task_comment_body.
  repeat case_bool_decide; cbn [app]; by apply join_has_marker.
Qed.

(** ** The client against the platform *)

Section host.
Context `{Runtime} `{PlatformHttp} {repo number thread} `{!CommentThread repo number thread}.

Definition thread_of (s : Session) : list PlatformComment.t := thread (sent s).

Lemma thread_of_ids s : NoDup (comment_id <$> thread_of s).
Proof. unfold thread_of. apply thread_ids. Qed.

(** [s'] differs from [s] only by requests, after which the thread satisfies [T]. *)
Definition asked (s : Session) (T : list PlatformComment.t → Prop) (s' : Session) : Prop :=
  committed s' = committed s ∧ work s' = work s ∧ T (thread_of s').

(** What a request does: nothing when there is no token; else it is sent, and its reply
    is read. *)
Lemma request_triple s method path body params repo' :
  triple (λ s', s' = s) (_request method path body params repo')
    (λ value s', ∃ credential,
       let r := HttpRequest.mk "github" method path params credential body in
       s' = s .[ sent := sent s ++ [r] ] ∧ says (http_exchange (sent s) r) value)
    (λ _ s', s' = s ∨ ∃ credential,
       s' = s .[ sent := sent s ++ [HttpRequest.mk "github" method path params credential body] ]).
Proof.
  intros ? ->. unfold _request. rewrite bind_run.
  assert (Htoken : ∀ token,
    match (reply ← http_send (HttpRequest.mk "github" method path params token body);
           lift (read_reply "GitHub" method path GitHubClientError reply)) s with
    | (Return value, s') => ∃ credential,
        let r := HttpRequest.mk "github" method path params credential body in
        s' = s .[ sent := sent s ++ [r] ] ∧ says (http_exchange (sent s) r) value
    | (Raise _, s') => s' = s ∨ ∃ credential,
        s' = s .[ sent := sent s ++ [HttpRequest.mk "github" method path params credential body] ]
    end).
  { intros token. rewrite bind_run. unfold http_send, lift.
    set (r := HttpRequest.mk _ _ _ _ token _).
    destruct (http_exchange (sent s) r) as [code text|message|code [|c content]] eqn:Hr;
      cbn [read_reply]; eauto.
    - exists token. cbn zeta. fold r. rewrite Hr. by split.
    - destruct (parse_json (String c content)) eqn:Hp; [|by eauto].
      exists token. cbn zeta. fold r. rewrite Hr. by split. }
  case_bool_decide; [apply Htoken|].
  unfold get_token. rewrite bind_run. cbn [gets].
  destruct (github_token (sent s) repo'); [apply Htoken|by left].
Qed.
(** A request of a known form leaves the session as it was but for what was sent. *)
Lemma asked_sent s s' T r :
  asked s (λ l, l = thread_of s) s' →
  (∀ h, thread h = thread_of s → T (thread (h ++ [r]))) →
  asked s T (s' .[ sent := sent s' ++ [r] ]).
Proof. intros (Hc & Hw & Ht) HT. split; [done|]. split; [done|]. exact (HT (sent s') Ht). Qed.

Lemma concat_app {A B} (f : A → outcome (list B)) l1 l2 r1 r2 :
  outcome_concat f l1 = Return r1 → outcome_concat f l2 = Return r2 →
  outcome_concat f (l1 ++ l2) = Return (r1 ++ r2).
Proof.
  revert r1. induction l1 as [|x l1 IH]; intros r1 H1 H2; cbn [app outcome_concat] in *.
  - by injection H1 as <-.
  - unfold mbind, outcome_bind in *. destruct (f x) as [ys|e]; [|done].
    destruct (outcome_concat f l1) as [zs|e]; [|done]. rewrite (IH zs) by done.
    injection H1 as <-. cbn. by rewrite app_assoc.
Qed.

Lemma next_page page l :
  1 ≤ page →
  take (Z.to_nat (100 * (page - 1))) l ++ page_of page l = take (Z.to_nat (100 * (page + 1 - 1))) l.
Proof.
  intros Hp. unfold page_of. rewrite take_take_drop. f_equal. lia.
Qed.

Lemma last_page page l :
  1 ≤ page → Z.of_nat (length (page_of page l)) < 100 →
  take (Z.to_nat (100 * (page + 1 - 1))) l = l.
Proof.
  intros Hp. unfold page_of. rewrite length_take, length_drop. intros Hlt.
  apply take_ge. lia.
Qed.

Lemma paginate_triple s e fuel page acc :
  1 ≤ page → comments_of acc = Return (take (Z.to_nat (100 * (page - 1))) (thread_of s)) →
  triple (asked s (λ l, l = thread_of s))
    (paginate_from (λ page, _request "GET" (issue_comments_path repo number) None
       (page_params page) repo) e fuel page acc)
    (λ items s', asked s (λ l, l = thread_of s) s' ∧ comments_of items = Return (thread_of s))
    (λ _, asked s (λ l, l = thread_of s)).
Proof.
  revert page acc. induction fuel as [|fuel IH]; intros page acc Hp Hacc; [by apply triple_raise|].
  cbn [paginate_from]. intros s1 Hs1. rewrite bind_run.
  assert (Hsame : ∀ credential, asked s (λ l, l = thread_of s)
    (s1 .[ sent := sent s1 ++ [list_request repo number page credential] ])).
  { intros c. apply asked_sent; [done|]. intros h <-. apply thread_list. }
  pose proof (request_triple s1 "GET" (issue_comments_path repo number) None (page_params page)
    repo s1 eq_refl) as Hreq.
  destruct (_request _ _ _ _ _ s1) as [[value|e'] s2].
  - destruct Hreq as (credential & -> & Hsays). specialize (Hsame credential).
    destruct value; try done.
    pose proof (list_reply _ _ _ _ Hp Hsays) as [Hitems Hlen].
    destruct Hs1 as (_ & _ & Ht). change (thread (sent s1)) with (thread_of s1) in *.
    rewrite Ht in Hitems, Hlen. rewrite Hlen.
    assert (Hall := concat_app _ _ _ _ _ Hacc Hitems). rewrite next_page in Hall by done.
    destruct (Z.ltb_spec (Z.of_nat (length (page_of page (thread_of s)))) 100).
    + cbn. split; [done|]. by rewrite last_page in Hall.
    + apply (IH (page + 1) _ ltac:(lia) Hall). exact Hsame.
  - destruct Hreq as [->|[credential ->]]; [done|apply Hsame].
Qed.

Lemma list_triple s :
  triple (asked s (λ l, l = thread_of s)) (list_issue_comments repo number)
    (λ comments s', asked s (λ l, l = thread_of s) s' ∧ comments = thread_of s)
    (λ _, asked s (λ l, l = thread_of s)).
Proof.
  unfold list_issue_comments, _paginate. eapply triple_bind.
  - by apply paginate_triple.
  - intros items s1 [Hs1 Hitems]. unfold lift. by rewrite Hitems.
Qed.

(** The identifier a creation returns is that of the comment it added. *)
Lemma create_triple s body :
  triple (asked s (λ l, l = thread_of s)) (create_issue_comment repo number body)
    (λ id, asked s (λ l, ∃ c, PlatformComment.body c = Some body ∧ comment_id c = id ∧
                              l = thread_of s ++ [c]))
    (λ _, asked s (λ l, l = thread_of s ∨
                        ∃ c, PlatformComment.body c = Some body ∧ l = thread_of s ++ [c])).
Proof.
  unfold create_issue_comment. intros s1 Hs1. rewrite bind_run.
  pose proof (request_triple s1 "POST" (issue_comments_path repo number)
    (Some (JObj [("body", JStr body)])) [] repo s1 eq_refl) as Hreq.
  assert (Hany : ∀ credential, asked s (λ l, l = thread_of s ∨
      ∃ c, PlatformComment.body c = Some body ∧ l = thread_of s ++ [c])
    (s1 .[ sent := sent s1 ++ [create_request repo number credential body] ])).
  { intros c. apply asked_sent; [done|]. intros h <-. apply thread_create. }
  destruct (_request _ _ _ _ _ s1) as [[value|e'] s2].
  - destruct Hreq as (credential & -> & Hsays). unfold lift.
    destruct (id_of value) as [id|e] eqn:Hid; [|by apply Hany].
    pose proof (create_reply _ _ _ _ _ Hsays Hid) as Hc. destruct Hs1 as (Hcm & Hw & Ht).
    split; [done|]. split; [done|]. rewrite <- Ht. exact Hc.
  - destruct Hreq as [->|[credential ->]]; [|apply Hany].
    destruct Hs1 as (Hcm & Hw & Ht). split; [done|]. split; [done|]. by left.
Qed.

Lemma update_triple s id body :
  triple (asked s (λ l, l = thread_of s)) (update_issue_comment repo id body)
    (λ id' s', id' = id ∧
       asked s (λ l, l = thread_of s ∨ l = rewritten id body (thread_of s)) s')
    (λ _, asked s (λ l, l = thread_of s ∨ l = rewritten id body (thread_of s))).
Proof.
  unfold update_issue_comment. intros s1 Hs1. rewrite bind_run.
  pose proof (request_triple s1 "PATCH" (repo_path repo ("/issues/comments/" +:+ id))
    (Some (JObj [("body", JStr body)])) [] repo s1 eq_refl) as Hreq.
  assert (Hany : ∀ credential, asked s (λ l, l = thread_of s ∨ l = rewritten id body (thread_of s))
    (s1 .[ sent := sent s1 ++ [update_request repo credential id body] ])).
  { intros c. apply asked_sent; [done|]. intros h <-. apply thread_update. }
  destruct (_request _ _ _ _ _ s1) as [[value|e'] s2].
  - destruct Hreq as (credential & -> & Hsays). unfold lift.
    destruct (id_of value) as [id'|e] eqn:Hid; [|by apply Hany].
    split; [|by apply Hany]. by eapply update_reply.
  - destruct Hreq as [->|[credential ->]]; [|apply Hany].
    destruct Hs1 as (Hcm & Hw & Ht). split; [done|]. split; [done|]. by left.
Qed.
(** ** The invariant *)

Context (task_id marker : string).

Definition at_most_one (l : list PlatformComment.t) : Prop :=
  (length (filter (has_marker marker) l) <= 1)%nat.

(** Every comment with the marker is the one of an identifier. *)
Definition only (id : string) (l : list PlatformComment.t) : Prop :=
  ∀ c, c ∈ l → has_marker marker c → comment_id c = id.

(** The command of the marker belongs to the thread, and the comment it knows of is the
    only one with the marker. *)
Definition command_ok (l : list PlatformComment.t) (a : AgentTask.t) : Prop :=
  AgentTask.repo_full_name a = repo ∧ AgentTask.pull_request_number a = number ∧
  agent_task_marker task_id a = marker ∧
  ∀ id, AgentTask.response_comment_id a = Some id → only id l.

Definition commands_ok (l : list PlatformComment.t) (d : Db) : Prop :=
  ∀ t a, find_row task_id (tasks d) = Some t → agent_of t = Some a → command_ok l a.

Definition one_comment (s : Session) : Prop :=
  committed s = work s ∧ at_most_one (thread_of s) ∧ commands_ok (thread_of s) (work s).

Lemma only_at_most_one id l : NoDup (comment_id <$> l) → only id l → at_most_one l.
Proof.
  unfold at_most_one. intros Hnd Hid.
  destruct (filter (has_marker marker) l) as [|c1 [|c2 rest]] eqn:E; [cbn; lia..|].
  assert (Hin : ∀ c, c ∈ [c1; c2] → comment_id c = id).
  { intros c Hc. assert (c ∈ filter (has_marker marker) l) as [Hm Hl]%list_elem_of_filter
      by (rewrite E; set_solver). by apply Hid. }
  assert (Hsub : sublist (comment_id <$> filter (has_marker marker) l) (comment_id <$> l))
    by apply fmap_sublist, sublist_filter.
  eapply sublist_NoDup in Hsub; [|done]. rewrite E in Hsub. cbn in Hsub.
  apply NoDup_cons in Hsub as [Hne _].
  rewrite (Hin c1), (Hin c2) in Hne by set_solver. set_solver.
Qed.

Lemma at_most_one_only c l :
  at_most_one l → c ∈ l → has_marker marker c → only (comment_id c) l.
Proof.
  unfold at_most_one. intros Hlen Hc Hm c' Hc' Hm'.
  assert (Hin : ∀ x, x ∈ l → has_marker marker x → x ∈ filter (has_marker marker) l)
    by (intros; by apply list_elem_of_filter).
  pose proof (Hin c Hc Hm) as H1. pose proof (Hin c' Hc' Hm') as H2.
  destruct (filter (has_marker marker) l) as [|x [|y rest]]; cbn in Hlen; [set_solver| |lia].
  set_solver.
Qed.

Lemma rewritten_only id body l : only id l → only id (rewritten id body l).
Proof.
  intros Hid c (c0 & -> & Hc0)%list_elem_of_fmap. case_bool_decide as He; [done|]. by apply Hid.
Qed.

(** Marked comments and their markers, as [marked_comment] looks for them. *)
Lemma marked_comment_Some l id :
  marked_comment marker l = Some id → ∃ c, c ∈ l ∧ has_marker marker c ∧ comment_id c = id.
Proof.
  unfold marked_comment. intros (c & Hc & ->)%fmap_Some.
  apply head_Some_elem_of, list_elem_of_filter in Hc as [Hm Hc]. by exists c.
Qed.

Lemma marked_comment_None l c :
  marked_comment marker l = None → c ∈ l → ¬ has_marker marker c.
Proof.
  unfold marked_comment. intros Hnone%fmap_None Hc Hm.
  assert (c ∈ filter (λ c, Is_true (match PlatformComment.body c with
    | Some (String a body) => py_contains marker (String a body) | _ => false end)) l) as Hin
    by by apply list_elem_of_filter.
  destruct (filter _ l); [set_solver|done].
Qed.

(** Facts about the thread that allow a call to end in failure, or with a comment. *)
Definition may_fail (a : AgentTask.t) (l : list PlatformComment.t) : Prop :=
  at_most_one l ∧ ∀ id, AgentTask.response_comment_id a = Some id → only id l.

Lemma fail_one_comment s t a T s' :
  one_comment s → find_row task_id (tasks (work s)) = Some t → agent_of t = Some a →
  asked s T s' → (∀ h, T (thread h) → may_fail a (thread h)) → one_comment s'.
Proof.
  intros (Hc & _ & Hcmd) Ht Ha (Hc' & Hw' & HT) Hfail.
  destruct (Hfail _ HT) as [Hone Honly]. destruct (Hcmd t a Ht Ha) as (Hr & Hn & Hm & _).
  unfold one_comment. rewrite Hc', Hw', Hc. split_and!; [done|done|].
  intros t1 a1 Ht1 Ha1. assert (t1 = t) as -> by congruence. assert (a1 = a) as -> by congruence.
  by split_and!.
Qed.

Lemma record_key id digest now t :
  row_key (record_agent_comment id digest now t) = row_key t.
Proof. unfold record_agent_comment, set_agent. by destruct (Task.sub t). Qed.

Lemma record_one_comment s t a T id digest :
  one_comment s → find_row task_id (tasks (work s)) = Some t → agent_of t = Some a →
  (∀ h, T (thread h) → only id (thread h)) →
  triple (asked s T)
    (now ← utc_now; modify task_id (record_agent_comment id digest now) ;; commit ;; mret id)
    (λ _, one_comment) (λ _, one_comment).
Proof.
  intros (Hc & _ & Hcmd) Ht Ha Honly s1 (Hc1 & Hw1 & HT). specialize (Honly _ HT).
  destruct (Hcmd t a Ht Ha) as (Hr & Hn & Hm & _).
  run_steps. rewrite modify_run. run_steps.
  set (s2 := _ .[ committed := _ ]). split; [done|].
  change (thread_of s2) with (thread_of s1).
  split; [apply (only_at_most_one id); [apply thread_of_ids|exact Honly]|].
  intros t1 a1 Ht1 Ha1.
  change (find_row task_id (update_rows (λ r, bool_decide (row_key r = task_id))
    (record_agent_comment id digest (clock (ticks s1))) (tasks (work s1))) = Some t1) in Ht1.
  rewrite find_update, decide_True in Ht1 by (done || apply record_key).
  rewrite Hw1, Ht in Ht1. injection Ht1 as <-.
  unfold record_agent_comment, agent_of, set_agent in *. destruct (Task.sub t); try done.
  injection Ha as ->. cbn in Ha1. injection Ha1 as <-. split_and!; [done|done|done|].
  by intros id' [= <-].
Qed.

Lemma load_agent_run s a s' :
  load_agent task_id s = (Return a, s') →
  s' = s ∧ ∃ t, find_row task_id (tasks (work s)) = Some t ∧ agent_of t = Some a.
Proof.
  unfold load_agent, load. rewrite !bind_run, fetch_run.
  change (rows (work s)) with (tasks (work s)).
  destruct (find_row task_id (tasks (work s))) as [t|]; [|done]. cbn.
  destruct (agent_of t) as [b|] eqn:Hb; [|done]. cbn. intros [= <- <-]. split; [done|]. by exists t.
Qed.

Lemma load_agent_state s : (load_agent task_id s).2 = s.
Proof.
  unfold load_agent, load. rewrite !bind_run, fetch_run.
  destruct (find_row task_id (rows (work s))) as [t|]; [|done]. cbn. by destruct (agent_of t).
Qed.

(** Publishing as the comment of an identifier. *)
Lemma update_one_comment s t a id body digest :
  one_comment s → find_row task_id (tasks (work s)) = Some t → agent_of t = Some a →
  only id (thread_of s) → (∀ id', AgentTask.response_comment_id a = Some id' → id' = id) →
  triple (asked s (λ l, l = thread_of s))
    (comment_id ← update_issue_comment (AgentTask.repo_full_name a) id body;
     now ← utc_now; modify task_id (record_agent_comment comment_id digest now) ;; commit ;;
     mret comment_id)
    (λ _, one_comment) (λ _, one_comment).
Proof.
  intros Hs Ht Ha Honly Hknown. pose proof Hs as (_ & _ & Hcmd).
  destruct (Hcmd t a Ht Ha) as (-> & _).
  assert (Hafter : ∀ l, l = thread_of s ∨ l = rewritten id body (thread_of s) → only id l)
    by (intros l [->| ->]; [done|by apply rewritten_only]).
  intros s1 Hs1. rewrite bind_run. pose proof (update_triple s id body s1 Hs1) as Hu.
  destruct (update_issue_comment repo id body s1) as [[id'|e] s2].
  - destruct Hu as [-> Hs2]. refine (record_one_comment s t a _ id digest Hs Ht Ha _ s2 Hs2).
    intros h Hh. by apply Hafter.
  - eapply fail_one_comment; [done..|]. intros h Hh. specialize (Hafter _ Hh).
    split; [by eapply only_at_most_one; [apply thread_ids|]|]. by intros id' ->%Hknown.
Qed.

(** Publishing as a new comment. *)
Lemma create_one_comment s t a body digest :
  one_comment s → find_row task_id (tasks (work s)) = Some t → agent_of t = Some a →
  (∀ c, c ∈ thread_of s → ¬ has_marker marker c) → AgentTask.response_comment_id a = None →
  triple (asked s (λ l, l = thread_of s))
    (comment_id ← create_issue_comment (AgentTask.repo_full_name a)
                    (AgentTask.pull_request_number a) body;
     now ← utc_now; modify task_id (record_agent_comment comment_id digest now) ;; commit ;;
     mret comment_id)
    (λ _, one_comment) (λ _, one_comment).
Proof.
  intros Hs Ht Ha Hnone Hknown. pose proof Hs as (_ & Hone & Hcmd).
  destruct (Hcmd t a Ht Ha) as (-> & -> & _).
  assert (Hnew : ∀ c, only (comment_id c) (thread_of s ++ [c])).
  { intros c c' [Hc'| ->%list_elem_of_singleton]%elem_of_app Hm; [|done].
    by destruct (Hnone c' Hc'). }
  intros s1 Hs1. rewrite bind_run. pose proof (create_triple s body s1 Hs1) as Hc.
  destruct (create_issue_comment repo number body s1) as [[id|e] s2].
  - refine (record_one_comment s t a _ id digest Hs Ht Ha _ s2 Hc).
    intros h (c & _ & <- & ->). apply Hnew.
  - eapply fail_one_comment; [done..|]. intros h Hh. split; [|by rewrite Hknown].
    destruct Hh as [->|(c & _ & Hh)]; [exact Hone|].
    eapply (only_at_most_one (comment_id c)); [apply thread_ids|]. rewrite Hh. apply Hnew.
Qed.

Lemma publish_keeps_one_comment state :
  keeps one_comment (publish_github_agent_task_comment task_id state).
Proof.
  intros s Hs. unfold publish_github_agent_task_comment. rewrite bind_run.
  destruct (load_agent task_id s) as [[a|e] s1] eqn:Hload.
  2: { pose proof (load_agent_state s) as Hst. rewrite Hload in Hst. cbn in Hst. by subst. }
  apply load_agent_run in Hload as [-> (t & Ht & Ha)].
  pose proof Hs as (_ & Hone & Hcmd). destruct (Hcmd t a Ht Ha) as (Hr & Hn & Hm & Hknown).
  assert (Hask : asked s (λ l, l = thread_of s) s) by done.
  set (body := build_agent_task_comment_body task_id a state).
  destruct (AgentTask.response_comment_id a) as [id|] eqn:Hid.
  - destruct (_ && _); [exact Hs|]. rewrite bind_mret_run.
    refine (update_one_comment s t a id body (body_hash body) Hs Ht Ha _ _ s Hask);
      [by apply Hknown|]. rewrite Hid. by intros id' [= ->].
  - cbn [truthy andb]. rewrite bind_run, Hr, Hn, Hm.
    rewrite bind_run. pose proof (list_triple s s Hask) as Hl.
    destruct (list_issue_comments repo number s) as [[comments|e] s1].
    2: { eapply fail_one_comment; [done..|]. intros h ->. split; [exact Hone|by rewrite Hid]. }
    destruct Hl as [Hs1 ->]. cbn [mret M_ret].
    rewrite <- Hr, <- Hn.
    destruct (marked_comment marker (thread_of s)) as [id|] eqn:Hfound.
    + apply marked_comment_Some in Hfound as (c & Hc & Hcm & <-).
      refine (update_one_comment s t a (comment_id c) body (body_hash body) Hs Ht Ha _ _ s1 Hs1);
        [by apply at_most_one_only|by rewrite Hid].
    + apply (create_one_comment s t a body (body_hash body)); try done.
      intros c Hc. by eapply marked_comment_None.
Qed.
End host.

(** ** Calls that may fail *)

(** Publishing for each of some states; what fails is left for the next call. *)
Definition publish_each `{Runtime} `{PlatformHttp} (task_id : string) (states : list string)
    : SM () :=
  for_each states (λ state,
    try_except (_ ← publish_github_agent_task_comment task_id state; mret tt) (λ _, mret tt)).

(** C21: however often the comment of a command is published, and whatever of it fails
    (requests that are refused, replies that are lost although the request took effect),
    the pull request never has two comments with the marker of the command, and the
    comment the command knows of is the one that has it. *)
Theorem one_comment_per_command `{Runtime} `{PlatformHttp} repo number thread
    `{!CommentThread repo number thread} task_id d t a states n m history :
  find_row task_id (tasks d) = Some t → agent_of t = Some a →
  AgentTask.repo_full_name a = repo → AgentTask.pull_request_number a = number →
  AgentTask.response_comment_id a = None →
  (∀ c, c ∈ thread history → ¬ has_marker (agent_task_marker task_id a) c) →
  let s := exec (publish_each task_id states) ((open_session d n m) .[ sent := history ]) in
  (length (filter (has_marker (agent_task_marker task_id a)) (thread (sent s))) <= 1)%nat ∧
  ∀ t' a' id c, find_row task_id (tasks (committed s)) = Some t' → agent_of t' = Some a' →
    AgentTask.response_comment_id a' = Some id → c ∈ thread (sent s) →
    has_marker (agent_task_marker task_id a) c → comment_id c = id.
Proof.
  intros Ht Ha Hr Hn Hid Hnone s.
  assert (Hs : one_comment (repo := repo) (number := number) (thread := thread) task_id
    (agent_task_marker task_id a) s).
  { apply keeps_exec.
    - apply keeps_for_each. intros state. apply keeps_try; [|intros ?; apply keeps_ret].
      apply keeps_bind; [apply publish_keeps_one_comment|intros ?; apply keeps_ret].
    - split; [done|]. split.
      + unfold at_most_one, thread_of. change (sent _) with history.
        destruct (filter _ (thread history)) as [|c rest] eqn:E; [cbn; lia|].
        assert (c ∈ filter (has_marker (agent_task_marker task_id a)) (thread history))
          as [Hm Hc]%list_elem_of_filter by (rewrite E; set_solver). by destruct (Hnone c Hc).
      + intros t1 a1 Ht1 Ha1. change (find_row task_id (tasks d) = Some t1) in Ht1.
        assert (t1 = t) as -> by congruence. assert (a1 = a) as -> by congruence.
        split_and!; [done..|]. by rewrite Hid. }
  destruct Hs as (Hcm & Hone & Hcmd). split; [exact Hone|].
  intros t' a' id c Ht' Ha' Hid' Hc Hm. rewrite Hcm in Ht'.
  destruct (Hcmd t' a' Ht' Ha') as (_ & _ & _ & Hknown). by apply (Hknown id Hid').
Qed.

(** ** A platform that loses the reply to a creation *)

Definition comment_path : string := repo_path "octo/app" "/issues/comments/1".

Definition body_of (r : HttpRequest.t) : option string :=
  HttpRequest.body r ≫= λ j, jget_str j "body".

(** The text of the only comment the platform keeps. *)
Definition stored (h : list HttpRequest.t) : option string :=
  foldl (λ (text : option string) r,
    if bool_decide (HttpRequest.method r = "POST") then
      match text with None => body_of r | Some _ => text end
    else if bool_decide (HttpRequest.method r = "PATCH")
            && bool_decide (HttpRequest.path r = comment_path) then
      match text with None => None | Some _ => body_of r end
    else text) None h.

Definition demo_comment (text : string) : PlatformComment.t :=
  PlatformComment.mk (JStr "1") (Some text) (JObj []).

Definition demo_thread (h : list HttpRequest.t) : list PlatformComment.t :=
  match stored h with Some text => [demo_comment text] | None => [] end.

Definition demo_http : PlatformHttp := {|
  http_exchange h r :=
    if bool_decide (HttpRequest.method r = "POST") then RequestError "timeout"
    else if bool_decide (HttpRequest.method r = "PATCH") then
      match stored h, bool_decide (HttpRequest.path r = comment_path) with
      | Some _, true => HttpReply 200 "1"
      | _, _ => HTTPStatusError 404 ""
      end
    else
      match stored h, bool_decide (HttpRequest.params r = page_params 1) with
      | Some text, true => HttpReply 200 (String "c" text)
      | _, _ => HttpReply 200 "[]"
      end;
  parse_json content :=
    match content with
    | "[]" => Some (JList [])
    | "1" => Some (JObj [("id", JStr "1")])
    | String "c" text => Some (JList [JObj [("id", JStr "1"); ("body", JStr text)]])
    | _ => None
    end;
  validate_comment j :=
    Return (PlatformComment.mk (default JNull (jget j "id")) (jget_str j "body") (JObj []));
  github_token _ _ := inl None;
  github_static_token := None;
  gitlab_token := None;
  page_limit := 10
|}.

Lemma stored_snoc h r :
  stored (h ++ [r]) =
    if bool_decide (HttpRequest.method r = "POST") then
      match stored h with None => body_of r | Some _ => stored h end
    else if bool_decide (HttpRequest.method r = "PATCH")
            && bool_decide (HttpRequest.path r = comment_path) then
      match stored h with None => None | Some _ => body_of r end
    else stored h.
Proof. unfold stored. by rewrite foldl_app. Qed.

Lemma comment_path_inj id :
  bool_decide (repo_path "octo/app" ("/issues/comments/" +:+ id) = comment_path)
  = bool_decide (id = "1").
Proof.
  apply bool_decide_ext. unfold comment_path, repo_path. split; [|by intros ->].
  intros Heq. apply (inj (String.append "/repos/")), (inj (String.append "octo/app")) in Heq.
  by apply (inj (String.append "/issues/comments/")) in Heq.
Qed.

Lemma page_params_first page : 1 ≤ page → bool_decide (page_params page = page_params 1) = (page =? 1).
Proof.
  intros _. destruct (Z.eqb_spec page 1) as [->|Hne]; [by apply bool_decide_eq_true|].
  apply bool_decide_eq_false. unfold page_params. congruence.
Qed.

Lemma page_of_one page c : 1 ≤ page → page_of page [c] = if page =? 1 then [c] else [].
Proof.
  intros Hp. unfold page_of. destruct (Z.eqb_spec page 1) as [->|Hne]; [done|].
  destruct (Z.to_nat (100 * (page - 1))) as [|k] eqn:E; [lia|]. cbn. by destruct k.
Qed.

Ltac demo_methods :=
  cbn -[bool_decide];
  repeat match goal with
  | |- context [bool_decide (String ?a ?s = String ?b ?t)] =>
      let v := eval vm_compute in (bool_decide (String a s = String b t)) in
      change (bool_decide (String a s = String b t)) with v
  end;
  cbn -[bool_decide page_of].

Lemma demo_laws : @CommentThread demo_http "octo/app" 7 demo_thread.
Proof.
  split; unfold demo_thread.
  - intros h. destruct (stored h); [apply NoDup_singleton|constructor].
  - intros h page c. by rewrite stored_snoc.
  - intros h page c items Hp. unfold list_request. demo_methods.
    rewrite page_params_first by done.
    destruct (stored h) as [text|]; [|intros [= <-]; unfold page_of; by rewrite drop_nil].
    rewrite page_of_one by done. by destruct (page =? 1); intros [= <-].
  - intros h c body. rewrite stored_snoc. unfold create_request. demo_methods.
    destruct (stored h); [by left|right]. by exists (demo_comment body).
  - intros h c body value id. unfold create_request. by demo_methods.
  - intros h c id body. rewrite stored_snoc. unfold update_request. demo_methods.
    rewrite comment_path_inj. case_bool_decide as Hid; [|by left]. right. subst.
    by destruct (stored h).
  - intros h c id body value id'. unfold update_request. demo_methods. rewrite comment_path_inj.
    case_bool_decide as Hid; [|by destruct (stored h)].
    destruct (stored h); [|done]. intros [= <-] Hv. vm_compute in Hv. congruence.
Qed.

Definition demo_agent : AgentTask.t :=
  AgentTask.mk None None "github" "octo/app" 7 "message_command" None (Some "c-9")
    None (Some "eve") (Some "why?") None None None None None 0 None None None None None None
    None None 1 0 None None None None None.

Definition demo_command : Task.t :=
  Task.mk "task-1" "agent" "pr-assistant" "running" None "running" "pending" "interactive"
    80 80 0 None None "agent-standard" None None 0 None None None None None 0 0
    (Task.Agent demo_agent).

Lemma one_comment_per_command_witness :
  let s := exec (@publish_each demo_runtime demo_http "task-1" ["queued"; "running"; "completed"])
             ((open_session (with_tasks [demo_command]) 0 0) .[ sent := [] ]) in
  (length (filter (has_marker (agent_task_marker "task-1" demo_agent)) (demo_thread (sent s)))
   <= 1)%nat.
Proof.
  pose proof demo_laws as Hlaws.
  apply (@one_comment_per_command demo_runtime demo_http "octo/app" 7 demo_thread Hlaws "task-1"
    (with_tasks [demo_command]) demo_command demo_agent ["queued"; "running"; "completed"] 0 0 []
    eq_refl eq_refl eq_refl eq_refl eq_refl).
  intros c Hc. inversion Hc.
Defined.

(** The reply to the creation is lost; the next call finds the comment by its marker and
    gives it the next text; the third knows it. *)
Example lost_reply_is_recovered :
  let s := exec (@publish_each demo_runtime demo_http "task-1" ["queued"; "running"; "completed"])
             (open_session (with_tasks [demo_command]) 0 0) in
  (HttpRequest.method <$> sent s) = ["GET"; "POST"; "GET"; "PATCH"; "PATCH"] ∧
  (AgentTask.response_comment_id <$> omap agent_of (tasks (committed s))) = [Some "1"].
Proof. vm_compute. split; reflexivity. Qed.
