(* ===== verification/PlatformTheorems.v ===== *)
(** * The platforms against their contracts

    The pages of a query, followed by their cursors, are the whole list; and a webhook that is
    accepted was sent by someone who knows the secret and, when it carries a command, by
    someone who may give commands. *)
From Stdlib Require Import Ascii.
From S2P Require Import Prelude PyText Json PyRegex World Models Demo Delivery DeliveryTheorems DeliveryInvariant ReviewRuns Webhooks PlatformClient GitHubClient GitLabClient ProviderCore Comments GitHub GitLab Registry Platforms PlatformWebhooks.
#[global] Open Scope Z_scope.
#[global] Open Scope orch_scope.

(** ** Pages of a query *)

(** The items of the pages from a cursor on, as a caller that follows [next_cursor]
    collects them. *)
Inductive pages_from (items : list json) (page_size : Z) : option string → list json → Prop :=
  | last_page cursor page :
      _query_page items cursor page_size = Return (page, None) →
      pages_from items page_size cursor page
  | next_page cursor page next rest :
      _query_page items cursor page_size = Return (page, Some next) →
      pages_from items page_size (Some next) rest →
      pages_from items page_size cursor (page ++ rest).

(** C20: a caller that asks for the first page and then for the page at each cursor it is
    given comes to an end, and has then seen every item of the list once and in order,
    whatever the size of the pages. *)
Theorem query_pages_are_the_list items page_size :
  1 ≤ page_size → pages_from items page_size None items.
Proof.
  intros Hsize.
  assert (Hfrom : ∀ k offset cursor,
    (match cursor with Some text => py_int text | None => Some 0 end) = Some (Z.of_nat offset) →
    (length items - offset < k)%nat → pages_from items page_size cursor (drop offset items)).
  { induction k as [|k IH]; intros offset cursor Hc Hk; [lia|].
    set (size := Z.to_nat page_size). assert (1 <= size)%nat by lia.
    assert (Hpage : _query_page items cursor page_size =
      Return (take size (drop offset items),
              if Z.of_nat offset + Z.of_nat (length (take size (drop offset items)))
                 <? Z.of_nat (length items)
              then Some (str_int (Z.of_nat offset
                     + Z.of_nat (length (take size (drop offset items))))) else None)).
    { unfold _query_page. rewrite Hc. destruct (Z.ltb_spec (Z.of_nat offset) 0); [lia|].
      by rewrite Nat2Z.id. }
    rewrite length_take, length_drop in Hpage.
    case_match eqn:Hmore; [apply Z.ltb_lt in Hmore|apply Z.ltb_ge in Hmore].
    - rewrite <- (take_drop size (drop offset items)). eapply next_page; [exact Hpage|].
      rewrite drop_drop. apply IH; [|lia].
      rewrite py_int_str_int by lia. f_equal. lia.
    - rewrite take_ge in Hpage by (rewrite length_drop; lia). by apply last_page. }
  specialize (Hfrom (S (length items)) 0%nat None eq_refl). rewrite drop_0 in Hfrom.
  apply Hfrom. lia.
Qed.

Lemma query_pages_are_the_list_witness :
  1 ≤ 2 ∧ pages_from [JInt 1; JInt 2; JInt 3] 2 None [JInt 1; JInt 2; JInt 3].
Proof. split; [lia|]. apply (query_pages_are_the_list [JInt 1; JInt 2; JInt 3] 2). lia. Defined.

(** ** Webhooks *)

Section webhooks.
Context `{Runtime} `{WebhookLibrary}.

Lemma verify_signature_Return body signature secret :
  verify_signature body signature (Some secret) = Return tt → secret ≠ "" →
  signature = Some (expected_signature secret body).
Proof.
  unfold verify_signature. destruct secret as [|c secret]; [done|]. cbn [or_none].
  destruct signature as [[|d s]|]; cbn [or_none]; try done.
  intros (same & Hs & Hret)%outcome_bind_Return _. unfold compare_digest in Hs.
  destruct (_ && _); [|done]. injection Hs as <-. case_bool_decide as E; [by rewrite E|done].
Qed.

(** Commands come from comments only. *)
Lemma normalized_command settings provider_event payload e :
  normalize_github_event settings provider_event payload = Return e →
  ProviderWebhookEvent.should_create_agent_task e = true →
  ∃ command, ProviderWebhookEvent.agent_command e = Some command ∧
    is_Some (ProviderWebhookEvent.pull_request_number e) ∧
    _extract_agent_command settings provider_event (_optional_str (jget payload "action")) payload
      = Some command.
Proof.
  unfold normalize_github_event. case_bool_decide.
  - unfold _normalize_pull_request_event. intros (snapshot & _ & Hr)%outcome_bind_Return.
    destruct (_ && _); [done|]. by injection Hr as <-.
  - case_bool_decide; intros [= <-]; [|done]. cbn.
    intros [Hn%bool_decide_eq_true Hc%bool_decide_eq_true]%andb_prop.
    destruct Hc as [command Hc]. exists command. by rewrite Hc.
Qed.

(** What the settings ask of a command. *)
Definition authorised (settings : CommandSettings.t) (c : AgentCommand.t) : Prop :=
  ∃ bot_login, CommandSettings.bot_login settings = Some bot_login ∧
    py_lower (AgentCommand.author_login c) ≠ py_lower bot_login ∧
    (∀ allowed, CommandSettings.allowed_associations settings = Some allowed →
       ∃ association, AgentCommand.author_association c = Some association ∧
         py_upper association ∈ allowed) ∧
    Z.of_nat (String.length (AgentCommand.command_text c))
      ≤ CommandSettings.max_command_chars settings ∧
    ∃ body, re_search (mention_pattern bot_login) body = true ∧
      AgentCommand.command_text c = py_strip (re_sub (mention_pattern bot_login) (λ _, "") body).
Lemma extracted_command_authorised settings provider_event action payload c :
  _extract_agent_command settings provider_event action payload = Some c → authorised settings c.
Proof.
  unfold _extract_agent_command.
  destruct (CommandSettings.command_enabled settings); [|done].
  destruct (CommandSettings.bot_login settings) as [[|b bot]|] eqn:Hbot; try done.
  cbn [or_none mbind option_bind]. set (login := String b bot).
  destruct (negb (bool_decide (action = _))); [done|].
  destruct (match object_of _ with Some _ => _ | None => _ end) as [source|]; [|done].
  cbn [mbind option_bind]. destruct (jget_str source "body") as [body|]; [|done]. cbn [mbind option_bind].
  destruct (_id_to_str _) as [source_id|]; [|done]. cbn [mbind option_bind].
  destruct (object_of (jget source "user")) as [user|]; [|done]. cbn [mbind option_bind].
  destruct (_optional_str (jget user "login")) as [author|]; [|done]. cbn [mbind option_bind].
  set (association := match _ with Some _ => _ | None => _ end).
  destruct (may_command _ _ _ _ association) eqn:Hmay; [|done]. cbn [negb].
  unfold command_text_of. destruct (re_search (mention_pattern login) body) eqn:Hsearch; [|done].
  cbn [mbind option_bind]. destruct (Z.ltb_spec (CommandSettings.max_command_chars settings)
    (Z.of_nat (String.length (py_strip (re_sub (mention_pattern login) (λ _, "") body))))); [done|].
  intros [= <-]. unfold may_command in Hmay. apply andb_prop in Hmay as [[Hself _]%andb_prop Hall].
  exists login. cbn. split; [done|]. split.
  { by apply negb_true_iff, bool_decide_eq_false in Hself. }
  split.
  { intros allowed Hallowed. rewrite Hallowed in Hall. destruct association as [a|]; [|done].
    exists a. by apply bool_decide_eq_true in Hall. }
  split; [done|]. by exists body.
Qed.

(** Who signed a body, or knew the token, is the sender. *)
Lemma parsed_github_signed settings secret headers raw_body parsed :
  secret ≠ "" → _parse_github_webhook settings (Some secret) headers raw_body = Return parsed →
  header (lower_headers headers) "x-hub-signature-256" = Some (expected_signature secret raw_body) ∧
  ∃ event_name payload, normalize_github_event settings event_name payload
    = Return (ParsedProviderWebhook.provider_event parsed).
Proof.
  intros Hsecret. unfold _parse_github_webhook.
  destruct (or_none (header _ "x-github-delivery")); [|done].
  destruct (or_none (header _ "x-github-event")) as [event_name|]; [|done].
  intros ([] & Hsig & (payload & _ & (e & He & [= <-])%outcome_bind_Return)%outcome_bind_Return)
    %outcome_bind_Return. split; [by apply verify_signature_Return|]. by exists event_name, payload.
Qed.

Lemma parsed_gitlab_token secret headers raw_body parsed :
  secret ≠ "" → _parse_gitlab_webhook (Some secret) headers raw_body = Return parsed →
  header (lower_headers headers) "x-gitlab-token" = Some secret ∧
  ∃ event_name payload, normalize_gitlab_event event_name payload
    = Return (ParsedProviderWebhook.provider_event parsed).
Proof.
  intros Hsecret. unfold _parse_gitlab_webhook.
  destruct (match or_none (header _ "x-gitlab-event-uuid") with Some _ => _ | None => _ end);
    [|done].
  destruct (or_none (header _ "x-gitlab-event")) as [event_name|]; [|done].
  intros ([] & Htoken & (payload & _ & (e & He & [= <-])%outcome_bind_Return)%outcome_bind_Return)
    %outcome_bind_Return. split; [|by exists event_name, payload].
  unfold check_token in Htoken. destruct secret as [|c secret]; [done|]. cbn [or_none] in Htoken.
  destruct (header _ "x-gitlab-token") as [token|]; [|done].
  apply outcome_bind_Return in Htoken as (same & Hs & Hret). unfold compare_digest in Hs.
  destruct (_ && _); [|done]. injection Hs as <-. case_bool_decide as E; [by rewrite E|done].
Qed.

End webhooks.

(** A delivery of GitHub with a command, signed with the secret. *)
Definition comment_payload : json :=
  JObj [("action", JStr "created");
        ("comment", JObj [("id", JInt 9); ("body", JStr "@Review-Bot please explain");
                          ("author_association", JStr "member");
                          ("user", JObj [("login", JStr "eve"); ("type", JStr "User")])]);
        ("issue", JObj [("number", JInt 7); ("pull_request", JObj [])]);
        ("repository", JObj [("full_name", JStr "octo/app")])].

Definition demo_library : WebhookLibrary := {|
  json_loads body := if bool_decide (body = "{}") then inl comment_payload else inr JSONDecodeError;
  hmac_sha256_hexdigest secret body := secret +:+ ":" +:+ body;
  fromisoformat _ := None
|}.

Definition demo_settings : CommandSettings.t :=
  CommandSettings.mk (Some "review-bot") true (Some (allowed_associations_of "OWNER, member")) 8000.

Definition demo_headers : list (string * string) :=
  [("X-GitHub-Delivery", "d-1"); ("X-GitHub-Event", "issue_comment");
   ("X-Hub-Signature-256", "sha256=s3cret:{}")].

Example signed_command_is_read :
  (λ p, AgentCommand.command_text <$>
          ProviderWebhookEvent.agent_command (ParsedProviderWebhook.provider_event p))
    <$> (match @_parse_github_webhook demo_library demo_settings (Some "s3cret") demo_headers "{}" with
         | Return p => Some p | Raise _ => None end)
  = Some (Some "please explain").
Proof. vm_compute. reflexivity. Qed.


(** A signature with a character outside ASCII does not fail the check but the comparison:
    the exception is not one of the webhook's and is not answered as one. *)
Example exotic_signature_escapes :
  @verify_signature demo_library "{}" (Some (String "233" "")) (Some "s3cret")
  = Raise (TypeError "comparing strings with non-ASCII characters is not supported").
Proof. vm_compute. reflexivity. Qed.

(** A body that is not text is not reported as a payload that is not JSON. *)
Example undecodable_body_escapes (L : WebhookLibrary) body :
  json_loads body = inr UnicodeDecodeError →
  parse_json_body body = Raise (ValueError "'utf-8' codec can't decode").
Proof. intros H. unfold parse_json_body, read_body. by rewrite H. Qed.
