(* ===== verification/Workspaces.v ===== *)
(** * Workspaces

    Model of [src/src/review_orchestrator/infrastructure/workspaces.py]: the clone of a
    repository at the head of a pull request, prepared by git processes under the
    credential of the provider, leased to a run, and removed.  What happens outside the
    database goes through the class [Host] of [World.v] and is kept in the journal of
    the session; [asyncio.to_thread] runs its function to the end. *)
From Stdlib Require Import Ascii.
From S2P Require Import Prelude PyText Json World PyPath Models ProviderCore.
#[global] Open Scope Z_scope.
#[global] Open Scope orch_scope.

(** [WorkspacePrepareRequest] of [domain/schemas.py], with the fields of its parts. *)
Module WorkspacePrepareRequest.
Record t := mk {
  provider : string;
  full_name : string;
  clone_url : option string;
  number : Z;
  base_sha : string;
  head_sha : string;
  is_fork : bool;
  token_ref : option string;
  use_git_cache : bool;
  force_refresh : bool
}.
#[global] Instance eta : Eta t := λ r,
  mk (provider r) (full_name r) (clone_url r) (number r) (base_sha r) (head_sha r) (is_fork r)
    (token_ref r) (use_git_cache r) (force_refresh r).
End WorkspacePrepareRequest.

Module WorkspacePrepareResponse.
Record t := mk {
  workspace_id : string;
  workspace_path : string;
  base_sha : string;
  head_sha : string;
  status : string;
  from_cache : bool;
  failure_code : option string;
  failure_message : option string
}.
End WorkspacePrepareResponse.

Module CleanupSummary.
Record t := mk { deleted : Z; skipped_locked : Z; failed : Z }.
End CleanupSummary.

Module WorkspaceSettings.
Record t := mk { workspace_root : string; git_cache_root : string }.
End WorkspaceSettings.

Module WorkspacePaths.
Record t := mk { repo_hash : string; repo_path : Path.t; cache_path : Path.t }.
End WorkspacePaths.

(** ** Text *)

Definition _classify_git_error (stderr : string) : string :=
  let lowered := py_lower stderr in
  let has (text : string) := py_contains text lowered in
  if has "authentication failed" || has "could not read username" then "auth_failed"
  else if has "repository not found" || has "not appear to be a git repository"
  then "repo_not_found"
  else if has "couldn't find remote ref" || has "not our ref" then "head_missing"
  else if has "unable to access" || has "could not resolve host" then "network_error"
  else if has "not a valid object name" || has "pathspec" then "head_missing"
  else "git_error".

(** [parsed.port]. *)
Definition url_port (u : Url.t) : outcome (option Z) :=
  match (break_at (char_eqb ":") (after_last "@" (Url.netloc u))).2 with
  | "" | String _ "" => Return None
  | String _ port =>
      if str_all is_digit port then
        match py_int port with
        | Some n => if n <=? 65535 then Return (Some n)
                    else Raise (ValueError "Port out of range 0-65535")
        | None => Raise (ValueError "Port could not be cast to integer value")
        end
      else Raise (ValueError ("Port could not be cast to integer value as " +:+ repr_string port))
  end.

Definition _authenticated_https_base (clone_url : string) : outcome (option string) :=
  let parsed := urlsplit clone_url in
  if negb (bool_decide (Url.scheme parsed ∈ ["http"; "https"]))
     || bool_decide (hostname parsed = "")
  then Return None
  else
    port ← url_port parsed;
    mret (Some (hostname parsed
                +:+ (match port with
                     | Some n => if n =? 0 then "" else ":" +:+ str_int n
                     | None => ""
                     end) +:+ "/")).

Definition MASK_VARIABLE : string := "REVIEW_GIT_TOKEN_MASK".

Definition _mask_secret (value : string) (env : gmap string string) : string :=
  match or_none (env !! MASK_VARIABLE) with
  | Some token => py_replace token "***" value
  | None => value
  end.

(** The text after the last [@], if there is one. *)
Definition after_at (s : string) : option string :=
  if py_contains "@" s then Some (after_last "@" s) else None.

Definition _safe_clone_url (clone_url : string) : string :=
  if negb (py_contains "@" clone_url) then clone_url
  else
    match split_once "://" clone_url with
    | None => clone_url
    | Some (scheme, host_path) =>
        match after_at host_path with
        | None => clone_url
        | Some safe_host_path => scheme +:+ "://" +:+ safe_host_path
        end
    end.

Definition _prepare_response (w : Workspace.t) (from_cache : bool) : WorkspacePrepareResponse.t :=
  WorkspacePrepareResponse.mk (Workspace.workspace_id w) (Workspace.workspace_path w)
    (Workspace.base_sha w) (Workspace.head_sha w) (Workspace.status w) from_cache
    (Workspace.failure_code w) (Workspace.failure_message w).

(** Which providers check out a repository, and how. *)
Class CheckoutRegistry := {
  offers_checkout : string → bool;
  provider_checkout : string → string → option string → SM ProviderWorkspaceCheckout.t
}.

Section workspaces.
Context `{Runtime}.

Definition repo_hash (repository : string) : string :=
  String.substring 0 16 (sha256_hexdigest (py_lower (py_strip repository))).

Definition workspace_identity (provider repository : string) (pull_request_number : Z)
    (head_sha : string) : string :=
  provider +:+ ":" +:+ repo_hash repository +:+ ":pr:" +:+ str_int pull_request_number
  +:+ ":head:" +:+ head_sha.

Definition _workspace_paths (settings : WorkspaceSettings.t) (repository : string)
    (request : WorkspacePrepareRequest.t) : WorkspacePaths.t :=
  let hashed := repo_hash repository in
  let below (root : string) (names : list string) := foldl join_path (path_of root) names in
  WorkspacePaths.mk hashed
    (below (WorkspaceSettings.workspace_root settings)
       [WorkspacePrepareRequest.provider request; hashed;
        "pr-" +:+ str_int (WorkspacePrepareRequest.number request);
        WorkspacePrepareRequest.head_sha request; "repo"])
    (below (WorkspaceSettings.git_cache_root settings)
       [WorkspacePrepareRequest.provider request; hashed +:+ ".git"]).

Context `{Host}.

(** ** Git *)

(** An operation on files, which may raise [OSError]. *)
Definition file_action (action : shell_action) : SM () :=
  error ← gets (λ s, os_error (shell s) action);
  match error with
  | Some message => raise (OSError message)
  | None => puts (λ s, s .[ shell := shell s ++ [action] ])
  end.

(** [shutil.rmtree(path, ignore_errors=True)] never raises. *)
Definition rmtree (path : string) : SM () :=
  puts (λ s, s .[ shell := shell s ++ [RemoveTree path] ]).

Definition exists_ (path : Path.t) : SM bool :=
  gets (λ s, path_exists (shell s) (path_str path)).

Definition _run_git (command : list string) (env : gmap string string) : SM () :=
  result ← gets (λ s, process_outcome (shell s) command env);
  puts (λ s, s .[ shell := shell s ++ [RunProcess command env result] ]) ;;
  match result with
  | TimeoutExpired => raise (GitCommandError "network_error" "git command timed out")
  | NotStarted message => raise (OSError message)
  | Exited returncode stderr =>
      if returncode =? 0 then mret tt
      else
        let stderr := _mask_secret (py_strip stderr) env in
        raise (GitCommandError (_classify_git_error stderr)
                 (or_else (Some stderr) "git command failed"))
  end.

(** [except GitCommandError]. *)
Definition except_git {A} (m : SM A) (h : string → string → SM A) : SM A :=
  try_except m (λ e, match e with GitCommandError code message => h code message | _ => raise e end).

Definition in_repository (repo_path : Path.t) (args : list string) : list string :=
  ["git"; "-C"; path_str repo_path] ++ args.

Definition commit_exists (repo_path : Path.t) (sha : string) : list string :=
  in_repository repo_path ["cat-file"; "-e"; sha +:+ "^{commit}"].

Definition _ensure_commit (repo_path : Path.t) (sha : string) (env : gmap string string)
    (is_base : bool) : SM () :=
  except_git (_run_git (commit_exists repo_path sha) env)
    (λ _ first_message,
      except_git
        (_run_git (in_repository repo_path ["fetch"; "origin"; sha]) env ;;
         _run_git (commit_exists repo_path sha) env)
        (λ _ message,
          raise (GitCommandError (if is_base then "base_missing" else "head_missing")
                   (or_else (Some message) first_message)))).

Definition _ensure_cache (cache_path : Path.t) (clone_url : string) (env : gmap string string)
    : SM () :=
  file_action (MakeDirs (path_str (path_parent cache_path))) ;;
  cached ← exists_ cache_path;
  if (cached : bool) then
    _run_git (in_repository cache_path ["remote"; "update"; "--prune"]) env
  else _run_git ["git"; "clone"; "--mirror"; clone_url; path_str cache_path] env.

Definition _git_env (request : WorkspacePrepareRequest.t) (auth_token : option string)
    (auth_username : string) : outcome (gmap string string) :=
  let token_ref := or_none (WorkspacePrepareRequest.token_ref request) in
  let token := match or_none auth_token with
               | Some t => Some t
               | None => token_ref ≫= λ ref, or_none (environ !! ref)
               end in
  match token, token_ref with
  | None, Some ref =>
      Raise (GitCommandError "auth_failed" ("Token reference is not available: " +:+ ref))
  | None, None => Return environ
  | Some token, _ =>
      match WorkspacePrepareRequest.clone_url request with
      | None => Return environ
      | Some clone_url =>
          base ← _authenticated_https_base clone_url;
          mret (match base with
                | None => environ
                | Some base =>
                    <[MASK_VARIABLE := token]>
                    (<["GIT_CONFIG_VALUE_0" := "https://" +:+ base]>
                    (<["GIT_CONFIG_KEY_0" := "url.https://" +:+ auth_username +:+ ":" +:+ token
                                             +:+ "@" +:+ base +:+ ".insteadOf"]>
                    (<["GIT_CONFIG_COUNT" := "1"]> environ)))
                end)
      end
  end.

Definition _prepare_git_workspace (paths : WorkspacePaths.t) (request : WorkspacePrepareRequest.t)
    (auth_token : option string) (auth_username : string) : SM () :=
  let repo_path := WorkspacePaths.repo_path paths in
  file_action (MakeDirs (path_str (path_parent repo_path))) ;;
  when (WorkspacePrepareRequest.force_refresh request) (rmtree (path_str repo_path)) ;;
  env ← lift (_git_env request auth_token auth_username);
  clone_url ← (match WorkspacePrepareRequest.clone_url request with
               | Some url => mret url
               | None => raise (AssertionError "")
               end);
  clone_source ← (if WorkspacePrepareRequest.use_git_cache request then
                    _ensure_cache (WorkspacePaths.cache_path paths) clone_url env ;;
                    mret (path_str (WorkspacePaths.cache_path paths))
                  else mret clone_url);
  cloned ← exists_ repo_path;
  (if (cloned : bool) then _run_git (in_repository repo_path ["fetch"; "--all"]) env
   else _run_git ["git"; "clone"; clone_source; path_str repo_path] env) ;;
  _ensure_commit repo_path (WorkspacePrepareRequest.base_sha request) env true ;;
  _ensure_commit repo_path (WorkspacePrepareRequest.head_sha request) env false ;;
  _run_git (in_repository repo_path
              ["checkout"; "--detach"; WorkspacePrepareRequest.head_sha request]) env ;;
  cloned ← exists_ repo_path;
  when cloned (file_action (ChangeMode (path_str repo_path) 448)).

(** ** Preparing *)

Definition get_workspace (workspace_id : string) : SM (option Workspace.t) :=
  l ← select (λ w, bool_decide (Workspace.workspace_id w = workspace_id));
  scalar_one_or_none l.

Context `{CheckoutRegistry}.

(** [registered] tells whether the caller passed a registry. *)
Definition _resolve_workspace_checkout (request : WorkspacePrepareRequest.t) (registered : bool)
    : SM ProviderWorkspaceCheckout.t :=
  let provider := WorkspacePrepareRequest.provider request in
  if negb registered then
    match WorkspacePrepareRequest.clone_url request with
    | None => raise (ProviderCapabilityError ("Workspace provider is not configured: " +:+ provider))
    | Some clone_url => mret (ProviderWorkspaceCheckout.mk clone_url None "x-access-token")
    end
  else if offers_checkout provider then
    provider_checkout provider (WorkspacePrepareRequest.full_name request)
      (WorkspacePrepareRequest.clone_url request)
  else raise (ProviderCapabilityError ("Provider " +:+ repr_string provider
                +:+ " does not support get_workspace_checkout.")).

Definition hour : Z := 3600 * second.

(** The response when the provider does not give a checkout. *)
Definition checkout_failed (request : WorkspacePrepareRequest.t) (code message : string)
    : WorkspacePrepareResponse.t :=
  WorkspacePrepareResponse.mk "" "" (WorkspacePrepareRequest.base_sha request)
    (WorkspacePrepareRequest.head_sha request) "failed" false (Some code) (Some message).

Definition cache_of (paths : WorkspacePaths.t) (request : WorkspacePrepareRequest.t)
    : option string :=
  if WorkspacePrepareRequest.use_git_cache request
  then Some (path_str (WorkspacePaths.cache_path paths)) else None.

Definition new_workspace (identity clone_url : string) (paths : WorkspacePaths.t)
    (request : WorkspacePrepareRequest.t) : SM Workspace.t :=
  expires ← utc_now;
  id ← uuid4;
  created_at ← utc_now;
  updated_at ← utc_now;
  mret (Workspace.mk id identity (WorkspacePrepareRequest.provider request)
    (WorkspacePrepareRequest.full_name request) (_safe_clone_url clone_url)
    (WorkspacePaths.repo_hash paths) (WorkspacePrepareRequest.number request)
    (WorkspacePrepareRequest.base_sha request) (WorkspacePrepareRequest.head_sha request)
    (path_str (WorkspacePaths.repo_path paths)) (cache_of paths request) "preparing" None None
    created_at None None (Some (expires + 24 * hour)) updated_at).

(** The assignments to a workspace that is prepared again. *)
Definition mark_preparing (clone_url : string) (paths : WorkspacePaths.t)
    (request : WorkspacePrepareRequest.t) (w : Workspace.t) : Workspace.t :=
  w .[ Workspace.status := "preparing" ] .[ Workspace.failure_code := None ]
    .[ Workspace.failure_message := None ]
    .[ Workspace.base_sha := WorkspacePrepareRequest.base_sha request ]
    .[ Workspace.repository_clone_url := _safe_clone_url clone_url ]
    .[ Workspace.cache_path := cache_of paths request ].

Definition mark_workspace_failed (code message : string) (expires : Z) (w : Workspace.t)
    : Workspace.t :=
  w .[ Workspace.status := "failed" ] .[ Workspace.failure_code := Some code ]
    .[ Workspace.failure_message := Some message ] .[ Workspace.expires_at := Some expires ].

Definition mark_ready (ready expires : Z) (w : Workspace.t) : Workspace.t :=
  w .[ Workspace.status := "ready" ] .[ Workspace.failure_code := None ]
    .[ Workspace.failure_message := None ] .[ Workspace.ready_at := Some ready ]
    .[ Workspace.last_used_at := Some ready ] .[ Workspace.expires_at := Some expires ].

(** Everything after the row was committed. *)
Definition run_preparation (id : string) (paths : WorkspacePaths.t)
    (request : WorkspacePrepareRequest.t) (checkout : ProviderWorkspaceCheckout.t)
    : SM WorkspacePrepareResponse.t :=
  failure ← except_git
    (_prepare_git_workspace paths request (ProviderWorkspaceCheckout.auth_token checkout)
       (ProviderWorkspaceCheckout.auth_username checkout) ;; mret None)
    (λ code message, mret (Some (code, message)));
  match failure with
  | Some (code, message) =>
      now ← utc_now;
      modify id (mark_workspace_failed code message (now + 6 * hour)) ;;
      commit ;;
      workspace ← load id;
      mret (_prepare_response workspace false)
  | None =>
      ready ← utc_now;
      now ← utc_now;
      modify id (mark_ready ready (now + 24 * hour)) ;;
      commit ;;
      workspace ← load id;
      mret (_prepare_response workspace (WorkspacePrepareRequest.use_git_cache request))
  end.

(** The row of the workspace, created or reset. *)
Definition enter_preparing (identity clone_url : string) (paths : WorkspacePaths.t)
    (request : WorkspacePrepareRequest.t) (existing : option Workspace.t) : SM string :=
  id ← (match existing with
        | None =>
            workspace ← new_workspace identity clone_url paths request;
            insert workspace ;;
            mret (Workspace.id workspace)
        | Some workspace =>
            modify (Workspace.id workspace) (mark_preparing clone_url paths request) ;;
            mret (Workspace.id workspace)
        end);
  commit ;;
  mret id.

(** The checkout the provider gives, or the failure to report. *)
Definition checkout_or_failure (request : WorkspacePrepareRequest.t) (registered : bool)
    : SM (ProviderWorkspaceCheckout.t + WorkspacePrepareResponse.t) :=
  try_except (checkout ← _resolve_workspace_checkout request registered; mret (inl checkout))
    (λ e, match e with
          | ProviderCapabilityError message => mret (inr (checkout_failed request "git_error" message))
          | ProviderError message => mret (inr (checkout_failed request "auth_failed" message))
          | _ => raise e
          end).

Definition prepare_workspace (settings : WorkspaceSettings.t) (request : WorkspacePrepareRequest.t)
    (registered : bool) : SM WorkspacePrepareResponse.t :=
  let identity := workspace_identity (WorkspacePrepareRequest.provider request)
                    (WorkspacePrepareRequest.full_name request)
                    (WorkspacePrepareRequest.number request)
                    (WorkspacePrepareRequest.head_sha request) in
  existing ← get_workspace identity;
  let reusable := match existing with
                  | Some w => bool_decide (Workspace.status w = "ready")
                              && negb (WorkspacePrepareRequest.force_refresh request)
                  | None => false
                  end in
  match existing, reusable with
  | Some workspace, true =>
      now ← utc_now;
      modify (Workspace.id workspace) (λ w, w .[ Workspace.last_used_at := Some now ]) ;;
      commit ;;
      workspace ← load (Workspace.id workspace);
      mret (_prepare_response workspace true)
  | _, _ =>
      resolved ← checkout_or_failure request registered;
      match resolved with
      | inr response => mret response
      | inl checkout =>
          let clone_url := ProviderWorkspaceCheckout.clone_url checkout in
          let request := request .[ WorkspacePrepareRequest.clone_url := Some clone_url ] in
          let paths := _workspace_paths settings (WorkspacePrepareRequest.full_name request) request in
          id ← enter_preparing identity clone_url paths request existing;
          run_preparation id paths request checkout
      end
  end.

(** ** Leases *)

Definition active_lease_of (workspace_id : string) (l : WorkspaceLease.t) : bool :=
  bool_decide (WorkspaceLease.workspace_id l = workspace_id)
  && bool_decide (WorkspaceLease.released_at l = None).

Definition _has_active_lease (workspace_id : string) : SM bool :=
  l ← select (active_lease_of workspace_id);
  found ← scalar_one_or_none l;
  mret (bool_decide (is_Some found)).

Definition _has_other_active_lease (lease : WorkspaceLease.t) : SM bool :=
  l ← select (λ x, active_lease_of (WorkspaceLease.workspace_id lease) x
                   && negb (bool_decide (WorkspaceLease.id x = WorkspaceLease.id lease)));
  found ← scalar_one_or_none l;
  mret (bool_decide (is_Some found)).

Definition lease_workspace (workspace_id : string) (review_run_id session_id : option string)
    : SM (WorkspaceLease.t * Workspace.t) :=
  found ← get_workspace workspace_id;
  match found with
  | None => raise (KeyError workspace_id)
  | Some workspace =>
      now ← utc_now;
      modify (Workspace.id workspace) (λ w, w .[ Workspace.status := "leased" ]
                                              .[ Workspace.last_used_at := Some now ]) ;;
      id ← uuid4;
      leased_at ← utc_now;
      insert (WorkspaceLease.mk id workspace_id review_run_id session_id leased_at None) ;;
      commit ;;
      lease ← load (R := WorkspaceLease.t) id;
      workspace ← load (Workspace.id workspace);
      mret (lease, workspace)
  end.

Definition release_workspace (lease_id : string) : SM (option Workspace.t) :=
  found ← fetch (R := WorkspaceLease.t) lease_id;
  match found with
  | None => mret None
  | Some lease =>
      when (bool_decide (WorkspaceLease.released_at lease = None))
        (now ← utc_now;
         modify lease_id (λ l, l .[ WorkspaceLease.released_at := Some now ])) ;;
      found ← get_workspace (WorkspaceLease.workspace_id lease);
      match found with
      | None => commit ;; mret None
      | Some workspace =>
          other ← _has_other_active_lease lease;
          when (negb other)
            (now ← utc_now;
             modify (Workspace.id workspace) (λ w, w .[ Workspace.status := "idle" ]
                                                     .[ Workspace.last_used_at := Some now ])) ;;
          commit ;;
          workspace ← load (Workspace.id workspace);
          mret (Some workspace)
      end
  end.

(** ** Cleaning *)

Definition cleanup_workspace (workspace_id : string) (force : bool) : SM string :=
  found ← get_workspace workspace_id;
  match found with
  | None => mret "deleted"
  | Some workspace =>
      let id := Workspace.id workspace in
      locked ← (if force then mret false else _has_active_lease workspace_id);
      if (locked : bool) then
        modify id (λ w, w .[ Workspace.failure_code := Some "workspace_locked" ]) ;;
        commit ;;
        mret "workspace_locked"
      else
        modify id (λ w, w .[ Workspace.status := "cleaning" ]) ;;
        commit ;;
        failure ← try_except (rmtree (Workspace.workspace_path workspace) ;; mret None)
                    (λ e, match e with OSError message => mret (Some message) | _ => raise e end);
        match failure with
        | Some message =>
            modify id (λ w, w .[ Workspace.status := "failed" ]
                              .[ Workspace.failure_code := Some "cleanup_failed" ]
                              .[ Workspace.failure_message := Some message ]) ;;
            commit ;;
            mret "cleanup_failed"
        | None =>
            now ← utc_now;
            modify id (λ w, w .[ Workspace.status := "deleted" ]
                              .[ Workspace.expires_at := Some now ]) ;;
            commit ;;
            mret "deleted"
        end
  end.

Definition count_cleanup (result : string) (summary : CleanupSummary.t) : CleanupSummary.t :=
  let '(CleanupSummary.mk deleted skipped_locked failed) := summary in
  if bool_decide (result = "deleted") then CleanupSummary.mk (deleted + 1) skipped_locked failed
  else if bool_decide (result = "workspace_locked")
  then CleanupSummary.mk deleted (skipped_locked + 1) failed
  else CleanupSummary.mk deleted skipped_locked (failed + 1).

Fixpoint _cleanup_many (workspaces : list Workspace.t) (force : bool) (summary : CleanupSummary.t)
    : SM CleanupSummary.t :=
  match workspaces with
  | [] => mret summary
  | workspace :: workspaces =>
      result ← cleanup_workspace (Workspace.workspace_id workspace) force;
      _cleanup_many workspaces force (count_cleanup result summary)
  end.

Definition cleanup_pull_request_workspaces (provider repository : string)
    (pull_request_number : Z) (force : bool) : SM CleanupSummary.t :=
  l ← select (λ w, bool_decide (Workspace.provider w = provider)
                   && bool_decide (Workspace.repository w = repository)
                   && (Workspace.pull_request_number w =? pull_request_number));
  _cleanup_many l force (CleanupSummary.mk 0 0 0).

Definition expired (now : Z) (w : Workspace.t) : bool :=
  match Workspace.expires_at w with Some e => e <=? now | None => false end
  && negb (bool_decide (Workspace.status w = "deleted")).

Definition cleanup_expired_workspaces (now : option Z) : SM CleanupSummary.t :=
  now ← or_now now;
  l ← select (expired now);
  _cleanup_many l false (CleanupSummary.mk 0 0 0).
End workspaces.
