(* ===== verification/WorkspaceTheorems.v ===== *)
(** * What workspaces guarantee

    A workspace reported ready is checked out at the head that was asked for; the failure of
    a preparation does not show the credential; an expired workspace is removed only when
    nobody leases it; its row stays well formed. *)
From Stdlib Require Import Ascii.
From S2P Require Import Prelude PyText Json World PyPath Models ProviderCore Workspaces.
#[global] Open Scope Z_scope.
#[global] Open Scope orch_scope.

(** ** Replacing text *)

(** No star. *)
Definition plain_char (c : ascii) : bool := negb (char_eqb c "*").

Lemma starts_with_replaced p old s :
  str_all plain_char p → starts_with p (replace_from old "***" 0 s) → starts_with p s.
Proof.
  revert p. induction s as [|c s IH]; intros p Hp; [done|].
  cbn [replace_from]. destruct (starts_with old (String c s)) eqn:Hold.
  - destruct p as [|d p]; [done|]. cbn [str_all] in Hp. apply Is_true_andb in Hp as [Hd _].
    rewrite str_app_cons. cbn [starts_with]. intros [Hc _]%Is_true_andb.
    apply char_eqb_eq in Hc as ->. done.
  - destruct p as [|d p]; [done|]. cbn [str_all] in Hp. apply Is_true_andb in Hp as [_ Hp].
    cbn [starts_with]. rewrite !Is_true_andb. intros [Hc Hs]. split; [done|by apply IH].
Qed.

Lemma replaced_absent old n s k :
  (String.length s ≤ n)%nat → old ≠ "" → str_all plain_char old →
  py_contains old (replace_from old "***" k s) = false.
Proof.
  revert s k. induction n as [|n IH]; intros [|c s] k Hn Hne Hp; cbn [String.length] in Hn;
    try lia.
  - by destruct old.
  - by destruct old.
  - cbn [replace_from]. destruct k as [|k]; [|apply IH; [lia|done..]].
    assert (Hstar : ∀ t, py_contains old t = false → py_contains old (String "*" t) = false).
    { intros t Ht. cbn [py_contains]. rewrite Ht, orb_false_r.
      destruct old as [|d old]; [done|]. cbn [str_all] in Hp.
      apply Is_true_andb in Hp as [Hd _]. cbn [starts_with].
      destruct (char_eqb d "*") eqn:E; [|done]. unfold plain_char in Hd. by rewrite E in Hd. }
    destruct (starts_with old (String c s)) eqn:Hold.
    + apply Hstar, Hstar, Hstar. apply IH; [lia|done..].
    + cbn [py_contains]. rewrite IH by (lia || done). rewrite orb_false_r.
      apply not_true_is_false. intros Hs%Is_true_true.
      assert (starts_with old (String c s)) as Hs'.
      { apply (starts_with_replaced _ old); [done|]. cbn [replace_from]. by rewrite Hold. }
      by rewrite Hold in Hs'.
Qed.

(** A secret without stars does not survive its replacement. *)
Lemma py_replace_absent old s :
  old ≠ "" → str_all plain_char old → py_contains old (py_replace old "***" s) = false.
Proof. intros. by apply (replaced_absent _ (String.length s)). Qed.

(** ** Git *)

(** What a preparation asks of the providers: a checkout is looked up without touching
    the machine or the database. *)
Class QuietCheckout `{CheckoutRegistry} : Prop := {
  checkout_quiet provider repository clone_url s :
    shell (exec (provider_checkout provider repository clone_url) s) = shell s;
  checkout_reads provider repository clone_url s :
    let s' := exec (provider_checkout provider repository clone_url) s in
    work s' = work s ∧ committed s' = committed s
}.

(** The journal goes on from what it was. *)
Definition extends (l : list shell_action) (s : Session) : Prop := l `prefix_of` shell s.
Definition at_journal (l : list shell_action) (s : Session) : Prop := shell s = l.

Definition is_process (a : shell_action) : bool :=
  match a with RunProcess _ _ _ => true | _ => false end.

Section git.
Context `{Runtime} `{Host}.
Implicit Types (s : Session) (l : list shell_action) (env : gmap string string).

Lemma keeps_add_action l a : keeps (extends l) (puts (λ s, s .[ shell := shell s ++ [a] ])).
Proof. apply keeps_puts. intros s Hs. unfold extends. simpl. by apply prefix_app_r. Qed.
Hint Resolve keeps_add_action : keeps.

Lemma keeps_run_git l command env : keeps (extends l) (_run_git command env).
Proof.
  unfold _run_git. keeps_auto.
Qed.
Hint Resolve keeps_run_git : keeps.

Lemma keeps_file_action l a : keeps (extends l) (file_action a).
Proof. unfold file_action. keeps_auto. Qed.
Lemma keeps_exists l p : keeps (extends l) (exists_ p).
Proof. unfold exists_. keeps_auto. Qed.
Hint Resolve keeps_file_action keeps_exists : keeps.

Lemma keeps_ensure_commit l path sha env b : keeps (extends l) (_ensure_commit path sha env b).
Proof. unfold _ensure_commit, except_git. keeps_auto. Qed.
Lemma keeps_ensure_cache l path url env : keeps (extends l) (_ensure_cache path url env).
Proof. unfold _ensure_cache. keeps_auto. Qed.
Hint Resolve keeps_ensure_commit keeps_ensure_cache : keeps.

Lemma extends_after {A} (m : SM A) s :
  (∀ l, keeps (extends l) m) → ∃ acts, shell (exec m s) = shell s ++ acts.
Proof.
  intros Hm. change (extends (shell s) (exec m s)). apply keeps_exec; [apply Hm|].
  unfold extends. done.
Qed.

Lemma run_git_Return command env s s' :
  _run_git command env s = (Return tt, s') →
  ∃ e, shell s' = shell s ++ [RunProcess command env (Exited 0 e)].
Proof.
  unfold _run_git. rewrite !bind_run. cbn [gets puts].
  destruct (process_outcome (shell s) command env) as [|m|c e] eqn:Hp; try done.
  destruct (Z.eqb_spec c 0) as [->|]; [|done]. intros [= <-]. by exists e.
Qed.

Lemma except_git_Return {A} (m : SM A) h s a s' :
  except_git m h s = (Return a, s') →
  m s = (Return a, s') ∨
  ∃ code message, m s = (Raise (GitCommandError code message), exec m s) ∧
    h code message (exec m s) = (Return a, s').
Proof.
  unfold except_git, try_except, exec. destruct (m s) as [[x|e] s1]; [by left|].
  simpl. destruct e; try done. intros Hh. right. eauto.
Qed.

Lemma ensure_commit_Return path sha env b s s' :
  _ensure_commit path sha env b s = (Return tt, s') →
  ∃ acts e, shell s' = shell s ++ acts ++ [RunProcess (commit_exists path sha) env (Exited 0 e)].
Proof.
  unfold _ensure_commit.
  intros [(e & He)%run_git_Return|(c & m & _ & Hh)]%except_git_Return; [by exists [], e|].
  apply except_git_Return in Hh as [Hr|(c' & m' & _ & Hr)]; [|done].
  apply bind_Return in Hr as ([] & s2 & Hf & (e & He)%run_git_Return).
  apply run_git_Return in Hf as (e' & Hf).
  destruct (extends_after (_run_git (commit_exists path sha) env) s) as (acts & Ha);
    [intros; apply keeps_run_git|].
  eexists (acts ++ [_]), e. rewrite He, Hf, Ha, <- !app_assoc. done.
Qed.

Lemma ensure_cache_Return path url env s s' :
  _ensure_cache path url env s = (Return tt, s') → ∃ acts, shell s' = shell s ++ acts.
Proof.
  intros Hr. change s' with (Return (A := ()) tt, s').2. rewrite <- Hr.
  apply extends_after. intros. apply keeps_ensure_cache.
Qed.

Lemma extends_Return {A} (m : SM A) s a s' :
  (∀ l, keeps (extends l) m) → m s = (Return a, s') → ∃ acts, shell s' = shell s ++ acts.
Proof. intros Hm Hr. destruct (extends_after m s Hm) as [acts Ha]. exists acts.
  unfold exec in Ha. by rewrite Hr in Ha. Qed.

(** The end of the journal of a preparation that succeeds. *)
Definition checked_out (path : Path.t) (base head : string) (l l' : list shell_action) : Prop :=
  ∃ env before between after e1 e2 e3,
    l' = l ++ before ++ [RunProcess (commit_exists path base) env (Exited 0 e1)]
           ++ between ++ [RunProcess (commit_exists path head) env (Exited 0 e2);
                          RunProcess (in_repository path ["checkout"; "--detach"; head]) env
                            (Exited 0 e3)] ++ after ∧
    Forall (λ a, is_process a = false) after.

Lemma prepare_git_Return paths request token user s s' :
  _prepare_git_workspace paths request token user s = (Return tt, s') →
  checked_out (WorkspacePaths.repo_path paths) (WorkspacePrepareRequest.base_sha request)
    (WorkspacePrepareRequest.head_sha request) (shell s) (shell s').
Proof.
  unfold _prepare_git_workspace. cbv zeta.
  intros ([] & s1 & H1 & Hr)%bind_Return.
  apply (extends_Return _ _ _ _ (λ l, keeps_file_action l _)) in H1 as [a1 H1].
  apply bind_Return in Hr as ([] & s2 & H2 & Hr).
  apply extends_Return in H2 as [a2 H2]; [|intros; unfold rmtree; keeps_auto].
  apply bind_Return in Hr as (env & s3 & H3 & Hr). injection H3 as _ <-.
  apply bind_Return in Hr as (url & s4 & H4 & Hr).
  apply extends_Return in H4 as [a4 H4]; [|intros; keeps_auto].
  apply bind_Return in Hr as (src & s5 & H5 & Hr).
  apply extends_Return in H5 as [a5 H5]; [|intros; keeps_auto].
  apply bind_Return in Hr as (c & s6 & H6 & Hr). injection H6 as _ <-.
  apply bind_Return in Hr as ([] & s7 & H7 & Hr).
  apply extends_Return in H7 as [a7 H7]; [|intros; keeps_auto].
  apply bind_Return in Hr as ([] & s8 & (a8 & e1 & H8)%ensure_commit_Return & Hr).
  apply bind_Return in Hr as ([] & s9 & (a9 & e2 & H9)%ensure_commit_Return & Hr).
  apply bind_Return in Hr as ([] & s10 & (e3 & H10)%run_git_Return & Hr).
  apply bind_Return in Hr as (c' & s11 & H11 & Hr). injection H11 as _ <-.
  assert (∃ after, shell s' = shell s10 ++ after ∧ Forall (λ a, is_process a = false) after)
    as (after & Hafter & Hq).
  { destruct c'; [|injection Hr as <-; exists []; by rewrite app_nil_r].
    revert Hr. cbn [when]. unfold file_action. rewrite bind_run. cbn [gets].
    destruct (os_error _ _); [done|]. intros [= <-]. eexists; split; [done|].
    by apply Forall_singleton. }
  exists env, (a1 ++ a2 ++ a4 ++ a5 ++ a7 ++ a8), a9, after, e1, e2, e3. split; [|done].
  rewrite Hafter, H10, H9, H8, H7, H5, H4, H2, H1. by rewrite <- !app_assoc.
Qed.
End git.

(** ** Preparing *)

(** What only touches the database leaves the journal as it was. *)
Lemma journal_utc_now `{Runtime} l : keeps (at_journal l) utc_now.
Proof. by intros s Hs. Qed.
Lemma journal_uuid4 `{Runtime} l : keeps (at_journal l) uuid4.
Proof. by intros s Hs. Qed.
Lemma journal_commit l : keeps (at_journal l) commit.
Proof. by intros s Hs. Qed.
Lemma journal_modify `{Table R} l k (f : R → R) : keeps (at_journal l) (modify k f).
Proof. by intros s Hs. Qed.
Lemma journal_select `{Table R} l (P : R → bool) : keeps (at_journal l) (select P).
Proof. by intros s Hs. Qed.
Lemma journal_fetch `{Table R} l k : keeps (at_journal l) (fetch (R := R) k).
Proof. by intros s Hs. Qed.
#[export] Hint Resolve journal_utc_now journal_uuid4 journal_commit journal_modify journal_select
  journal_fetch : keeps.
Lemma journal_load `{Table R} l k : keeps (at_journal l) (load (R := R) k).
Proof. unfold load. keeps_auto. Qed.
Lemma journal_one {R} l (rs : list R) : keeps (at_journal l) (scalar_one_or_none rs).
Proof. unfold scalar_one_or_none. keeps_auto. Qed.
Lemma journal_insert `{Table R} l (r : R) : keeps (at_journal l) (insert r).
Proof. unfold insert. keeps_auto. by intros s Hs. Qed.
#[export] Hint Resolve journal_load journal_one journal_insert : keeps.

Section preparing.
Context `{Runtime} `{Host} `{CheckoutRegistry} `{!QuietCheckout}.
Implicit Types (s : Session) (l : list shell_action) (request : WorkspacePrepareRequest.t).

Lemma journal_Return {A} (m : SM A) s a s' :
  (∀ l, keeps (at_journal l) m) → m s = (Return a, s') → shell s' = shell s.
Proof.
  intros Hm Hr. specialize (Hm (shell s) s eq_refl). by rewrite Hr in Hm.
Qed.

Lemma journal_enter identity url paths request existing l :
  keeps (at_journal l) (enter_preparing identity url paths request existing).
Proof. unfold enter_preparing, new_workspace. keeps_auto. Qed.

Lemma checkout_or_failure_quiet request registered s a s' :
  checkout_or_failure request registered s = (Return a, s') → shell s' = shell s.
Proof.
  assert (Hq : shell (exec (_resolve_workspace_checkout request registered) s) = shell s).
  { unfold _resolve_workspace_checkout. destruct registered; cbn [negb].
    - destruct (offers_checkout _); [apply checkout_quiet|done].
    - by destruct (WorkspacePrepareRequest.clone_url request). }
  unfold checkout_or_failure, try_except. rewrite bind_run. unfold exec in Hq.
  destruct (_resolve_workspace_checkout _ _ _) as [[c|e] s1]; simpl in *.
  - by intros [= _ <-].
  - by destruct e; intros [= _ <-].
Qed.

(** The row an object has after assignments to it. *)
Lemma load_modified `{TableLaws R} k (f : R → R) s s1 r s' :
  (∀ r, row_key (f r) = row_key r) →
  modify k f s = (Return tt, s1) → load k (s1 .[ committed := work s1 ]) = (Return r, s') →
  ∃ r0, r = f r0.
Proof.
  intros Hf [= <-]. unfold load. rewrite bind_run, fetch_run.
  change (work (?s .[ committed := _ ])) with (work s). rewrite rows_on_rows.
  rewrite find_update, decide_True by done.
  destruct (find_row k (rows (work s))) as [r0|]; [|done].
  intros [= <- _]. by exists r0.
Qed.

Lemma run_preparation_ready id paths request checkout s r s' :
  run_preparation id paths request checkout s = (Return r, s') →
  WorkspacePrepareResponse.status r = "ready" →
  checked_out (WorkspacePaths.repo_path paths) (WorkspacePrepareRequest.base_sha request)
    (WorkspacePrepareRequest.head_sha request) (shell s) (shell s').
Proof.
  unfold run_preparation. intros (o & s1 & Ho & Hr)%bind_Return Hready.
  destruct o as [[code message]|].
  - apply bind_Return in Hr as (now & s2 & _ & Hr).
    apply bind_Return in Hr as ([] & s3 & Hm & Hr).
    apply bind_Return in Hr as ([] & s4 & Hc & Hr). injection Hc as <-.
    apply bind_Return in Hr as (w & s5 & Hl & Hr). injection Hr as <- <-.
    destruct (load_modified (R := Workspace.t) id
      (mark_workspace_failed code message (now + 6 * hour)) s2 s3 w s5 ltac:(done) Hm Hl) as [w0 ->].
    done.
  - apply except_git_Return in Ho as [Ho|(c & m & _ & Ho)]; [|done].
    apply bind_Return in Ho as ([] & s1' & Hg & [= ->]).
    apply prepare_git_Return in Hg.
    assert (shell s' = shell s1) as ->; [|done].
    eapply journal_Return, Hr. intros. keeps_auto.
Qed.

End preparing.

(** ** The credential *)

(** The arguments of the git processes of a preparation: they do not depend on the credential. *)
Definition command_words (paths : WorkspacePaths.t) (request : WorkspacePrepareRequest.t)
    : list string :=
  let base := WorkspacePrepareRequest.base_sha request in
  let head := WorkspacePrepareRequest.head_sha request in
  ["git"; "-C"; "clone"; "--mirror"; "remote"; "update"; "--prune"; "fetch"; "--all"; "origin";
   "cat-file"; "-e"; "checkout"; "--detach"; base; head; base +:+ "^{commit}";
   head +:+ "^{commit}"; path_str (WorkspacePaths.repo_path paths);
   path_str (WorkspacePaths.cache_path paths);
   default "" (WorkspacePrepareRequest.clone_url request)].

Definition spoken (words : list string) (a : shell_action) : Prop :=
  match a with RunProcess command _ _ => Forall (λ w, w ∈ words) command | _ => True end.

Definition speaks (words : list string) (l : list shell_action) (s : Session) : Prop :=
  ∃ acts, shell s = l ++ acts ∧ Forall (spoken words) acts.

Section credential.
Context `{Runtime} `{Host} (token : string).
Hypothesis token_given : token ≠ "".
Hypothesis token_plain : str_all plain_char token.
Hypothesis token_unlike_messages :
  py_contains token "git command timed out" = false ∧
  py_contains token "git command failed" = false.

Definition hidden (e : exn) : Prop :=
  match e with GitCommandError _ message => py_contains token message = false | _ => True end.

(** A computation whose git errors do not show the token. *)
Definition discreet {A} (m : SM A) : Prop :=
  triple (λ _, True) m (λ _ _, True) (λ e _, hidden e).

Lemma discreet_bind {A B} (m : SM A) (k : A → SM B) :
  discreet m → (∀ a, discreet (k a)) → discreet (m ≫= k).
Proof. intros Hm Hk. eapply triple_bind; [exact Hm|]. intros a s _. by apply Hk. Qed.

Lemma discreet_run_git command env :
  env !! MASK_VARIABLE = Some token → discreet (_run_git command env).
Proof.
  intros He. destruct token_unlike_messages. unfold _run_git.
  apply discreet_bind; [by intros s|]. intros o.
  apply discreet_bind; [by intros s|]. intros _.
  destruct o as [|m|c e]; [by intros s|by intros s|].
  destruct (c =? 0); [by intros s|]. intros s _. cbn [raise hidden].
  unfold _mask_secret. rewrite He. cbn [or_none].
  destruct token as [|t ts]; [done|].
  destruct (py_replace _ _ _) as [|x xs] eqn:Hr; [done|].
  cbn [or_else]. rewrite <- Hr. by apply py_replace_absent.
Qed.

Lemma discreet_except {A} (m : SM A) h :
  discreet m → (∀ c message, py_contains token message = false → discreet (h c message)) →
  discreet (except_git m h).
Proof.
  intros Hm Hh s Hs. specialize (Hm s Hs). unfold except_git, try_except.
  destruct (m s) as [[a|e] s1]; [done|]. destruct e; try done. by apply Hh.
Qed.

Lemma discreet_ensure_commit path sha env b :
  env !! MASK_VARIABLE = Some token → discreet (_ensure_commit path sha env b).
Proof.
  intros He. apply discreet_except; [by apply discreet_run_git|]. intros c first Hfirst.
  apply discreet_except.
  - apply discreet_bind; [by apply discreet_run_git|]. intros _. by apply discreet_run_git.
  - intros c' message Hm s _. unfold raise, hidden. by destruct message.
Qed.

Lemma git_env_masks request user env base clone_url :
  WorkspacePrepareRequest.clone_url request = Some clone_url →
  _authenticated_https_base clone_url = Return (Some base) →
  _git_env request (Some token) user = Return env → env !! MASK_VARIABLE = Some token.
Proof.
  unfold _git_env. intros -> Hb. destruct token as [|t ts]; [done|]. cbn [or_none].
  rewrite Hb. intros [= <-]. apply lookup_insert_eq.
Qed.

Lemma discreet_prepare paths request user base clone_url :
  WorkspacePrepareRequest.clone_url request = Some clone_url →
  _authenticated_https_base clone_url = Return (Some base) →
  discreet (_prepare_git_workspace paths request (Some token) user).
Proof.
  intros Hu Hb. unfold _prepare_git_workspace. cbv zeta.
  assert (Hfile : ∀ a, discreet (file_action a)).
  { intros a s _. unfold file_action. rewrite bind_run. cbn [gets]. by destruct (os_error _ a). }
  assert (Hgit : ∀ A (k : gmap string string → SM A),
    (∀ env, env !! MASK_VARIABLE = Some token → discreet (k env)) →
    discreet (lift (_git_env request (Some token) user) ≫= k)).
  { intros A k Hk s _. rewrite bind_run. cbn [lift].
    destruct (_git_env request (Some token) user) as [env|e] eqn:He.
    - apply Hk; [by eapply git_env_masks|done].
    - revert He. unfold _git_env. rewrite Hu. destruct token as [|t ts]; [done|].
      cbn [or_none]. by rewrite Hb. }
  apply discreet_bind; [done|]. intros _.
  apply discreet_bind; [by destruct (WorkspacePrepareRequest.force_refresh request); intros s|].
  intros _. apply Hgit. intros env He.
  apply discreet_bind; [by rewrite Hu; intros s|]. intros url.
  apply discreet_bind.
  { destruct (WorkspacePrepareRequest.use_git_cache request); [|by intros s].
    apply discreet_bind; [|by intros _ s]. unfold _ensure_cache.
    apply discreet_bind; [done|]. intros _. apply discreet_bind; [by intros s|].
    intros c. destruct c; by apply discreet_run_git. }
  intros src. apply discreet_bind; [by intros s|]. intros c.
  apply discreet_bind; [destruct c; by apply discreet_run_git|]. intros _.
  apply discreet_bind; [by apply discreet_ensure_commit|]. intros _.
  apply discreet_bind; [by apply discreet_ensure_commit|]. intros _.
  apply discreet_bind; [by apply discreet_run_git|]. intros _.
  apply discreet_bind; [by intros s|]. intros c'. destruct c'; [apply Hfile|by intros s].
Qed.

(** *** The words of the command lines *)

Section words.
Context (words : list string) (l : list shell_action).

Lemma speaks_action a s : spoken words a → speaks words l s →
  speaks words l (s .[ shell := shell s ++ [a] ]).
Proof.
  intros Ha (acts & Hs & Hall). exists (acts ++ [a]). simpl. rewrite Hs, <- app_assoc.
  split; [done|]. apply Forall_app. by rewrite Forall_singleton.
Qed.

Lemma speaks_file a : spoken words a → keeps (speaks words l) (file_action a).
Proof.
  intros Ha. unfold file_action. apply keeps_bind; [apply keeps_gets|]. intros [m|];
    [apply keeps_raise|]. apply keeps_puts. intros s. by apply speaks_action.
Qed.

Lemma speaks_run_git command env :
  Forall (λ w, w ∈ words) command → keeps (speaks words l) (_run_git command env).
Proof.
  intros Hc. unfold _run_git. apply keeps_bind; [apply keeps_gets|]. intros o.
  apply keeps_bind; [apply keeps_puts; intros s; by apply speaks_action|]. intros _.
  destruct o; [apply keeps_raise..|]. destruct (_ =? 0); [apply keeps_ret|apply keeps_raise].
Qed.

Lemma speaks_except {A} (m : SM A) h :
  keeps (speaks words l) m → (∀ c message, keeps (speaks words l) (h c message)) →
  keeps (speaks words l) (except_git m h).
Proof. intros. apply keeps_try; [done|]. intros []; try apply keeps_raise. done. Qed.
End words.

Ltac find_word :=
  lazymatch goal with
  | |- ?w ∈ ?w :: _ => apply list_elem_of_here
  | |- _ ∈ _ :: _ => apply list_elem_of_further; find_word
  end.
Ltac in_words :=
  unfold commit_exists, in_repository; cbn [app];
  repeat (apply Forall_cons; split; [first [assumption | unfold command_words; find_word]|]);
  apply Forall_nil; exact I.

Lemma speaks_commit paths request sha env b l :
  sha ∈ [WorkspacePrepareRequest.base_sha request; WorkspacePrepareRequest.head_sha request] →
  keeps (speaks (command_words paths request) l)
    (_ensure_commit (WorkspacePaths.repo_path paths) sha env b).
Proof.
  intros Hsha. unfold _ensure_commit.
  assert (Hask : keeps (speaks (command_words paths request) l)
    (_run_git (commit_exists (WorkspacePaths.repo_path paths) sha) env)).
  { apply speaks_run_git. apply elem_of_cons in Hsha as [Hsha|Hsha%list_elem_of_singleton]; subst sha; in_words. }
  apply speaks_except; [done|]. intros _ m.
  apply speaks_except; [|intros; apply keeps_raise].
  apply keeps_bind; [|done]. apply speaks_run_git.
  apply elem_of_cons in Hsha as [Hsha|Hsha%list_elem_of_singleton]; subst sha; in_words.
Qed.

Lemma speaks_prepare paths request auth_token user l :
  keeps (speaks (command_words paths request) l)
    (_prepare_git_workspace paths request auth_token user).
Proof.
  unfold _prepare_git_workspace. cbv zeta.
  apply keeps_bind; [by apply speaks_file|]. intros _.
  apply keeps_bind; [apply keeps_when, keeps_puts; intros s; by apply speaks_action|]. intros _.
  apply keeps_bind; [apply keeps_lift|]. intros env.
  destruct (WorkspacePrepareRequest.clone_url request) as [url|] eqn:Hu;
    [|by intros s].
  assert (Hurl : url ∈ command_words paths request).
  { unfold command_words. rewrite Hu. cbn [from_option id]. find_word. }
  eapply (keeps_bind_value _ (λ u, u = url)); [by intros s|]. intros _ ->.
  eapply (keeps_bind_value _ (λ w, w ∈ command_words paths request)).
  { destruct (WorkspacePrepareRequest.use_git_cache request); [|by intros s].
    eapply triple_bind with (R := λ _, speaks (command_words paths request) l).
    - unfold _ensure_cache. apply keeps_bind; [by apply speaks_file|]. intros _.
      apply keeps_bind; [apply keeps_gets|]. intros c.
      destruct c; apply speaks_run_git; in_words.
    - intros _ s Hs. split; [done|]. unfold command_words. find_word. }
  intros src Hsrc. apply keeps_bind; [apply keeps_gets|]. intros c.
  apply keeps_bind; [destruct c; apply speaks_run_git; in_words|]. intros _.
  apply keeps_bind; [apply speaks_commit; find_word|]. intros _.
  apply keeps_bind; [apply speaks_commit; find_word|]. intros _.
  apply keeps_bind; [apply speaks_run_git; in_words|]. intros _.
  apply keeps_bind; [apply keeps_gets|]. intros c'.
  apply keeps_when. by apply speaks_file.
Qed.

End credential.

(** ** Cleaning *)

Section cleaning.
Context `{Runtime} `{Host}.

Definition place_of (w : Workspace.t) : string * string :=
  (Workspace.workspace_id w, Workspace.workspace_path w).

(** Nobody holds the workspace. *)
Definition unleased (leases : list WorkspaceLease.t) (workspace_id : string) : Prop :=
  ∀ l, l ∈ leases → active_lease_of workspace_id l = false.

(** The removal of the tree of an expired workspace that nobody holds. *)
Definition rightful (now : Z) (d : Db) (a : shell_action) : Prop :=
  ∃ w, w ∈ workspaces d ∧ a = RemoveTree (Workspace.workspace_path w) ∧ expired now w ∧
    unleased (workspace_leases d) (Workspace.workspace_id w).

(** A state reached while the workspaces of [d] are cleaned. *)
Definition cleaning (now : Z) (d : Db) (l : list shell_action) (s : Session) : Prop :=
  workspace_leases (work s) = workspace_leases d ∧
  place_of <$> workspaces (work s) = place_of <$> workspaces d ∧
  ∃ acts, shell s = l ++ acts ∧ Forall (rightful now d) acts.

Lemma cleaning_modify now d l id f :
  (∀ w, place_of (f w) = place_of w) →
  keeps (cleaning now d l) (modify (R := Workspace.t) id f).
Proof.
  intros Hf. apply keeps_puts. intros s (Hl & Hp & Ha). split; [done|]. split; [|done].
  rewrite <- Hp. change (workspaces (work ?x)) with (rows (R := Workspace.t) (work x)).
  rewrite rows_on_rows. unfold update_rows. rewrite <- list_fmap_compose.
  apply list_fmap_ext. intros i w _. simpl. by destruct (bool_decide _).
Qed.

Lemma cleaning_utc_now now d l : keeps (cleaning now d l) utc_now.
Proof. by intros s Hs. Qed.
Lemma cleaning_commit now d l : keeps (cleaning now d l) commit.
Proof. by intros s Hs. Qed.

Lemma cleaning_get now d l id :
  triple (cleaning now d l) (get_workspace id)
    (λ o s, cleaning now d l s ∧
       ∀ w, o = Some w → Workspace.workspace_id w = id ∧
         ∀ w', w' ∈ workspaces d → Workspace.workspace_id w' = id →
           Workspace.workspace_path w' = Workspace.workspace_path w)
    (λ _, cleaning now d l).
Proof.
  intros s Hs. unfold get_workspace. rewrite bind_run. cbn [select gets].
  unfold scalar_one_or_none. destruct (filter _ _) as [|w [|w2 ws]] eqn:Hf; [done| |done].
  split; [done|]. intros _ [= <-]. destruct Hs as (_ & Hp & _).
  assert (Hin : w ∈ [w]) by left. rewrite <- Hf in Hin.
  apply list_elem_of_filter in Hin as [Hid%bool_decide_unpack Hw]. split; [done|].
  intros w' Hw' Hid'. assert (place_of w' ∈ place_of <$> workspaces (work s)) as Hin.
  { rewrite Hp. by apply list_elem_of_fmap_2. }
  apply list_elem_of_fmap in Hin as (x & Hx & Hin). injection Hx as Hx1 Hx2.
  assert (x ∈ [w]) as Hxw.
  { rewrite <- Hf. apply list_elem_of_filter. split; [|done].
    apply bool_decide_pack. congruence. }
  apply list_elem_of_singleton in Hxw. congruence.
Qed.

Lemma cleaning_locked now d l id :
  triple (cleaning now d l) (_has_active_lease id)
    (λ b s, cleaning now d l s ∧ (b = false → unleased (workspace_leases d) id))
    (λ _, cleaning now d l).
Proof.
  intros s Hs. unfold _has_active_lease. rewrite bind_run. cbn [select gets].
  rewrite bind_run. unfold scalar_one_or_none.
  destruct (filter _ _) as [|x [|y xs]] eqn:Hf; [|by split|done].
  split; [done|]. intros _ lease Hlease. destruct Hs as (Hl & _ & _).
  apply not_true_is_false. intros Ha%Is_true_true.
  assert (lease ∈ ([] : list WorkspaceLease.t)) as Hn; [|set_solver].
  rewrite <- Hf. apply list_elem_of_filter. split; [done|]. simpl. by rewrite Hl.
Qed.

Lemma cleaning_one now d l w :
  w ∈ workspaces d → expired now w →
  keeps (cleaning now d l) (cleanup_workspace (Workspace.workspace_id w) false).
Proof.
  intros Hw He. unfold cleanup_workspace.
  eapply keeps_bind_value; [apply cleaning_get|]. intros [x|] Hx; [|apply keeps_ret].
  destruct (Hx x eq_refl) as [Hid Hpath]. clear Hx. cbv zeta.
  eapply keeps_bind_value; [apply cleaning_locked|]. intros [] Hfree.
  - apply keeps_bind; [by apply cleaning_modify|]. intros _.
    apply keeps_bind; [apply cleaning_commit|]. intros _. apply keeps_ret.
  - apply keeps_bind; [by apply cleaning_modify|]. intros _.
    apply keeps_bind; [apply cleaning_commit|]. intros _. apply keeps_bind.
    { apply keeps_try; [|intros []; (apply keeps_ret || apply keeps_raise)].
      apply keeps_bind; [|intros; apply keeps_ret]. apply keeps_puts.
      intros s (Hl & Hp & acts & Hs & Hall). split; [done|]. split; [done|].
      exists (acts ++ [RemoveTree (Workspace.workspace_path x)]). simpl.
      rewrite Hs, <- app_assoc. split; [done|]. apply Forall_app. split; [done|].
      apply Forall_singleton. exists w. rewrite (Hpath w) by done. auto. }
    intros [message|].
    + apply keeps_bind; [by apply cleaning_modify|]. intros _.
      apply keeps_bind; [apply cleaning_commit|]. intros _. apply keeps_ret.
    + apply keeps_bind; [apply cleaning_utc_now|]. intros ended.
      apply keeps_bind; [by apply cleaning_modify|]. intros _.
      apply keeps_bind; [apply cleaning_commit|]. intros _. apply keeps_ret.
Qed.

Lemma cleaning_many now d l ws summary :
  (∀ w, w ∈ ws → w ∈ workspaces d ∧ expired now w) →
  keeps (cleaning now d l) (_cleanup_many ws false summary).
Proof.
  revert summary. induction ws as [|w ws IH]; intros summary Hws; [apply keeps_ret|].
  cbn [_cleanup_many]. apply keeps_bind.
  - destruct (Hws w ltac:(left)). by apply cleaning_one.
  - intros result. apply IH. intros w' Hw'. apply Hws. by right.
Qed.

(** C25: the periodic cleaning removes nothing but the trees of workspaces that had expired and
    that nobody held under a lease when it started. *)
Theorem cleanup_spares_leased_workspaces now s :
  ∃ acts, shell (exec (cleanup_expired_workspaces (Some now)) s) = shell s ++ acts ∧
    Forall (rightful now (work s)) acts.
Proof.
  change (exec (cleanup_expired_workspaces (Some now)) s) with
    (exec (_cleanup_many (filter (expired now) (workspaces (work s))) false
       (CleanupSummary.mk 0 0 0)) s).
  assert (cleaning now (work s) (shell s) (exec (_cleanup_many
    (filter (expired now) (workspaces (work s))) false (CleanupSummary.mk 0 0 0)) s))
    as (_ & _ & Ha); [|done].
  apply keeps_exec.
  - apply cleaning_many. intros w [? ?]%list_elem_of_filter. done.
  - split; [done|]. split; [done|]. exists []. by rewrite app_nil_r.
Qed.
End cleaning.

(** ** Well-formed rows *)

Definition WORKSPACE_STATUSES : list string :=
  ["preparing"; "ready"; "leased"; "idle"; "cleaning"; "deleted"; "failed"].

Section well_formed.
Context `{Runtime} `{Host} `{CheckoutRegistry} `{!QuietCheckout}.

(** The row of a workspace: its status is one of [WorkspaceStatus], its identifier is that of
    the head it was prepared for, a ready workspace tells since when and a failed one why. *)
Definition well_formed (w : Workspace.t) : Prop :=
  Workspace.status w ∈ WORKSPACE_STATUSES ∧
  Workspace.workspace_id w = workspace_identity (Workspace.provider w) (Workspace.repository w)
    (Workspace.pull_request_number w) (Workspace.head_sha w) ∧
  Workspace.repo_hash w = repo_hash (Workspace.repository w) ∧
  (Workspace.status w = "ready" → is_Some (Workspace.ready_at w)) ∧
  (Workspace.status w = "failed" →
     is_Some (Workspace.failure_code w) ∧ is_Some (Workspace.failure_message w)).

Definition all_well (s : Session) : Prop :=
  Forall well_formed (workspaces (work s)) ∧ Forall well_formed (workspaces (committed s)).

(** What the service does with workspaces. *)
Inductive workspace_op :=
  | Prepare (settings : WorkspaceSettings.t) (request : WorkspacePrepareRequest.t) (registered : bool)
  | Lease (workspace_id : string) (review_run_id session_id : option string)
  | Release (lease_id : string)
  | Cleanup (workspace_id : string) (force : bool)
  | CleanupPullRequest (provider repository : string) (number : Z) (force : bool)
  | CleanupExpired (now : option Z).

Definition run_op (op : workspace_op) : SM () :=
  match op with
  | Prepare settings request registered =>
      _ ← prepare_workspace settings request registered; mret tt
  | Lease id review_run_id session_id => _ ← lease_workspace id review_run_id session_id; mret tt
  | Release id => _ ← release_workspace id; mret tt
  | Cleanup id force => _ ← cleanup_workspace id force; mret tt
  | CleanupPullRequest provider repository n force =>
      _ ← cleanup_pull_request_workspaces provider repository n force; mret tt
  | CleanupExpired now => _ ← cleanup_expired_workspaces now; mret tt
  end.

Lemma well_modify id f :
  (∀ w, well_formed w → well_formed (f w)) → keeps all_well (modify (R := Workspace.t) id f).
Proof.
  intros Hf. apply keeps_puts. intros s [Hw Hc]. split; [|done].
  change (workspaces (work ?x)) with (rows (R := Workspace.t) (work x)).
  rewrite rows_on_rows. apply Forall_fmap. eapply Forall_impl; [exact Hw|].
  intros w Hwf. simpl. destruct (bool_decide _); auto.
Qed.

Lemma well_insert w : well_formed w → keeps all_well (insert w).
Proof.
  intros Hw s [Hs Hc]. unfold insert. rewrite bind_run. cbn [gets].
  destruct (violation w _); [done|]. split; [|done].
  change (Forall well_formed (workspaces (work s) ++ [w])). apply Forall_app.
  by rewrite Forall_singleton.
Qed.

Lemma well_insert_lease (l : WorkspaceLease.t) : keeps all_well (insert l).
Proof. unfold insert. keeps_auto. apply keeps_puts. by intros s. Qed.
Lemma well_modify_lease id f : keeps all_well (modify (R := WorkspaceLease.t) id f).
Proof. by intros s. Qed.
Lemma well_utc_now : keeps all_well utc_now.
Proof. by intros s. Qed.
Lemma well_uuid4 : keeps all_well uuid4.
Proof. by intros s. Qed.
Lemma well_commit : keeps all_well commit.
Proof. by intros s [? ?]. Qed.
Lemma well_select `{Table R} (P : R → bool) : keeps all_well (select P).
Proof. by intros s. Qed.
Lemma well_load `{Table R} k : keeps all_well (load (R := R) k).
Proof. unfold load. keeps_auto. Qed.
Lemma well_fetch `{Table R} k : keeps all_well (fetch (R := R) k).
Proof. by intros s. Qed.
Lemma well_one {R} (rs : list R) : keeps all_well (scalar_one_or_none rs).
Proof. unfold scalar_one_or_none. keeps_auto. Qed.
Hint Resolve well_insert_lease well_modify_lease well_utc_now well_uuid4 well_commit well_select
  well_load well_fetch well_one : keeps.

Lemma well_action (f : Session → list shell_action) :
  keeps all_well (puts (λ s, s .[ shell := f s ])).
Proof. by apply keeps_puts. Qed.
Hint Resolve well_action : keeps.
Lemma well_run_git command env : keeps all_well (_run_git command env).
Proof. unfold _run_git. keeps_auto. Qed.
Lemma well_file_action a : keeps all_well (file_action a).
Proof. unfold file_action. keeps_auto. Qed.
Hint Resolve well_run_git well_file_action : keeps.
Lemma well_ensure_commit path sha env b : keeps all_well (_ensure_commit path sha env b).
Proof. unfold _ensure_commit, except_git. keeps_auto. Qed.
Lemma well_ensure_cache path url env : keeps all_well (_ensure_cache path url env).
Proof. unfold _ensure_cache, exists_. keeps_auto. Qed.
Hint Resolve well_ensure_commit well_ensure_cache : keeps.
Lemma well_prepare_git paths request token user :
  keeps all_well (_prepare_git_workspace paths request token user).
Proof. unfold _prepare_git_workspace, rmtree, exists_. keeps_auto. Qed.

Lemma well_checkout provider repository url :
  keeps all_well (provider_checkout provider repository url).
Proof.
  intros s Hs. destruct (checkout_reads provider repository url s) as [Hw Hc].
  unfold exec in *. unfold all_well in *.
  destruct (provider_checkout _ _ _ _) as [[a|e] s']; simpl in *; by rewrite Hw, Hc.
Qed.
Hint Resolve well_prepare_git well_checkout : keeps.

Ltac status_known := unfold WORKSPACE_STATUSES; set_solver.
Ltac well_modified :=
  apply well_modify; intros ? (? & ? & ? & ? & ?); unfold well_formed; simpl;
  split; [first [assumption | status_known]|]; repeat (split; [done|]); naive_solver.
#[local] Hint Extern 1 (keeps all_well (modify _ _)) => solve [well_modified] : keeps.

Lemma well_run_preparation id paths request checkout :
  keeps all_well (run_preparation id paths request checkout).
Proof. unfold run_preparation, except_git. keeps_auto. Qed.

Lemma well_enter url settings request existing :
  keeps all_well (enter_preparing (workspace_identity (WorkspacePrepareRequest.provider request)
      (WorkspacePrepareRequest.full_name request) (WorkspacePrepareRequest.number request)
      (WorkspacePrepareRequest.head_sha request)) url
    (_workspace_paths settings (WorkspacePrepareRequest.full_name request) request) request existing).
Proof.
  unfold enter_preparing. apply keeps_bind; [|intros; keeps_auto].
  destruct existing as [w|]; [keeps_auto|].
  eapply (keeps_bind_value _ well_formed).
  - intros s Hs. unfold new_workspace. split; [done|]. split; [status_known|].
    by repeat split.
  - intros w Hw. apply keeps_bind; [by apply well_insert|]. intros; apply keeps_ret.
Qed.

Lemma well_prepare settings request registered :
  keeps all_well (prepare_workspace settings request registered).
Proof.
  assert (Hr : keeps all_well (checkout_or_failure request registered)).
  { unfold checkout_or_failure, _resolve_workspace_checkout. keeps_auto. }
  unfold prepare_workspace, get_workspace. cbv zeta.
  apply keeps_bind; [keeps_auto|]. intros existing.
  set (reusable := match existing with Some w => _ | None => false end).
  assert (keeps all_well (resolved ← checkout_or_failure request registered;
      match resolved with
      | inr response => mret response
      | inl checkout =>
          let clone_url := ProviderWorkspaceCheckout.clone_url checkout in
          let request := request .[ WorkspacePrepareRequest.clone_url := Some clone_url ] in
          let paths := _workspace_paths settings (WorkspacePrepareRequest.full_name request) request in
          id ← enter_preparing (workspace_identity (WorkspacePrepareRequest.provider request)
                    (WorkspacePrepareRequest.full_name request)
                    (WorkspacePrepareRequest.number request)
                    (WorkspacePrepareRequest.head_sha request)) clone_url paths request existing;
          run_preparation id paths request checkout
      end)) as Hfresh.
  { apply keeps_bind; [done|]. intros [checkout|response]; [|apply keeps_ret]. cbv zeta.
    apply keeps_bind; [|intros; apply well_run_preparation].
    exact (well_enter _ settings (request .[ WorkspacePrepareRequest.clone_url :=
      Some (ProviderWorkspaceCheckout.clone_url checkout) ]) existing). }
  destruct existing as [w|], reusable; try exact Hfresh. keeps_auto.
Qed.

Lemma well_cleanup id force : keeps all_well (cleanup_workspace id force).
Proof. unfold cleanup_workspace, get_workspace, _has_active_lease, rmtree. keeps_auto. Qed.
Hint Resolve well_prepare well_cleanup : keeps.

Lemma well_many ws force summary : keeps all_well (_cleanup_many ws force summary).
Proof.
  revert summary. induction ws as [|w ws IH]; intros summary; [apply keeps_ret|].
  cbn [_cleanup_many]. apply keeps_bind; [apply well_cleanup|]. intros; apply IH.
Qed.
Hint Resolve well_many : keeps.

Lemma well_lease id run session : keeps all_well (lease_workspace id run session).
Proof. unfold lease_workspace, get_workspace. keeps_auto. Qed.
Lemma well_release id : keeps all_well (release_workspace id).
Proof. unfold release_workspace, get_workspace, _has_other_active_lease. keeps_auto. Qed.
Hint Resolve well_lease well_release : keeps.

(** C26: whatever sequence of operations is applied to the workspaces, every row the database
    holds, and every row a transaction has committed, stays well formed: a status of
    [WorkspaceStatus], the identifier of its head, the time it became ready when it is ready,
    and the cause when it has failed. *)
Theorem workspace_rows_stay_well_formed ops s :
  all_well s → all_well (foldl (λ s op, exec (run_op op) s) s ops).
Proof.
  revert s. induction ops as [|op ops IH]; intros s Hs; [done|]. apply IH, keeps_exec; [|done].
  destruct op; cbn [run_op]; unfold cleanup_pull_request_workspaces, cleanup_expired_workspaces,
    or_now; keeps_auto.
Qed.
End well_formed.
