(* ===== verification/WorkerCommon.v ===== *)
(** * What the workers share

    The settings, capabilities and small helpers of
    [src/src/review_orchestrator/application/worker.py].  Durations that may be fractions
    of a second are in microseconds. *)
From S2P Require Import Prelude PyText Json World Models Scheduler Delivery ReviewRuns PiAgent AgentSessions Workspaces.
#[global] Open Scope Z_scope.
#[global] Open Scope orch_scope.

Definition WORKER_ACTIVE_STATUSES : list string := ["queued"; "running"].

(** The fields of [Settings] of [infrastructure/config.py] the workers read. *)
Module WorkerSettings.
Record t := mk {
  worker_lock_seconds : Z;
  worker_poll_interval : Z;
  task_resource_capacities : option string;
  task_priority_aging_seconds : Z;
  task_scheduler_scan_limit : Z;
  retry_max_attempts : Z;
  retry_initial_delay_seconds : Z;
  agent_task_timeout_seconds : Z;
  agent_task_soft_timeout_seconds : Z;
  agent_task_max_history_turns : Z;
  agent_task_max_history_chars : Z;
  review_run_timeout_seconds : Z;
  review_run_soft_timeout_seconds : Z;
  agents : AgentSettings.t;
  roots : WorkspaceSettings.t
}.
End WorkerSettings.

Definition policy_from_settings (settings : WorkerSettings.t) : outcome SchedulerPolicy.t :=
  capacities ← parse_resource_capacities (WorkerSettings.task_resource_capacities settings);
  mret (SchedulerPolicy.mk capacities (WorkerSettings.task_priority_aging_seconds settings)
          (Z.to_nat (WorkerSettings.task_scheduler_scan_limit settings))).

(** What the workers ask of the providers besides publishing. *)
Class WorkerProviders := {
  offers_context : string → bool;
  provider_context : string → AgentTask.t → SM (option PullRequestContext.t);
  offers_changed_files : string → bool;
  provider_changed_files : string → ReviewRun.t → SM (list ChangedFile.t)
}.

(** [except ProviderError]: also its subclasses. *)
Definition except_provider {A} (m : SM A) (h : string → SM A) : SM A :=
  try_except m (λ e, match e with
                     | ProviderError message | ProviderCapabilityError message => h message
                     | _ => raise e
                     end).

(** An object the program holds as an [AgentTask]. *)
Definition load_command (task_id : string) : SM (Task.t * AgentTask.t) :=
  task ← load (R := Task.t) task_id;
  match agent_of task with
  | Some agent => mret (task, agent)
  | None => raise (TypeError "not an AgentTask")
  end.

(** The constructor of [WorkspacePrepareRequest], which validates its fields. *)
Definition _workspace_request_from_context (context : PullRequestContext.t)
    : outcome WorkspacePrepareRequest.t :=
  match PullRequestContext.base_sha context with
  | Some base_sha =>
      if length_within 1 64 (PullRequestContext.provider context)
         && length_within 1 512 (PullRequestContext.repo_full_name context)
         && (0 <? PullRequestContext.pull_request_number context)
         && length_within 7 80 base_sha
         && length_within 7 80 (PullRequestContext.head_sha context)
      then Return (WorkspacePrepareRequest.mk (PullRequestContext.provider context)
             (PullRequestContext.repo_full_name context) None
             (PullRequestContext.pull_request_number context) base_sha
             (PullRequestContext.head_sha context) (PullRequestContext.is_fork context)
             None true false)
      else Raise (ValueError "validation error for WorkspacePrepareRequest")
  | None => Raise (ValueError "validation error for WorkspacePrepareRequest")
  end.

(** [{**fields, key: value}]. *)
Definition with_field (fields : list (string * json)) (key : string) (value : json)
    : list (string * json) :=
  if bool_decide (key ∈ fields.*1)
  then (λ kv, if bool_decide (kv.1 = key) then (key, value) else kv) <$> fields
  else fields ++ [(key, value)].

Section common.
Context `{Runtime}.

(** [session.get(PullRequestContext, id)] when the object is bound to a context, a lookup by
    pull request otherwise: [_task_context] and [_review_run_context]. *)
Definition bound_context (bound : option string) (provider repo_full_name : string) (n : Z)
    : SM (option PullRequestContext.t) :=
  match or_none bound with
  | Some id => fetch (R := PullRequestContext.t) id
  | None => context_by_identity provider repo_full_name n
  end.

Definition _task_context (task_id : string) : SM (option PullRequestContext.t) :=
  t ← load_command task_id;
  bound_context (AgentTask.pull_request_context_id t.2) (AgentTask.provider t.2)
    (AgentTask.repo_full_name t.2) (AgentTask.pull_request_number t.2).

Definition _review_run_context (run_id : string) : SM (option PullRequestContext.t) :=
  tr ← load_run run_id;
  bound_context (ReviewRun.pull_request_context_id tr.2) (ReviewRun.provider tr.2)
    (ReviewRun.repo_full_name tr.2) (ReviewRun.pull_request_number tr.2).

Context `{WorkerProviders}.

Definition _hydrate_task_context (task_id : string) : SM (option PullRequestContext.t) :=
  t ← load_command task_id;
  let provider := AgentTask.provider t.2 in
  if negb (offers_context provider) then mret None
  else
    found ← provider_context provider t.2;
    match found with
    | None => mret None
    | Some context =>
        insert context ;;
        commit ;;
        modify task_id (set_agent (λ a,
          a .[ AgentTask.pull_request_context_id := Some (PullRequestContext.id context) ])) ;;
        commit ;;
        mret (Some context)
    end.

(** The context of a task, fetched from its provider when it is not known. *)
Definition task_context_or_hydrated (task_id : string) : SM (option PullRequestContext.t) :=
  context ← _task_context task_id;
  match context with
  | Some context => mret (Some context)
  | None => _hydrate_task_context task_id
  end.
End common.
