(* ===== verification/WorkerPlatforms.v ===== *)
(** * The worker on the two platforms

    The lookups of the worker, [CheckoutRegistry] and [WorkerProviders], as the registry of the
    application offers them, and the interface [PlatformsKeep] between the platforms and an
    invariant: whatever GitHub and GitLab answer, their adapters write only tables a
    [TableInvariant] does not depend on. *)
From Stdlib Require Import Ascii.
From S2P Require Import Prelude PyText Json World Models Invariants Delivery DeliveryInvariant ReviewRuns Webhooks PlatformClient GitHubClient GitLabClient ProviderCore Comments GitHub GitLab Registry Platforms Workspaces WorkerCommon.
#[global] Open Scope Z_scope.
#[global] Open Scope orch_scope.

Section lookups.
Context `{Runtime} `{PlatformHttp} `{GitHubSettings} `{GitLabSettings}.
Context (registry : Registry.t).

Definition offers (method provider : string) : bool :=
  bool_decide (is_Some (capability registry provider method)).

#[global] Instance code_checkouts : CheckoutRegistry := {|
  offers_checkout := offers "get_workspace_checkout";
  provider_checkout provider repo_full_name url :=
    if bool_decide (provider = "github") then GitHub.get_workspace_checkout repo_full_name url
    else if bool_decide (provider = "gitlab") then GitLab.get_workspace_checkout repo_full_name url
    else unsupported provider
|}.

#[global] Instance code_lookups : WorkerProviders := {|
  offers_context := offers "get_pull_request_context";
  provider_context provider a :=
    context ← (if bool_decide (provider = "github") then GitHub.get_pull_request_context a
               else if bool_decide (provider = "gitlab") then GitLab.get_pull_request_context a
               else unsupported provider);
    mret (Some context);
  offers_changed_files := offers "list_changed_files";
  provider_changed_files provider r :=
    if bool_decide (provider = "github") then GitHub.list_changed_files r
    else if bool_decide (provider = "gitlab") then GitLab.list_changed_files r
    else unsupported provider
|}.
End lookups.

(** What the platforms do to the database leaves an invariant alone. *)
Class PlatformsKeep (I : Session → Prop) `{CheckoutRegistry} `{WorkerProviders}
    `{ProviderRegistry} : Prop := {
  comment_kept p t st : keeps I (publish_agent_task_comment p t st);
  summary_kept p t st stats : keeps I (publish_summary_comment p t st stats);
  lines_kept p t files : keeps I (publish_line_comments p t files);
  checkout_kept p r u : keeps I (provider_checkout p r u);
  context_kept p a : keeps I (provider_context p a);
  files_kept p r : keeps I (provider_changed_files p r)
}.

(** Platforms that leave pools, leases and the outbox alone. *)
Class Bystanders `{Runtime} `{CheckoutRegistry} `{WorkerProviders} `{ProviderRegistry} : Prop :=
  bystanders_keep :: ∀ I, TableInvariant I → PlatformsKeep I.

Section adapters.
Context `{Runtime} `{PlatformHttp} `{GitHubSettings} `{GitLabSettings}.
Context (I : Session → Prop) `{!TableInvariant I}.

Lemma adapter_send r : keeps I (http_send r).
Proof. intros s Hs. exact (kept_sent (λ s, sent s ++ [r]) s Hs). Qed.
Hint Resolve adapter_send : keeps.

Lemma adapter_github_request method path body params repo :
  keeps I (GitHubClient._request method path body params repo).
Proof. unfold GitHubClient._request, get_token. keeps_auto. Qed.
Lemma adapter_gitlab_request method path body params :
  keeps I (GitLabClient._request method path body params).
Proof. unfold GitLabClient._request. keeps_auto. Qed.
Hint Resolve adapter_github_request adapter_gitlab_request : keeps.

Lemma adapter_paginate get_page e fuel page items :
  (∀ p, keeps I (get_page p)) →
  keeps I (paginate_from get_page e fuel page items).
Proof.
  intros Hget. revert page items. induction fuel as [|fuel IH]; intros page items;
    cbn [paginate_from]; keeps_auto.
Qed.

Lemma adapter_list_issue_comments repo n : keeps I (list_issue_comments repo n).
Proof.
  unfold list_issue_comments, GitHubClient._paginate.
  apply keeps_bind; [apply adapter_paginate; auto with keeps|auto with keeps].
Qed.
Lemma adapter_list_notes repo n : keeps I (list_merge_request_notes repo n).
Proof.
  unfold list_merge_request_notes, GitLabClient._paginate.
  apply keeps_bind; [apply adapter_paginate; auto with keeps|auto with keeps].
Qed.
Hint Resolve adapter_list_issue_comments adapter_list_notes : keeps.

Lemma adapter_load_run run_id : keeps I (ReviewRuns.load_run run_id).
Proof. unfold ReviewRuns.load_run. keeps_auto. Qed.
Lemma adapter_load_agent task_id : keeps I (load_agent task_id).
Proof. unfold load_agent. keeps_auto. Qed.
Hint Resolve adapter_load_run adapter_load_agent : keeps.

Lemma adapter_record_denied run_id m : keeps I (record_denied run_id m).
Proof. unfold record_denied. keeps_auto. Qed.
Hint Resolve adapter_record_denied : keeps.

Lemma adapter_summary upsert denied run_id st stats :
  (∀ r body marker, keeps I (upsert r body marker)) →
  keeps I (publish_summary upsert denied run_id st stats).
Proof.
  intros Hup. unfold publish_summary, _comment_slot_for_run, slot_of_run,
    _existing_summary_ref_with_body, upsert_summary_comment_ref, new_comment_ref. keeps_auto.
Qed.

Lemma adapter_github_upsert r body marker :
  keeps I (_upsert_github_issue_comment r body marker).
Proof. unfold _upsert_github_issue_comment, update_issue_comment, create_issue_comment. keeps_auto. Qed.
Lemma adapter_gitlab_upsert r body marker :
  keeps I (_upsert_gitlab_note r body marker).
Proof.
  unfold _upsert_gitlab_note, update_merge_request_note, create_merge_request_note. keeps_auto.
Qed.

Lemma adapter_line run_id files f : keeps I (publish_line run_id files f).
Proof.
  unfold publish_line, ensure_line_comment_ref, new_comment_ref, create_review_comment,
    _existing_line_ref. keeps_auto.
Qed.

Lemma adapter_lines run_id files l stats : keeps I (publish_lines run_id files l stats).
Proof.
  revert stats. induction l as [|f l IH]; intros stats; cbn [publish_lines]; [apply keeps_ret|].
  apply keeps_bind; [apply adapter_line|intros o; apply IH].
Qed.

Lemma adapter_agent_comment task_id state :
  keeps I (publish_github_agent_task_comment task_id state).
Proof.
  unfold publish_github_agent_task_comment, create_issue_comment, update_issue_comment.
  keeps_auto.
Qed.

Lemma adapter_github_error {A} (m : SM A) :
  keeps I m → keeps I (GitHub.operation_error m).
Proof. intros Hm. unfold GitHub.operation_error. keeps_auto. Qed.
Lemma adapter_gitlab_error {A} (m : SM A) :
  keeps I m → keeps I (GitLab.operation_error m).
Proof. intros Hm. unfold GitLab.operation_error. keeps_auto. Qed.

Lemma adapter_client op :
  keeps I (GitHub.require_client op) ∧ keeps I (GitLab.require_client op).
Proof. split; [unfold GitHub.require_client|unfold GitLab.require_client]; keeps_auto. Qed.
Lemma adapter_client_github op : keeps I (GitHub.require_client op).
Proof. apply adapter_client. Qed.
Lemma adapter_client_gitlab op : keeps I (GitLab.require_client op).
Proof. apply adapter_client. Qed.
Hint Resolve adapter_client_github adapter_client_gitlab adapter_github_error adapter_gitlab_error
  adapter_github_upsert adapter_gitlab_upsert adapter_agent_comment adapter_lines : keeps.

Lemma adapter_github_credential target scope : keeps I (GitHub.get_credential target scope).
Proof.
  unfold GitHub.get_credential. repeat kept_step. apply adapter_github_error.
  unfold get_token. keeps_auto.
Qed.
Lemma adapter_gitlab_credential target scope : keeps I (GitLab.get_credential target scope).
Proof. unfold GitLab.get_credential. kept_auto. Qed.
Hint Resolve adapter_github_credential adapter_gitlab_credential : keeps.
Lemma adapter_github_checkout r u : keeps I (GitHub.get_workspace_checkout r u).
Proof.
  unfold GitHub.get_workspace_checkout, GitHub.resolve_git_checkout, GitHub.clone_url. kept_auto.
Qed.
Lemma adapter_gitlab_checkout r u : keeps I (GitLab.get_workspace_checkout r u).
Proof.
  unfold GitLab.get_workspace_checkout, GitLab.resolve_git_checkout, GitLab.clone_url. kept_auto.
Qed.
Lemma adapter_github_context a : keeps I (GitHub.get_pull_request_context a).
Proof.
  unfold GitHub.get_pull_request_context, GitHub.context_from_pull_request_task, new_context.
  apply keeps_bind; [|intros; kept_auto]. apply adapter_github_error.
  unfold get_pull_request. kept_auto.
Qed.
Lemma adapter_gitlab_context a : keeps I (GitLab.get_pull_request_context a).
Proof.
  unfold GitLab.get_pull_request_context, GitLab.context_from_merge_request_task, new_context.
  apply keeps_bind; [|intros; kept_auto]. apply adapter_gitlab_error.
  unfold get_merge_request, object_reply. kept_auto.
Qed.
Lemma adapter_github_files r : keeps I (GitHub.list_changed_files r).
Proof.
  apply adapter_github_error, keeps_bind; [auto with keeps|intros _].
  unfold fetch_changed_files, list_pull_request_files, GitHubClient._paginate.
  apply keeps_bind; [apply adapter_paginate; auto with keeps|auto with keeps].
Qed.
Lemma adapter_gitlab_files r : keeps I (GitLab.list_changed_files r).
Proof.
  apply adapter_gitlab_error. unfold fetch_gitlab_changed_files, get_merge_request_changes,
    object_reply. kept_auto.
Qed.

Lemma platforms_keep registry validate :
  @PlatformsKeep I (code_checkouts registry) (code_lookups registry)
    (code_platforms registry validate).
Proof.
  split; intros; cbn [publish_agent_task_comment publish_summary_comment publish_line_comments
    code_platforms provider_checkout code_checkouts provider_context provider_changed_files
    code_lookups].
  - case_bool_decide; [|apply keeps_raise].
    apply adapter_github_error. unfold platform_agent_comment. kept_auto.
  - apply keeps_bind; [|intros o; unfold published_comment; kept_auto].
    case_bool_decide; [|case_bool_decide; [|apply keeps_raise]].
    + apply adapter_github_error, keeps_bind; [auto with keeps|intros _].
      apply adapter_summary, adapter_github_upsert.
    + apply adapter_gitlab_error, keeps_bind; [auto with keeps|intros _].
      apply adapter_summary, adapter_gitlab_upsert.
  - case_bool_decide; [|apply keeps_raise]. apply keeps_bind; [|intros; apply keeps_ret].
    apply adapter_github_error. unfold platform_line_comments, publish_github_line_comments.
    kept_auto.
  - pose proof adapter_github_checkout. pose proof adapter_gitlab_checkout. unfold unsupported. kept_auto.
  - pose proof adapter_github_context. pose proof adapter_gitlab_context. unfold unsupported. kept_auto.
  - pose proof adapter_github_files. pose proof adapter_gitlab_files. unfold unsupported. kept_auto.
Qed.
End adapters.

(** GitHub and GitLab do. *)
#[global] Instance code_platforms_bystanders `{Runtime} `{PlatformHttp} `{GitHubSettings}
    `{GitLabSettings} registry validate :
  @Bystanders _ (code_checkouts registry) (code_lookups registry)
    (code_platforms registry validate).
Proof. intros I HI. by apply platforms_keep. Qed.

(** An adapter that keeps every such invariant meets the contract of the outbox. *)
#[global] Instance outbox_respecting `{PlatformsKeep outboxes_ok} : OutboxRespecting.
Proof. split; intros; [apply comment_kept|apply summary_kept|apply lines_kept]. Qed.
