(* ===== verification/AgentWorker.v ===== *)
(** * The worker of agent tasks

    Model of the part of [src/src/review_orchestrator/application/worker.py] that executes
    agent tasks: commands addressed to the bot, each of which goes through its placeholder,
    its turn, its workspace and its agent session to a comment, and mentions, which request a
    review.  A task held in a Python variable is its primary key. *)
From S2P Require Import Prelude PyText Json World PyPath Models Scheduler Delivery ReviewRuns PiAgent SessionArchives AgentSessions Workspaces WorkerCommon.
#[global] Open Scope Z_scope.
#[global] Open Scope orch_scope.

(** How the preparation of a workspace ends: its path, an exception, or a failure that was
    recorded. *)
Inductive preparation :=
  | Prepared (path : string)
  | PreparationRaised (message : string)
  | PreparationFailed (code message : option string).

Section agent_worker.
Context `{Runtime}.

(** ** The comments of a command *)

Definition comment_destination (task_id : string) (a : AgentTask.t) : string :=
  AgentTask.provider a +:+ ":" +:+ AgentTask.repo_full_name a +:+ ":pr:"
  +:+ str_int (AgentTask.pull_request_number a) +:+ ":task:" +:+ task_id.

Definition command_comment_key (task_id state : string) (a : AgentTask.t) : string :=
  "agent-task:" +:+ task_id +:+ ":comment:" +:+ state +:+ ":attempt:"
  +:+ str_int (AgentTask.attempt a).

Definition given (key : string) (value : option string) : list (string * json) :=
  match value with Some v => [(key, JStr v)] | None => [] end.

Definition _enqueue_agent_task_comment (task_id state : string) (mandatory : bool)
    (success_status success_stage final_status final_stage : option string)
    (supersede_pending : bool) : SM () :=
  t ← load_command task_id;
  _ ← enqueue_delivery task_id (AgentTask.provider t.2) "agent_task_comment"
        (comment_destination task_id t.2) (command_comment_key task_id state t.2)
        (JObj ([("state", JStr state)] ++ given "success_status" success_status
               ++ given "success_stage" success_stage ++ given "final_status" final_status
               ++ given "final_stage" final_stage))
        mandatory (Some (Task.priority t.1)) 0 supersede_pending;
  commit.

(** The last comment of a command, in one of its final states. *)
Definition enqueue_final_comment (task_id state : string) : SM () :=
  _enqueue_agent_task_comment task_id state true None None (Some state) (Some state) true.

Definition _complete_command_agent_task (task_id : string) : SM string :=
  modify task_id (λ t, set_agent (λ a, a .[ AgentTask.error_message := None ]
                                         .[ AgentTask.failure_code := None ])
    (t .[ Task.status := "awaiting_delivery" ] .[ Task.stage := Some "result_delivery_pending" ]
       .[ Task.execution_status := "completed" ])) ;;
  enqueue_final_comment task_id "completed" ;;
  mret task_id.

Definition _fail_command_agent_task (task_id failure_code error : string) : SM string :=
  modify task_id (λ t, set_agent (λ a, a .[ AgentTask.failure_code := Some failure_code ]
                                         .[ AgentTask.error_message := Some error ])
    (t .[ Task.status := "awaiting_delivery" ] .[ Task.stage := Some "failure_delivery_pending" ]
       .[ Task.execution_status := "failed" ])) ;;
  enqueue_final_comment task_id "failed" ;;
  mret task_id.

Context `{PiAgentRuntime} `{GitWorkspace}.

Definition _cancel_command_agent_task (task_id : string) : SM string :=
  t ← load_command task_id;
  (match or_none (AgentTask.agent_session_id t.2) with
   | Some session_id =>
       except_client_error
         (runtime ← cancel_session session_id;
          _ ← archive_agent_session task_id runtime;
          mret tt)
         (λ _ _, mret tt)
   | None => mret tt
   end) ;;
  modify task_id (λ t, t .[ Task.status := "awaiting_delivery" ]
    .[ Task.stage := Some "cancellation_delivery_pending" ]
    .[ Task.execution_status := "cancelled" ]) ;;
  enqueue_final_comment task_id "cancelled" ;;
  mret task_id.

(** ** The input of a command *)

(** The commands of a pull request that were answered before a task. *)
Definition answered_before (task : Task.t) (agent : AgentTask.t) (t : Task.t) : bool :=
  match agent_of t with
  | Some a =>
      bool_decide (AgentTask.provider a = AgentTask.provider agent)
      && bool_decide (AgentTask.repo_full_name a = AgentTask.repo_full_name agent)
      && (AgentTask.pull_request_number a =? AgentTask.pull_request_number agent)
      && bool_decide (AgentTask.task_type a = "message_command")
      && bool_decide (Task.status t = "completed")
      && (Task.created_at t <? Task.created_at task)
      && bool_decide (is_Some (AgentTask.result_text a))
  | None => false
  end.

Definition most_recent (t : Task.t) : list Z := [- Task.created_at t].

(** [previous.result_json.get("outcome", "answered")], if it is a known outcome. *)
Definition recorded_outcome (a : AgentTask.t) : outcome string :=
  let known (j : json) : string :=
    match j with
    | JStr s => if bool_decide (s ∈ ["answered"; "needs_clarification"; "refused"]) then s
                else "answered"
    | _ => "answered"
    end in
  match AgentTask.result_json a with
  | None => Return "answered"
  | Some (JObj fields) => Return (known (default (JStr "answered") (fget fields "outcome")))
  | Some j => if json_truthy j then Raise (TypeError "object has no attribute 'get'")
              else Return "answered"
  end.

Definition text_size (s : string) : Z := Z.of_nat (String.length s).

(** The loop over the earlier commands, from the oldest: what fits in [remaining]. *)
Fixpoint select_history (head_sha : string) (remaining : Z) (previous : list AgentTask.t)
    : outcome (list AgentInstructionHistoryItem.t) :=
  match previous with
  | [] => mret []
  | a :: previous =>
      let command := default "" (AgentTask.command_text a) in
      let answer := default "" (AgentTask.result_text a) in
      let size := text_size command + text_size answer in
      if remaining <? size then select_history head_sha remaining previous
      else
        o ← recorded_outcome a;
        items ← select_history head_sha (remaining - size) previous;
        mret (AgentInstructionHistoryItem.mk (or_else (AgentTask.source_author_login a) "user")
                command answer o (or_else (AgentTask.head_sha a) head_sha) :: items)
  end.

(** The earlier commands that are considered, from the oldest. *)
Definition recent_commands (turns : Z) (task : Task.t) (agent : AgentTask.t) (l : list Task.t)
    : list AgentTask.t :=
  omap agent_of (reverse (take (Z.to_nat turns)
    (order_by most_recent (filter (answered_before task agent) l)))).

Definition _build_agent_instruction (task_id : string) (context : PullRequestContext.t)
    (settings : WorkerSettings.t) : SM AgentInstructionInput.t :=
  t ← load_command task_id;
  let a := t.2 in
  previous ← gets (λ s, recent_commands (WorkerSettings.agent_task_max_history_turns settings)
                          t.1 a (tasks (work s)));
  history ← lift (select_history (PullRequestContext.head_sha context)
                    (WorkerSettings.agent_task_max_history_chars settings) previous);
  lift (agent_instruction_input
    ("agent-task:" +:+ task_id +:+ ":attempt:" +:+ str_int (AgentTask.attempt a))
    (default "" (AgentTask.workspace_path a)) (AgentTask.provider a)
    (AgentTask.repo_full_name a) (AgentTask.pull_request_number a)
    (PullRequestContext.base_sha context)
    (or_else (AgentTask.head_sha a) (PullRequestContext.head_sha context))
    (default "" (AgentTask.command_text a)) (or_else (AgentTask.source_author_login a) "user")
    (AgentTask.source_url a) task_id history).

(** ** The result of a command *)

Context `{Host}.

Fixpoint _validate_task_result_reference_paths (l : list shell_action) (workspace : string)
    (references : list AgentTaskReference.t) : outcome () :=
  let resolve (p : Path.t) : Path.t := path_of (resolve_path l (path_str p)) in
  let root := resolve (path_of workspace) in
  match references with
  | [] => mret tt
  | reference :: references =>
      let target := resolve (join_path root (AgentTaskReference.path reference)) in
      if negb (is_relative_to root target) then
        Raise (ValueError "Task result reference escapes the workspace.")
      else if negb (is_regular_file l (path_str target)) then
        Raise (ValueError ("Task result reference does not exist: "
                           +:+ AgentTaskReference.path reference))
      else _validate_task_result_reference_paths l workspace references
  end.

Definition _validate_task_result_references (task_id : string) (result : AgentTaskResult.t)
    : SM () :=
  t ← load_command task_id;
  match or_none (AgentTask.workspace_path t.2) with
  | None => raise (ValueError "Task workspace is missing.")
  | Some workspace =>
      l ← gets shell;
      lift (_validate_task_result_reference_paths l workspace (AgentTaskResult.references result))
  end.

(** ** Executing a command *)

Context `{CheckoutRegistry} `{WorkerProviders} `{TaskResultSchema}.

(** The placeholder of a command is queued. *)
Definition request_command_placeholder (task_id : string) : SM string :=
  modify task_id (λ t, t .[ Task.status := "awaiting_delivery" ]
                         .[ Task.stage := Some "placeholder_delivery_pending" ]) ;;
  _enqueue_agent_task_comment task_id "working" true (Some "queued")
    (Some "placeholder_delivered") None None false ;;
  mret task_id.

Definition clarification : string := "Please include a request after the bot mention.".

(** A mention without a request is answered at once. *)
Definition ask_clarification (task_id : string) : SM string :=
  modify task_id (set_agent (λ a,
    a .[ AgentTask.result_text := Some clarification ]
      .[ AgentTask.result_json := Some (JObj
           [("outcome", JStr "needs_clarification"); ("answer", JStr clarification);
            ("references", JList [])]) ])) ;;
  _complete_command_agent_task task_id.

(** Another command of the pull request that came first and is not finished. *)
Definition goes_first (task : Task.t) (agent : AgentTask.t) (t : Task.t) : bool :=
  match agent_of t with
  | Some a =>
      bool_decide (AgentTask.provider a = AgentTask.provider agent)
      && bool_decide (AgentTask.repo_full_name a = AgentTask.repo_full_name agent)
      && (AgentTask.pull_request_number a =? AgentTask.pull_request_number agent)
      && bool_decide (AgentTask.task_type a = "message_command")
      && bool_decide (Task.status t ∈ ["queued"; "running"; "awaiting_delivery"])
      && (Task.created_at t <? Task.created_at task)
  | None => false
  end.

Definition wait_for_turn (task_id : string) : SM string :=
  modify task_id (λ t, t .[ Task.status := "queued" ] .[ Task.stage := Some "waiting_for_turn" ]) ;;
  commit ;;
  _enqueue_agent_task_comment task_id "queued" false None None None None false ;;
  mret task_id.

(** The context of a command, or the task that was failed for want of it. *)
Definition command_context (task_id : string) : SM (PullRequestContext.t + string) :=
  let failed (code error : string) : SM (PullRequestContext.t + string) :=
    id ← _fail_command_agent_task task_id code error; mret (inr id) in
  found ← except_provider (context ← task_context_or_hydrated task_id; mret (inl context))
            (λ message, id ← _fail_command_agent_task task_id "provider_context_lookup_failed" message;
                        mret (inr id));
  match found with
  | inr id => mret (inr id)
  | inl None =>
      failed "missing_pr_context" "Pull request context was not found for message command."
  | inl (Some context) =>
      if bool_decide (PullRequestContext.status context ∈ ["open"; "opened"])
      then mret (inl context)
      else failed "pull_request_closed" "The pull request is no longer open."
  end.

(** [prepare_workspace] under [except Exception]. *)
Definition try_workspace (settings : WorkerSettings.t) (context : PullRequestContext.t)
    : SM preparation :=
  try_except
    (request ← lift (_workspace_request_from_context context);
     response ← prepare_workspace (WorkerSettings.roots settings) request true;
     mret (if bool_decide (WorkspacePrepareResponse.status response = "failed")
           then PreparationFailed (WorkspacePrepareResponse.failure_code response)
                  (WorkspacePrepareResponse.failure_message response)
           else Prepared (WorkspacePrepareResponse.workspace_path response)))
    (λ e, mret (PreparationRaised (exn_str e))).

Definition prepare_command_workspace (task_id : string) (settings : WorkerSettings.t)
    (context : PullRequestContext.t) : SM (() + string) :=
  modify task_id (λ t, t .[ Task.status := "running" ]
                         .[ Task.stage := Some "preparing_workspace" ]) ;;
  commit ;;
  prepared ← try_workspace settings context;
  match prepared with
  | PreparationRaised message =>
      id ← _fail_command_agent_task task_id "workspace_failed" message; mret (inr id)
  | PreparationFailed code message =>
      id ← _fail_command_agent_task task_id (or_else code "workspace_failed")
             (or_else message "Workspace preparation failed.");
      mret (inr id)
  | Prepared path =>
      modify task_id (set_agent (λ a, a .[ AgentTask.workspace_path := Some path ])) ;;
      commit ;;
      mret (inl tt)
  end.

(** The assignments to a task whose session is about to be started. *)
Definition mark_starting (now timeout : Z) (t : Task.t) : Task.t :=
  let started := default now (Task.started_at t) in
  t .[ Task.status := "running" ] .[ Task.stage := Some "starting_agent" ]
    .[ Task.started_at := Some started ] .[ Task.deadline_at := Some (started + timeout * second) ].

Definition command_preset (settings : WorkerSettings.t) (skill : string) : AgentDomainPreset.t :=
  AgentDomainPreset.mk (AgentSettings.agent_command_agent (WorkerSettings.agents settings))
    "message-command" [skill].

(** The runtime could not start the session: another attempt later, or failure. *)
Definition command_start_failed (task_id : string) (settings : WorkerSettings.t)
    (message : string) (infrastructure : bool) : SM string :=
  t ← load_command task_id;
  if infrastructure
     && (AgentTask.agent_start_attempts t.2 <? WorkerSettings.retry_max_attempts settings)
  then
    now ← utc_now;
    modify task_id (λ t, set_agent (λ a, a .[ AgentTask.error_message := Some message ])
      (t .[ Task.status := "queued" ] .[ Task.stage := Some "retrying_agent_start" ]
         .[ Task.available_at :=
              now + WorkerSettings.retry_initial_delay_seconds settings * second ])) ;;
    commit ;;
    mret task_id
  else _fail_command_agent_task task_id "agent_start_failed" message.

Definition start_command_session (task_id : string) (settings : WorkerSettings.t)
    (context : PullRequestContext.t) (skill : string) : SM (PiAgentSession.t + string) :=
  t ← load_command task_id;
  now ← (match Task.started_at t.1 with Some started => mret started | None => utc_now end);
  modify task_id (mark_starting now (WorkerSettings.agent_task_timeout_seconds settings)) ;;
  commit ;;
  instruction ← _build_agent_instruction task_id context settings;
  modify task_id (set_agent (λ a,
    a .[ AgentTask.agent_start_attempts := AgentTask.agent_start_attempts a + 1 ])) ;;
  commit ;;
  let preset := command_preset settings skill in
  modify task_id (λ t, t .[ Task.resolved_preset_json := Some (requested_preset preset) ]) ;;
  started ← attempt_client (start_instruction_session instruction preset);
  match started with
  | inr (message, infrastructure) =>
      id ← command_start_failed task_id settings message infrastructure; mret (inr id)
  | inl runtime =>
      modify task_id (set_agent (λ a,
        a .[ AgentTask.agent_session_id := Some (PiAgentSession.id runtime) ]
          .[ AgentTask.error_message := None ])) ;;
      mret (inl runtime)
  end.

(** The session of a command, started or looked up. *)
Definition command_session (task_id : string) (settings : WorkerSettings.t)
    (context : PullRequestContext.t) (skill : string) : SM (PiAgentSession.t + string) :=
  t ← load_command task_id;
  match AgentTask.agent_session_id t.2 with
  | None => start_command_session task_id settings context skill
  | Some session_id =>
      reply ← attempt_client (get_session session_id);
      match reply with
      | inl runtime => mret (inl runtime)
      | inr (message, _) =>
          id ← _fail_command_agent_task task_id "agent_sync_failed" message; mret (inr id)
      end
  end.

(** What the task records of its session. *)
Definition copy_command_state (runtime : PiAgentSession.t) (t : Task.t) : Task.t :=
  set_agent (λ a,
    a .[ AgentTask.agent_status := Some (runtime_status_str (PiAgentSession.status runtime)) ]
      .[ AgentTask.agent_provider := PiAgentSession.provider runtime ]
      .[ AgentTask.agent_model := PiAgentSession.model runtime ]
      .[ AgentTask.agent_thinking_level := PiAgentSession.thinking_level runtime ]) t.

(** The result of a completed session, if it is valid. *)
Definition command_result (task_id : string) (runtime : PiAgentSession.t)
    : SM (option AgentTaskResult.t) :=
  try_except
    (result ← lift (validate_task_result (PiAgentSession.result runtime));
     _validate_task_result_references task_id result ;;
     mret (Some result))
    (λ _, mret None).

(** What the state of the session makes of the task. *)
Definition settle_command (task_id : string) (runtime : PiAgentSession.t) : SM string :=
  let status := PiAgentSession.status runtime in
  if bool_decide (status = completed) then
    result ← command_result task_id runtime;
    match result with
    | None => _fail_command_agent_task task_id "invalid_result"
                "Agent returned an invalid structured task result."
    | Some result =>
        modify task_id (set_agent (λ a,
          a .[ AgentTask.result_text := Some (AgentTaskResult.answer result) ]
            .[ AgentTask.result_json := Some (AgentTaskResult.model_dump result) ])) ;;
        _complete_command_agent_task task_id
    end
  else if bool_decide (status ∈ [failed; cancelled]) then
    _fail_command_agent_task task_id
      (if bool_decide (status = cancelled) then "agent_cancelled" else "agent_failed")
      (or_else (PiAgentSession.error runtime)
         ("Agent session " +:+ runtime_status_str status +:+ "."))
  else
    modify task_id (λ t, t .[ Task.status := "running" ]
                           .[ Task.stage := Some "waiting_for_agent" ]) ;;
    commit ;;
    mret task_id.

(** From the workspace of a command to its result. *)
Definition run_command (task_id : string) (settings : WorkerSettings.t)
    (context : PullRequestContext.t) (skill : string) : SM string :=
  modify task_id (set_agent (λ a,
    a .[ AgentTask.head_sha := Some (or_else (AgentTask.head_sha a)
                                       (PullRequestContext.head_sha context)) ])) ;;
  t ← load_command task_id;
  unless_returned (match AgentTask.workspace_path t.2 with
                   | None => prepare_command_workspace task_id settings context
                   | Some _ => mret (inl tt)
                   end) (λ _,
  unless_returned (command_session task_id settings context skill) (λ runtime,
    (match PiAgentSession.resolved_preset runtime with
     | Some preset => modify task_id (λ t, t .[ Task.resolved_preset_json := Some preset ])
     | None => mret tt
     end) ;;
    _ ← archive_agent_session task_id runtime;
    modify task_id (copy_command_state runtime) ;;
    settle_command task_id runtime)).

(** Everything after it is known that the command has a text. *)
Definition execute_command (task_id : string) (settings : WorkerSettings.t) : SM string :=
  t ← load_command task_id;
  older ← select (R := Task.t) (goes_first t.1 t.2);
  match older with
  | _ :: _ => wait_for_turn task_id
  | [] =>
      unless_returned (command_context task_id) (λ context,
        config ← get_or_create_review_config (AgentTask.provider t.2)
          (AgentTask.repo_full_name t.2) "code-review"
          (AgentSettings.agent_command_skill (WorkerSettings.agents settings));
        if negb (ReviewConfig.agent_commands_enabled config) then
          _fail_command_agent_task task_id "agent_commands_disabled"
            "Agent commands are disabled for this repository."
        else run_command task_id settings context (ReviewConfig.default_agent_command_skill config))
  end.

Definition _process_command_agent_task (task_id : string) (settings : WorkerSettings.t)
    : SM string :=
  t ← load_command task_id;
  let '(task, a) := t in
  if bool_decide (AgentTask.response_comment_id a = None)
     && bool_decide (Task.stage task = Some "placeholder_pending")
  then request_command_placeholder task_id
  else if bool_decide (Task.stage task = Some "cancellation_pending")
  then _cancel_command_agent_task task_id
  else if bool_decide (Task.stage task = Some "publishing_failure")
  then _fail_command_agent_task task_id (or_else (AgentTask.failure_code a) "agent_task_failed")
         (or_else (AgentTask.error_message a) "Agent task failed.")
  else if bool_decide (py_strip (default "" (AgentTask.command_text a)) = "")
  then ask_clarification task_id
  else execute_command task_id settings.

(** ** Mentions *)

(** The event that requests a review for a mention. *)
Definition _review_request_event_for_agent_task (task_id : string)
    (context : PullRequestContext.t) : SM string :=
  t ← load_command task_id;
  existing ← (match or_none (AgentTask.provider_event_id t.2) with
              | Some id => fetch (R := ProviderEventInbox.t) id
              | None => mret None
              end);
  match existing with
  | Some event => mret (ProviderEventInbox.id event)
  | None =>
      let delivery_id := "agent-task:" +:+ task_id +:+ ":review-request" in
      id ← uuid4;
      created_at ← utc_now;
      insert (ProviderEventInbox.mk id "internal" delivery_id "review_request" (Some "mention")
        (Some "review_requested") (Some (PullRequestContext.repo_full_name context))
        (Some (PullRequestContext.pull_request_number context))
        (Some (PullRequestContext.head_sha context)) delivery_id
        (Some ("review-request:agent-task:" +:+ task_id)) (sha256_hexdigest delivery_id)
        (JObj [("schema_version", JStr "1"); ("trigger_type", JStr "mention");
               ("source_agent_task_id", JStr task_id);
               ("target_provider", JStr (PullRequestContext.provider context))])
        "received" None None None created_at None) ;;
      modify task_id (set_agent (λ a, a .[ AgentTask.provider_event_id := Some id ])) ;;
      mret id
  end.

Definition mention_request (event_id context_id : string) : ReviewRequest.t :=
  ReviewRequest.mk mention event_id context_id None None.

(** The event of a mention has led to a run. *)
Definition mark_queued (run_id : string) (now : Z) (e : ProviderEventInbox.t)
    : ProviderEventInbox.t :=
  e .[ ProviderEventInbox.status := "queued" ]
    .[ ProviderEventInbox.review_run_id := Some run_id ]
    .[ ProviderEventInbox.processed_at := Some now ].

(** [{**(task.result_json or {}), "summary_publish_error": str(exc)}], the column holding an
    object or nothing. *)
Definition publish_error_json (result_json : option json) (message : string) : json :=
  JObj (with_field (match result_json with Some (JObj fields) => fields | _ => [] end)
          "summary_publish_error" (JStr message)).

Definition _fail_agent_task (task_id failure_code error : string) : SM string :=
  modify task_id (λ t, set_agent (λ a, a .[ AgentTask.failure_code := Some failure_code ]
                                         .[ AgentTask.error_message := Some error ])
    (t .[ Task.status := "failed" ])) ;;
  commit ;;
  found ← _task_context task_id;
  match found with
  | None => mret task_id
  | Some context =>
      try_except
        (event_id ← _review_request_event_for_agent_task task_id context;
         requested ← handle_review_requested (mention_request event_id (PullRequestContext.id context));
         let run_id := requested.1 in
         now ← utc_now;
         modify run_id (λ t, set_review (λ r,
             r .[ ReviewRun.failure_code := Some failure_code ]
               .[ ReviewRun.error := Some error ])
           (t .[ Task.status := "failed" ] .[ Task.completed_at := Some now ])) ;;
         now ← utc_now;
         modify event_id (mark_queued run_id now) ;;
         commit ;;
         enqueue_review_comment_status run_id "failed" true)
        (λ e,
          modify task_id (set_agent (λ a,
            a .[ AgentTask.result_json :=
                   Some (publish_error_json (AgentTask.result_json a) (exn_str e)) ])) ;;
          commit) ;;
      mret task_id
  end.

(** A review for a mention is requested. *)
Definition request_mentioned_review (task_id : string) (context : PullRequestContext.t)
    : SM string :=
  event_id ← _review_request_event_for_agent_task task_id context;
  requested ← handle_review_requested (mention_request event_id (PullRequestContext.id context));
  let run_id := requested.1 in
  now ← utc_now;
  modify event_id (mark_queued run_id now) ;;
  run ← load (R := Task.t) run_id;
  modify task_id (λ t, set_agent (λ a,
      a .[ AgentTask.result_json := Some (JObj [("review_run_id", JStr run_id);
                                                ("status", JStr (Task.status run))]) ])
    (t .[ Task.status := "completed" ])) ;;
  commit ;;
  mret task_id.

Definition process_mention (task_id : string) : SM string :=
  try_except
    (found ← except_provider (context ← task_context_or_hydrated task_id; mret (inl context))
       (λ message, id ← _fail_agent_task task_id "provider_context_lookup_failed" message;
                   mret (inr id));
     match found with
     | inr id => mret id
     | inl None => _fail_agent_task task_id "missing_pr_context"
                     "Pull request context was not found for mention task."
     | inl (Some context) => request_mentioned_review task_id context
     end)
    (λ e, _fail_agent_task task_id "agent_task_failed" (exn_str e)).

(** ** The next task *)

(** The stages in which a released task is offered again only after a delay. *)
Definition POLLED_STAGES : list string :=
  ["waiting_for_turn"; "waiting_for_agent"; "publishing_result"; "publishing_failure";
   "cancellation_pending"; "placeholder_pending"].

Definition _release_agent_task_lock (task_id : string) (retry_after : Z) : SM (option string) :=
  found ← fetch (R := Task.t) task_id;
  match found ≫= λ t, a ← agent_of t; mret (t, a) with
  | None => mret None
  | Some (task, _) =>
      let delay :=
        if negb (bool_decide (Task.stage task = Some "retrying_agent_start"))
           && bool_decide (Task.status task ∈ ["queued"; "running"])
           && (match Task.stage task with
               | Some stage => bool_decide (stage ∈ POLLED_STAGES)
               | None => false
               end)
        then Some retry_after else None in
      released ← release_task_claim task_id None delay None;
      match released with
      | None => mret None
      | Some id =>
          t ← load (R := Task.t) id;
          match agent_of t with
          | Some _ => mret (Some id)
          | None => raise (TypeError ("Released non-agent task " +:+ id +:+ "."))
          end
      end
  end.

Definition acquire_next_agent_task (worker_id : string) (lock_seconds : Z) (now : option Z)
    (policy : option SchedulerPolicy.t) : SM (option string) :=
  claimed ← claim_next_task worker_id ["agent"] [] lock_seconds now policy;
  match claimed with
  | None => mret None
  | Some task_id =>
      t ← load (R := Task.t) task_id;
      match agent_of t with
      | None => raise (TypeError ("Scheduler returned non-agent task " +:+ task_id +:+ "."))
      | Some a =>
          when (negb (bool_decide (AgentTask.task_type a = "message_command")))
            (modify task_id (set_agent (λ a,
               a .[ AgentTask.result_json := Some (JObj [("worker_id", JStr worker_id)]) ])) ;;
             commit) ;;
          mret (Some task_id)
      end
  end.

Context `{ProviderRegistry}.

(** A command task that was claimed. *)
Definition process_command (task_id provider : string) (settings : option WorkerSettings.t)
    (configured : bool) : SM string :=
  if negb (has_capability provider AgentTaskCommentsCapability) then
    _fail_command_agent_task task_id "provider_capability_missing"
      ("Provider " +:+ repr_string provider +:+ " does not support agent task comment publishing.")
  else
    match settings, configured with
    | Some settings, true =>
        finally
          (try_except (_process_command_agent_task task_id settings)
             (λ e, _fail_command_agent_task task_id "agent_task_failed" (exn_str e)))
          (_ ← _release_agent_task_lock task_id (WorkerSettings.worker_poll_interval settings);
           mret tt)
    | _, _ =>
        _fail_command_agent_task task_id "worker_not_configured"
          "Message-command execution requires worker settings and pi-agent."
    end.

(** [configured] tells whether a client of the agent runtime was passed. *)
Definition process_next_agent_task (worker_id : string) (settings : option WorkerSettings.t)
    (configured : bool) : SM (option string) :=
  policy ← (match settings with
            | Some settings => policy ← lift (policy_from_settings settings); mret (Some policy)
            | None => mret None
            end);
  claimed ← acquire_next_agent_task worker_id
    (match settings with Some s => WorkerSettings.worker_lock_seconds s | None => 300 end)
    None policy;
  match claimed with
  | None => mret None
  | Some task_id =>
      t ← load_command task_id;
      id ← (if bool_decide (AgentTask.task_type t.2 = "message_command")
            then process_command task_id (AgentTask.provider t.2) settings configured
            else process_mention task_id);
      mret (Some id)
  end.

(** ** Timeouts *)

(** The commands the timeouts apply to. *)
Definition timed_command (t : Task.t) : bool :=
  match agent_of t with
  | Some a =>
      bool_decide (AgentTask.task_type a = "message_command")
      && bool_decide (Task.status t ∈ ["queued"; "running"])
      && (match Task.stage t with
          | Some stage =>
              bool_decide (stage ∈ ["starting_agent"; "waiting_for_agent"; "retrying_agent_start"])
          | None => false
          end)
      && bool_decide (is_Some (Task.started_at t))
  | None => false
  end.

(** One command: whether it was touched. *)
Definition time_out_command (settings : WorkerSettings.t) (now : Z) (task_id : string) : SM bool :=
  t ← load_command task_id;
  match Task.started_at t.1 with
  | None => mret false
  | Some started_at =>
      let elapsed := now - started_at in
      if WorkerSettings.agent_task_timeout_seconds settings * second <=? elapsed then
        if bool_decide (is_Some (AgentTask.hard_timeout_emitted_at t.2)) then mret false
        else
          modify task_id (set_agent (λ a, a .[ AgentTask.hard_timeout_emitted_at := Some now ])) ;;
          (match or_none (AgentTask.agent_session_id t.2) with
           | Some session_id =>
               except_client_error (_ ← cancel_session session_id; mret tt) (λ _ _, mret tt)
           | None => mret tt
           end) ;;
          _ ← _fail_command_agent_task task_id "hard_timeout"
                "Agent task exceeded the hard timeout.";
          mret true
      else if (WorkerSettings.agent_task_soft_timeout_seconds settings * second <=? elapsed)
              && bool_decide (AgentTask.soft_timeout_emitted_at t.2 = None)
      then
        modify task_id (set_agent (λ a, a .[ AgentTask.soft_timeout_emitted_at := Some now ])) ;;
        commit ;;
        _enqueue_agent_task_comment task_id "soft_timeout" false None None None None false ;;
        mret true
      else mret false
  end.

(** The identifiers for which a step returns true. *)
Fixpoint touched_by (step : string → SM bool) (ids : list string) : SM (list string) :=
  match ids with
  | [] => mret []
  | id :: ids =>
      touched ← step id;
      rest ← touched_by step ids;
      mret (if (touched : bool) then id :: rest else rest)
  end.

Definition process_agent_task_timeouts (settings : WorkerSettings.t) (now : option Z)
    : SM (list string) :=
  now ← or_now now;
  l ← select (R := Task.t) timed_command;
  touched_by (time_out_command settings now) (Task.id <$> l).
End agent_worker.
