(* ===== verification/ReviewWorker.v ===== *)
(** * The worker of review runs

    Model of the part of [src/src/review_orchestrator/application/worker.py] that executes
    review runs: the placeholder, the workspace, the agent session and its retries, the
    collection of the result, and the timeouts.  A run held in a Python variable is its
    primary key. *)
From Stdlib Require Import Ascii.
From S2P Require Import Prelude PyText Json World Models Scheduler SchedulerAdmin Delivery ReviewResults Reconciliation ReviewRuns PiAgent SessionArchives AgentSessions Workspaces WorkerCommon AgentWorker.
#[global] Open Scope Z_scope.
#[global] Open Scope orch_scope.

(** The dictionaries of [validation_warnings_json]. *)
Definition warning (code message : string) : json :=
  JObj [("code", JStr code); ("message", JStr message)].
Definition has_code (code : string) (w : json) : bool :=
  bool_decide (jget_str w "code" = Some code).

(** [list(review_run.validation_warnings_json or [])]. *)
Definition warnings_of (r : ReviewRun.t) : list json :=
  default [] (ReviewRun.validation_warnings_json r).

Definition add_warning (w : json) : Task.t → Task.t :=
  set_review (λ r, r .[ ReviewRun.validation_warnings_json := Some (warnings_of r ++ [w]) ]).

(** [now - started_at]: SQLite returns times without a time zone, from which Python does not
    subtract the time with one that [utc_now] gives. *)
Definition elapsed_since `{Runtime} (now started_at : Z) : outcome Z :=
  if bool_decide (dialect = "sqlite")
  then Raise (TypeError "can't subtract offset-naive and offset-aware datetimes")
  else Return (now - started_at).

(** What [collect_review_result] is given: the runtime's results are objects. *)
Definition raw_output_of (result : json) : outcome (string + list (string * json)) :=
  match result with
  | JObj fields => Return (inr fields)
  | JStr text => Return (inl text)
  | _ => Raise (TypeError "the JSON object must be str, bytes or bytearray")
  end.

(** The kinds of timeouts, and [TIMEOUT_EVENTS]. *)
Inductive timeout_kind := soft | hard.

Definition kind_str (kind : timeout_kind) : string :=
  match kind with soft => "soft" | hard => "hard" end.
Definition timeout_event (kind : timeout_kind) : string :=
  match kind with soft => "review_run.soft_timeout" | hard => "review_run.hard_timeout" end.

Section review_worker.
Context `{Runtime}.

(** ** The lock *)

Definition acquire_next_review_run (worker_id : string) (lock_seconds : Z) (now : option Z)
    (policy : option SchedulerPolicy.t) : SM (option string) :=
  claimed ← claim_next_task worker_id ["review"] [] lock_seconds now policy;
  match claimed with
  | None => mret None
  | Some task_id =>
      t ← load (R := Task.t) task_id;
      match review_of t with
      | None => raise (TypeError ("Scheduler returned non-review task " +:+ task_id +:+ "."))
      | Some _ => mret (Some task_id)
      end
  end.

Definition release_review_run_lock (run_id : string) : SM (option string) :=
  released ← release_task_claim run_id None None None;
  match released with
  | None => mret None
  | Some task_id =>
      t ← load (R := Task.t) task_id;
      match review_of t with
      | None => raise (TypeError ("Released non-review task " +:+ task_id +:+ "."))
      | Some _ => mret (Some task_id)
      end
  end.

Definition mark_review_run_stage (run_id stage : string) : SM (option string) :=
  found ← get_review_run run_id;
  match found with
  | None => mret None
  | Some _ =>
      t ← load (R := Task.t) run_id;
      when (negb (bool_decide (Task.status t ∈ TERMINAL_STATUSES)))
        (modify run_id (λ t, t .[ Task.stage := Some stage ]) ;; commit) ;;
      mret (Some run_id)
  end.

(** ** Reports *)

Definition publish_review_run_status_comment (run_id status_text : string) : SM () :=
  enqueue_review_comment_status run_id status_text true.

(** The run fails with a code and a message. *)
Definition mark_run_failed (code : string) (error : option string) (t : Task.t) : Task.t :=
  set_review (λ r, r .[ ReviewRun.failure_code := Some code ] .[ ReviewRun.error := error ])
    (t .[ Task.status := "failed" ]).

(** ... and the failure is reported. *)
Definition fail_run (run_id code : string) (error : option string) : SM string :=
  modify run_id (mark_run_failed code error) ;;
  commit ;;
  publish_review_run_status_comment run_id "failed" ;;
  mret run_id.

(** ... at a time. *)
Definition end_run (run_id code : string) (error : option string) : SM () :=
  now ← utc_now;
  modify run_id (λ t, (mark_run_failed code error t) .[ Task.completed_at := Some now ]) ;;
  commit.

Definition _enqueue_review_line_comments (run_id : string) (changed_files : list ChangedFile.t)
    : SM () :=
  tr ← load_run run_id;
  let run := tr.2 in
  let n := str_int (ReviewRun.pull_request_number run) in
  _ ← enqueue_delivery run_id (ReviewRun.provider run) "review_line_comments"
        (ReviewRun.provider run +:+ ":" +:+ ReviewRun.repo_full_name run +:+ ":pr:" +:+ n
         +:+ ":line-comments")
        ("review:" +:+ run_id +:+ ":line-comments:attempt:" +:+ str_int (ReviewRun.attempt run))
        (JObj [("changed_files", JList (map (λ f, JObj
                  [("path", JStr (ChangedFile.path f));
                   ("commentable_lines", JList (map JInt (ChangedFile.commentable_lines f)))])
                  changed_files));
               ("final_status", JStr "completed"); ("final_stage", JStr "completed")])
        true (Some (Task.priority tr.1)) 0 false;
  commit.

(** ** Retries *)

(** The assignments to a run that goes on after an error of the runtime. *)
Definition resume_run (stage : string) (warnings : list json) (available_at : Z) (t : Task.t)
    : Task.t :=
  set_review (λ r, r .[ ReviewRun.failure_code := None ] .[ ReviewRun.error := None ]
                     .[ ReviewRun.validation_warnings_json := Some warnings ])
    (t .[ Task.status := "running" ] .[ Task.stage := Some stage ]
       .[ Task.completed_at := None ] .[ Task.available_at := available_at ]).

(** The session of a run is given up. *)
Definition forget_session : Task.t → Task.t :=
  set_review (λ r,
    r .[ ReviewRun.agent_session_id := None ] .[ ReviewRun.agent_status := None ]
      .[ ReviewRun.agent_provider := None ] .[ ReviewRun.agent_model := None ]
      .[ ReviewRun.agent_thinking_level := None ]).

(** How often the start of the session was retried. *)
Definition start_retries (r : ReviewRun.t) : Z :=
  Z.of_nat (length (filter (λ w, Is_true (has_code "pi_agent_start_retry" w)) (warnings_of r))).

Definition session_retry_warnings (r : ReviewRun.t) : list json :=
  if existsb (has_code "pi_agent_session_retry") (warnings_of r) then warnings_of r
  else warnings_of r ++
       [warning "pi_agent_session_retry"
          (or_else (ReviewRun.error r) "pi-agent session request temporarily failed.")].

Definition start_retry_warning (r : ReviewRun.t) : json :=
  JObj [("code", JStr "pi_agent_start_retry");
        ("message", JStr (or_else (ReviewRun.error r)
           "pi-agent runtime infrastructure start failure."));
        ("retry", JInt (start_retries r + 1))].

Definition _schedule_pi_agent_retry (run_id : string) (settings : WorkerSettings.t) : SM bool :=
  tr ← load_run run_id;
  let r := tr.2 in
  if negb (bool_decide (ReviewRun.failure_code r = Some "pi_agent_infrastructure_error"))
  then mret false
  else if truthy (ReviewRun.agent_session_id r) then
    now ← utc_now;
    modify run_id (resume_run "waiting_for_agent" (session_retry_warnings r)
                     (now + WorkerSettings.worker_poll_interval settings)) ;;
    commit ;;
    mret true
  else if WorkerSettings.retry_max_attempts settings <=? start_retries r then mret false
  else
    let delay := WorkerSettings.retry_initial_delay_seconds settings * 2 ^ start_retries r in
    now ← utc_now;
    modify run_id (λ t, forget_session (resume_run "retrying_agent_start"
      (warnings_of r ++ [start_retry_warning r]) (now + delay * second) t)) ;;
    commit ;;
    mret true.

(** ** Executing a run *)

Context `{PiAgentRuntime} `{GitWorkspace} `{Host} `{CheckoutRegistry} `{WorkerProviders}
  `{ResultSchema} `{ProviderRegistry}.

Definition _fetch_changed_files (run_id : string) : SM (list ChangedFile.t) :=
  except_provider
    (tr ← load_run run_id;
     if offers_changed_files (ReviewRun.provider tr.2)
     then provider_changed_files (ReviewRun.provider tr.2) tr.2
     else mret [])
    (λ message,
      modify run_id (add_warning (warning "changed_files_lookup_failed"
        ("Using summary-only fallback: " +:+ message))) ;;
      commit ;;
      mret []).

(** The comment of a run is not ready: its placeholder is requested. *)
Definition await_placeholder (run_id : string) (slot : option ReviewCommentSlot.t) : SM string :=
  (match slot with
   | Some slot =>
       when (bool_decide (ReviewCommentSlot.status slot = "ready"))
         (modify (ReviewCommentSlot.id slot) (λ s, s .[ ReviewCommentSlot.status := "pending" ]))
   | None => mret tt
   end) ;;
  _ ← ensure_review_placeholder_requested run_id;
  commit ;;
  mret run_id.

Definition slot_usable (slot : option ReviewCommentSlot.t) : bool :=
  match slot with
  | Some slot => bool_decide (ReviewCommentSlot.status slot = "ready")
                 && truthy (ReviewCommentSlot.provider_comment_id slot)
  | None => false
  end.

(** The workspace of a run, or the run that was failed for want of it. *)
Definition run_workspace (run_id : string) (settings : WorkerSettings.t)
    (context : PullRequestContext.t) : SM (() + string) :=
  tr ← load_run run_id;
  if truthy (ReviewRun.workspace_path tr.2) then mret (inl tt)
  else
    prepared ← try_workspace settings context;
    match prepared with
    | PreparationRaised message =>
        id ← fail_run run_id "workspace_failed" (Some message); mret (inr id)
    | PreparationFailed code message =>
        id ← fail_run run_id (or_else code "workspace_failed") message; mret (inr id)
    | Prepared path =>
        modify run_id (set_review (λ r, r .[ ReviewRun.workspace_path := Some path ])) ;;
        commit ;;
        mret (inl tt)
    end.

(** A run whose session failed is retried or reported. *)
Definition retry_or_report (run_id : string) (settings : WorkerSettings.t) : SM string :=
  scheduled ← _schedule_pi_agent_retry run_id settings;
  when (negb scheduled) (publish_review_run_status_comment run_id "failed") ;;
  mret run_id.

Definition run_status (run_id : string) : SM string :=
  t ← load (R := Task.t) run_id; mret (Task.status t).

(** The session of a run, started if it has none. *)
Definition run_session (run_id : string) (settings : WorkerSettings.t) : SM (() + string) :=
  tr ← load_run run_id;
  if truthy (ReviewRun.agent_session_id tr.2) then mret (inl tt)
  else
    _ ← start_review_session run_id (WorkerSettings.agents settings)
          (ReviewRun.workspace_path tr.2);
    status ← run_status run_id;
    if bool_decide (status = "failed")
    then id ← retry_or_report run_id settings; mret (inr id)
    else mret (inl tt).

(** The session has no result yet. *)
Definition poll_later (run_id : string) (settings : WorkerSettings.t) : SM string :=
  now ← utc_now;
  modify run_id (λ t,
    (if bool_decide (Task.stage t = Some "waiting_for_human") then t
     else t .[ Task.stage := Some (or_else (Task.stage t) "waiting_for_agent") ])
    .[ Task.available_at := now + WorkerSettings.worker_poll_interval settings ]) ;;
  commit ;;
  mret run_id.

Definition line_comments_unsupported (provider : string) : json :=
  warning "line_comments_unsupported"
    ("Provider " +:+ repr_string provider +:+ " does not support line "
     +:+ "comments; the summary was queued for delivery.").

(** The comments on lines, after the result was collected. *)
Definition publish_run_lines (run_id : string) (changed_files : list ChangedFile.t) : SM string :=
  tr ← load_run run_id;
  let provider := ReviewRun.provider tr.2 in
  config ← get_or_create_review_config provider (ReviewRun.repo_full_name tr.2) "code-review"
             "pr-assistant";
  when (ReviewConfig.line_comments_enabled config)
    (if has_capability provider LineCommentsCapability
     then _enqueue_review_line_comments run_id changed_files
     else modify run_id (add_warning (line_comments_unsupported provider)) ;; commit) ;;
  mret run_id.

(** The result of a completed session is collected. *)
Definition collect_run (run_id : string) (raw : json) : SM string :=
  changed_files ← _fetch_changed_files run_id;
  collected ← try_except
    (raw_output ← lift (raw_output_of raw);
     _ ← collect_review_result run_id raw_output (Some changed_files);
     mret true)
    (λ e,
      t ← load (R := Task.t) run_id;
      when (negb (bool_decide (Task.execution_status t = "failed")))
        (end_run run_id "worker_exception" (Some (exn_str e)) ;;
         publish_review_run_status_comment run_id "failed") ;;
      mret false);
  if (collected : bool) then publish_run_lines run_id changed_files else mret run_id.

(** From the synchronised session of a run on. *)
Definition continue_run (run_id : string) (settings : WorkerSettings.t) : SM string :=
  _ ← sync_review_session run_id;
  tr ← load_run run_id;
  if bool_decide (Task.status tr.1 = "failed") then retry_or_report run_id settings
  else if bool_decide (Task.status tr.1 = "cancelled") then mret run_id
  else
    match (if bool_decide (ReviewRun.agent_status tr.2 = Some "completed")
           then ReviewRun.result_raw_json tr.2 else None) with
    | None => poll_later run_id settings
    | Some raw => collect_run run_id raw
    end.

(** The body of the [try] of [process_next_review_run]. *)
Definition execute_run (run_id : string) (settings : WorkerSettings.t) : SM string :=
  slot ← slot_of_run run_id;
  if negb (slot_usable slot) then await_placeholder run_id slot
  else
    context ← _review_run_context run_id;
    match context with
    | None => fail_run run_id "missing_pr_context"
                (Some "Pull request context is required for automatic execution.")
    | Some context =>
        unless_returned (run_workspace run_id settings context) (λ _,
        unless_returned (run_session run_id settings) (λ _, continue_run run_id settings))
    end.

(** [except Exception as exc]: the run fails, keeping the cause it already has. *)
Definition run_crashed (run_id : string) (e : exn) : SM string :=
  tr ← load_run run_id;
  end_run run_id (or_else (ReviewRun.failure_code tr.2) "worker_exception")
    (Some (or_else (ReviewRun.error tr.2) (exn_str e))) ;;
  publish_review_run_status_comment run_id "failed" ;;
  mret run_id.

(** A run that was claimed. *)
Definition process_run (run_id : string) (settings : WorkerSettings.t) : SM string :=
  tr ← load_run run_id;
  let provider := ReviewRun.provider tr.2 in
  if negb (has_capability provider ReviewSummaryCapability) then
    end_run run_id "provider_capability_missing"
      (Some ("Provider " +:+ repr_string provider +:+ " does not support publish_review_summary.")) ;;
    _ ← release_review_run_lock run_id;
    mret run_id
  else
    finally (try_except (execute_run run_id settings) (run_crashed run_id))
      (_ ← release_review_run_lock run_id; mret tt).

Definition process_next_review_run (settings : WorkerSettings.t) (worker_id : string)
    : SM (option string) :=
  policy ← lift (policy_from_settings settings);
  claimed ← acquire_next_review_run worker_id (WorkerSettings.worker_lock_seconds settings) None
              (Some policy);
  match claimed with
  | None => mret None
  | Some run_id => id ← process_run run_id settings; mret (Some id)
  end.

(** ** Timeouts *)

Definition _get_internal_event (run_id internal_event : string)
    : SM (option ProviderEventInbox.t) :=
  l ← select (λ e, bool_decide (ProviderEventInbox.provider e = "internal")
                   && bool_decide (ProviderEventInbox.review_run_id e = Some run_id)
                   && bool_decide (ProviderEventInbox.internal_event e = Some internal_event));
  scalar_one_or_none l.

Definition emitted_at (kind : timeout_kind) (r : ReviewRun.t) : option Z :=
  match kind with
  | soft => ReviewRun.soft_timeout_emitted_at r
  | hard => ReviewRun.hard_timeout_emitted_at r
  end.

(** The assignments of a timeout to its run. *)
Definition mark_timeout (kind : timeout_kind) (now : Z) (t : Task.t) : Task.t :=
  let t := t .[ Task.stage := Some (timeout_event kind) ] in
  match kind with
  | soft => set_review (λ r, r .[ ReviewRun.soft_timeout_emitted_at := Some now ]) t
  | hard =>
      set_review (λ r, r .[ ReviewRun.hard_timeout_emitted_at := Some now ]
                         .[ ReviewRun.failure_code := Some "hard_timeout" ]
                         .[ ReviewRun.error := Some "Review run exceeded hard timeout." ])
        (t .[ Task.status := "failed" ] .[ Task.completed_at := Some now ]
           .[ Task.lock_owner := None ] .[ Task.locked_until := None ])
  end.

(** The event of a timeout. *)
Definition new_timeout_event (run_id : string) (r : ReviewRun.t) (kind : timeout_kind) (now : Z)
    : SM ProviderEventInbox.t :=
  id ← uuid4;
  created_at ← utc_now;
  let event := timeout_event kind in
  mret (ProviderEventInbox.mk id "internal" (run_id +:+ ":" +:+ event) "review_run"
    (Some (kind_str kind)) (Some event) (Some (ReviewRun.repo_full_name r))
    (Some (ReviewRun.pull_request_number r)) (Some (ReviewRun.head_sha r))
    ("internal:" +:+ run_id +:+ ":" +:+ event)
    (Some ("internal:" +:+ ReviewRun.provider r +:+ ":" +:+ ReviewRun.repo_full_name r +:+ ":"
           +:+ str_int (ReviewRun.pull_request_number r) +:+ ":timeout"))
    (sha256_hexdigest (run_id +:+ String "010" event))
    (JObj [("review_run_id", JStr run_id); ("timeout_kind", JStr (kind_str kind))])
    "received" None None (Some run_id) created_at (Some now)).

Definition emit_timeout_event (run_id : string) (kind : timeout_kind) (now : option Z)
    : SM (option ProviderEventInbox.t) :=
  found ← get_review_run run_id;
  match found with
  | None => mret None
  | Some _ =>
      tr ← load_run run_id;
      if bool_decide (Task.status tr.1 ∈ TERMINAL_STATUSES) then mret None
      else
        now ← or_now now;
        match emitted_at kind tr.2 with
        | Some _ => _get_internal_event run_id (timeout_event kind)
        | None =>
            event ← new_timeout_event run_id tr.2 kind now;
            modify run_id (mark_timeout kind now) ;;
            insert event ;;
            commit ;;
            mret (Some event)
        end
  end.

Definition _cancel_pi_agent_after_hard_timeout (run_id : string) : SM () :=
  tr ← load_run run_id;
  match or_none (ReviewRun.agent_session_id tr.2) with
  | None => mret tt
  | Some session_id =>
      except_client_error (_ ← cancel_session session_id; mret tt)
        (λ message _,
          modify run_id (set_review (λ r, r .[ ReviewRun.error := Some
            (or_else (ReviewRun.error r) "Review run exceeded hard timeout."
             +:+ " pi-agent cleanup failed: " +:+ message) ])) ;;
          commit)
  end.

(** One run: whether it was touched. *)
Definition time_out_run (settings : WorkerSettings.t) (now : Z) (run_id : string) : SM bool :=
  tr ← load_run run_id;
  elapsed ← lift (elapsed_since now (default (Task.created_at tr.1) (Task.started_at tr.1)));
  if (WorkerSettings.review_run_timeout_seconds settings * second <=? elapsed)
     && bool_decide (ReviewRun.hard_timeout_emitted_at tr.2 = None)
  then
    _ ← emit_timeout_event run_id hard (Some now);
    refreshed ← get_review_run run_id;
    match refreshed with
    | None => mret false
    | Some _ =>
        _cancel_pi_agent_after_hard_timeout run_id ;;
        publish_review_run_status_comment run_id "failed" ;;
        mret true
    end
  else if (WorkerSettings.review_run_soft_timeout_seconds settings * second <=? elapsed)
          && bool_decide (ReviewRun.soft_timeout_emitted_at tr.2 = None)
  then
    _ ← emit_timeout_event run_id soft (Some now);
    refreshed ← get_review_run run_id;
    match refreshed with
    | None => mret false
    | Some _ => publish_review_run_status_comment run_id "delayed" ;; mret true
    end
  else mret false.

Definition process_review_run_timeouts (settings : WorkerSettings.t) (now : option Z)
    : SM (list string) :=
  now ← or_now now;
  l ← select (run_where (λ t _, bool_decide (Task.status t ∈ WORKER_ACTIVE_STATUSES)));
  touched_by (time_out_run settings now) (Task.id <$> l).
End review_worker.
