(* ===== verification/WorkerLoop.v ===== *)
(** * The worker process

    Model of [src/src/review_orchestrator/application/worker_cli.py]: one polling pass of the
    process runs the handlers of its mode, each in a database session of its own; passes
    follow each other until one raises.  Sleeping between idle passes changes nothing. *)
From S2P Require Import Prelude PyText Json World Models Scheduler Delivery ReviewResults PiAgent SessionArchives AgentSessions Workspaces WorkerCommon AgentWorker ReviewWorker.
#[global] Open Scope Z_scope.
#[global] Open Scope orch_scope.

Inductive worker_mode := all_handlers | delivery_only | execution_only.

Definition delivers (mode : worker_mode) : bool :=
  match mode with execution_only => false | _ => true end.
Definition executes (mode : worker_mode) : bool :=
  match mode with delivery_only => false | _ => true end.

(** [async with session_factory() as session: m]: a session starts from what is committed and
    drops what it has not committed. *)
Definition in_session {A} (m : SM A) : SM A := rollback ;; finally m rollback.

Section worker.
Context `{Runtime} `{PiAgentRuntime} `{GitWorkspace} `{Host} `{CheckoutRegistry}
  `{WorkerProviders} `{TaskResultSchema} `{ResultSchema} `{ProviderRegistry}.

Definition delivery_step (settings : WorkerSettings.t) (worker_id : string) : SM (option string) :=
  process_next_delivery (worker_id +:+ ":delivery") (WorkerSettings.worker_lock_seconds settings)
    (WorkerSettings.retry_initial_delay_seconds settings) None.

(** The handlers of the execution: the task and the run that were processed. *)
Definition execution_steps (settings : WorkerSettings.t) (worker_id : string)
    : SM (option string * option string) :=
  _ ← in_session (process_agent_task_timeouts settings None);
  _ ← in_session (process_review_run_timeouts settings None);
  agent_task ← in_session (process_next_agent_task worker_id (Some settings) true);
  review_run ← in_session (process_next_review_run settings worker_id);
  mret (agent_task, review_run).

(** One pass: whether there was nothing to do. *)
Definition worker_pass (settings : WorkerSettings.t) (mode : worker_mode) (worker_id : string)
    : SM bool :=
  delivery ← (if delivers mode then in_session (delivery_step settings worker_id) else mret None);
  executed ← (if executes mode then execution_steps settings worker_id else mret (None, None));
  mret (bool_decide (delivery = None) && bool_decide (executed.1 = None)
        && bool_decide (executed.2 = None)).

(** The first [passes] rounds of the loop of [run_worker]; with [once] there is one. *)
Fixpoint run_worker (settings : WorkerSettings.t) (mode : worker_mode) (worker_id : string)
    (passes : nat) : SM () :=
  match passes with
  | O => mret tt
  | S passes =>
      _ ← worker_pass settings mode worker_id;
      run_worker settings mode worker_id passes
  end.
End worker.
