(* ===== verification/WorkerInvariants.v ===== *)
(** * Invariants that survive the worker

    The worker drives the scheduler, the outbox and the use cases.  [Kept] is the interface
    between an invariant of the database and the worker: an invariant that the scheduler's
    and the outbox's operations keep, and that does not depend on the tables the use cases
    write, is kept by every pass of the worker, whatever the agent runtime, the machine and
    the validation library answer, and wherever an exception strikes. *)
From Stdlib Require Import Ascii.
From S2P Require Import Prelude PyText Json World Models Invariants Scheduler SchedulerAdmin SchedulerFacts Delivery DeliveryInvariant ReviewResults Reconciliation ReviewRuns PiAgent SessionArchives AgentSessions Workspaces WorkerCommon AgentWorker ReviewWorker WorkerLoop.
#[global] Open Scope Z_scope.
#[global] Open Scope orch_scope.

Class Kept (I : Session → Prop) `{Runtime} `{CheckoutRegistry} `{WorkerProviders}
    `{ProviderRegistry} : Prop := {
  #[global] kept_tables :: TableInvariant I;
  kept_enqueue a b c d e f g h i j : keeps I (enqueue_delivery a b c d e f g h i j);
  kept_release a b c d : keeps I (release_task_claim a b c d);
  kept_publication p t st : keeps I (publish_agent_task_comment p t st);
  kept_checkout p r u : keeps I (provider_checkout p r u);
  kept_context p a : keeps I (provider_context p a);
  kept_changed_files p r : keeps I (provider_changed_files p r)
}.

(** ... and by what takes up work. *)
Class Driven (I : Session → Prop) `{Kept I} : Prop := {
  kept_claim a b c d e f : keeps I (claim_next_task a b c d e f);
  kept_deliver a b c d : keeps I (process_next_delivery a b c d)
}.

(** Walks a computation of the worker. *)
Ltac worker_step :=
  lazymatch goal with
  | |- keeps _ (except_integrity _ _) => unfold except_integrity
  | |- keeps _ (except_client_error _ _) => unfold except_client_error
  | |- keeps _ (except_provider _ _) => unfold except_provider
  | |- keeps _ (except_git _ _) => unfold except_git
  | |- keeps _ (in_session _) => unfold in_session
  | _ => kept_step
  end.
Ltac kept_auto ::= repeat worker_step; eauto 3 with keeps.

Section worker.
Context `{Runtime} `{PiAgentRuntime} `{GitWorkspace} `{Host} `{CheckoutRegistry}
  `{WorkerProviders} `{TaskResultSchema} `{ResultSchema} `{ProviderRegistry}.
Context (I : Session → Prop) `{!Kept I}.
Hint Resolve kept_enqueue kept_release kept_publication kept_checkout kept_context
  kept_changed_files : keeps.

Lemma kept_load_run id : keeps I (load_run id).
Proof. unfold load_run. kept_auto. Qed.
Lemma kept_load_command id : keeps I (load_command id).
Proof. unfold load_command. kept_auto. Qed.
Lemma kept_get_run id : keeps I (get_review_run id).
Proof. unfold get_review_run. kept_auto. Qed.
Lemma kept_slot_of_run id : keeps I (slot_of_run id).
Proof. unfold slot_of_run. kept_auto. Qed.
Hint Resolve kept_load_run kept_load_command kept_get_run kept_slot_of_run : keeps.
Lemma kept_placeholder id : keeps I (ensure_review_placeholder_requested id).
Proof. unfold ensure_review_placeholder_requested, create_slot, request_placeholder. kept_auto. Qed.
Hint Resolve kept_placeholder : keeps.
Lemma kept_report id status b : keeps I (enqueue_review_comment_status id status b).
Proof. unfold enqueue_review_comment_status. kept_auto. Qed.
Hint Resolve kept_report : keeps.

(** *** Requested reviews *)

Lemma kept_latest_by_head a b c d : keeps I (get_latest_review_run_by_head a b c d).
Proof. apply keeps_gets. Qed.
Lemma kept_new_run a b c d e : keeps I (new_review_run a b c d e).
Proof. unfold new_review_run. kept_auto. Qed.
Lemma kept_identity_context a b c : keeps I (context_by_identity a b c).
Proof. unfold context_by_identity. kept_auto. Qed.
Hint Resolve kept_latest_by_head kept_new_run kept_identity_context : keeps.
Lemma kept_run_record a b c d : keeps I (_create_review_run_record a b c d).
Proof. unfold _create_review_run_record. kept_auto. Qed.
Lemma kept_run_context id : keeps I (_pull_request_context_for_run id).
Proof. unfold _pull_request_context_for_run. kept_auto. Qed.
Hint Resolve kept_run_record kept_run_context : keeps.
Lemma kept_source_availability a b c d : keeps I (_get_source_review_action_availability a b c d).
Proof. unfold _get_source_review_action_availability. kept_auto. Qed.
Hint Resolve kept_source_availability : keeps.
Lemma kept_availability a b c d : keeps I (action_availability a b c d).
Proof.
  unfold action_availability, get_review_run_retry_availability, get_review_run_rerun_availability.
  kept_auto.
Qed.
Hint Resolve kept_availability : keeps.
Lemma kept_revision a b c : keeps I (requested_revision a b c).
Proof. unfold requested_revision, reject. kept_auto. Qed.
Lemma kept_supersede id : keeps I (supersede_older_review_runs id).
Proof. unfold supersede_older_review_runs. kept_auto. Qed.
Hint Resolve kept_revision kept_supersede : keeps.
Lemma kept_review_request r : keeps I (handle_review_requested r).
Proof. unfold handle_review_requested, reject. kept_auto. Qed.
Hint Resolve kept_review_request : keeps.

(** *** Agent sessions *)

Lemma kept_request method path payload : keeps I (_request method path payload).
Proof. unfold _request. kept_auto. Qed.
Hint Resolve kept_request : keeps.
Lemma kept_start_session a b : keeps I (start_session a b).
Proof. unfold start_session, start_agent_session. kept_auto. Qed.
Lemma kept_start_instruction a b : keeps I (start_instruction_session a b).
Proof. unfold start_instruction_session, start_agent_session. kept_auto. Qed.
Lemma kept_get_session id : keeps I (get_session id).
Proof. unfold get_session. kept_auto. Qed.
Lemma kept_cancel_session id : keeps I (cancel_session id).
Proof. unfold cancel_session. kept_auto. Qed.
Lemma kept_attempt {A} (m : SM A) : keeps I m → keeps I (attempt_client m).
Proof. intros Hm. unfold attempt_client. kept_auto. Qed.
Hint Resolve kept_start_session kept_start_instruction kept_get_session kept_cancel_session
  kept_attempt : keeps.
Lemma kept_config a b c d : keeps I (get_or_create_review_config a b c d).
Proof. unfold get_or_create_review_config. kept_auto. Qed.
Lemma kept_archive id runtime : keeps I (archive_agent_session id runtime).
Proof. unfold archive_agent_session, _get_or_create_attempt. kept_auto. Qed.
Lemma kept_session_of_run id : keeps I (_review_session_for_run id).
Proof. unfold _review_session_for_run. kept_auto. Qed.
Hint Resolve kept_config kept_archive kept_session_of_run : keeps.
Lemma kept_mark_failed a b c : keeps I (_mark_failed a b c).
Proof. unfold _mark_failed, with_session. kept_auto. Qed.
Hint Resolve kept_mark_failed : keeps.
Lemma kept_start_review a b c : keeps I (start_review_session a b c).
Proof. unfold start_review_session, start_preconditions, start_failed. kept_auto. Qed.
Lemma kept_sync id : keeps I (sync_review_session id).
Proof. unfold sync_review_session, with_session. kept_auto. Qed.
Hint Resolve kept_start_review kept_sync : keeps.

(** *** Results *)

Lemma kept_store_findings id run previous current parsed stats seen :
  keeps I (store_findings id run previous current parsed stats seen).
Proof.
  revert stats seen. induction parsed as [|p parsed IH]; intros stats seen; cbn [store_findings];
    [apply keeps_ret|]. destruct (current !! _); [apply IH|]. unfold new_finding. kept_auto; apply IH.
Qed.
Lemma kept_resolve_missing id previous seen stats :
  keeps I (resolve_missing id previous seen stats).
Proof.
  revert stats. induction previous as [|f previous IH]; intros stats; cbn [resolve_missing];
    [apply keeps_ret|]. case_bool_decide; [apply IH|]. kept_auto; apply IH.
Qed.
Hint Resolve kept_store_findings kept_resolve_missing : keeps.
Lemma kept_reconcile id parsed c : keeps I (persist_and_reconcile_findings id parsed c).
Proof.
  unfold persist_and_reconcile_findings, _previous_active_findings, _current_run_findings.
  kept_auto.
Qed.
Hint Resolve kept_reconcile : keeps.
Lemma kept_collect a b c : keeps I (collect_review_result a b c).
Proof. unfold collect_review_result, with_session. kept_auto. Qed.
Hint Resolve kept_collect : keeps.

(** *** Workspaces *)

Lemma kept_file_action a : keeps I (file_action a).
Proof. unfold file_action. kept_auto. Qed.
Lemma kept_rmtree path : keeps I (rmtree path).
Proof. unfold rmtree. kept_auto. Qed.
Lemma kept_exists path : keeps I (exists_ path).
Proof. unfold exists_. kept_auto. Qed.
Lemma kept_run_git command env : keeps I (_run_git command env).
Proof. unfold _run_git. kept_auto. Qed.
Hint Resolve kept_file_action kept_rmtree kept_exists kept_run_git : keeps.
Lemma kept_ensure_commit a b c d : keeps I (_ensure_commit a b c d).
Proof. unfold _ensure_commit. kept_auto. Qed.
Lemma kept_ensure_cache a b c : keeps I (_ensure_cache a b c).
Proof. unfold _ensure_cache. kept_auto. Qed.
Hint Resolve kept_ensure_commit kept_ensure_cache : keeps.
Lemma kept_prepare_git a b c d : keeps I (_prepare_git_workspace a b c d).
Proof. unfold _prepare_git_workspace. kept_auto. Qed.
Lemma kept_get_workspace id : keeps I (get_workspace id).
Proof. unfold get_workspace. kept_auto. Qed.
Lemma kept_checkout_info a b : keeps I (_resolve_workspace_checkout a b).
Proof. unfold _resolve_workspace_checkout. kept_auto. Qed.
Hint Resolve kept_prepare_git kept_get_workspace kept_checkout_info : keeps.
Lemma kept_prepare a b c : keeps I (prepare_workspace a b c).
Proof.
  unfold prepare_workspace, checkout_or_failure, enter_preparing, run_preparation, new_workspace.
  kept_auto.
Qed.
Hint Resolve kept_prepare : keeps.

(** *** Commands and mentions *)

Lemma kept_bound a b c d : keeps I (bound_context a b c d).
Proof. unfold bound_context. kept_auto. Qed.
Hint Resolve kept_bound : keeps.
Lemma kept_task_context id : keeps I (_task_context id).
Proof. unfold _task_context. kept_auto. Qed.
Lemma kept_review_context id : keeps I (_review_run_context id).
Proof. unfold _review_run_context. kept_auto. Qed.
Lemma kept_hydrate id : keeps I (_hydrate_task_context id).
Proof. unfold _hydrate_task_context. kept_auto. Qed.
Hint Resolve kept_task_context kept_review_context kept_hydrate : keeps.
Lemma kept_context_or_hydrated id : keeps I (task_context_or_hydrated id).
Proof. unfold task_context_or_hydrated. kept_auto. Qed.
Lemma kept_comment a b c d e f g h : keeps I (_enqueue_agent_task_comment a b c d e f g h).
Proof. unfold _enqueue_agent_task_comment. kept_auto. Qed.
Hint Resolve kept_context_or_hydrated kept_comment : keeps.
Lemma kept_complete id : keeps I (_complete_command_agent_task id).
Proof. unfold _complete_command_agent_task, enqueue_final_comment. kept_auto. Qed.
Lemma kept_fail a b c : keeps I (_fail_command_agent_task a b c).
Proof. unfold _fail_command_agent_task, enqueue_final_comment. kept_auto. Qed.
Lemma kept_cancel id : keeps I (_cancel_command_agent_task id).
Proof. unfold _cancel_command_agent_task, enqueue_final_comment. kept_auto. Qed.
Lemma kept_instruction a b c : keeps I (_build_agent_instruction a b c).
Proof. unfold _build_agent_instruction. kept_auto. Qed.
Lemma kept_try_workspace a b : keeps I (try_workspace a b).
Proof. unfold try_workspace. kept_auto. Qed.
Hint Resolve kept_complete kept_fail kept_cancel kept_instruction kept_try_workspace : keeps.
Lemma kept_command_context id : keeps I (command_context id).
Proof. unfold command_context. kept_auto. Qed.
Lemma kept_command_workspace a b c : keeps I (prepare_command_workspace a b c).
Proof. unfold prepare_command_workspace. kept_auto. Qed.
Lemma kept_command_session a b c d : keeps I (command_session a b c d).
Proof. unfold command_session, start_command_session, command_start_failed. kept_auto. Qed.
Lemma kept_settle id runtime : keeps I (settle_command id runtime).
Proof. unfold settle_command, command_result, _validate_task_result_references. kept_auto. Qed.
Hint Resolve kept_command_context kept_command_workspace kept_command_session kept_settle : keeps.
Lemma kept_run_command a b c d : keeps I (run_command a b c d).
Proof. unfold run_command. kept_auto. Qed.
Hint Resolve kept_run_command : keeps.
Lemma kept_process_command_task id settings : keeps I (_process_command_agent_task id settings).
Proof.
  unfold _process_command_agent_task, request_command_placeholder, ask_clarification,
    execute_command, wait_for_turn. kept_auto.
Qed.
Lemma kept_release_command id retry_after : keeps I (_release_agent_task_lock id retry_after).
Proof. unfold _release_agent_task_lock. kept_auto. Qed.
Hint Resolve kept_process_command_task kept_release_command : keeps.
Lemma kept_process_command a b c d : keeps I (process_command a b c d).
Proof. unfold process_command. kept_auto. Qed.
Lemma kept_mention_event id context : keeps I (_review_request_event_for_agent_task id context).
Proof. unfold _review_request_event_for_agent_task. kept_auto. Qed.
Hint Resolve kept_process_command kept_mention_event : keeps.
Lemma kept_fail_task a b c : keeps I (_fail_agent_task a b c).
Proof. unfold _fail_agent_task. kept_auto. Qed.
Hint Resolve kept_fail_task : keeps.
Lemma kept_mention id : keeps I (process_mention id).
Proof. unfold process_mention, request_mentioned_review. kept_auto. Qed.
Hint Resolve kept_mention : keeps.
Lemma kept_touched (step : string → SM bool) ids :
  (∀ id, keeps I (step id)) → keeps I (touched_by step ids).
Proof. intros Hstep. induction ids as [|id ids IH]; cbn [touched_by]; kept_auto; apply Hstep. Qed.
Lemma kept_command_timeouts settings now : keeps I (process_agent_task_timeouts settings now).
Proof.
  unfold process_agent_task_timeouts. kept_auto. apply kept_touched. intros id.
  unfold time_out_command. kept_auto.
Qed.
Hint Resolve kept_command_timeouts : keeps.

(** *** Review runs *)

Lemma kept_publish id status : keeps I (publish_review_run_status_comment id status).
Proof. apply kept_report. Qed.
Lemma kept_end_run a b c : keeps I (end_run a b c).
Proof. unfold end_run. kept_auto. Qed.
Lemma kept_retry a b : keeps I (_schedule_pi_agent_retry a b).
Proof. unfold _schedule_pi_agent_retry. kept_auto. Qed.
Hint Resolve kept_publish kept_end_run kept_retry : keeps.
Lemma kept_fail_run a b c : keeps I (fail_run a b c).
Proof. unfold fail_run. kept_auto. Qed.
Lemma kept_retry_or_report a b : keeps I (retry_or_report a b).
Proof. unfold retry_or_report. kept_auto. Qed.
Hint Resolve kept_fail_run kept_retry_or_report : keeps.
Lemma kept_run_workspace a b c : keeps I (run_workspace a b c).
Proof. unfold run_workspace. kept_auto. Qed.
Lemma kept_run_session a b : keeps I (run_session a b).
Proof. unfold run_session, run_status. kept_auto. Qed.
Lemma kept_fetch_files id : keeps I (_fetch_changed_files id).
Proof. unfold _fetch_changed_files. kept_auto. Qed.
Hint Resolve kept_run_workspace kept_run_session kept_fetch_files : keeps.
Lemma kept_collect_run id raw : keeps I (collect_run id raw).
Proof. unfold collect_run, publish_run_lines, _enqueue_review_line_comments. kept_auto. Qed.
Hint Resolve kept_collect_run : keeps.
Lemma kept_execute a b : keeps I (execute_run a b).
Proof. unfold execute_run, await_placeholder, continue_run, poll_later. kept_auto. Qed.
Lemma kept_release_run id : keeps I (release_review_run_lock id).
Proof. unfold release_review_run_lock. kept_auto. Qed.
Hint Resolve kept_execute kept_release_run : keeps.
Lemma kept_process_run a b : keeps I (process_run a b).
Proof. unfold process_run, run_crashed. kept_auto. Qed.
Hint Resolve kept_process_run : keeps.
Lemma kept_timeout_event a b c : keeps I (emit_timeout_event a b c).
Proof. unfold emit_timeout_event, _get_internal_event, new_timeout_event. kept_auto. Qed.
Hint Resolve kept_timeout_event : keeps.
Lemma kept_run_timeouts settings now : keeps I (process_review_run_timeouts settings now).
Proof.
  unfold process_review_run_timeouts. kept_auto. apply kept_touched. intros id.
  unfold time_out_run, _cancel_pi_agent_after_hard_timeout. kept_auto.
Qed.
Hint Resolve kept_run_timeouts : keeps.

(** *** The process *)

Context `{!Driven I}.
Hint Resolve kept_claim kept_deliver : keeps.
Lemma kept_next_task a b c : keeps I (process_next_agent_task a b c).
Proof. unfold process_next_agent_task, acquire_next_agent_task. kept_auto. Qed.
Lemma kept_next_run a b : keeps I (process_next_review_run a b).
Proof. unfold process_next_review_run, acquire_next_review_run. kept_auto. Qed.
Hint Resolve kept_next_task kept_next_run : keeps.
Lemma kept_pass settings mode worker_id : keeps I (worker_pass settings mode worker_id).
Proof. unfold worker_pass, execution_steps, delivery_step. kept_auto. Qed.
Lemma kept_worker settings mode worker_id passes :
  keeps I (run_worker settings mode worker_id passes).
Proof.
  induction passes as [|passes IH]; cbn [run_worker]; [apply keeps_ret|].
  apply keeps_bind; [apply kept_pass|done].
Qed.
End worker.
#[export] Hint Resolve kept_enqueue
  kept_claim kept_release kept_deliver kept_publication kept_checkout kept_context kept_changed_files kept_load_run kept_load_command kept_get_run kept_slot_of_run kept_placeholder kept_report
  kept_latest_by_head kept_new_run kept_identity_context kept_run_record kept_run_context
  kept_source_availability kept_availability kept_revision kept_supersede kept_review_request
  kept_request kept_start_session kept_start_instruction kept_get_session kept_cancel_session
  kept_attempt kept_config kept_archive kept_session_of_run kept_mark_failed kept_start_review
  kept_sync kept_store_findings kept_resolve_missing kept_reconcile kept_collect kept_file_action
  kept_rmtree kept_exists kept_run_git kept_ensure_commit kept_ensure_cache kept_prepare_git
  kept_get_workspace kept_checkout_info kept_prepare kept_bound kept_task_context
  kept_review_context kept_hydrate kept_context_or_hydrated kept_comment kept_complete kept_fail
  kept_cancel kept_instruction kept_try_workspace kept_command_context kept_command_workspace
  kept_command_session kept_settle kept_run_command kept_process_command_task kept_release_command
  kept_process_command kept_mention_event kept_fail_task kept_mention kept_next_task kept_touched
  kept_command_timeouts kept_publish kept_end_run kept_retry kept_fail_run kept_retry_or_report
  kept_run_workspace kept_run_session kept_fetch_files kept_collect_run kept_execute
  kept_release_run kept_process_run kept_next_run kept_timeout_event kept_run_timeouts kept_pass
  kept_worker : keeps.
