(* ===== verification/PlatformDiagnostics.v ===== *)
(** * Permission diagnostics

    Model of [src/src/review_orchestrator/integrations/platform_diagnostics.py]: what the
    configured credentials of a platform may do, found out by reading only.  The requests
    are recorded in [sent] like those of the clients; the diagnostics look at the headers of
    the replies, so they have a class of their own for the HTTP library. *)
From Stdlib Require Import Ascii.
From S2P Require Import Prelude PyText Json World Models PlatformClient GitHubClient GitLabClient GitHub GitLab Registry.
#[global] Open Scope Z_scope.
#[global] Open Scope orch_scope.

(** [httpx.Response], or the exception the library raised. *)
Inductive diagnostic_reply :=
  | Unreachable
  | Reply (status_code : Z) (headers : list (string * string)) (content : string).

Class DiagnosticsHttp := {
  diagnostic_exchange : list HttpRequest.t → HttpRequest.t → diagnostic_reply;
  (** the permissions of an App installation, none for a static token, or why they are
      unknown *)
  github_permissions : list HttpRequest.t → string → option (list (string * string)) + string
}.

Module PlatformPermissionCheck.
Record t := mk { name : string; status : string; required : bool; message : string }.
End PlatformPermissionCheck.

Module PlatformPermissionDiagnosticRequest.
Record t := mk { provider : string; repo_full_name : string; pull_request_number : option Z }.
End PlatformPermissionDiagnosticRequest.

Module PlatformPermissionDiagnosticResponse.
Record t := mk {
  provider : string;
  repo_full_name : string;
  pull_request_number : option Z;
  status : string;
  token_configured : bool;
  reported_scopes : list string;
  repository_role : option string;
  rate_limit_remaining : option Z;
  checks : list PlatformPermissionCheck.t
}.
End PlatformPermissionDiagnosticResponse.

Abbreviation Payload := PlatformPermissionDiagnosticRequest.t.
Abbreviation Diagnosis := PlatformPermissionDiagnosticResponse.t.

(** A required check. *)
Definition check (name status message : string) : PlatformPermissionCheck.t :=
  PlatformPermissionCheck.mk name status true message.

(** ** Reading replies *)

Definition header (headers : list (string * string)) (name : string) : option string :=
  snd <$> head (filter (λ kv, py_lower kv.1 = name) headers).

Definition _header_list (headers : list (string * string)) (name : string) : list string :=
  sort_by id (unique_keys (filter (λ item, item ≠ "")
    (map py_strip (py_split "," (default "" (header headers name)))))).

Definition _header_int (headers : list (string * string)) (name : string) : option Z :=
  value ← header headers name; py_int value.

Definition _json_object `{PlatformHttp} (content : string) : json :=
  match parse_json content with
  | Some (JObj fields) => JObj fields
  | _ => JObj []
  end.

Definition _github_role (permissions : json) : option string :=
  let holds (role : string) : bool :=
    match jget permissions role with Some (JBool true) => true | _ => false end in
  head (filter (λ role, Is_true (holds role)) ["admin"; "maintain"; "push"; "triage"; "pull"]).

Definition _gitlab_access_level (permissions : option json) : option Z :=
  match permissions with
  | Some (JObj fields) =>
      let level (key : string) : option Z :=
        match fget fields key with
        | Some (JObj access) => fget access "access_level" ≫= number_of
        | _ => None
        end in
      match omap level ["project_access"; "group_access"] with
      | [] => None
      | n :: l => Some (foldl Z.max n l)
      end
  | _ => None
  end.

Definition gitlab_roles : list (Z * string) :=
  [(50, "owner"); (40, "maintainer"); (30, "developer"); (20, "reporter"); (10, "guest")].

Definition _gitlab_role (access_level : option Z) : option string :=
  access_level ← access_level;
  Some (default "minimal"
    (snd <$> head (filter (λ tr, Is_true (tr.1 <=? access_level)) gitlab_roles))).

(** ** Responses *)

Definition _response (payload : Payload) (checks : list PlatformPermissionCheck.t)
    (token_configured : bool) (scopes : list string) (repository_role : option string)
    (rate_limit_remaining : option Z) : Diagnosis :=
  let statuses := map PlatformPermissionCheck.status
    (filter (λ c, Is_true (PlatformPermissionCheck.required c)) checks) in
  let overall_status :=
    if bool_decide ("failed" ∈ statuses) then "failed"
    else if bool_decide ("unknown" ∈ statuses) || bool_decide ("skipped" ∈ statuses)
    then "degraded" else "healthy" in
  PlatformPermissionDiagnosticResponse.mk
    (PlatformPermissionDiagnosticRequest.provider payload)
    (PlatformPermissionDiagnosticRequest.repo_full_name payload)
    (PlatformPermissionDiagnosticRequest.pull_request_number payload)
    overall_status token_configured scopes repository_role rate_limit_remaining checks.

Definition _unconfigured (payload : Payload) (message : string) : Diagnosis :=
  _response payload [check "token_configured" "failed" message] false [] None None.

Definition _credential_failure (payload : Payload) : Diagnosis :=
  _response payload
    [check "token_available" "failed"
       "GitHub credentials are configured, but a repository token could not be obtained."]
    true [] None None.

Definition _unreachable (payload : Payload) (provider_name : string) : Diagnosis :=
  _response payload
    [check "provider_api_reachable" "failed" ("Could not reach the " +:+ provider_name +:+ " API.")]
    true [] None None.

Definition _denied (payload : Payload) (provider_name : string) (status_code : Z)
    (scopes : list string) (rate_limit_remaining : option Z) : Diagnosis :=
  _response payload
    [check "repository_read" "failed"
       (provider_name +:+ " returned HTTP " +:+ str_int status_code +:+ "; the token is invalid, "
        +:+ "expired, or cannot access this repository.")]
    true scopes None rate_limit_remaining.

Definition _read_check (name resource : string) (response : diagnostic_reply)
    : PlatformPermissionCheck.t :=
  match response with
  | Unreachable =>
      check name "failed" ("Could not reach the provider API to read the " +:+ resource +:+ ".")
  | Reply status_code _ _ =>
      if status_code =? 200
      then check name "passed" ("The configured token can read the " +:+ resource +:+ ".")
      else check name "failed" ("The provider returned HTTP " +:+ str_int status_code +:+ " for the "
             +:+ resource +:+ ".")
  end.

(** The check of a permission that was granted or not. *)
Definition granted (name : string) (verified : bool) (otherwise yes no : string)
    : PlatformPermissionCheck.t :=
  if verified then check name "passed" yes else check name otherwise no.

(** [permissions.get(name)]. *)
Definition permission (permissions : list (string * string)) (name : string) : option string :=
  snd <$> head (filter (λ kv, kv.1 = name) permissions).

Definition github_app_write_checks (permissions : list (string * string))
    : list PlatformPermissionCheck.t :=
  map (λ '(name, key, label),
    granted name (bool_decide (permission permissions key = Some "write")) "failed"
      ("The GitHub App Installation grants " +:+ label +:+ " write access.")
      ("The GitHub App Installation lacks " +:+ label +:+ " write access."))
    [("summary_comment_write", "issues", "Issues");
     ("line_comment_write", "pull_requests", "Pull requests")].

Definition token_may_write (oauth_scopes : list string) : bool :=
  bool_decide ("repo" ∈ oauth_scopes) || bool_decide ("public_repo" ∈ oauth_scopes).

Definition github_token_write_checks (oauth_scopes : list string) (role : option string)
    : list PlatformPermissionCheck.t :=
  map (λ '(name, label),
    granted name (token_may_write oauth_scopes) "unknown"
      ("The reported OAuth scope permits " +:+ label +:+ " writes.")
      ("Repository role " +:+ default "None" (repr_string <$> role) +:+ " was reported, but GitHub does not "
       +:+ "expose this token's fine-grained " +:+ label +:+ " grant on a read-only request."))
    [("summary_comment_write", "issue comment");
     ("line_comment_write", "pull request review comment")].

Definition contents_check (permissions : list (string * string)) : PlatformPermissionCheck.t :=
  granted "contents_read"
    (bool_decide (permission permissions "contents" ∈ [Some "read"; Some "write"])) "failed"
    "The GitHub App Installation grants repository contents read."
    "The GitHub App Installation lacks Contents read access.".

Definition gitlab_may_write (scopes : list string) (access_level : option Z) : bool :=
  bool_decide ("api" ∈ scopes)
  || match access_level with Some level => 30 <=? level | None => false end.

Definition gitlab_write_checks (verified : bool) : list PlatformPermissionCheck.t :=
  [granted "summary_comment_write" verified "unknown"
     "The reported scope or project role permits merge request notes."
     ("GitLab did not report an API scope or project role that can prove note write access "
      +:+ "without creating a note.");
   granted "line_comment_write" verified "unknown"
     "The reported scope or project role permits merge request discussions."
     ("GitLab did not report enough information to prove discussion write access without "
      +:+ "creating a discussion.")].

(** [quote(value, safe="/")]. *)
Fixpoint quoted_path (value : string) : string :=
  match value with
  | "" => ""
  | String c s => (if char_eqb c "/" then "/" else quote_char c) +:+ quoted_path s
  end.

(** ** Diagnosing *)

Section diagnostics.
Context `{PlatformHttp} `{DiagnosticsHttp}.

Definition _safe_get (service path token : string) : SM diagnostic_reply := λ s,
  let request := HttpRequest.mk service "GET" path [] (Some token) None in
  (Return (diagnostic_exchange (sent s) request), s .[ sent := sent s ++ [request] ]).

(** The check of the pull request, if one is given. *)
Definition pull_request_check (payload : Payload) (resource : string)
    (get : Z → SM diagnostic_reply) : SM PlatformPermissionCheck.t :=
  match PlatformPermissionDiagnosticRequest.pull_request_number payload with
  | None => mret (check "pull_request_read" "skipped" "No pull_request_number was supplied.")
  | Some number =>
      response ← get number;
      mret (_read_check "pull_request_read" resource response)
  end.

Definition _append_github_pr_check (payload : Payload) (token path : string)
    : SM PlatformPermissionCheck.t :=
  pull_request_check payload "pull request"
    (λ number, _safe_get "github" ("/repos/" +:+ path +:+ "/pulls/" +:+ str_int number) token).

Definition _append_gitlab_mr_check (payload : Payload) (token path : string)
    : SM PlatformPermissionCheck.t :=
  pull_request_check payload "merge request"
    (λ number, _safe_get "gitlab"
       ("/projects/" +:+ path +:+ "/merge_requests/" +:+ str_int number) token).

(** [client.get_permissions]. *)
Definition get_permissions (repo_full_name : string) : SM (option (list (string * string))) :=
  found ← gets (λ s, github_permissions (sent s) repo_full_name);
  match found with
  | inl permissions => mret permissions
  | inr message => raise (GitHubClientError message)
  end.

(** The token and the permissions, or nothing when they cannot be obtained. *)
Definition github_credentials (repo_full_name : string)
    : SM (option (option string * option (list (string * string)))) :=
  try_except
    (token ← get_token repo_full_name;
     permissions ← get_permissions repo_full_name;
     mret (Some (token, permissions)))
    (λ e, match e with GitHubClientError _ => mret None | _ => raise e end).

(** After the repository could be read. *)
Definition diagnose_github_repository (payload : Payload) (token path : string)
    (app_permissions : option (list (string * string))) (oauth_scopes scopes : list string)
    (rate_limit : option Z) (body : json) : SM Diagnosis :=
  let permissions := match jget body "permissions" with
                     | Some (JObj fields) => JObj fields
                     | _ => JObj []
                     end in
  let role := match app_permissions with
              | Some _ => Some "installation"
              | None => _github_role permissions
              end in
  pr_check ← _append_github_pr_check payload token path;
  let readable := check "repository_read" "passed" "The configured token can read the repository." in
  let checks := match app_permissions with
                | Some app => [readable; contents_check app; pr_check] ++ github_app_write_checks app
                | None => [readable; pr_check] ++ github_token_write_checks oauth_scopes role
                end in
  mret (_response payload checks true scopes role rate_limit).

Definition diagnose_github_permissions (payload : Payload) : SM Diagnosis :=
  let repository := PlatformPermissionDiagnosticRequest.repo_full_name payload in
  found ← github_credentials repository;
  match found with
  | None => mret (_credential_failure payload)
  | Some (token, app_permissions) =>
      match or_none token with
      | None => mret (_unconfigured payload "GitHub App or static token credentials are not configured.")
      | Some token =>
          let path := quoted_path repository in
          response ← _safe_get "github" ("/repos/" +:+ path) token;
          match response with
          | Unreachable => mret (_unreachable payload "GitHub")
          | Reply status_code headers content =>
              let oauth_scopes := _header_list headers "x-oauth-scopes" in
              let scopes := match app_permissions with
                            | Some app => sort_by id (map (λ kv, kv.1 +:+ ":" +:+ kv.2) app)
                            | None => oauth_scopes
                            end in
              let rate_limit := _header_int headers "x-ratelimit-remaining" in
              if negb (status_code =? 200)
              then mret (_denied payload "GitHub" status_code scopes rate_limit)
              else diagnose_github_repository payload token path app_permissions oauth_scopes scopes
                     rate_limit (_json_object content)
          end
      end
  end.

Definition diagnose_gitlab_permissions (payload : Payload) : SM Diagnosis :=
  match or_none gitlab_token with
  | None => mret (_unconfigured payload "GITLAB_API_TOKEN is not configured.")
  | Some token =>
      let path := _quoted (PlatformPermissionDiagnosticRequest.repo_full_name payload) in
      response ← _safe_get "gitlab" ("/projects/" +:+ path) token;
      match response with
      | Unreachable => mret (_unreachable payload "GitLab")
      | Reply status_code headers content =>
          let scopes := _header_list headers "x-oauth-scopes" in
          let rate_limit := _header_int headers "ratelimit-remaining" in
          if negb (status_code =? 200)
          then mret (_denied payload "GitLab" status_code scopes rate_limit)
          else
            let access_level := _gitlab_access_level (jget (_json_object content) "permissions") in
            mr_check ← _append_gitlab_mr_check payload token path;
            let checks :=
              [check "repository_read" "passed" "The configured token can read the project."; mr_check]
              ++ gitlab_write_checks (gitlab_may_write scopes access_level) in
            mret (_response payload checks true scopes (_gitlab_role access_level) rate_limit)
      end
  end.

(** [GitHubPlatform.diagnose_permissions] and [GitLabPlatform.diagnose_permissions]: whether
    the platform was given its settings. *)
Definition github_diagnose `{GitHubSettings} (configured : bool) (payload : Payload) : SM Diagnosis :=
  if configured
  then GitHub.require_client "diagnose_permissions" ;; diagnose_github_permissions payload
  else raise (ProviderCapabilityError "GitHub diagnostics settings are not configured.").

Definition gitlab_diagnose (configured : bool) (payload : Payload) : SM Diagnosis :=
  if configured then diagnose_gitlab_permissions payload
  else raise (ProviderCapabilityError "GitLab diagnostics settings are not configured.").

(** With the registry of the application. *)
Definition diagnose_platform_permissions `{GitHubSettings} (registry : Registry.t)
    (configured : bool) (payload : Payload) : SM Diagnosis :=
  let provider := PlatformPermissionDiagnosticRequest.provider payload in
  lift (_ ← Registry.require_capability registry provider "diagnose_permissions" "diagnose_permissions";
        mret tt) ;;
  if bool_decide (provider = "github") then github_diagnose configured payload
  else if bool_decide (provider = "gitlab") then gitlab_diagnose configured payload
  else raise (ProviderCapabilityError ("Provider " +:+ repr_string provider
                +:+ " does not support diagnose_permissions.")).
End diagnostics.
