(* ===== verification/Schemas.v ===== *)
(** * The bodies of requests

    Model of the bounds that the request schemas of
    [src/src/review_orchestrator/domain/schemas.py] and [integrations/providers.py] declare, and
    of their validators.  A body is the record its schema builds; a request whose body does not
    satisfy its schema is answered with 422. *)
From Stdlib Require Import Ascii.
From S2P Require Import Prelude PyText Json Models SchedulerAdmin Delivery ReviewRuns ProviderCore Workspaces PlatformDiagnostics.
#[global] Open Scope Z_scope.
#[global] Open Scope orch_scope.

(** ** Fields *)

(** [Field(default=None, min_length=lo, max_length=hi)]. *)
Definition text_within (lo hi : Z) (value : option string) : bool :=
  match value with
  | Some v => (lo <=? Z.of_nat (String.length v)) && (Z.of_nat (String.length v) <=? hi)
  | None => true
  end.

(** [Field(default=None, max_length=hi)]. *)
Abbreviation text_up_to := (text_within 0).

(** [Field(min_length=lo, max_length=hi)]. *)
Definition text_bounds (lo hi : Z) (value : string) : bool := text_within lo hi (Some value).

(** [Field(default=None, ge=lo, le=hi)]. *)
Definition number_within (lo hi : Z) (value : option Z) : bool :=
  match value with Some n => (lo <=? n) && (n <=? hi) | None => true end.

(** [Field(default=None, gt=0)]. *)
Definition positive (value : option Z) : bool :=
  match value with Some n => 0 <? n | None => true end.

Definition given {A} (value : option A) : bool :=
  match value with Some _ => true | None => false end.

(** ** Scheduling *)

Definition is_text (value : json) : bool := match value with JStr _ => true | _ => false end.

(** [TaskResourceRequest], as it is dumped. *)
Definition TaskResourceRequest_valid (value : json) : bool :=
  match value with
  | JObj [("keys", JList (key :: keys)); ("units", JInt units)] =>
      forallb is_text (key :: keys) && (0 <? units)
  | _ => false
  end.

(** [str | list[str] | TaskResourceRequest]. *)
Definition resource_value_valid (value : json) : bool :=
  match value with
  | JStr _ => true
  | JList keys => forallb is_text keys
  | _ => TaskResourceRequest_valid value
  end.

(** At least one field of a rescheduling is given. *)
Definition require_task_update (u : TaskSchedulingUpdate.t) : bool :=
  given (TaskSchedulingUpdate.queue u) || given (TaskSchedulingUpdate.priority u)
  || given (TaskSchedulingUpdate.available_at u) || given (TaskSchedulingUpdate.resource_class u)
  || given (TaskSchedulingUpdate.resource_context u).

Definition TaskSchedulingUpdate_valid (u : TaskSchedulingUpdate.t) : bool :=
  text_within 1 64 (TaskSchedulingUpdate.queue u)
  && number_within 0 100 (TaskSchedulingUpdate.priority u)
  && text_within 1 64 (TaskSchedulingUpdate.resource_class u)
  && match TaskSchedulingUpdate.resource_context u with
     | Some context => forallb (λ kv, resource_value_valid kv.2) context
     | None => true
     end
  && require_task_update u.

Definition require_delivery_update (u : DeliverySchedulingUpdate.t) : bool :=
  given (DeliverySchedulingUpdate.queue u) || given (DeliverySchedulingUpdate.priority u)
  || given (DeliverySchedulingUpdate.available_at u)
  || given (DeliverySchedulingUpdate.max_attempts u).

Definition DeliverySchedulingUpdate_valid (u : DeliverySchedulingUpdate.t) : bool :=
  text_within 1 64 (DeliverySchedulingUpdate.queue u)
  && number_within 0 100 (DeliverySchedulingUpdate.priority u)
  && number_within 1 100 (DeliverySchedulingUpdate.max_attempts u)
  && require_delivery_update u.

Definition ResourcePoolUpdate_valid (capacity : Z) (dimension : option string) : bool :=
  positive (Some capacity) && text_within 1 64 dimension.

(** ** Reviews *)

(** The text of a [UUID]: groups of 8, 4, 4, 4 and 12 hexadecimal digits in lower case. *)
Definition hex_digit (c : ascii) : bool :=
  is_digit c || in_range 97 102 c.
Definition UUID_valid (value : string) : bool :=
  let groups := py_split "-" value in
  bool_decide (map String.length groups = [8; 4; 4; 4; 12]%nat) && forallb (str_all hex_digit) groups.

Definition AgentReviewActionRequest_valid (agent_task_id agent_session_id : string)
    (action : ReviewReason) : bool :=
  text_bounds 1 36 agent_task_id && text_bounds 1 128 agent_session_id
  && bool_decide (action ∈ [retry; rerun]).

Definition ReviewSessionStart_valid (workspace_path : option string) : bool :=
  negb (bool_decide (workspace_path = Some "")).

Definition ReviewSessionCancel_valid (reason : string) : bool := text_bounds 1 1000 reason.

Definition ReviewResultCollect_valid (changed_files : list ChangedFile.t) : bool :=
  forallb (λ f, text_bounds 1 1024 (ChangedFile.path f)) changed_files.

(** ** Diagnostics *)

Definition lower_or_digit (c : ascii) : bool :=
  is_digit c || in_range 97 122 c.

(** [^[a-z0-9][a-z0-9_-]*$]. *)
Definition provider_pattern (value : string) : bool :=
  match value with
  | String c rest =>
      lower_or_digit c
      && str_all (λ c, lower_or_digit c || char_eqb c "_" || char_eqb c "-") rest
  | "" => false
  end.

Definition path_character (c : ascii) : bool :=
  lower_or_digit c || in_range 65 90 c || char_eqb c "_" || char_eqb c "." || char_eqb c "-".

(** [^[A-Za-z0-9_.-]+(?:/[A-Za-z0-9_.-]+)+$]: at least two parts, none of them empty. *)
Definition repository_pattern (value : string) : bool :=
  let parts := py_split "/" value in
  (1 <? Z.of_nat (length parts))
  && forallb (λ part, str_all path_character part && negb (bool_decide (part = ""))) parts.

Definition validate_repository_path (repo_full_name : string) : bool :=
  forallb (λ part, negb (bool_decide (part ∈ ["."; ".."]))) (py_split "/" repo_full_name).

Definition PlatformPermissionDiagnosticRequest_valid (payload : Payload) : bool :=
  let provider := PlatformPermissionDiagnosticRequest.provider payload in
  let repo_full_name := PlatformPermissionDiagnosticRequest.repo_full_name payload in
  text_bounds 1 64 provider && provider_pattern provider
  && text_bounds 3 512 repo_full_name && repository_pattern repo_full_name
  && positive (PlatformPermissionDiagnosticRequest.pull_request_number payload)
  && validate_repository_path repo_full_name.

(** ** Workspaces *)

Definition WorkspacePrepareRequest_valid (payload : WorkspacePrepareRequest.t) : bool :=
  text_bounds 1 64 (WorkspacePrepareRequest.provider payload)
  && text_bounds 1 512 (WorkspacePrepareRequest.full_name payload)
  && text_within 1 2048 (WorkspacePrepareRequest.clone_url payload)
  && positive (Some (WorkspacePrepareRequest.number payload))
  && text_bounds 7 80 (WorkspacePrepareRequest.base_sha payload)
  && text_bounds 7 80 (WorkspacePrepareRequest.head_sha payload)
  && text_up_to 255 (WorkspacePrepareRequest.token_ref payload).

Definition WorkspaceLeaseRequest_valid (review_run_id session_id : option string) : bool :=
  text_up_to 36 review_run_id && text_up_to 128 session_id.

Definition PullRequestWorkspaceCleanupRequest_valid (provider repository : string)
    (pull_request_number : Z) : bool :=
  text_bounds 1 64 provider && text_bounds 1 512 repository
  && positive (Some pull_request_number).

(** ** Provider Core *)

Definition GitCheckoutRequest_valid (request : GitCheckoutRequest.t) : bool :=
  text_bounds 1 512 (GitCheckoutRequest.repository request)
  && text_up_to 2048 (GitCheckoutRequest.clone_url request).

Definition CommentPublishItem_valid (item : CommentPublishItem.t) : bool :=
  text_bounds 1 100000 (CommentPublishItem.body item)
  && text_within 1 255 (CommentPublishItem.idempotency_key item)
  && text_up_to 4096 (CommentPublishItem.path item)
  && positive (CommentPublishItem.line item)
  && text_up_to 128 (CommentPublishItem.commit_sha item)
  && match CommentPublishItem.validate item with Return _ => true | Raise _ => false end.

(** The comments of a request that names a single one are that one. *)
Definition CommentPublishRequest_valid (request : CommentPublishRequest.t) : bool :=
  text_bounds 1 512 (CommentPublishRequest.repository request)
  && positive (Some (CommentPublishRequest.pull_request_number request))
  && number_within 1 100 (Some (Z.of_nat (length (CommentPublishRequest.comments request))))
  && forallb CommentPublishItem_valid (CommentPublishRequest.comments request).

Definition PlatformQueryRequest_valid (request : PlatformQueryRequest.t) : bool :=
  text_bounds 1 512 (PlatformQueryRequest.repository request)
  && positive (Some (PlatformQueryRequest.pull_request_number request))
  && text_up_to 128 (PlatformQueryRequest.cursor request)
  && number_within 1 100 (Some (PlatformQueryRequest.page_size request)).
