(* ===== verification/Api.v ===== *)
(** * The HTTP API

    Model of the routes in [src/src/review_orchestrator/presentation/api.py] and
    [provider_core.py]: what a request asks of the services and how their results and
    exceptions are answered.  A body is what its schema of Schemas.v builds; one that does not
    satisfy the schema, and query parameters out of bounds, are refused before the route runs.
    The body of an answer is what the services give: a service that answers with a row gives
    its key. *)
From Stdlib Require Import Ascii.
From S2P Require Import Prelude PyText Json World Models SchedulerAdmin Delivery ReviewResults ReviewRuns ReviewRequests Webhooks PiAgent SessionArchives AgentSessions Views Listings PlatformClient ProviderCore GitHub GitLab Registry PlatformWebhooks Workspaces PlatformDiagnostics Schemas.
#[global] Open Scope Z_scope.
#[global] Open Scope orch_scope.

(** An answer with status 200 or 202, or a raised [HTTPException]. *)
Inductive reply (A : Type) :=
  | OK (body : A)
  | Accepted (body : A)
  | HTTPException (status_code : Z) (detail : option json).
Arguments OK {A} body.
Arguments Accepted {A} body.
Arguments HTTPException {A} status_code detail.

Definition status_of {A} (r : reply A) : Z :=
  match r with OK _ => 200 | Accepted _ => 202 | HTTPException status_code _ => status_code end.

(** The rest of a route after a step that may have raised an [HTTPException]. *)
Definition or_reply {A B} (m : SM (reply A)) (k : A → SM (reply B)) : SM (reply B) :=
  r ← m;
  match r with
  | OK a | Accepted a => k a
  | HTTPException status_code detail => mret (HTTPException status_code detail)
  end.

Definition ok {A} (m : SM A) : SM (reply A) := a ← m; mret (OK a).
Definition accepted {A} (m : SM A) : SM (reply A) := a ← m; mret (Accepted a).
Definition http_error {A} (status_code : Z) (detail : string) : SM (reply A) :=
  mret (HTTPException status_code (Some (JStr detail))).
Definition not_found {A} : SM (reply A) := mret (HTTPException 404 None).

(** [if value is None: raise HTTPException(404)]. *)
Definition found_or_404 {A} (m : SM (option A)) : SM (reply A) :=
  found ← m; match found with Some a => mret (OK a) | None => not_found end.

(** [except E as exc: raise HTTPException(...) from exc]. *)
Definition refusing {A} (handler : exn → option (Z * option json)) (m : SM (reply A)) : SM (reply A) :=
  try_except m (λ e, match handler e with
                     | Some (status_code, detail) => mret (HTTPException status_code detail)
                     | None => raise e
                     end).

(** [except ReviewRunTransitionError]: its subclasses have status 409. *)
Definition transition_refusal (e : exn) : option (Z * option json) :=
  match e with
  | ReviewRunTransitionError message status_code => Some (status_code, Some (JStr message))
  | ReviewRequestRejected message _ _ _ | AgentReviewActionRejected message _ =>
      Some (409, Some (JStr message))
  | _ => None
  end.

Definition _review_request_rejection_detail (message code event_id : string)
    (existing_review_run_id : option string) : json :=
  JObj [("code", JStr code); ("message", JStr message);
        ("review_request_event_id", JStr event_id);
        ("existing_review_run_id", default JNull (JStr <$> existing_review_run_id))].

(** [except ReviewRequestRejected]. *)
Definition request_refusal (e : exn) : option (Z * option json) :=
  match e with
  | ReviewRequestRejected message code event_id existing =>
      Some (409, Some (_review_request_rejection_detail message code event_id existing))
  | _ => None
  end.

(** [except AgentReviewActionRejected ... except ReviewRequestRejected]. *)
Definition agent_action_refusal (e : exn) : option (Z * option json) :=
  match e with
  | AgentReviewActionRejected message code =>
      Some (409, Some (JObj [("code", JStr code); ("message", JStr message)]))
  | _ => request_refusal e
  end.

(** [except ReviewRunTransitionError ... except ReviewResultError]; [to_dict] also names the
    finding, which the errors of the model do not carry. *)
Definition result_refusal (e : exn) : option (Z * option json) :=
  match e with
  | ReviewResultInvalid code message =>
      Some (422, Some (JObj [("error_code", JStr code); ("message", JStr message)]))
  | _ => transition_refusal e
  end.

Definition webhook_refusal (e : exn) : option (Z * option json) :=
  match e with
  | ProviderWebhookError message _ status_code => Some (status_code, Some (JStr message))
  | _ => None
  end.

Definition missing_workspace (e : exn) : option (Z * option json) :=
  match e with KeyError _ => Some (404, None) | _ => None end.

(** ** What the application holds *)

Module ApiSettings.
Record t := mk {
  pi_agent_runtime_token : option string;
  pi_agent_base_url : option string;
  provider_core_api_token : option string;
  agent : AgentSettings.t;
  workspace : WorkspaceSettings.t;
  command : CommandSettings.t
}.
End ApiSettings.

(** [app.state], as far as the routes look at it: a client of the runtime and a probe can be
    put there instead of what the settings describe.  [diagnosable] tells whether the
    platforms were given their settings. *)
Module AppState.
Record t := mk {
  settings : ApiSettings.t;
  provider_registry : option Registry.t;
  injected_client : bool;
  platform_permission_probe : option (Payload → outcome Diagnosis);
  diagnosable : bool
}.
End AppState.

(** The scheme and the credentials of an [Authorization] header. *)
Abbreviation bearer_credentials := (option (string * string)).

(** ** Bounds *)

(** [limit: Query(default=50, ge=1, le=200)] and [offset: Query(default=0, ge=0)]. *)
Definition page_bounds (limit offset : Z) : bool :=
  (1 <=? limit) && (limit <=? 200) && (0 <=? offset).

(** A request whose parameters or body are out of bounds is refused after its dependencies and
    before its route runs. *)
Definition validated {A} (bounds : list bool) (route : SM (reply A)) : SM (reply A) :=
  if forallb id bounds then route else mret (HTTPException 422 None).

(** ** Authorization *)

(** The dependency of the routes that need a token of their own: [_authorize_pi_agent_tool]
    and [_authorize] of [provider_core.py]. *)
Definition authorized {A} (expected : option string) (unconfigured invalid : string)
    (credentials : bearer_credentials) (route : SM (reply A)) : SM (reply A) :=
  match or_none expected, credentials with
  | None, _ => http_error 503 unconfigured
  | Some expected, Some (scheme, supplied) =>
      if negb (bool_decide (py_lower scheme = "bearer")) then http_error 401 invalid
      else
        same ← lift (compare_digest supplied expected);
        if same : bool then route else http_error 401 invalid
  | Some _, None => http_error 401 invalid
  end.

Definition _authorize_pi_agent_tool {A} (app : AppState.t) (credentials : bearer_credentials)
    (route : SM (reply A)) : SM (reply A) :=
  authorized (ApiSettings.pi_agent_runtime_token (AppState.settings app))
    "pi-agent Tool callback token is not configured." "Invalid pi-agent Tool callback token."
    credentials route.

Definition _authorize {A} (app : AppState.t) (credentials : bearer_credentials)
    (route : SM (reply A)) : SM (reply A) :=
  authorized (ApiSettings.provider_core_api_token (AppState.settings app))
    "Provider Core API token is not configured." "Invalid Provider Core bearer token."
    credentials route.

(** ** The registry and the client of the runtime *)

Definition get_configured_provider_registry (app : AppState.t) : SM Registry.t :=
  match AppState.provider_registry app with
  | Some registry => mret registry
  | None => raise (OtherError "Provider registry was not initialized by the application.")
  end.

Definition unconfigured_client : string := "pi-agent runtime base URL is not configured.".

Definition has_client (app : AppState.t) : bool :=
  AppState.injected_client app
  || bool_decide (is_Some (or_none (ApiSettings.pi_agent_base_url (AppState.settings app)))).

(** The dependency of the routes that need the runtime. *)
Definition get_pi_agent_client {A} (app : AppState.t) (route : SM (reply A)) : SM (reply A) :=
  if has_client app then route else http_error 503 unconfigured_client.

(** Whether there is a client, and why not. *)
Definition get_optional_pi_agent_client (app : AppState.t) : bool * option string :=
  if has_client app then (true, None) else (false, Some unconfigured_client).

(** ** Reading routes *)

Section reading.
Context `{Runtime} `{PiAgentRuntime} `{PlatformHttp} `{DiagnosticsHttp} `{GitHubSettings}.
Context (app : AppState.t).
(** The links the registered platforms give to the comments they published. *)
Context (agent_task_comment_url : Task.t → option string).

Definition diagnose_platform_permissions_endpoint (payload : Payload) : SM (reply Diagnosis) :=
  validated [PlatformPermissionDiagnosticRequest_valid payload]
    match AppState.platform_permission_probe app with
    | Some injected => ok (lift (injected payload))
    | None =>
        registry ← get_configured_provider_registry app;
        let provider := PlatformPermissionDiagnosticRequest.provider payload in
        refusing
          (λ e, match e with
                | ProviderCapabilityError message =>
                    Some (if bool_decide (get_adapter registry provider = None) then 404 else 503,
                          Some (JStr message))
                | _ => None
                end)
          (ok (diagnose_platform_permissions registry (AppState.diagnosable app) payload))
    end.

(** The providers with what they can do. *)
Definition list_providers_endpoint : SM (reply (list (ProviderDescriptor.t * list string))) :=
  registry ← get_configured_provider_registry app;
  ok (mret (map (λ d, (d, sort_by id (capabilities registry (ProviderDescriptor.key d))))
              (descriptors registry))).

Definition list_provider_events_endpoint (provider repo_full_name : option string)
    (pull_request_number : option Z) (internal_event status delivery_id : option string)
    (created_from created_to : option Z) (limit offset : Z)
    : SM (reply (ListResponse ProviderEventInboxSummary.t)) :=
  validated [text_within 1 64 provider; text_within 1 512 repo_full_name;
             positive pull_request_number; text_within 1 128 internal_event;
             text_within 1 32 status; text_within 1 128 delivery_id; page_bounds limit offset]
    (ok (list_provider_event_inbox provider repo_full_name pull_request_number internal_event status
           delivery_id created_from created_to limit offset)).

Definition get_provider_event_endpoint (event_id : string) (include_payload : bool)
    : SM (reply (ProviderEventInboxSummary.t * option json)) :=
  found_or_404 (get_provider_event_inbox_detail event_id include_payload).

Definition list_tasks_endpoint (kind capability_id status queue resource_class : option string)
    (limit offset : Z) : SM (reply (ListResponse (Task.t * json))) :=
  validated [text_within 1 32 kind; text_within 1 128 capability_id; text_within 1 32 status;
             text_within 1 64 queue; text_within 1 64 resource_class; page_bounds limit offset]
    (ok (list_tasks kind capability_id status queue resource_class limit offset)).

Definition get_task_endpoint (task_id : string) : SM (reply (Task.t * json)) :=
  found_or_404 (get_task_summary task_id).

Definition list_task_sessions_endpoint (task_id : string)
    : SM (reply (list (SessionArchive.t * option TaskAttempt.t))) :=
  found_or_404 (list_task_session_archives task_id).

Definition get_session_archive_endpoint (archive_id : string)
    : SM (reply (SessionArchive.t * option TaskAttempt.t)) :=
  found_or_404 (get_session_archive archive_id).

Definition list_resource_pools_endpoint : SM (reply (list (ResourcePool.t * Z))) :=
  ok list_resource_pools.

Definition list_deliveries_endpoint (task_id provider status queue : option string)
    (limit offset : Z) : SM (reply (ListResponse DeliveryOutbox.t)) :=
  validated [text_within 1 36 task_id; text_within 1 64 provider; text_within 1 32 status;
             text_within 1 64 queue; page_bounds limit offset]
    (ok (list_delivery_outbox task_id provider status queue limit offset)).

Definition get_delivery_endpoint (delivery_id : string) : SM (reply DeliveryOutbox.t) :=
  found_or_404 (get_delivery_outbox delivery_id).

Definition list_agent_tasks_endpoint (status provider repo_full_name : option string)
    (pull_request_number : option Z) (task_type : option string) (created_from created_to : option Z)
    (limit offset : Z) :=
  validated [text_within 1 32 status; text_within 1 64 provider; text_within 1 512 repo_full_name;
             positive pull_request_number; text_within 1 64 task_type; page_bounds limit offset]
    (_ ← get_configured_provider_registry app;
     ok (list_agent_tasks (Some agent_task_comment_url) status provider repo_full_name
           pull_request_number task_type created_from created_to limit offset)).

Definition get_agent_task_endpoint (task_id : string) :=
  _ ← get_configured_provider_registry app;
  found_or_404 (get_agent_task_detail (Some agent_task_comment_url) task_id).

Definition get_agent_task_session_endpoint (task_id : string)
    : SM (reply PiAgentSessionDiagnostics.t) :=
  get_pi_agent_client app
    (found ← fetch (R := Task.t) task_id;
     match found ≫= (λ t, a ← agent_of t; mret (t, a)) with
     | None => not_found
     | Some (t, a) => ok (get_pi_agent_session_diagnostics_for_agent_task t a true None)
     end).

Definition list_review_runs_endpoint (provider repo_full_name : option string)
    (pull_request_number merge_request_number : option Z)
    (status stage head_sha trigger_type lock_state : option string) (limit offset : Z)
    : SM (reply (ListResponse ReviewRunListItem.t)) :=
  validated [text_within 1 64 provider; text_within 1 512 repo_full_name;
             positive pull_request_number; positive merge_request_number; text_within 1 32 status;
             text_within 1 64 stage; text_within 7 80 head_sha; text_within 1 32 trigger_type;
             bool_decide (lock_state ∈ [None; Some "locked"; Some "unlocked"; Some "expired"]);
             page_bounds limit offset]
    (ok (list_review_runs provider repo_full_name pull_request_number merge_request_number status
           stage head_sha trigger_type lock_state limit offset)).

Definition get_review_run_endpoint (review_run_id : string) : SM (reply ReviewRunDetail.t) :=
  found_or_404 (get_review_run_detail review_run_id).

Definition get_review_run_agent_session_endpoint (review_run_id : string)
    : SM (reply PiAgentSessionDiagnostics.t) :=
  or_reply (found_or_404 (get_review_run review_run_id)) (λ run_id,
    let '(enabled, disabled_reason) := get_optional_pi_agent_client app in
    ok (get_pi_agent_session_diagnostics_for_review_run run_id enabled disabled_reason)).

Definition get_pi_agent_session_endpoint (agent_session_id : string)
    : SM (reply PiAgentSessionDiagnostics.t) :=
  let '(enabled, disabled_reason) := get_optional_pi_agent_client app in
  found_or_404
    (get_pi_agent_session_diagnostics_for_session agent_session_id enabled disabled_reason).

Definition get_workspace_endpoint (workspace_id : string) : SM (reply Workspace.t) :=
  found_or_404 (get_workspace workspace_id).
End reading.

(** ** Changing routes *)

(** [adapter.parse_webhook(...)]: of [GitHubProvider] ... *)
Definition github_parse_webhook `{WebhookLibrary} `{GitHubSettings} (app : AppState.t)
    (headers : list (string * string)) (raw_body : string) : outcome ParsedProviderWebhook.t :=
  _parse_github_webhook (ApiSettings.command (AppState.settings app)) github_webhook_secret headers
    raw_body.

(** ... and of [GitLabProvider]. *)
Definition gitlab_parse_webhook `{WebhookLibrary} `{GitLabSettings}
    (headers : list (string * string)) (raw_body : string) : outcome ParsedProviderWebhook.t :=
  _parse_gitlab_webhook gitlab_webhook_secret headers raw_body.

Definition parse_webhook `{WebhookLibrary} `{GitHubSettings} `{GitLabSettings} (app : AppState.t)
    (provider : string) (headers : list (string * string)) (raw_body : string)
    : outcome ParsedProviderWebhook.t :=
  if bool_decide (provider = "github") then github_parse_webhook app headers raw_body
  else if bool_decide (provider = "gitlab") then gitlab_parse_webhook headers raw_body
  else Raise (OtherError ("Provider " +:+ provider +:+ " is not part of the model.")).

Section changing.
Context `{Runtime} `{PiAgentRuntime} `{GitWorkspace} `{Host} `{CheckoutRegistry} `{ResultSchema}
  `{ProviderRegistry} `{WebhookLibrary} `{GitHubSettings} `{GitLabSettings}.
Context (app : AppState.t).
Context (agent_task_comment_url : Task.t → option string).

Definition accept_webhook (provider : string) (headers : list (string * string)) (raw_body : string)
    : SM (reply WebhookAccepted.t) :=
  registry ← get_configured_provider_registry app;
  match capability registry provider "parse_webhook" with
  | None => http_error 404 ("Unsupported provider: " +:+ provider)
  | Some _ =>
      or_reply
        (refusing webhook_refusal (ok (lift (parse_webhook app provider headers raw_body))))
        (λ parsed,
          let event := ParsedProviderWebhook.provider_event parsed in
          ok (accept_provider_webhook (ParsedProviderWebhook.delivery_id parsed)
                (ProviderWebhookEvent.provider_event event) event
                (ParsedProviderWebhook.payload parsed) (ParsedProviderWebhook.raw_body parsed)))
  end.

Definition update_task_scheduling_endpoint (task_id : string) (payload : TaskSchedulingUpdate.t)
    : SM (reply string) :=
  validated [TaskSchedulingUpdate_valid payload]
    (refusing transition_refusal (found_or_404 (update_task_scheduling task_id payload))).

Definition update_resource_pool_endpoint (resource_key : string) (capacity : Z)
    (dimension : option string) : SM (reply Z) :=
  validated [ResourcePoolUpdate_valid capacity dimension]
    (refusing transition_refusal (ok (set_resource_pool_capacity resource_key capacity dimension))).

Definition update_delivery_scheduling_endpoint (delivery_id : string)
    (payload : DeliverySchedulingUpdate.t) : SM (reply string) :=
  validated [DeliverySchedulingUpdate_valid payload]
    (refusing transition_refusal (found_or_404 (update_delivery_scheduling delivery_id payload))).

(** [detail = await get_agent_task_detail(...)]  [assert detail is not None]. *)
Definition agent_task_shown (task_id : string) :=
  found ← get_agent_task_detail (Some agent_task_comment_url) task_id;
  match found with
  | Some detail => mret detail
  | None => raise (AssertionError "")
  end.

Definition cancel_agent_task_endpoint (task_id : string) :=
  get_pi_agent_client app
    (_ ← get_configured_provider_registry app;
     or_reply (refusing transition_refusal (found_or_404 (cancel_agent_task task_id)))
       (λ id, ok (agent_task_shown id))).

Definition retry_agent_task_endpoint (task_id : string) :=
  or_reply (refusing transition_refusal (found_or_404 (retry_agent_task task_id)))
    (λ id, _ ← get_configured_provider_registry app; accepted (agent_task_shown id)).

Definition start_review_session_endpoint (review_run_id : string) (workspace_path : option string)
    : SM (reply string) :=
  get_pi_agent_client app
    (validated [ReviewSessionStart_valid workspace_path]
       (or_reply (found_or_404 (get_review_run review_run_id)) (λ run_id,
          refusing transition_refusal
            (ok (start_review_session run_id (ApiSettings.agent (AppState.settings app))
                   workspace_path))))).

Definition sync_review_session_endpoint (review_run_id : string) : SM (reply string) :=
  get_pi_agent_client app
    (or_reply (found_or_404 (get_review_run review_run_id)) (λ run_id,
       ok (sync_review_session run_id))).

Definition cancel_review_session_endpoint (review_run_id reason : string) : SM (reply string) :=
  get_pi_agent_client app
    (validated [ReviewSessionCancel_valid reason]
       (or_reply (found_or_404 (get_review_run review_run_id)) (λ run_id,
          ok (cancel_review_session run_id reason)))).

Definition collect_review_result_endpoint (review_run_id : string)
    (raw_output : string + list (string * json)) (changed_files : list ChangedFile.t)
    : SM (reply (string * ParsedReviewResult.t)) :=
  validated [ReviewResultCollect_valid changed_files]
    (or_reply (found_or_404 (get_review_run review_run_id)) (λ run_id,
       refusing result_refusal
         (parsed ← collect_review_result run_id raw_output (Some changed_files);
          mret (OK (run_id, parsed))))).

(** [AgentReviewActionResult] and the results of retry and rerun have status 202. *)
Definition accepted_or_404 {A} (m : SM (option A)) : SM (reply A) :=
  found ← m; match found with Some a => mret (Accepted a) | None => not_found end.

Definition retry_review_run_endpoint (review_run_id : string)
    : SM (reply ReviewRequestResult.t) :=
  refusing request_refusal (accepted_or_404 (request_review_retry review_run_id)).

Definition request_agent_review_action_endpoint (credentials : bearer_credentials)
    (agent_task_id agent_session_id : string) (action : ReviewReason)
    : SM (reply (ReviewReason * ReviewRequestResult.t)) :=
  _authorize_pi_agent_tool app credentials
    (validated [AgentReviewActionRequest_valid agent_task_id agent_session_id action]
       (refusing agent_action_refusal
          (accepted_or_404
             (request_review_action_from_agent agent_task_id agent_session_id action)))).

Definition rerun_review_run_endpoint (review_run_id idempotency_key : string)
    : SM (reply ReviewRequestResult.t) :=
  validated [UUID_valid idempotency_key]
    (refusing request_refusal
       (accepted_or_404 (request_review_rerun review_run_id idempotency_key))).

(** The run as it is afterwards. *)
Definition cancel_review_run_endpoint (review_run_id : string)
    : SM (reply (Task.t * ReviewRun.t)) :=
  found ← cancel_review_run review_run_id;
  match found with
  | None => not_found
  | Some run_id => accepted (load_run run_id)
  end.

Definition prepare_workspace_endpoint (payload : WorkspacePrepareRequest.t)
    : SM (reply WorkspacePrepareResponse.t) :=
  validated [WorkspacePrepareRequest_valid payload]
    (_ ← get_configured_provider_registry app;
     ok (prepare_workspace (ApiSettings.workspace (AppState.settings app)) payload true)).

Definition lease_workspace_endpoint (workspace_id : string) (review_run_id session_id : option string)
    : SM (reply (WorkspaceLease.t * Workspace.t)) :=
  validated [WorkspaceLeaseRequest_valid review_run_id session_id]
    (refusing missing_workspace (ok (lease_workspace workspace_id review_run_id session_id))).

Definition release_workspace_endpoint (lease_id : string) : SM (reply Workspace.t) :=
  found_or_404 (release_workspace lease_id).

Definition cleanup_workspace_endpoint (workspace_id : string) (force : bool)
    : SM (reply Workspace.t) :=
  cleaned ← cleanup_workspace workspace_id force;
  or_reply (found_or_404 (get_workspace workspace_id)) (λ workspace,
    if bool_decide (cleaned = "workspace_locked")
    then http_error 409 "Workspace has an active lease." else mret (OK workspace)).

Definition cleanup_pull_request_workspaces_endpoint (provider repository : string)
    (pull_request_number : Z) (force : bool) : SM (reply CleanupSummary.t) :=
  validated [PullRequestWorkspaceCleanupRequest_valid provider repository pull_request_number]
    (ok (cleanup_pull_request_workspaces provider repository pull_request_number force)).

Definition cleanup_expired_workspaces_endpoint : SM (reply CleanupSummary.t) :=
  ok (cleanup_expired_workspaces None).
End changing.

(** ** Provider Core *)

(** [isinstance(provider, Provider)]. *)
Definition is_provider (adapter : ProviderAdapter.t) : bool :=
  bool_decide (is_Some (ProviderAdapter.key adapter))
  && forallb (λ method, bool_decide (method ∈ ProviderAdapter.attributes adapter))
       ["normalize_webhook"; "resolve_git_checkout"; "publish_comments"; "query"].

Definition _provider (app : AppState.t) (key : string) : SM (reply ProviderAdapter.t) :=
  registry ← get_configured_provider_registry app;
  match get_adapter registry key with
  | None => http_error 404 ("Unsupported provider: " +:+ key)
  | Some provider =>
      if is_provider provider then mret (OK provider)
      else http_error 501 ("Provider " +:+ repr_string key +:+ " does not implement Provider Core.")
  end.

(** [except ProviderError as exc: _raise_provider_http_error(exc)]; the detail also names the
    provider and the operation of the error, which the errors of the model do not carry. *)
Definition _raise_provider_http_error (e : exn) : option (Z * option json) :=
  let detail (code : string) : option json :=
    Some (JObj [("code", JStr code); ("message", JStr "Provider operation failed.")]) in
  match e with
  | ProviderCapabilityError _ => Some (400, detail "provider_capability_error")
  | ProviderError _ => Some (502, detail "provider_operation_error")
  | _ => None
  end.

Section provider_core.
Context `{Runtime} `{PlatformHttp} `{GitHubSettings} `{GitLabSettings} `{WebhookLibrary}.
Context (app : AppState.t).

(** The implementation of the provider that was found: one of the two platforms. *)
Definition on_platform {A} (provider : string) (github gitlab : SM A) : SM A :=
  if bool_decide (provider = "github") then github
  else if bool_decide (provider = "gitlab") then gitlab
  else raise (OtherError ("Provider " +:+ provider +:+ " is not part of the model.")).

(** [NormalizedWebhook]. *)
Definition normalized_webhook (parsed : ParsedProviderWebhook.t)
    : string * ProviderWebhookEvent.t * json :=
  (ParsedProviderWebhook.delivery_id parsed, ParsedProviderWebhook.provider_event parsed,
   ParsedProviderWebhook.payload parsed).

(** [normalize_webhook] of [GitHubProvider] and of [GitLabProvider]. *)
Definition github_normalize_webhook (headers : list (string * string)) (raw_body : string)
    : SM (string * ProviderWebhookEvent.t * json) :=
  credential ← GitHub.get_credential "" "webhook";
  parsed ← lift (_parse_github_webhook (ApiSettings.command (AppState.settings app))
                   (or_none (Some (Credential.value credential))) headers raw_body);
  mret (normalized_webhook parsed).

Definition gitlab_normalize_webhook (headers : list (string * string)) (raw_body : string)
    : SM (string * ProviderWebhookEvent.t * json) :=
  credential ← GitLab.get_credential "" "webhook";
  parsed ← lift (_parse_gitlab_webhook (or_none (Some (Credential.value credential))) headers raw_body);
  mret (normalized_webhook parsed).

Definition normalize_webhook_endpoint (credentials : bearer_credentials) (provider : string)
    (headers : list (string * string)) (raw_body : string)
    : SM (reply (string * ProviderWebhookEvent.t * json)) :=
  _authorize app credentials
    (or_reply (_provider app provider) (λ _,
       refusing (λ e, match webhook_refusal e with
                      | Some refusal => Some refusal
                      | None => _raise_provider_http_error e
                      end)
         (ok (on_platform provider (github_normalize_webhook headers raw_body)
                (gitlab_normalize_webhook headers raw_body))))).

Definition resolve_checkout_endpoint (credentials : bearer_credentials) (provider : string)
    (payload : GitCheckoutRequest.t) : SM (reply GitCheckoutTarget.t) :=
  _authorize app credentials
    (validated [GitCheckoutRequest_valid payload]
       (refusing _raise_provider_http_error
          (or_reply (_provider app provider) (λ _,
             ok (on_platform provider (GitHub.resolve_git_checkout payload)
                   (GitLab.resolve_git_checkout payload)))))).

Definition publish_comments_endpoint (credentials : bearer_credentials) (provider : string)
    (payload : CommentPublishRequest.t) : SM (reply CommentPublishResult.t) :=
  _authorize app credentials
    (validated [CommentPublishRequest_valid payload]
       (refusing _raise_provider_http_error
          (or_reply (_provider app provider) (λ _,
             ok (on_platform provider (GitHub.publish_comments payload)
                   (GitLab.publish_comments payload)))))).

Definition query_endpoint (credentials : bearer_credentials) (provider : string)
    (payload : PlatformQueryRequest.t) : SM (reply PlatformQueryResult.t) :=
  _authorize app credentials
    (validated [PlatformQueryRequest_valid payload]
       (refusing _raise_provider_http_error
          (or_reply (_provider app provider) (λ _,
             ok (on_platform provider (GitHub.query payload) (GitLab.query payload)))))).
End provider_core.

(** ** Requests *)

(** The routes that read, with their parameters. *)
Inductive reading :=
  | DiagnosePermissions (payload : Payload)
  | ListProviders
  | ListProviderEvents (provider repo_full_name : option string) (pull_request_number : option Z)
      (internal_event status delivery_id : option string) (created_from created_to : option Z)
      (limit offset : Z)
  | GetProviderEvent (event_id : string) (include_payload : bool)
  | ListTasks (kind capability_id status queue resource_class : option string) (limit offset : Z)
  | GetTask (task_id : string)
  | ListTaskSessions (task_id : string)
  | GetSessionArchive (archive_id : string)
  | ListResourcePools
  | ListDeliveries (task_id provider status queue : option string) (limit offset : Z)
  | GetDelivery (delivery_id : string)
  | ListAgentTasks (status provider repo_full_name : option string)
      (pull_request_number : option Z) (task_type : option string)
      (created_from created_to : option Z) (limit offset : Z)
  | GetAgentTask (task_id : string)
  | GetAgentTaskSession (task_id : string)
  | ListReviewRuns (provider repo_full_name : option string)
      (pull_request_number merge_request_number : option Z)
      (status stage head_sha trigger_type lock_state : option string) (limit offset : Z)
  | GetReviewRun (review_run_id : string)
  | GetReviewRunAgentSession (review_run_id : string)
  | GetPiAgentSession (agent_session_id : string)
  | GetWorkspace (workspace_id : string).

(** The routes that change something, or make a platform change something. *)
Inductive changing :=
  | AcceptWebhook (provider : string) (headers : list (string * string)) (raw_body : string)
  | UpdateTaskScheduling (task_id : string) (payload : TaskSchedulingUpdate.t)
  | UpdateResourcePool (resource_key : string) (capacity : Z) (dimension : option string)
  | UpdateDeliveryScheduling (delivery_id : string) (payload : DeliverySchedulingUpdate.t)
  | CancelAgentTask (task_id : string)
  | RetryAgentTask (task_id : string)
  | StartReviewSession (review_run_id : string) (workspace_path : option string)
  | SyncReviewSession (review_run_id : string)
  | CancelReviewSession (review_run_id reason : string)
  | CollectReviewResult (review_run_id : string) (raw_output : string + list (string * json))
      (changed_files : list ChangedFile.t)
  | RetryReviewRun (review_run_id : string)
  | RequestAgentReviewAction (credentials : bearer_credentials)
      (agent_task_id agent_session_id : string) (action : ReviewReason)
  | RerunReviewRun (review_run_id idempotency_key : string)
  | CancelReviewRun (review_run_id : string)
  | PrepareWorkspace (payload : WorkspacePrepareRequest.t)
  | LeaseWorkspace (workspace_id : string) (review_run_id session_id : option string)
  | ReleaseWorkspace (lease_id : string)
  | CleanupWorkspace (workspace_id : string) (force : bool)
  | CleanupPullRequestWorkspaces (provider repository : string) (pull_request_number : Z)
      (force : bool)
  | CleanupExpiredWorkspaces
  | NormalizeWebhook (credentials : bearer_credentials) (provider : string)
      (headers : list (string * string)) (raw_body : string)
  | ResolveCheckout (credentials : bearer_credentials) (provider : string)
      (payload : GitCheckoutRequest.t)
  | PublishComments (credentials : bearer_credentials) (provider : string)
      (payload : CommentPublishRequest.t)
  | QueryPlatform (credentials : bearer_credentials) (provider : string)
      (payload : PlatformQueryRequest.t).

(** An answer without its body. *)
Definition bodyless {A} (route : SM (reply A)) : SM (reply ()) :=
  r ← route;
  mret (match r with
        | OK _ => OK tt
        | Accepted _ => Accepted tt
        | HTTPException status_code detail => HTTPException status_code detail
        end).

(** [get_session] of [infrastructure/db.py]: a session of its own for each request, whose
    uncommitted changes are dropped when it is closed. *)
Definition closing_session {A} (route : SM A) : SM A := finally route rollback.

(** The status a client sees: an exception no route handles is answered with 500. *)
Definition seen_status {A} (o : outcome (reply A)) : Z :=
  match o with Return r => status_of r | Raise _ => 500 end.

Section serving.
Context `{Runtime} `{PiAgentRuntime} `{GitWorkspace} `{Host} `{CheckoutRegistry} `{ResultSchema}
  `{ProviderRegistry} `{WebhookLibrary} `{PlatformHttp} `{DiagnosticsHttp} `{GitHubSettings}
  `{GitLabSettings}.
Context (app : AppState.t) (agent_task_comment_url : Task.t → option string).

Definition read (r : reading) : SM (reply ()) :=
  match r with
  | DiagnosePermissions payload => bodyless (diagnose_platform_permissions_endpoint app payload)
  | ListProviders => bodyless (list_providers_endpoint app)
  | ListProviderEvents provider repo number event status delivery_id from to limit offset =>
      bodyless (list_provider_events_endpoint provider repo number event status delivery_id from to
                  limit offset)
  | GetProviderEvent id include_payload => bodyless (get_provider_event_endpoint id include_payload)
  | ListTasks kind capability status queue class limit offset =>
      bodyless (list_tasks_endpoint kind capability status queue class limit offset)
  | GetTask id => bodyless (get_task_endpoint id)
  | ListTaskSessions id => bodyless (list_task_sessions_endpoint id)
  | GetSessionArchive id => bodyless (get_session_archive_endpoint id)
  | ListResourcePools => bodyless list_resource_pools_endpoint
  | ListDeliveries task_id provider status queue limit offset =>
      bodyless (list_deliveries_endpoint task_id provider status queue limit offset)
  | GetDelivery id => bodyless (get_delivery_endpoint id)
  | ListAgentTasks status provider repo number task_type from to limit offset =>
      bodyless (list_agent_tasks_endpoint app agent_task_comment_url status provider repo number
                  task_type from to limit offset)
  | GetAgentTask id => bodyless (get_agent_task_endpoint app agent_task_comment_url id)
  | GetAgentTaskSession id => bodyless (get_agent_task_session_endpoint app id)
  | ListReviewRuns provider repo number merge_number status stage head_sha trigger lock limit offset =>
      bodyless (list_review_runs_endpoint provider repo number merge_number status stage head_sha
                  trigger lock limit offset)
  | GetReviewRun id => bodyless (get_review_run_endpoint id)
  | GetReviewRunAgentSession id => bodyless (get_review_run_agent_session_endpoint app id)
  | GetPiAgentSession id => bodyless (get_pi_agent_session_endpoint app id)
  | GetWorkspace id => bodyless (get_workspace_endpoint id)
  end.

Definition change (r : changing) : SM (reply ()) :=
  match r with
  | AcceptWebhook provider headers body => bodyless (accept_webhook app provider headers body)
  | UpdateTaskScheduling id payload => bodyless (update_task_scheduling_endpoint id payload)
  | UpdateResourcePool key capacity dimension =>
      bodyless (update_resource_pool_endpoint key capacity dimension)
  | UpdateDeliveryScheduling id payload => bodyless (update_delivery_scheduling_endpoint id payload)
  | CancelAgentTask id => bodyless (cancel_agent_task_endpoint app agent_task_comment_url id)
  | RetryAgentTask id => bodyless (retry_agent_task_endpoint app agent_task_comment_url id)
  | StartReviewSession id path => bodyless (start_review_session_endpoint app id path)
  | SyncReviewSession id => bodyless (sync_review_session_endpoint app id)
  | CancelReviewSession id reason => bodyless (cancel_review_session_endpoint app id reason)
  | CollectReviewResult id raw files => bodyless (collect_review_result_endpoint id raw files)
  | RetryReviewRun id => bodyless (retry_review_run_endpoint id)
  | RequestAgentReviewAction credentials task_id session_id action =>
      bodyless (request_agent_review_action_endpoint app credentials task_id session_id action)
  | RerunReviewRun id key => bodyless (rerun_review_run_endpoint id key)
  | CancelReviewRun id => bodyless (cancel_review_run_endpoint id)
  | PrepareWorkspace payload => bodyless (prepare_workspace_endpoint app payload)
  | LeaseWorkspace id run_id session_id => bodyless (lease_workspace_endpoint id run_id session_id)
  | ReleaseWorkspace id => bodyless (release_workspace_endpoint id)
  | CleanupWorkspace id force => bodyless (cleanup_workspace_endpoint id force)
  | CleanupPullRequestWorkspaces provider repo number force =>
      bodyless (cleanup_pull_request_workspaces_endpoint provider repo number force)
  | CleanupExpiredWorkspaces => bodyless cleanup_expired_workspaces_endpoint
  | NormalizeWebhook credentials provider headers body =>
      bodyless (normalize_webhook_endpoint app credentials provider headers body)
  | ResolveCheckout credentials provider payload =>
      bodyless (resolve_checkout_endpoint app credentials provider payload)
  | PublishComments credentials provider payload =>
      bodyless (publish_comments_endpoint app credentials provider payload)
  | QueryPlatform credentials provider payload =>
      bodyless (query_endpoint app credentials provider payload)
  end.

Definition serve_reading (r : reading) : SM (reply ()) := closing_session (read r).
Definition serve_changing (r : changing) : SM (reply ()) := closing_session (change r).
End serving.
