(* ===== verification/ApiInvariants.v ===== *)
(** * What the routes keep

    The routes that read keep whatever the clock and a probe of a platform keep; those that
    change something keep every invariant of the interface [Kept]. *)
From Stdlib Require Import Ascii.
From S2P Require Import Prelude PyText Json World Models Invariants Scheduler SchedulerAdmin Delivery ReviewResults ReviewRuns ReviewRequests Webhooks PiAgent SessionArchives AgentSessions Views Listings PlatformClient GitHubClient GitLabClient ProviderCore GitHub GitLab Registry PlatformWebhooks Workspaces PlatformDiagnostics Api WorkerCommon WorkerPlatforms WorkerInvariants.
#[global] Open Scope Z_scope.
#[global] Open Scope orch_scope.

(** What a state keeps while requests are read. *)
Class Readable (I : Session → Prop) `{Runtime} `{DiagnosticsHttp} : Prop := {
  readable_clock : keeps I utc_now;
  readable_probe service path token : keeps I (_safe_get service path token)
}.
#[export] Hint Resolve readable_clock readable_probe : keeps.
#[export] Hint Extern 1 (Readable _) => apply _ : keeps.

Section reading.
Context `{Runtime} `{PiAgentRuntime} `{PlatformHttp} `{DiagnosticsHttp} `{GitHubSettings}.
Context (I : Session → Prop) `{!Readable I}.

(** *** Rows *)

Lemma read_fetch {R} `{Table R} k : keeps I (fetch (R := R) k).
Proof. apply keeps_gets. Qed.
Lemma read_load {R} `{Table R} k : keeps I (load (R := R) k).
Proof. unfold load, fetch. keeps_auto. Qed.
Lemma read_select {R} `{Table R} (P : R → bool) : keeps I (select P).
Proof. apply keeps_gets. Qed.
Lemma read_each {A B} (f : A → SM B) l : (∀ x, keeps I (f x)) → keeps I (each f l).
Proof. intros Hf. induction l as [|x l IH]; cbn [each]; keeps_auto. Qed.
Hint Resolve read_fetch read_load read_select read_each : keeps.
Lemma read_load_run id : keeps I (load_run id).
Proof. unfold load_run. keeps_auto. Qed.
Lemma read_review_run id : keeps I (get_review_run id).
Proof. unfold get_review_run. keeps_auto. Qed.
Hint Resolve read_load_run read_review_run : keeps.

(** *** What the routes show *)

Lemma read_operational t r : keeps I (_operational_state t r).
Proof. unfold _operational_state, _timeout_state, _worker_state, _lock_state, _is_past. keeps_auto. Qed.
Lemma read_publishing ids : keeps I (_provider_publishing_for_runs ids).
Proof. unfold _provider_publishing_for_runs. keeps_auto. Qed.
Hint Resolve read_operational read_publishing : keeps.
Lemma read_publishing_of id : keeps I (_provider_publishing_for_run id).
Proof. unfold _provider_publishing_for_run. keeps_auto. Qed.
Lemma read_contexts runs : keeps I (_pull_request_contexts_for_runs runs).
Proof. unfold _pull_request_contexts_for_runs. keeps_auto. Qed.
Lemma read_run_context id : keeps I (_pull_request_context_for_run id).
Proof.
  unfold _pull_request_context_for_run, context_by_identity, scalar_one_or_none. keeps_auto.
Qed.
Lemma read_item t r p c : keeps I (_review_run_list_item t r p c).
Proof. unfold _review_run_list_item. keeps_auto. Qed.
Lemma read_event_tasks ids : keeps I (_get_agent_task_ids_for_events ids).
Proof. unfold _get_agent_task_ids_for_events. keeps_auto. Qed.
Lemma read_event_task id : keeps I (_get_agent_task_id_for_event id).
Proof. unfold _get_agent_task_id_for_event. keeps_auto. Qed.
Lemma read_event p d : keeps I (get_provider_event p d).
Proof. unfold get_provider_event. keeps_auto. Qed.
Lemma read_attempts l : keeps I (_attempts_for_archives l).
Proof. unfold _attempts_for_archives. keeps_auto. Qed.
Lemma read_health filters : keeps I (_agent_task_queue_health filters).
Proof. unfold _agent_task_queue_health. keeps_auto. Qed.
Lemma read_workspace id : keeps I (get_workspace id).
Proof. unfold get_workspace, scalar_one_or_none. keeps_auto. Qed.
Lemma read_live id b reason : keeps I (live_status id b reason).
Proof. unfold live_status, attempt_client, except_client_error, get_session, PiAgent._request. keeps_auto. Qed.
Hint Resolve read_publishing_of read_contexts read_run_context read_item read_event_tasks
  read_event_task read_event read_attempts read_health read_workspace read_live : keeps.
Lemma read_source_availability a b c d : keeps I (_get_source_review_action_availability a b c d).
Proof. unfold _get_source_review_action_availability, get_latest_review_run_by_head. keeps_auto. Qed.
Hint Resolve read_source_availability : keeps.
Lemma read_retry a b c : keeps I (get_review_run_retry_availability a b c).
Proof. unfold get_review_run_retry_availability. keeps_auto. Qed.
Lemma read_rerun a b : keeps I (get_review_run_rerun_availability a b).
Proof. unfold get_review_run_rerun_availability. keeps_auto. Qed.
Lemma read_session_of_run id : keeps I (_review_session_for_run id).
Proof. unfold _review_session_for_run, scalar_one_or_none. keeps_auto. Qed.
Lemma read_slot_of_run id : keeps I (slot_of_run id).
Proof. unfold slot_of_run, scalar_one_or_none. keeps_auto. Qed.
Hint Resolve read_retry read_rerun read_session_of_run read_slot_of_run : keeps.
Lemma read_detail id : keeps I (get_review_run_detail id).
Proof.
  unfold get_review_run_detail, _workspace_for_run, _findings_summary_for_run,
    _trigger_event_for_run, _agent_task_for_run, _review_comment_slot_summary. keeps_auto.
Qed.
Lemma read_diagnostics_of_run id b reason :
  keeps I (get_pi_agent_session_diagnostics_for_review_run id b reason).
Proof.
  unfold get_pi_agent_session_diagnostics_for_review_run, _get_agent_task_ids_for_review_run.
  keeps_auto.
Qed.
Lemma read_diagnostics_of_task t a b reason :
  keeps I (get_pi_agent_session_diagnostics_for_agent_task t a b reason).
Proof. unfold get_pi_agent_session_diagnostics_for_agent_task. keeps_auto. Qed.
Hint Resolve read_detail read_diagnostics_of_run read_diagnostics_of_task : keeps.

Lemma read_platform registry configured payload :
  keeps I (diagnose_platform_permissions registry configured payload).
Proof.
  unfold diagnose_platform_permissions, github_diagnose, gitlab_diagnose, GitHub.require_client,
    diagnose_github_permissions, diagnose_gitlab_permissions, diagnose_github_repository,
    github_credentials, GitHubClient.get_token, get_permissions, _append_github_pr_check,
    _append_gitlab_mr_check, pull_request_check. keeps_auto.
Qed.
Hint Resolve read_platform : keeps.

(** *** The routes *)

Lemma keeps_bodyless {A} (m : SM (reply A)) : keeps I m → keeps I (bodyless m).
Proof. intros Hm. unfold bodyless. keeps_auto. Qed.
Lemma keeps_ok {A} (m : SM A) : keeps I m → keeps I (ok m).
Proof. intros Hm. unfold ok. keeps_auto. Qed.
Lemma keeps_accepted {A} (m : SM A) : keeps I m → keeps I (accepted m).
Proof. intros Hm. unfold accepted. keeps_auto. Qed.
Lemma keeps_found {A} (m : SM (option A)) : keeps I m → keeps I (found_or_404 m).
Proof. intros Hm. unfold found_or_404, not_found. keeps_auto. Qed.
Lemma keeps_accepted_found {A} (m : SM (option A)) : keeps I m → keeps I (accepted_or_404 m).
Proof. intros Hm. unfold accepted_or_404, not_found. keeps_auto. Qed.
Lemma keeps_refusing {A} h (m : SM (reply A)) : keeps I m → keeps I (refusing h m).
Proof. intros Hm. unfold refusing. keeps_auto. Qed.
Lemma keeps_validated {A} l (m : SM (reply A)) : keeps I m → keeps I (validated l m).
Proof. intros Hm. unfold validated. keeps_auto. Qed.
Lemma keeps_client {A} app (m : SM (reply A)) : keeps I m → keeps I (get_pi_agent_client app m).
Proof. intros Hm. unfold get_pi_agent_client, http_error. keeps_auto. Qed.
Lemma keeps_or_reply {A B} (m : SM (reply A)) (k : A → SM (reply B)) :
  keeps I m → (∀ a, keeps I (k a)) → keeps I (or_reply m k).
Proof. intros Hm Hk. unfold or_reply. keeps_auto. Qed.
Lemma keeps_registry app : keeps I (get_configured_provider_registry app).
Proof. unfold get_configured_provider_registry. keeps_auto. Qed.
Lemma keeps_authorized {A} e a b c (m : SM (reply A)) : keeps I m → keeps I (authorized e a b c m).
Proof. intros Hm. unfold authorized, http_error. keeps_auto. Qed.

Lemma read_kept app url r : keeps I (read app url r).
Proof.
  destruct r; cbn [read]; apply keeps_bodyless.
  - apply keeps_validated. destruct (AppState.platform_permission_probe app); [apply keeps_ok; keeps_auto|].
    apply keeps_bind; [apply keeps_registry|]. intros registry. cbv zeta.
    apply keeps_refusing, keeps_ok, read_platform.
  - apply keeps_bind; [apply keeps_registry|]. intros registry. apply keeps_ok, keeps_ret.
  - apply keeps_validated, keeps_ok. unfold list_provider_event_inbox. keeps_auto.
  - apply keeps_found. unfold get_provider_event_inbox_detail. keeps_auto.
  - apply keeps_validated, keeps_ok. unfold list_tasks. keeps_auto.
  - apply keeps_found. unfold get_task_summary. keeps_auto.
  - apply keeps_found. unfold list_task_session_archives. keeps_auto.
  - apply keeps_found. unfold get_session_archive. keeps_auto.
  - apply keeps_ok. unfold list_resource_pools. keeps_auto.
  - apply keeps_validated, keeps_ok. unfold list_delivery_outbox. keeps_auto.
  - apply keeps_found. unfold get_delivery_outbox. keeps_auto.
  - apply keeps_validated, keeps_bind; [apply keeps_registry|]. intros _.
    apply keeps_ok. unfold list_agent_tasks. keeps_auto.
  - apply keeps_bind; [apply keeps_registry|]. intros _.
    apply keeps_found. unfold get_agent_task_detail. keeps_auto.
  - apply keeps_client. unfold not_found, ok. keeps_auto.
  - apply keeps_validated, keeps_ok. unfold list_review_runs, _review_run_filters. keeps_auto.
  - apply keeps_found, read_detail.
  - apply keeps_or_reply; [apply keeps_found, read_review_run|]. intros run_id.
    destruct (get_optional_pi_agent_client app). apply keeps_ok, read_diagnostics_of_run.
  - unfold get_pi_agent_session_endpoint. destruct (get_optional_pi_agent_client app).
    apply keeps_found. unfold get_pi_agent_session_diagnostics_for_session. keeps_auto.
  - apply keeps_found, read_workspace.
Qed.
End reading.

(** ** What changes through the services *)

Section services.
Context `{Runtime} `{PiAgentRuntime} `{GitWorkspace} `{Host} `{CheckoutRegistry}
  `{WorkerProviders} `{ResultSchema} `{ProviderRegistry}.
Context (I : Session → Prop) `{!Kept I}.

Lemma kept_event p d : keeps I (get_provider_event p d).
Proof. unfold get_provider_event. kept_auto. Qed.
Lemma kept_reject {A} a b c d : keeps I (_reject_review_request (A := A) a b c d).
Proof. unfold _reject_review_request, reject. kept_auto. Qed.
Lemma kept_request_result a b c d : keeps I (_review_request_result a b c d).
Proof. unfold _review_request_result. kept_auto. Qed.
Hint Resolve kept_event kept_reject kept_request_result : keeps.
Lemma kept_decide a b c d : keeps I (decide_request a b c d).
Proof. unfold decide_request. kept_auto. Qed.
Lemma kept_answer a b : keeps I (answer_existing a b).
Proof. unfold answer_existing, reject. kept_auto. Qed.
Hint Resolve kept_decide kept_answer : keeps.
Lemma kept_source_action fuel a b c : keeps I (_request_source_review_action fuel a b c).
Proof.
  revert a b c. induction fuel as [|fuel IH]; intros; cbn [_request_source_review_action];
    unfold request_event; kept_auto; apply IH.
Qed.
Hint Resolve kept_source_action : keeps.
Lemma kept_agent_request a b c : keeps I (request_review_action_from_agent a b c).
Proof. unfold request_review_action_from_agent, agent_source, source_missing. kept_auto. Qed.
Lemma kept_cancel_run id : keeps I (cancel_review_run id).
Proof. unfold cancel_review_run. kept_auto. Qed.
Lemma kept_reschedule_task id u : keeps I (update_task_scheduling id u).
Proof. unfold update_task_scheduling, _is_past. kept_auto. Qed.
Hint Resolve kept_agent_request kept_cancel_run kept_reschedule_task : keeps.
Lemma kept_close w : keeps I (close_pull_request w).
Proof.
  unfold close_pull_request, cancel_active_review_runs_for_pr, cancel_active_agent_tasks_for_pr.
  kept_auto.
Qed.
Lemma kept_webhook_context id w : keeps I (webhook_context id w).
Proof. unfold webhook_context, upsert_pull_request_context, new_context. kept_auto. Qed.
Lemma kept_webhook_review id c : keeps I (webhook_review id c).
Proof. unfold webhook_review. kept_auto. Qed.
Lemma kept_webhook_command id w c : keeps I (webhook_command id w c).
Proof. unfold webhook_command, create_agent_task_from_event, new_agent_task. kept_auto. Qed.
Hint Resolve kept_close kept_webhook_context kept_webhook_review kept_webhook_command : keeps.
Lemma kept_webhook a b w c d : keeps I (accept_provider_webhook a b w c d).
Proof.
  unfold accept_provider_webhook, handle_event, only_if, inbox_event, _get_agent_task_id_for_event.
  kept_auto.
Qed.
Hint Resolve kept_webhook : keeps.
Lemma kept_retry_run id : keeps I (request_review_retry id).
Proof. apply kept_source_action. Qed.
Lemma kept_rerun id key : keeps I (request_review_rerun id key).
Proof. apply kept_source_action. Qed.
Lemma kept_cancel_agent_run id reason : keeps I (cancel_review_session id reason).
Proof. unfold cancel_review_session, with_session. kept_auto. Qed.
Lemma kept_cancel_task id : keeps I (cancel_agent_task id).
Proof. unfold cancel_agent_task. kept_auto. Qed.
Lemma kept_retry_task id : keeps I (retry_agent_task id).
Proof. unfold retry_agent_task. kept_auto. Qed.
Lemma kept_active_lease id : keeps I (_has_active_lease id).
Proof. unfold _has_active_lease. kept_auto. Qed.
Hint Resolve kept_active_lease : keeps.
Lemma kept_cleanup id force : keeps I (cleanup_workspace id force).
Proof. unfold cleanup_workspace. kept_auto. Qed.
Hint Resolve kept_cleanup : keeps.
Lemma kept_cleanups l force summary : keeps I (_cleanup_many l force summary).
Proof. revert summary. induction l as [|w l IH]; intros; cbn [_cleanup_many]; kept_auto; apply IH. Qed.
Hint Resolve kept_cleanups : keeps.
Lemma kept_lease id run session : keeps I (lease_workspace id run session).
Proof. unfold lease_workspace. kept_auto. Qed.
Lemma kept_release_lease id : keeps I (release_workspace id).
Proof. unfold release_workspace, _has_other_active_lease. kept_auto. Qed.
End services.


(** ** What changes through the platforms *)

Section platforms.
Context `{Runtime} `{PlatformHttp} `{GitHubSettings} `{GitLabSettings}.
Context (I : Session → Prop) `{!TableInvariant I}.
Hint Resolve adapter_github_request adapter_gitlab_request adapter_list_issue_comments
  adapter_list_notes adapter_client_github adapter_client_gitlab adapter_github_error
  adapter_gitlab_error adapter_github_credential adapter_gitlab_credential : keeps.

Lemma kept_github_pages path repo : keeps I (GitHubClient._paginate path repo).
Proof. apply adapter_paginate. eauto with keeps. Qed.
Lemma kept_gitlab_pages path : keeps I (GitLabClient._paginate path).
Proof. apply adapter_paginate. eauto with keeps. Qed.
Hint Resolve kept_github_pages kept_gitlab_pages : keeps.

Lemma kept_github_comments repo n : keeps I (list_pull_request_comments repo n).
Proof. unfold list_pull_request_comments, list_review_comments. kept_auto. Qed.
Hint Resolve kept_github_comments : keeps.
Lemma kept_github_found repo n item : keeps I (GitHub.find_published repo n item).
Proof. unfold GitHub.find_published, list_review_comments. kept_auto. Qed.
Hint Resolve kept_github_found : keeps.
Lemma kept_github_publish repo n item : keeps I (GitHub.publish_comment repo n item).
Proof.
  unfold GitHub.publish_comment, update_review_comment, create_review_comment,
    update_issue_comment, create_issue_comment. kept_auto.
Qed.
Hint Resolve kept_github_publish : keeps.
Lemma kept_github_items request items : keeps I (GitHub.publish_items request items).
Proof.
  induction items as [|item items IH]; cbn [GitHub.publish_items]; [apply keeps_ret|].
  unfold GitHub.publish_item, GitHub._comment_url, GitHub.clone_url. kept_auto.
Qed.
Hint Resolve kept_github_items : keeps.
Lemma kept_github_query request : keeps I (GitHub.query request).
Proof.
  unfold GitHub.query. apply keeps_bind; [eauto with keeps|]. intros _. cbv zeta.
  destruct (PlatformQueryRequest.action request);
    (apply keeps_bind; [apply adapter_github_error|intros; kept_auto]);
    unfold platform_pull_request, platform_pull_request_files, get_pull_request,
      list_pull_request_files; kept_auto.
Qed.

Lemma kept_gitlab_found repo n item : keeps I (GitLab.find_published repo n item).
Proof.
  unfold GitLab.find_published, _find_discussion_comment, list_merge_request_discussions. kept_auto.
Qed.
Hint Resolve kept_gitlab_found : keeps.
Lemma kept_gitlab_publish repo n item : keeps I (GitLab.publish_comment repo n item).
Proof.
  unfold GitLab.publish_comment, update_merge_request_discussion_note, update_merge_request_note,
    get_merge_request, create_merge_request_discussion, create_merge_request_note, object_reply.
  kept_auto.
Qed.
Hint Resolve kept_gitlab_publish : keeps.
Lemma kept_gitlab_items request items : keeps I (GitLab.publish_items request items).
Proof.
  induction items as [|item items IH]; cbn [GitLab.publish_items]; [apply keeps_ret|].
  unfold GitLab.publish_item, GitLab._comment_url, GitLab.clone_url. kept_auto.
Qed.
Hint Resolve kept_gitlab_items : keeps.
Lemma kept_gitlab_query request : keeps I (GitLab.query request).
Proof.
  unfold GitLab.query. apply keeps_bind; [eauto with keeps|]. intros _. cbv zeta.
  destruct (PlatformQueryRequest.action request);
    (apply keeps_bind; [apply adapter_gitlab_error|intros; kept_auto]);
    unfold platform_merge_request, platform_merge_request_changes, get_merge_request,
      get_merge_request_changes, list_merge_request_comments, object_reply;
    kept_auto.
Qed.

Lemma kept_platform {A} provider (github gitlab : SM A) :
  keeps I github → keeps I gitlab → keeps I (on_platform provider github gitlab).
Proof. intros. unfold on_platform. kept_auto. Qed.
Lemma kept_normalize `{WebhookLibrary} app provider headers body :
  keeps I (on_platform provider (github_normalize_webhook app headers body)
             (gitlab_normalize_webhook headers body)).
Proof.
  apply kept_platform; (apply keeps_bind; [eauto with keeps|intros; kept_auto]).
Qed.
Lemma kept_provider app key : keeps I (_provider app key).
Proof. unfold _provider, get_configured_provider_registry, http_error. kept_auto. Qed.
Lemma kept_resolve app credentials provider payload :
  keeps I (resolve_checkout_endpoint app credentials provider payload).
Proof.
  apply keeps_authorized, keeps_validated, keeps_refusing, keeps_or_reply; [apply kept_provider|]. intros _.
  apply keeps_ok, kept_platform;
    unfold GitHub.resolve_git_checkout, GitLab.resolve_git_checkout, GitHub.clone_url, GitLab.clone_url;
    kept_auto.
Qed.
Lemma kept_publish_route app credentials provider payload :
  keeps I (publish_comments_endpoint app credentials provider payload).
Proof.
  apply keeps_authorized, keeps_validated, keeps_refusing, keeps_or_reply; [apply kept_provider|]. intros _.
  apply keeps_ok, kept_platform; unfold GitHub.publish_comments, GitLab.publish_comments; kept_auto.
Qed.
Lemma kept_query app credentials provider payload :
  keeps I (query_endpoint app credentials provider payload).
Proof.
  apply keeps_authorized, keeps_validated, keeps_refusing, keeps_or_reply; [apply kept_provider|]. intros _.
  apply keeps_ok, kept_platform; [apply kept_github_query|apply kept_gitlab_query].
Qed.
End platforms.

(** ** Every request *)

#[export] Instance readable_invariant I `{TableInvariant I} `{DiagnosticsHttp} : Readable I.
Proof.
  split; [apply kept_clock|]. intros service path token s Hs.
  exact (kept_sent (λ s, sent s ++ [HttpRequest.mk service "GET" path [] (Some token) None]) s Hs).
Qed.

Lemma keeps_closing {A} I (route : SM A) :
  keeps I rollback → keeps I route → keeps I (closing_session route).
Proof. intros. by apply kept_finally. Qed.

Section requests.
Context `{Runtime} `{PiAgentRuntime} `{GitWorkspace} `{Host} `{CheckoutRegistry}
  `{WorkerProviders} `{ResultSchema} `{ProviderRegistry} `{WebhookLibrary} `{PlatformHttp}
  `{DiagnosticsHttp} `{GitHubSettings} `{GitLabSettings}.
Context (I : Session → Prop) `{!Kept I}.
Context (app : AppState.t) (agent_task_comment_url : Task.t → option string).

Lemma kept_serve_reading r : keeps I (serve_reading app agent_task_comment_url r).
Proof. apply keeps_closing; [apply kept_rollback|]. apply (read_kept I). Qed.

Lemma kept_shown id : keeps I (agent_task_shown agent_task_comment_url id).
Proof. unfold agent_task_shown, get_agent_task_detail. kept_auto. Qed.

Lemma kept_accept provider headers body : keeps I (accept_webhook app provider headers body).
Proof.
  apply keeps_bind; [apply keeps_registry|]. intros registry.
  destruct (capability registry provider _); [|apply keeps_ret].
  apply keeps_or_reply; [apply keeps_refusing, keeps_ok, keeps_lift|].
  intros parsed. cbv zeta. apply keeps_ok, (kept_webhook I).
Qed.

Ltac head_of m := lazymatch m with ?f _ => head_of f | _ => m end.

(** Walks a route down to the service it calls, whose lemma is [service]. *)
Ltac route_step service :=
  lazymatch goal with
  | |- keeps _ (bodyless _) => apply keeps_bodyless
  | |- keeps _ (ok _) => apply keeps_ok
  | |- keeps _ (accepted _) => apply keeps_accepted
  | |- keeps _ (found_or_404 _) => apply keeps_found
  | |- keeps _ (accepted_or_404 _) => apply keeps_accepted_found
  | |- keeps _ (refusing _ _) => apply keeps_refusing
  | |- keeps _ (get_pi_agent_client _ _) => apply keeps_client
  | |- keeps _ (authorized _ _ _ _ _) => apply keeps_authorized
  | |- keeps _ (validated _ _) => apply keeps_validated
  | |- keeps _ (http_error _ _) => apply keeps_ret
  | |- keeps _ not_found => apply keeps_ret
  | |- keeps _ (get_configured_provider_registry _) => apply keeps_registry
  | |- keeps _ (get_review_run _) => apply (read_review_run I)
  | |- keeps _ (get_workspace _) => apply (read_workspace I)
  | |- keeps _ (_provider _ _) => apply (kept_provider I)
  | |- keeps _ (agent_task_shown _ _) => apply kept_shown
  | |- keeps _ (or_reply _ _) => apply keeps_or_reply; [|intros ?]
  | |- keeps _ (mbind _ _) => first [apply service | apply keeps_bind; [|intros ?]]
  | |- keeps _ (mret _) => apply keeps_ret
  | |- keeps _ (if ?b then _ else _) => destruct b
  | |- keeps _ (match ?x with _ => _ end) => first [apply service | destruct x]
  | |- keeps _ ?m => first [apply service | let f := head_of m in unfold f]
  end.
Ltac route service := repeat route_step service.

Lemma kept_change r :
  (∀ id update, keeps I (update_delivery_scheduling id update)) →
  (∀ key capacity dimension, r = UpdateResourcePool key capacity dimension →
     keeps I (set_resource_pool_capacity key capacity dimension)) →
  keeps I (change app agent_task_comment_url r).
Proof.
  intros Hre Hpool. destruct r; cbn [change]; apply keeps_bodyless.
  - apply kept_accept.
  - route (kept_reschedule_task I).
  - by apply keeps_validated, keeps_refusing, keeps_ok, Hpool.
  - route Hre.
  - unfold cancel_agent_task_endpoint. route (kept_cancel_task I).
  - route (kept_retry_task I).
  - route (kept_start_review I).
  - route (kept_sync I).
  - route (kept_cancel_agent_run I).
  - route (kept_collect I).
  - route (kept_retry_run I).
  - route (kept_agent_request I).
  - route (kept_rerun I).
  - apply keeps_bind; [apply (kept_cancel_run I)|]. intros found. route (kept_load_run I).
  - apply keeps_validated, keeps_bind; [apply keeps_registry|]. intros _.
    apply keeps_ok, (kept_prepare I).
  - route (kept_lease I).
  - route (kept_release_lease I).
  - apply keeps_bind; [apply (kept_cleanup I)|]. intros cleaned. route (kept_cleanup I).
  - unfold cleanup_pull_request_workspaces_endpoint, cleanup_pull_request_workspaces.
    apply keeps_validated, keeps_ok. kept_auto. apply (kept_cleanups I).
  - unfold cleanup_expired_workspaces_endpoint, cleanup_expired_workspaces.
    apply keeps_ok. kept_auto. apply (kept_cleanups I).
  - route (kept_normalize I).
  - apply (kept_resolve I).
  - apply (kept_publish_route I).
  - apply (kept_query I).
Qed.

Lemma kept_serve_changing r :
  (∀ id update, keeps I (update_delivery_scheduling id update)) →
  (∀ key capacity dimension, r = UpdateResourcePool key capacity dimension →
     keeps I (set_resource_pool_capacity key capacity dimension)) →
  keeps I (serve_changing app agent_task_comment_url r).
Proof.
  intros Hre Hpool. apply keeps_closing; [apply kept_rollback|]. by apply kept_change.
Qed.
End requests.
