(* ===== verification/SystemInvariants.v ===== *)
(** * Invariants of the whole system

    The API serves requests while workers poll: whatever is asked of the service and however
    many workers run, no resource pool is overbooked and no delivery is stuck.  The proof goes
    through the interface [Kept] of WorkerInvariants, which the two invariants implement. *)
From Stdlib Require Import Ascii.
From S2P Require Import Prelude PyText Json World Models Invariants PlatformClient GitHubClient GitLabClient GitHub GitLab Registry PlatformWebhooks Scheduler SchedulerAdmin SchedulerFacts SchedulerTheorems Delivery DeliveryTheorems DeliveryInvariant ReviewResults Reconciliation ReviewRuns ReviewRequests Webhooks ServiceTheorems PiAgent SessionArchives AgentSessions Workspaces WorkspaceTheorems WorkerCommon WorkerPlatforms AgentWorker ReviewWorker WorkerLoop WorkerInvariants PlatformDiagnostics Schemas Api ApiInvariants.
#[global] Open Scope Z_scope.
#[global] Open Scope orch_scope.

(** ** The two invariants *)

Section instances.
Context `{Runtime} `{CheckoutRegistry} `{WorkerProviders} `{ProviderRegistry}.

(** *** Deliveries *)

Lemma outbox_apart_lease f : keeps outboxes_ok (puts (on_rows (R := ResourceLease.t) f)).
Proof. by apply keeps_other_rows. Qed.
Lemma outbox_apart_pool f : keeps outboxes_ok (puts (on_rows (R := ResourcePool.t) f)).
Proof. by apply keeps_other_rows. Qed.
Lemma outbox_apart_task f : keeps outboxes_ok (puts (on_rows (R := Task.t) f)).
Proof. by apply keeps_other_rows. Qed.
Hint Resolve outbox_apart_lease outbox_apart_pool outbox_apart_task
  apart_update apart_delete apart_insert : keeps.

Lemma keeps_ok_room reqs now : keeps outboxes_ok (capacity_available reqs now).
Proof. induction reqs as [|r reqs IH]; cbn [capacity_available]; keeps_auto. Qed.
Lemma keeps_ok_claim_task a b c d e f : keeps outboxes_ok (claim_next_task a b c d e f).
Proof.
  assert (Hacquire : ∀ task_id worker_id stage expires_at now reqs,
    keeps outboxes_ok (_acquire_resources task_id worker_id stage expires_at now reqs)).
  { intros ????? reqs. destruct reqs as [|r reqs]; [apply keeps_ret|]. cbn [_acquire_resources].
    pose proof keeps_ok_room. unfold _ensure_resource_pools, insert_if_absent, grant. keeps_auto. }
  assert (Htry : ∀ worker_id expires_at now policy ids,
    keeps outboxes_ok (try_candidates worker_id expires_at now policy ids)).
  { intros ???? ids. induction ids; cbn [try_candidates];
      unfold _compare_and_swap_task_lock, flush; keeps_auto. }
  unfold claim_next_task, _apply_priority_aging. keeps_auto.
Qed.
Lemma keeps_ok_release_task a b c d : keeps outboxes_ok (release_task_claim a b c d).
Proof. unfold release_task_claim. keeps_auto. Qed.

#[export] Instance outboxes_kept `{!PlatformsKeep outboxes_ok} : Kept outboxes_ok.
Proof.
  split; intros; [apply _|..].
  - apply keeps_ok_enqueue.
  - apply keeps_ok_release_task.
  - apply comment_kept.
  - apply checkout_kept.
  - apply context_kept.
  - apply files_kept.
Qed.
#[export] Instance outboxes_driven `{!PlatformsKeep outboxes_ok} : Driven outboxes_ok.
Proof. split; intros; [apply keeps_ok_claim_task|apply keeps_ok_process]. Qed.

(** *** Resources *)

#[export] Instance resources_table : TableInvariant resources_ok.
Proof.
  apply (table_invariant_both (λ d, within_capacity (pools d) (leases d))).
  by intros d d' -> ->.
Qed.
Lemma resources_apart_outbox (f : list DeliveryOutbox.t → list DeliveryOutbox.t) :
  keeps resources_ok (puts (on_rows f)).
Proof. by intros s Hs. Qed.
Hint Resolve resources_apart_outbox apart_modify apart_load apart_update apart_insert : keeps.

Lemma keeps_res_slot d : keeps resources_ok (_delivery_comment_slot d).
Proof. unfold _delivery_comment_slot. keeps_auto. Qed.
Hint Resolve keeps_res_slot : keeps.

Lemma keeps_res_enqueue a b c d e f g h i j :
  keeps resources_ok (enqueue_delivery a b c d e f g h i j).
Proof. unfold enqueue_delivery, new_delivery. keeps_auto. Qed.
Lemma keeps_res_process `{!PlatformsKeep resources_ok} a b c d :
  keeps resources_ok (process_next_delivery a b c d).
Proof.
  pose proof comment_kept. pose proof summary_kept. pose proof lines_kept.
  unfold process_next_delivery, claim_next_delivery, reclaim_expired_deliveries, _execute_delivery,
    finish_delivery, _record_delivery_failure, _apply_delivery_success, apply_slot_success,
    require_capability, slot_gate, publish_review_comment. keeps_auto.
Qed.

#[export] Instance resources_kept `{!PlatformsKeep resources_ok} : Kept resources_ok.
Proof.
  split; intros; [apply _|..].
  - apply keeps_res_enqueue.
  - apply release_keeps_resources.
  - apply comment_kept.
  - apply checkout_kept.
  - apply context_kept.
  - apply files_kept.
Qed.
#[export] Instance resources_driven `{!PlatformsKeep resources_ok} : Driven resources_ok.
Proof. split; intros; [apply claim_keeps_resources|apply keeps_res_process]. Qed.
End instances.

(** ** The system *)

(** What the service and its workers do: a pass of a worker, in any mode, and every request to
    the API. *)
Inductive system_action :=
  | WorkerPolls (settings : WorkerSettings.t) (mode : worker_mode) (worker_id : string)
  | AskToRead (r : reading)
  | AskToChange (r : changing).

Section system.
Context `{Runtime} `{PiAgentRuntime} `{GitWorkspace} `{Host} `{CheckoutRegistry}
  `{WorkerProviders} `{TaskResultSchema} `{ResultSchema} `{ProviderRegistry} `{WebhookLibrary}
  `{PlatformHttp} `{DiagnosticsHttp} `{GitHubSettings} `{GitLabSettings}.
Context (app : AppState.t) (agent_task_comment_url : Task.t → option string).

Definition perform (a : system_action) : SM () :=
  match a with
  | WorkerPolls settings mode worker_id => ignore (worker_pass settings mode worker_id)
  | AskToRead r => ignore (serve_reading app agent_task_comment_url r)
  | AskToChange r => ignore (serve_changing app agent_task_comment_url r)
  end.

(** A capacity is lowered no further than to what is in use. *)
Definition leaves_room (a : system_action) (d : Db) : Prop :=
  match a with
  | AskToChange (UpdateResourcePool key capacity _) => leased_units key (leases d) ≤ capacity
  | _ => True
  end.

(** One step: an action on the committed rows, at any time, with whatever identifiers, requests
    and files there were before.  An action that raises leaves what it has committed. *)
Inductive system_step (d : Db) : Db → Prop :=
  | system_performs a ticks uuids sent shell :
      leaves_room a d →
      system_step d (committed (exec (perform a) (mkSession d d ticks uuids sent shell))).

Lemma kept_ignored {A} I (m : SM A) : keeps I m → keeps I (ignore m).
Proof. intros Hm. unfold ignore. apply keeps_bind; [done|]. intros; apply keeps_ret. Qed.

(** ... whatever the pools' capacities are set to being a matter of its own. *)
Lemma kept_perform I `{!Kept I} `{!Driven I} a :
  (∀ id update, keeps I (update_delivery_scheduling id update)) →
  (∀ key capacity dimension, a = AskToChange (UpdateResourcePool key capacity dimension) →
     keeps I (set_resource_pool_capacity key capacity dimension)) →
  keeps I (perform a).
Proof.
  intros Hre Hpool. destruct a as [settings mode worker_id|r|r]; cbn [perform]; apply kept_ignored.
  - by apply (kept_pass I).
  - by apply (kept_serve_reading I).
  - apply (kept_serve_changing I); [done|]. intros key capacity dimension ->. by apply Hpool.
Qed.

Lemma keeps_res_reschedule id update : keeps resources_ok (update_delivery_scheduling id update).
Proof. unfold update_delivery_scheduling. pose proof resources_apart_outbox. keeps_auto. Qed.

Lemma keeps_ok_capacity key capacity dimension :
  keeps outboxes_ok (set_resource_pool_capacity key capacity dimension).
Proof.
  unfold set_resource_pool_capacity.
  pose proof (apart_insert _ outbox_apart_pool). pose proof outbox_apart_pool. keeps_auto.
Qed.

Context `{!Bystanders}.

Definition sound (d : Db) : Prop :=
  within_capacity (pools d) (leases d) ∧ outbox_ok (outbox d).

(** *** Changing the capacity of a pool *)

Lemma committed_closed {A} (route : SM A) s :
  committed (exec (closing_session route) s) = committed (exec route s).
Proof. unfold exec, closing_session, finally, rollback. by destruct (route s) as [o s']. Qed.

Lemma exec_pool_route key capacity dimension s :
  exec (change app agent_task_comment_url (UpdateResourcePool key capacity dimension)) s
  = if ResourcePoolUpdate_valid capacity dimension
    then exec (set_resource_pool_capacity key capacity dimension) s else s.
Proof.
  unfold exec. cbn [change]. unfold bodyless, update_resource_pool_endpoint, validated. cbn [forallb].
  rewrite andb_true_r. unfold id. rewrite bind_run.
  destruct (ResourcePoolUpdate_valid capacity dimension); [|done].
  unfold refusing, ok, try_except. rewrite !bind_run. destruct (set_resource_pool_capacity _ _ _ s) as [[n|e] s']; [done|].
  by destruct (transition_refusal e) as [[? ?]|].
Qed.

Lemma system_step_sound d d' : system_step d d' → sound d → sound d'.
Proof.
  intros [a n m r l Hroom] [Hp Ho].
  assert (Hr : resources_ok (mkSession d d n m r l)) by by split.
  assert (Hd : outboxes_ok (mkSession d d n m r l)) by by split.
  split; [|apply (keeps_exec _ _ _ (kept_perform outboxes_ok a keeps_ok_reschedule
                    (λ key c dim _, keeps_ok_capacity key c dim)) Hd)].
  assert (Hcase : (∃ key c dim, a = AskToChange (UpdateResourcePool key c dim)) ∨
                  (∀ key c dim, a ≠ AskToChange (UpdateResourcePool key c dim)))
    by (destruct a as [| |[]]; eauto 6).
  destruct Hcase as [(key & c & dim & ->)|Hother].
  - cbn [perform]. unfold serve_changing. unfold ignore. rewrite exec_ignore, committed_closed, exec_pool_route.
    destruct (ResourcePoolUpdate_valid c dim); [|apply Hr].
    by apply (capacity_keeps key c dim (mkSession d d n m r l) Hroom Hr).
  - apply (keeps_exec _ _ _ (kept_perform resources_ok a keeps_res_reschedule
      (λ key c dim Ha, False_ind _ (Hother key c dim Ha))) Hr).
Qed.

End system.
