(* ===== verification/ApiErrors.v ===== *)
(** * What the routes raise

    The services refuse a request by raising [ReviewRunTransitionError] or one of its
    subclasses, which carry a status for the answer.  [raises P m]: every exception that escapes
    from [m] satisfies [P].  Walking the services with it shows which refusals a route can let
    through. *)
From Stdlib Require Import Ascii.
From S2P Require Import Prelude PyText Json World Models Invariants PlatformClient GitHubClient GitLabClient ProviderCore GitHub GitLab Registry PlatformWebhooks SchedulerAdmin Delivery ReviewResults ReviewRuns ReviewRequests Webhooks PiAgent SessionArchives AgentSessions Views Listings Workspaces PlatformDiagnostics Api.
#[global] Open Scope Z_scope.
#[global] Open Scope orch_scope.

Definition raises {S A} (P : exn → Prop) (m : M S A) : Prop :=
  ∀ s e, result m s = Raise e → P e.

(** *** Rules *)

Section rules.
Context {S : Type}.
Implicit Types P Q : exn → Prop.

Lemma raises_ret {A} P (a : A) : raises P (mret (M := M S) a).
Proof. by intros s e. Qed.
Lemma raises_raise {A} P e : P e → raises P (raise (S := S) (A := A) e).
Proof. by intros HP s e' [= <-]. Qed.
Lemma raises_gets {A} P (f : S → A) : raises P (gets f).
Proof. by intros s e. Qed.
Lemma raises_puts P (f : S → S) : raises P (puts f).
Proof. by intros s e. Qed.
Lemma raises_lift {A} P (o : outcome A) : (∀ e, o = Raise e → P e) → raises P (lift (S := S) o).
Proof. intros Ho s e He. by apply Ho. Qed.
Lemma raises_bind {A B} P (m : M S A) (k : A → M S B) :
  raises P m → (∀ a, raises P (k a)) → raises P (m ≫= k).
Proof.
  intros Hm Hk s e. unfold result. rewrite bind_run. destruct (m s) as [[a|e'] s'] eqn:Hr.
  - apply Hk.
  - intros [= ->]. apply (Hm s). unfold result. by rewrite Hr.
Qed.
Lemma raises_when P b (m : M S ()) : raises P m → raises P (when b m).
Proof. intros. by destruct b; [|apply raises_ret]. Qed.
Lemma raises_for_each {A} P (l : list A) (body : A → M S ()) :
  (∀ x, raises P (body x)) → raises P (for_each l body).
Proof. intros Hb. induction l as [|x l IH]; [apply raises_ret|]. by apply raises_bind. Qed.
Lemma raises_try {A} P Q (m : M S A) h :
  raises Q m → (∀ e, Q e → raises P (h e)) → raises P (try_except m h).
Proof.
  intros Hm Hh s e. unfold result, try_except. destruct (m s) as [[a|e'] s'] eqn:Hr; [done|].
  apply Hh, (Hm s). unfold result. by rewrite Hr.
Qed.
(** A handler that lets through only what it is asked to. *)
Lemma raises_handled {A} P (m : M S A) h : (∀ e, raises P (h e)) → raises P (try_except m h).
Proof. intros Hh. apply (raises_try P (λ _, True)); [by intros s e|by intros e _]. Qed.
Lemma raises_mono {A} P Q (m : M S A) : (∀ e, P e → Q e) → raises P m → raises Q m.
Proof. intros HPQ Hm s e He. by eapply HPQ, Hm. Qed.
End rules.

Lemma raises_nested {A} P (m : SM A) : raises P m → raises P (begin_nested m).
Proof.
  intros Hm s e. unfold result, begin_nested. destruct (m s) as [[a|e'] s'] eqn:Hr; [done|].
  intros [= ->]. apply (Hm s). unfold result. by rewrite Hr.
Qed.
Lemma raises_closing {A} P (m : SM A) : raises P m → raises P (closing_session m).
Proof.
  intros Hm s e. unfold result, closing_session, finally. destruct (m s) as [o s'] eqn:Hr. cbn.
  intros ->. apply (Hm s). unfold result. by rewrite Hr.
Qed.

(** ** Exceptions that are no refusal *)

Definition plain (e : exn) : Prop :=
  match e with
  | ReviewRunTransitionError _ _ | ReviewRequestRejected _ _ _ _ | AgentReviewActionRejected _ _ => False
  | _ => True
  end.

(** ... or the refusal of a review that is asked for. *)
Definition plain_or_rejected (e : exn) : Prop :=
  match e with ReviewRequestRejected _ _ _ _ => True | _ => plain e end.

(** A condition that holds of every plain exception. *)
Class Tolerant (P : exn → Prop) := tolerated e : plain e → P e.
#[export] Instance plain_tolerant : Tolerant plain.
Proof. by intros e. Qed.
#[export] Instance rejected_tolerant : Tolerant plain_or_rejected.
Proof. by intros []. Qed.

(** The outcomes of code without effects. *)
Ltac plain_outcome :=
  let He := fresh "He" in
  intros He; unfold mbind, outcome_bind, mret, outcome_ret in He; repeat case_match; simplify_eq; done.

Lemma port_plain u e : url_port u = Raise e → plain e.
Proof. unfold url_port. plain_outcome. Qed.
Lemma base_plain url e : _authenticated_https_base url = Raise e → plain e.
Proof.
  unfold _authenticated_https_base. destruct (negb _ || _); [done|].
  unfold mbind, outcome_bind. destruct (url_port _) eqn:Hp; [done|]. intros [= <-].
  by eapply port_plain.
Qed.
Lemma message_plain message e : _safe_error_message message = Raise e → plain e.
Proof. unfold _safe_error_message. plain_outcome. Qed.

(** *** Reading a webhook *)

Definition plainly {A} (o : outcome A) : Prop := ∀ e, o = Raise e → plain e.
Lemma plainly_bind {A B} (o : outcome A) (k : A → outcome B) :
  plainly o → (∀ a, plainly (k a)) → plainly (o ≫= k).
Proof. intros Ho Hk e. destruct o as [a|e']; [apply Hk|]. intros [= <-]. by apply Ho. Qed.
Lemma plainly_return {A} (a : A) : plainly (Return a).
Proof. by intros e. Qed.
Lemma plainly_raise {A} e : plain e → plainly (Raise (A := A) e).
Proof. by intros He e' [= <-]. Qed.

Ltac plainly_step :=
  lazymatch goal with
  | |- ∀ _, _ => intros ?
  | |- plainly (mbind _ _) => apply plainly_bind; [|intros ?]
  | |- plainly (Return _) => apply plainly_return
  | |- plainly (mret _) => apply plainly_return
  | |- plainly (Raise _) => by apply plainly_raise
  | |- plainly (if ?b then _ else _) => destruct b
  | |- plainly (match ?x with _ => _ end) => destruct x
  end.
Ltac plainly_auto := repeat plainly_step.

Section parsing.
Context `{WebhookLibrary} `{GitHubSettings} `{GitLabSettings}.

Lemma datetime_plainly value : plainly (parse_datetime value).
Proof. unfold parse_datetime. plainly_auto. Qed.
Lemma digest_plainly a b : plainly (compare_digest a b).
Proof. unfold compare_digest. plainly_auto. Qed.
Lemma body_plainly a b body : plain a → plain b → plainly (read_body a b body).
Proof. intros. unfold read_body. plainly_auto; by apply plainly_raise. Qed.
Lemma signature_plainly body signature secret : plainly (verify_signature body signature secret).
Proof.
  unfold verify_signature. destruct (or_none secret), (or_none signature); plainly_auto.
  apply digest_plainly.
Qed.
Lemma token_plainly token secret : plainly (check_token token secret).
Proof.
  unfold check_token. destruct (or_none secret), token; plainly_auto. apply digest_plainly.
Qed.
Lemma github_snapshot_plainly payload : plainly (github_pull_request_snapshot payload).
Proof. unfold github_pull_request_snapshot. plainly_auto; apply datetime_plainly. Qed.
Lemma gitlab_snapshot_plainly payload : plainly (gitlab_pull_request_snapshot payload).
Proof. unfold gitlab_pull_request_snapshot. plainly_auto; apply datetime_plainly. Qed.

Lemma parse_plainly app provider headers body : plainly (parse_webhook app provider headers body).
Proof.
  unfold parse_webhook, github_parse_webhook, gitlab_parse_webhook.
  case_bool_decide; [|case_bool_decide; [|by apply plainly_raise]].
  - unfold _parse_github_webhook. plainly_auto; [apply signature_plainly|by apply body_plainly|].
    unfold normalize_github_event, _normalize_pull_request_event.
    case_bool_decide; plainly_auto. apply github_snapshot_plainly.
  - unfold _parse_gitlab_webhook. plainly_auto; [apply token_plainly|by apply body_plainly|].
    unfold normalize_gitlab_event. plainly_auto. apply gitlab_snapshot_plainly.
Qed.
End parsing.

Create HintDb raises.
#[export] Hint Resolve raises_ret raises_gets raises_puts : raises.

Ltac raises_step :=
  lazymatch goal with
  | |- ∀ _, _ => intros ?
  | |- raises _ (mbind _ _) => apply raises_bind; [|intros ?]
  | |- raises _ (for_each _ _) => apply raises_for_each; intros ?
  | |- raises _ (when _ _) => apply raises_when
  | |- raises _ (raise _) => apply raises_raise; first [done | by apply tolerated | idtac]
  | |- raises _ (begin_nested _) => apply raises_nested
  | |- raises _ (if ?b then _ else _) => destruct b
  | |- raises _ (match ?x with _ => _ end) => destruct x
  | |- raises _ _ => solve [eauto 3 with raises]
  end.
Ltac raises_auto := repeat raises_step; eauto 3 with raises.

Section services.
Context `{Runtime} `{PiAgentRuntime} `{GitWorkspace} `{Host} `{CheckoutRegistry} `{ResultSchema}
  `{ProviderRegistry}.
(** Neither the validation of a reply nor a provider raises the refusals of the services. *)
Context (validated_plainly : ∀ j e, validate_session j = Raise e → plain e).
Context (checkout_plainly : ∀ p r u, raises plain (provider_checkout p r u)).
Context (P : exn → Prop) `{!Tolerant P}.

(** *** Rows *)

Lemma raises_clock : raises P utc_now.
Proof. by intros s e. Qed.
Lemma raises_uuid : raises P uuid4.
Proof. by intros s e. Qed.
Lemma raises_commit : raises P commit.
Proof. by intros s e. Qed.
Lemma raises_fetch {R} `{Table R} k : raises P (fetch (R := R) k).
Proof. apply raises_gets. Qed.
Lemma raises_select {R} `{Table R} (f : R → bool) : raises P (select f).
Proof. apply raises_gets. Qed.
Lemma raises_modify {R} `{Table R} k (f : R → R) : raises P (modify k f).
Proof. apply raises_puts. Qed.
Hint Resolve raises_clock raises_uuid raises_commit raises_fetch raises_select raises_modify : raises.
Lemma raises_update {R} `{Table R} (c : R → bool) f : raises P (update_where c f).
Proof. unfold update_where. raises_auto. Qed.
Lemma raises_load {R} `{Table R} k : raises P (load (R := R) k).
Proof. unfold load. raises_auto. Qed.
Lemma raises_insert {R} `{Table R} (r : R) : raises P (insert r).
Proof. unfold insert. raises_auto. Qed.
Lemma raises_one {R} (l : list R) : raises P (scalar_one_or_none l).
Proof. unfold scalar_one_or_none. raises_auto. Qed.
Hint Resolve raises_update raises_load raises_insert raises_one : raises.
Lemma raises_rethrow {A} (m : SM A) h :
  raises P m → (∀ e, P e → raises P (h e)) → raises P (try_except m h).
Proof. apply raises_try. Qed.
Lemma raises_integrity {A} (m : SM A) h :
  raises P m → (∀ e, P e → raises P (h e)) → raises P (except_integrity m h).
Proof.
  intros Hm Hh. apply raises_rethrow; [done|]. intros [] He; try by apply raises_raise. by apply Hh.
Qed.
Lemma raises_git {A} (m : SM A) h :
  raises P m → (∀ a b, raises P (h a b)) → raises P (except_git m h).
Proof. intros Hm Hh. apply raises_rethrow; [done|]. intros [] He; by first [apply raises_raise|apply Hh]. Qed.

(** *** Runs and their comments *)

Lemma raises_load_run id : raises P (load_run id).
Proof. unfold load_run. raises_auto. Qed.
Lemma raises_review_run id : raises P (get_review_run id).
Proof. unfold get_review_run. raises_auto. Qed.
Lemma raises_slot id : raises P (slot_of_run id).
Proof. unfold slot_of_run. raises_auto. Qed.
Lemma raises_enqueue a b c d e f g h i j : raises P (enqueue_delivery a b c d e f g h i j).
Proof. unfold enqueue_delivery, new_delivery. raises_auto. Qed.
Hint Resolve raises_load_run raises_review_run raises_slot raises_enqueue : raises.
Lemma raises_placeholder id : raises P (ensure_review_placeholder_requested id).
Proof. unfold ensure_review_placeholder_requested, create_slot, request_placeholder. raises_auto. Qed.
Hint Resolve raises_placeholder : raises.
Lemma raises_report a b c : raises P (enqueue_review_comment_status a b c).
Proof. unfold enqueue_review_comment_status. raises_auto. Qed.
Hint Resolve raises_report : raises.
Lemma raises_supersede id : raises P (supersede_older_review_runs id).
Proof. unfold supersede_older_review_runs. raises_auto. Qed.
Lemma raises_cancel_run id : raises P (cancel_review_run id).
Proof. unfold cancel_review_run. raises_auto. Qed.
Lemma raises_latest a b c d : raises P (get_latest_review_run_by_head a b c d).
Proof. apply raises_gets. Qed.
Hint Resolve raises_supersede raises_latest : raises.
Lemma raises_run_record a b c d : raises P (_create_review_run_record a b c d).
Proof.
  unfold _create_review_run_record, new_review_run.
  raises_auto; (apply raises_integrity; [raises_auto|intros e He; raises_auto]).
Qed.
Lemma raises_run_context id : raises P (_pull_request_context_for_run id).
Proof. unfold _pull_request_context_for_run, context_by_identity. raises_auto. Qed.
Hint Resolve raises_run_record raises_run_context : raises.
Lemma raises_source_availability a b c d : raises P (_get_source_review_action_availability a b c d).
Proof. unfold _get_source_review_action_availability. raises_auto. Qed.
Lemma raises_event a b : raises P (get_provider_event a b).
Proof. unfold get_provider_event. raises_auto. Qed.
Hint Resolve raises_source_availability raises_event : raises.
Lemma raises_availability a b c d : raises P (action_availability a b c d).
Proof.
  unfold action_availability, get_review_run_retry_availability, get_review_run_rerun_availability.
  raises_auto.
Qed.

(** *** Agent sessions *)

Lemma raises_request method path payload : raises P (PiAgent._request method path payload).
Proof. unfold PiAgent._request. raises_auto. Qed.
Lemma raises_validated j : raises P (lift (S := Session) (validate_session j)).
Proof. apply raises_lift. intros e He. by apply tolerated, (validated_plainly j). Qed.
Hint Resolve raises_request raises_validated : raises.
Lemma raises_get_session id : raises P (get_session id).
Proof. unfold get_session. raises_auto. Qed.
Lemma raises_cancel_session id : raises P (cancel_session id).
Proof. unfold cancel_session. raises_auto. Qed.
Lemma raises_attempt {A} (m : SM A) : raises P m → raises P (attempt_client m).
Proof.
  intros Hm. unfold attempt_client, except_client_error. apply raises_rethrow; [raises_auto|].
  intros [] He; try by apply raises_raise. apply raises_ret.
Qed.
Hint Resolve raises_get_session raises_cancel_session raises_attempt : raises.
Lemma raises_archive id runtime : raises P (archive_agent_session id runtime).
Proof. unfold archive_agent_session, _get_or_create_attempt. raises_auto. Qed.
Lemma raises_session_of_run id : raises P (_review_session_for_run id).
Proof. unfold _review_session_for_run. raises_auto. Qed.
Lemma raises_with_session a b : raises P (with_session a b).
Proof. unfold with_session. raises_auto. Qed.
Hint Resolve raises_archive raises_session_of_run raises_with_session : raises.
Lemma raises_mark_failed a b c : raises P (_mark_failed a b c).
Proof. unfold _mark_failed. raises_auto. Qed.
Hint Resolve raises_mark_failed : raises.
Lemma raises_sync id : raises P (sync_review_session id).
Proof. unfold sync_review_session. raises_auto. Qed.
Lemma raises_cancel_review id reason : raises P (cancel_review_session id reason).
Proof. unfold cancel_review_session. raises_auto. Qed.

(** *** Workspaces *)

Lemma raises_file_action a : raises P (file_action a).
Proof. unfold file_action. raises_auto. Qed.
Lemma raises_rmtree path : raises P (rmtree path).
Proof. unfold rmtree. raises_auto. Qed.
Lemma raises_run_git command env : raises P (_run_git command env).
Proof. unfold _run_git. raises_auto. Qed.
Hint Resolve raises_file_action raises_rmtree raises_run_git : raises.
Lemma raises_commit_ensured a b c d : raises P (_ensure_commit a b c d).
Proof.
  unfold _ensure_commit. apply raises_git; [raises_auto|]. intros.
  apply raises_git; [raises_auto|intros; raises_auto].
Qed.
Lemma raises_cache a b c : raises P (_ensure_cache a b c).
Proof. unfold _ensure_cache, exists_. raises_auto. Qed.
Hint Resolve raises_commit_ensured raises_cache : raises.
Lemma raises_git_env request token username :
  raises P (lift (S := Session) (_git_env request token username)).
Proof.
  apply raises_lift. intros e. unfold _git_env. destruct (match or_none token with Some _ => _ | None => _ end).
  2:{ destruct (or_none _); [intros [= <-]; by apply tolerated|done]. }
  destruct (WorkspacePrepareRequest.clone_url request) as [url|]; [|done].
  unfold mbind, outcome_bind. destruct (_authenticated_https_base url) eqn:Hb; [done|].
  intros [= <-]. by apply tolerated, (base_plain url).
Qed.
Hint Resolve raises_git_env : raises.
Lemma raises_prepare_git a b c d : raises P (_prepare_git_workspace a b c d).
Proof. unfold _prepare_git_workspace, exists_. raises_auto. Qed.
Lemma raises_workspace id : raises P (get_workspace id).
Proof. unfold get_workspace. raises_auto. Qed.
Hint Resolve raises_prepare_git raises_workspace : raises.
Lemma raises_checkout request b : raises P (checkout_or_failure request b).
Proof.
  unfold checkout_or_failure. apply raises_rethrow.
  - apply raises_bind; [|intros; apply raises_ret].
    apply (raises_mono plain); [intros e; apply tolerated|].
    unfold _resolve_workspace_checkout. raises_auto.
  - intros [] He; by first [apply raises_raise|apply raises_ret].
Qed.
Lemma raises_preparation a b c d : raises P (run_preparation a b c d).
Proof.
  unfold run_preparation. apply raises_bind; [apply raises_git; raises_auto|]. raises_auto.
Qed.
Hint Resolve raises_checkout raises_preparation : raises.
Lemma raises_prepare a b c : raises P (prepare_workspace a b c).
Proof. unfold prepare_workspace, enter_preparing, new_workspace. raises_auto. Qed.
Lemma raises_lease id a b : raises P (lease_workspace id a b).
Proof. unfold lease_workspace. raises_auto. Qed.
Lemma raises_release id : raises P (release_workspace id).
Proof. unfold release_workspace, _has_other_active_lease. raises_auto. Qed.
Lemma raises_cleanup id force : raises P (cleanup_workspace id force).
Proof.
  unfold cleanup_workspace, _has_active_lease. raises_auto.
  apply raises_rethrow; [raises_auto|]. intros [] He; by first [apply raises_raise|apply raises_ret].
Qed.
Hint Resolve raises_cleanup : raises.
Lemma raises_cleanups l force summary : raises P (_cleanup_many l force summary).
Proof. revert summary. induction l as [|w l IH]; intros; cbn [_cleanup_many]; raises_auto. Qed.

(** *** Webhooks *)

Lemma raises_upsert a b c : raises P (upsert_pull_request_context a b c).
Proof. unfold upsert_pull_request_context, context_by_identity, new_context. raises_auto. Qed.
Hint Resolve raises_upsert : raises.
Lemma raises_close w : raises P (close_pull_request w).
Proof.
  unfold close_pull_request, cancel_active_review_runs_for_pr, cancel_active_agent_tasks_for_pr.
  raises_auto.
Qed.
Lemma raises_command id w c : raises P (webhook_command id w c).
Proof.
  unfold webhook_command, create_agent_task_from_event, context_by_identity, new_agent_task.
  raises_auto.
Qed.
Lemma raises_context id w : raises P (webhook_context id w).
Proof. unfold webhook_context. raises_auto. Qed.

(** *** Requested reviews, which may be rejected *)

Context (rejected : ∀ a b c d, P (ReviewRequestRejected a b c d)).
Lemma raises_revision a b c : raises P (requested_revision a b c).
Proof. pose proof raises_availability. unfold requested_revision, reject. raises_auto. Qed.
Hint Resolve raises_revision : raises.
Lemma raises_review_request r : raises P (handle_review_requested r).
Proof. unfold handle_review_requested, reject. raises_auto. Qed.
Hint Resolve raises_review_request : raises.
Lemma raises_reject {A} a b c d : raises P (_reject_review_request (A := A) a b c d).
Proof. unfold _reject_review_request, reject. raises_auto. Qed.
Lemma raises_request_result a b c d : raises P (_review_request_result a b c d).
Proof. unfold _review_request_result. raises_auto. Qed.
Hint Resolve raises_reject raises_request_result : raises.
Lemma raises_decide a b c d : raises P (decide_request a b c d).
Proof.
  pose proof raises_availability. unfold decide_request. raises_auto.
  apply raises_rethrow; [raises_auto|]. intros [] He; raises_auto.
Qed.
Lemma raises_answer a b : raises P (answer_existing a b).
Proof. unfold answer_existing, reject. raises_auto. Qed.
Hint Resolve raises_decide raises_answer : raises.
Lemma raises_source_action fuel a b c : raises P (_request_source_review_action fuel a b c).
Proof.
  revert a b c. induction fuel as [|fuel IH]; intros; cbn [_request_source_review_action];
    unfold request_event; raises_auto; apply raises_integrity; raises_auto.
Qed.
Lemma raises_retry id : raises P (request_review_retry id).
Proof. unfold request_review_retry. apply raises_source_action. Qed.
Lemma raises_rerun id key : raises P (request_review_rerun id key).
Proof. unfold request_review_rerun. apply raises_source_action. Qed.
Lemma raises_webhook a b w c d : raises P (accept_provider_webhook a b w c d).
Proof.
  pose proof raises_close. pose proof raises_command. pose proof raises_context.
  unfold accept_provider_webhook, handle_event, only_if, webhook_review, inbox_event,
    _get_agent_task_id_for_event. raises_auto.
Qed.

(** *** Reviews an agent asks for, which may be rejected too *)

Context (action_rejected : ∀ a b, P (AgentReviewActionRejected a b)).
Lemma raises_agent_source action agent : raises P (agent_source action agent).
Proof. unfold agent_source. raises_auto. Qed.
Lemma may_request_raises task agent session_id e :
  agent_may_request task agent session_id = Some e → P e.
Proof. unfold agent_may_request. intros He. by repeat case_match; simplify_eq. Qed.
Lemma raises_agent_action a b c : raises P (request_review_action_from_agent a b c).
Proof.
  pose proof raises_source_action. pose proof raises_agent_source.
  unfold request_review_action_from_agent. apply raises_bind; [raises_auto|].
  intros [task|]; [|apply raises_ret]. destruct (Some task ≫= agent_of) as [agent|]; [|apply raises_ret].
  destruct (agent_may_request task agent b) as [e|] eqn:He.
  - by apply raises_raise, (may_request_raises task agent b).
  - unfold source_missing. raises_auto.
Qed.
End services.

(** *** The detail of a command task *)

Lemma shown_plainly url id : raises plain (agent_task_shown url id).
Proof.
  unfold agent_task_shown, get_agent_task_detail, _agent_task_summary.
  apply raises_bind; [|raises_auto]. apply raises_bind; [apply raises_gets|]. intros found.
  destruct (found ≫= _) as [[t a]|]; [|apply raises_ret].
  apply raises_bind; [|intros; apply raises_ret]. apply raises_lift.
  apply (plainly_bind (_safe_error_message _)); [intros e; apply message_plain|].
  intros; apply plainly_return.
Qed.

(** ** Routes *)

Section routes.
Context (P : exn → Prop).
Lemma raises_ok {A} (m : SM A) : raises P m → raises P (ok m).
Proof. intros. unfold ok. raises_auto. Qed.
Lemma raises_accepted {A} (m : SM A) : raises P m → raises P (accepted m).
Proof. intros. unfold accepted. raises_auto. Qed.
Lemma raises_found {A} (m : SM (option A)) : raises P m → raises P (found_or_404 m).
Proof. intros. unfold found_or_404, not_found. raises_auto. Qed.
Lemma raises_accepted_found {A} (m : SM (option A)) : raises P m → raises P (accepted_or_404 m).
Proof. intros. unfold accepted_or_404, not_found. raises_auto. Qed.
Lemma raises_or_reply {A B} (m : SM (reply A)) (k : A → SM (reply B)) :
  raises P m → (∀ a, raises P (k a)) → raises P (or_reply m k).
Proof. intros. unfold or_reply. raises_auto. Qed.
Lemma raises_bounded {A} bounds (m : SM (reply A)) : raises P m → raises P (validated bounds m).
Proof. intros. unfold validated. destruct (forallb _ _); [done|apply raises_ret]. Qed.
Lemma raises_client {A} app (m : SM (reply A)) : raises P m → raises P (get_pi_agent_client app m).
Proof. intros. unfold get_pi_agent_client, http_error. raises_auto. Qed.
Lemma raises_bodyless {A} (m : SM (reply A)) : raises P m → raises P (bodyless m).
Proof. intros. unfold bodyless. raises_auto. Qed.
(** What a handler answers does not escape. *)
Lemma raises_refusing {A} Q h (m : SM (reply A)) :
  raises Q m → (∀ e, Q e → h e = None → P e) → raises P (refusing h m).
Proof.
  intros Hm Hh. apply (raises_try _ Q); [done|]. intros e He.
  destruct (h e) as [[code detail]|] eqn:Heq; [apply raises_ret|]. apply raises_raise. auto.
Qed.
End routes.

Lemma registry_plainly app : raises plain (get_configured_provider_registry app).
Proof. unfold get_configured_provider_registry. raises_auto. Qed.

(** [except ReviewRunTransitionError] answers every refusal. *)
Lemma transitions_answered {A} (m : SM (reply A)) : raises plain (refusing transition_refusal m).
Proof. apply (raises_refusing _ (λ _, True)); [by intros s e|]. by intros [] _. Qed.
Lemma results_answered {A} (m : SM (reply A)) : raises plain (refusing result_refusal m).
Proof. apply (raises_refusing _ (λ _, True)); [by intros s e|]. by intros [] _. Qed.
Lemma rejections_answered {A} (m : SM (reply A)) :
  raises plain_or_rejected m → raises plain (refusing request_refusal m).
Proof. intros Hm. apply (raises_refusing _ _ _ _ Hm). by intros []. Qed.
