(* ===== verification/ApiTheorems.v ===== *)
(** * The promises of the API

    Reading changes nothing; a request without the credential its route asks for touches
    nothing; what a service refuses is answered with the status of the refusal. *)
From Stdlib Require Import Ascii.
From S2P Require Import Prelude PyText Json World Models Invariants PlatformClient GitHubClient GitLabClient ProviderCore GitHub GitLab Registry Platforms PlatformWebhooks PlatformTheorems SchedulerAdmin Delivery ReviewResults ReviewRuns ReviewRequests Webhooks PiAgent SessionArchives AgentSessions Views Listings Workspaces PlatformDiagnostics Schemas Api WorkerCommon WorkerPlatforms WorkerInvariants ApiInvariants ApiErrors.
#[global] Open Scope Z_scope.
#[global] Open Scope orch_scope.

Section api.
Context `{Runtime} `{PiAgentRuntime} `{GitWorkspace} `{Host} `{CheckoutRegistry} `{ResultSchema}
  `{ProviderRegistry} `{WebhookLibrary} `{PlatformHttp} `{DiagnosticsHttp} `{GitHubSettings}
  `{GitLabSettings}.
Context (app : AppState.t) (agent_task_comment_url : Task.t → option string).

(** ** Reading *)

(** The state of a session but for its clock and the probes it has sent. *)
Definition unchanged_since (s0 s : Session) : Prop :=
  work s = work s0 ∧ committed s = committed s0 ∧ shell s = shell s0 ∧
  ∃ probes, sent s = sent s0 ++ probes ∧
    Forall (λ r, HttpRequest.method r = "GET" ∧ HttpRequest.body r = None) probes.

#[local] Instance unchanged_readable s0 : Readable (unchanged_since s0).
Proof.
  split.
  - by intros s Hs.
  - intros service path token s (Hw & Hc & Hsh & probes & Hp & Hget). split_and!; [done..|].
    eexists (probes ++ [_]). split; [by cbn; rewrite Hp, <- app_assoc|].
    apply Forall_app. split; [done|]. by repeat constructor.
Qed.

(** C36: a request that reads, answered or refused, and also when the route raises, changes
    nothing: not a row, committed or not, not a file, and of the platforms it only reads. *)
Theorem reading_changes_nothing r s :
  let s' := exec (read app agent_task_comment_url r) s in
  work s' = work s ∧ committed s' = committed s ∧ shell s' = shell s ∧
  ∃ probes, sent s' = sent s ++ probes ∧
    Forall (λ q, HttpRequest.method q = "GET" ∧ HttpRequest.body q = None) probes.
Proof.
  apply (keeps_exec (unchanged_since s)); [apply (read_kept _)|].
  split_and!; [done..|]. exists []. split; [by rewrite app_nil_r|constructor].
Qed.

(** ** Credentials *)

(** The bearer token a route expects. *)
Definition bears (expected : option string) (credentials : bearer_credentials) : Prop :=
  ∃ scheme token, credentials = Some (scheme, token) ∧ py_lower scheme = "bearer" ∧
    expected = Some token ∧ token ≠ "".

(** A webhook with the proof that its sender knows the secret, where there is one. *)
Definition proven (secret : option string) (proof : string → Prop) : Prop :=
  ∀ s, secret = Some s → s ≠ "" → proof s.

(** A request with the credential its route asks for; most routes ask for none. *)
Definition authentic (r : changing) : Prop :=
  match r with
  | AcceptWebhook "github" headers body =>
      proven github_webhook_secret (λ secret,
        PlatformWebhooks.header (lower_headers headers) "x-hub-signature-256" = Some (expected_signature secret body))
  | AcceptWebhook "gitlab" headers _ =>
      proven gitlab_webhook_secret (λ secret,
        PlatformWebhooks.header (lower_headers headers) "x-gitlab-token" = Some secret)
  | RequestAgentReviewAction credentials _ _ _ =>
      bears (ApiSettings.pi_agent_runtime_token (AppState.settings app)) credentials
  | NormalizeWebhook credentials _ _ _ | ResolveCheckout credentials _ _
  | PublishComments credentials _ _ | QueryPlatform credentials _ _ =>
      bears (ApiSettings.provider_core_api_token (AppState.settings app)) credentials
  | _ => True
  end.

(** A route that succeeded. *)
Definition succeeded {A} (o : outcome (reply A)) : Prop :=
  match o with Return (OK _) | Return (Accepted _) => True | _ => False end.

(** A route that touches nothing and does not succeed. *)
Definition rejects {A} (route : SM (reply A)) : Prop :=
  ∀ s, exec route s = s ∧ ¬ succeeded (result route s).

Lemma rejects_reply {A} code detail : rejects (A := A) (mret (HTTPException code detail)).
Proof. intros s. by split; [|intros []]. Qed.
Lemma rejects_raise {A} e : rejects (A := A) (raise e).
Proof. intros s. by split; [|intros []]. Qed.
Lemma rejects_bodyless {A} (route : SM (reply A)) : rejects route → rejects (bodyless route).
Proof.
  intros Hr s. destruct (Hr s) as [Hs Hst]. unfold exec, result, bodyless in *. rewrite bind_run.
  destruct (route s) as [[[a|a|code detail]|e] s']; cbn in *; done.
Qed.

Lemma authorized_rejects {A} expected a b credentials (route : SM (reply A)) :
  ¬ bears expected credentials → rejects (authorized expected a b credentials route).
Proof.
  intros Hno. unfold authorized, http_error.
  destruct expected as [[|c expected]|]; cbn [or_none]; try apply rejects_reply.
  destruct credentials as [[scheme supplied]|]; [|apply rejects_reply].
  case_bool_decide as Hscheme; cbn [negb]; [|apply rejects_reply].
  unfold compare_digest. destruct (_ && _); [|apply rejects_raise].
  case_bool_decide as Hsame; [|intros s; by split; [|intros []]].
  destruct Hno. exists scheme, supplied. by rewrite Hsame.
Qed.

(** A webhook whose parsing fails. *)
Lemma unparsed_rejects provider headers body :
  (∀ parsed, parse_webhook app provider headers body ≠ Return parsed) →
  rejects (accept_webhook app provider headers body).
Proof.
  intros Hno. unfold accept_webhook, get_configured_provider_registry.
  destruct (AppState.provider_registry app) as [registry|]; [|apply rejects_raise].
  intros s. unfold exec, result.
  rewrite bind_run. cbn [mret M_ret]. destruct (Registry.capability registry provider _); [|by split; [|intros []]].
  unfold or_reply, refusing, ok, try_except. rewrite !bind_run. unfold lift.
  destruct (parse_webhook app provider headers body) as [parsed|e] eqn:Hp; [by destruct (Hno parsed)|].
  destruct (webhook_refusal e) as [[code detail]|]; by split; [|intros []].
Qed.

(** A route whose body does not satisfy its schema. *)
Definition refuses {A} (route : SM (reply A)) : Prop :=
  ∀ s, route s = (Return (HTTPException 422 None), s).
Lemma validated_refuses {A} b (route : SM (reply A)) : b = false → refuses (validated [b] route).
Proof. by intros -> s. Qed.
Lemma client_refuses {A} (route : SM (reply A)) :
  has_client app = true → refuses route → refuses (get_pi_agent_client app route).
Proof. unfold get_pi_agent_client. by intros ->. Qed.
Lemma refuses_bodyless {A} (route : SM (reply A)) : refuses route → refuses (bodyless route).
Proof. intros Hr s. unfold bodyless. by rewrite bind_run, Hr. Qed.
Lemma invalid_rejects {A} b (route : SM (reply A)) : b = false → rejects (validated [b] route).
Proof. by intros -> s; split; [|intros []]. Qed.
Lemma client_rejects {A} (route : SM (reply A)) : rejects route → rejects (get_pi_agent_client app route).
Proof. intros. unfold get_pi_agent_client. destruct (has_client app); [done|apply rejects_reply]. Qed.
Lemma dependency_rejects {A} expected a b credentials (route : SM (reply A)) :
  rejects route → rejects (authorized expected a b credentials route).
Proof.
  intros Hr. unfold authorized, http_error.
  destruct (or_none expected) as [token|]; [|apply rejects_reply].
  destruct credentials as [[scheme supplied]|]; [|apply rejects_reply].
  destruct (negb _); [apply rejects_reply|].
  unfold compare_digest. destruct (_ && _); [|apply rejects_raise]. case_bool_decide.
  - intros s. apply (Hr s).
  - intros s. by split; [|intros []].
Qed.

Lemma not_proven secret P : ¬ proven secret P → ∃ s, secret = Some s ∧ s ≠ "" ∧ ¬ P s.
Proof.
  intros Hno. destruct secret as [s|]; [|by destruct Hno].
  exists s. split; [done|]. split; [|by intros HP; apply Hno; intros ? [= <-]].
  intros ->. apply Hno. by intros ? [= <-].
Qed.

(** C37: a request without the credential its route asks for does not succeed and touches nothing:
    an agent's request for a review without the runtime's token, a request to Provider Core
    without its token - also when no token is configured -, and a webhook without the proof
    that its sender knows the secret, where one is configured.  No row, no file, no request
    to a platform, not even the clock. *)
Theorem unauthentic_requests_touch_nothing r s :
  ¬ authentic r →
  exec (change app agent_task_comment_url r) s = s ∧
  ¬ succeeded (result (change app agent_task_comment_url r) s).
Proof.
  intros Hno.
  assert (Hr : rejects (change app agent_task_comment_url r)); [|apply Hr].
  destruct r; cbn [change authentic] in *; try done; apply rejects_bodyless;
    try by apply authorized_rejects.
  apply unparsed_rejects. intros parsed Hp. unfold parse_webhook, github_parse_webhook, gitlab_parse_webhook in Hp.
  case_bool_decide as Hgh; [subst provider|case_bool_decide as Hgl; [subst provider|done]].
  - apply not_proven in Hno as (secret & Hs & Hne & Hno). rewrite Hs in Hp.
    destruct Hno. by eapply (parsed_github_signed _ secret).
  - apply not_proven in Hno as (secret & Hs & Hne & Hno). rewrite Hs in Hp.
    destruct Hno. by eapply (parsed_gitlab_token secret).
Qed.

(** ** Bodies *)

(** A request whose body satisfies its schema; some routes have no body. *)
Definition well_formed (r : changing) : bool :=
  match r with
  | UpdateTaskScheduling _ payload => TaskSchedulingUpdate_valid payload
  | UpdateResourcePool _ capacity dimension => ResourcePoolUpdate_valid capacity dimension
  | UpdateDeliveryScheduling _ payload => DeliverySchedulingUpdate_valid payload
  | StartReviewSession _ workspace_path => ReviewSessionStart_valid workspace_path
  | CancelReviewSession _ reason => ReviewSessionCancel_valid reason
  | CollectReviewResult _ _ changed_files => ReviewResultCollect_valid changed_files
  | RequestAgentReviewAction _ task_id session_id action =>
      AgentReviewActionRequest_valid task_id session_id action
  | RerunReviewRun _ idempotency_key => UUID_valid idempotency_key
  | PrepareWorkspace payload => WorkspacePrepareRequest_valid payload
  | LeaseWorkspace _ review_run_id session_id => WorkspaceLeaseRequest_valid review_run_id session_id
  | CleanupPullRequestWorkspaces provider repository number _ =>
      PullRequestWorkspaceCleanupRequest_valid provider repository number
  | ResolveCheckout _ _ payload => GitCheckoutRequest_valid payload
  | PublishComments _ _ payload => CommentPublishRequest_valid payload
  | QueryPlatform _ _ payload => PlatformQueryRequest_valid payload
  | _ => true
  end.

(** The routes with a credential of their own, which is checked before the body. *)
Definition needs_credential (r : changing) : bool :=
  match r with
  | RequestAgentReviewAction _ _ _ _ | NormalizeWebhook _ _ _ _ | ResolveCheckout _ _ _
  | PublishComments _ _ _ | QueryPlatform _ _ _ => true
  | _ => false
  end.


(** ** Refusals *)

(** The routes of [provider_core.py], which call platforms and no service. *)
Definition of_provider_core (r : changing) : bool :=
  match r with
  | NormalizeWebhook _ _ _ _ | ResolveCheckout _ _ _ | PublishComments _ _ _
  | QueryPlatform _ _ _ => true
  | _ => false
  end.

Definition is_webhook (r : changing) : bool :=
  match r with AcceptWebhook _ _ _ => true | _ => false end.

Section refusals.
Context (validated_plainly : ∀ j e, validate_session j = Raise e → plain e).
Context (checkout_plainly : ∀ p r u, raises plain (provider_checkout p r u)).

Lemma webhook_plainly provider headers body :
  raises plain_or_rejected (accept_webhook app provider headers body).
Proof.
  unfold accept_webhook. apply raises_bind.
  { eapply raises_mono; [|apply registry_plainly]. by intros []. }
  intros registry. destruct (Registry.capability registry provider _); [|apply raises_ret].
  apply raises_or_reply.
  - apply (raises_refusing _ plain).
    + apply raises_ok, raises_lift, parse_plainly.
    + by intros [].
  - intros parsed. cbv zeta. apply raises_ok, raises_webhook; [apply _|]. by intros; exact I.
Qed.

(** What [except AgentReviewActionRejected] and [except ReviewRequestRejected] leave. *)
Definition not_transition (e : exn) : Prop :=
  match e with ReviewRunTransitionError _ _ => False | _ => True end.
#[local] Instance not_transition_tolerant : Tolerant not_transition.
Proof. by intros []. Qed.

Lemma action_answered credentials task_id session_id action :
  raises plain (request_agent_review_action_endpoint app credentials task_id session_id action).
Proof.
  unfold request_agent_review_action_endpoint, _authorize_pi_agent_tool, authorized.
  set (route := validated _ _). assert (Hr : raises plain route).
  { apply raises_bounded, (raises_refusing _ not_transition); [|by intros []].
    apply raises_accepted_found, raises_agent_action; [apply _|by intros..]. }
  unfold http_error. raises_auto. apply raises_lift, digest_plainly.
Qed.

End refusals.
End api.

(** The checkouts of GitHub and GitLab raise no refusal of the services. *)
Lemma code_checkouts_plainly `{Runtime} `{PlatformHttp} `{GitHubSettings} `{GitLabSettings} registry p r u :
  raises plain (@provider_checkout (code_checkouts registry) p r u).
Proof.
  cbn [provider_checkout code_checkouts]. unfold GitHub.get_workspace_checkout, GitHub.resolve_git_checkout,
    GitHub.get_credential, GitHub.clone_url, GitHub.require_client, GitLab.get_workspace_checkout,
    GitLab.resolve_git_checkout, GitLab.get_credential, GitLab.clone_url, GitLab.require_client, unsupported.
  raises_auto. unfold GitHub.operation_error, get_token. apply (raises_try _ plain); [raises_auto|].
  intros [] He; try by apply raises_raise. apply raises_bind; [|raises_auto].
  apply raises_lift. intros e. unfold _safe_platform_error. plain_outcome.
Qed.
