(* ===== verification/WorkerTheorems.v ===== *)
(** * What the workers guarantee

    A pass over the review runs gives back what it claimed; the retries of a session are
    bounded and wait ever longer; the history a command is started with is a bounded part of
    the earlier conversation in its order; commands of a pull request take turns; and a run
    that exceeds its time is ended. *)
From Stdlib Require Import Ascii.
From S2P Require Import Prelude PyText Json World Models Invariants Scheduler SchedulerAdmin SchedulerFacts Delivery DeliveryTheorems DeliveryInvariant ReviewResults Reconciliation ReviewRuns ReviewRunFacts PiAgent SessionArchives AgentSessions AgentSessionTheorems Workspaces WorkerCommon WorkerPlatforms AgentWorker ReviewWorker WorkerLoop WorkerInvariants SystemInvariants.
#[global] Open Scope Z_scope.
#[global] Open Scope orch_scope.

(** ** Claims are given back *)

(** Every lease is one of [L] or belongs to a task. *)
Definition leases_from (L : list ResourceLease.t) (id : string) (d : Db) : Prop :=
  ∀ l, l ∈ leases d → l ∈ L ∨ ResourceLease.task_id l = id.
Definition leases_in (L : list ResourceLease.t) (d : Db) : Prop := ∀ l, l ∈ leases d → l ∈ L.
Abbreviation claimed_only L id := (λ s, leases_from L id (work s) ∧ leases_from L id (committed s)).
Abbreviation unclaimed L := (λ s, leases_in L (work s) ∧ leases_in L (committed s)).

(** Nothing of a task is claimed. *)
Definition freed (id : string) (d : Db) : Prop :=
  (∀ l, l ∈ leases d → ResourceLease.task_id l ≠ id) ∧
  (∀ t, t ∈ tasks d → Task.id t = id → Task.lock_owner t = None ∧ Task.locked_until t = None).

Section claims.
Context `{Runtime}.

#[export] Instance claimed_table L id : TableInvariant (claimed_only L id).
Proof. apply (table_invariant_both (leases_from L id)). by intros d d' _ Hl _; unfold leases_from; rewrite Hl. Qed.
#[export] Instance unclaimed_table L : TableInvariant (unclaimed L).
Proof. apply (table_invariant_both (leases_in L)). by intros d d' _ Hl _; unfold leases_in; rewrite Hl. Qed.

Lemma claimed_apart_outbox L id (f : list DeliveryOutbox.t → list DeliveryOutbox.t) :
  keeps (claimed_only L id) (puts (on_rows f)).
Proof. by intros s Hs. Qed.
Lemma claimed_enqueue L id a b c d e f g h i j :
  keeps (claimed_only L id) (enqueue_delivery a b c d e f g h i j).
Proof.
  pose proof (claimed_apart_outbox L id). pose proof @apart_update. pose proof @apart_insert.
  unfold enqueue_delivery, new_delivery. kept_auto.
Qed.
Lemma claimed_delete L id (P : ResourceLease.t → bool) : keeps (claimed_only L id) (delete_where P).
Proof. intros s [Hw Hc]. split; [|done]. intros l [_ Hl]%list_elem_of_filter. by apply Hw. Qed.
Lemma unclaimed_delete L (P : ResourceLease.t → bool) : keeps (unclaimed L) (delete_where P).
Proof. intros s [Hw Hc]. split; [|done]. intros l [_ Hl]%list_elem_of_filter. by apply Hw. Qed.
Lemma unclaimed_pools L (f : list ResourcePool.t → list ResourcePool.t) :
  keeps (unclaimed L) (puts (on_rows f)).
Proof. by intros s Hs. Qed.

Lemma claimed_release L id a b c d : keeps (claimed_only L id) (release_task_claim a b c d).
Proof. pose proof (claimed_delete L id). unfold release_task_claim. kept_auto. Qed.

Context `{CheckoutRegistry} `{WorkerProviders} `{ProviderRegistry} `{!Bystanders}.

#[export] Instance claimed_kept L id : Kept (claimed_only L id).
Proof.
  split; intros; [apply _|..].
  - apply claimed_enqueue.
  - apply claimed_release.
  - apply comment_kept.
  - apply checkout_kept.
  - apply context_kept.
  - apply files_kept.
Qed.

(** A release frees its task for good. *)
Lemma release_frees id delay s :
  freed id (committed (exec (release_task_claim id None delay None) s)).
Proof.
  unfold release_task_claim, or_now, exec, delete_where. run_steps.
  match goal with |- context [find_row id ?l] => destruct (find_row id l) as [task|] eqn:Hf end.
  - run_steps. unfold modify. run_steps. split.
    + intros l. cbn. intros [HP _]%list_elem_of_filter ?. subst. by rewrite bool_decide_true in HP.
    + intros t. cbn. intros (t0 & Ht0 & ->)%elem_of_update_rows. case_bool_decide as Hid; [|done].
      intros _. split; [by destruct delay; repeat case_bool_decide|].
      by destruct delay; repeat case_bool_decide.
  - run_steps. split.
    + intros l. cbn. intros [HP _]%list_elem_of_filter ?. subst. by rewrite bool_decide_true in HP.
    + intros t Ht Hid. apply find_row_None in Hf. destruct Hf.
      rewrite <- Hid. by apply list_elem_of_fmap_2.
Qed.

(** Leases of a task that are not committed yet. *)
Abbreviation granting L id :=
  (λ s, leases_from L id (work s) ∧ leases_in L (committed s)).

Lemma granting_grant L id worker_id stage expires_at r :
  keeps (granting L id) (grant id worker_id stage expires_at r).
Proof.
  unfold grant. apply keeps_bind; [by intros s Hs|]. intros k. unfold insert.
  apply keeps_bind; [apply keeps_gets|]. intros l. destruct (violation _ _); [apply keeps_raise|].
  intros s [Hw Hc]. split; [|done]. intros x [Hx|Hx]%elem_of_app; [by apply Hw|].
  apply list_elem_of_singleton in Hx. subst x. by right.
Qed.

Lemma room_quiet reqs now s : exec (capacity_available reqs now) s = s.
Proof.
  unfold exec. destruct (capacity_available reqs now s) as [o s'] eqn:Hrun.
  by apply capacity_available_run in Hrun as [-> _].
Qed.

Lemma unclaimed_step {A} L (m : SM A) :
  keeps (unclaimed L) m →
  triple (unclaimed L) m (λ _, unclaimed L) (λ _ s, leases_in L (committed s)).
Proof. intros Hm. eapply triple_conseq; [exact Hm|done|done|by intros ?? []]. Qed.

Lemma acquire_grants L id worker_id stage expires_at now reqs :
  triple (unclaimed L) (_acquire_resources id worker_id stage expires_at now reqs)
    (λ (acquired : bool) s, if acquired then granting L id s else unclaimed L s)
    (λ _ s, leases_in L (committed s)).
Proof.
  assert (Hweak : ∀ s, unclaimed L s → granting L id s).
  { intros s [Hw Hc]. split; [|done]. intros l Hl. left. by apply Hw. }
  unfold _acquire_resources. destruct reqs as [|r reqs]; [by apply triple_ret|].
  set (reqs' := r :: reqs). eapply triple_bind.
  { apply unclaimed_step. pose proof (unclaimed_pools L). unfold _ensure_resource_pools, insert_if_absent.
    pose proof @apart_insert. kept_auto. }
  intros _ s Hs. rewrite bind_run. pose proof (room_quiet reqs' now s) as Hq. unfold exec in Hq.
  destruct (capacity_available reqs' now s) as [[[]|e] s']; cbn in Hq; subst s'; cbn;
    [|done|apply Hs].
  rewrite bind_run. assert (Hk : keeps (granting L id)
    (for_each reqs' (grant id worker_id stage expires_at)))
    by (apply keeps_for_each; intros; apply granting_grant).
  specialize (Hk s (Hweak s Hs)). by destruct (for_each _ _ s) as [[?|?] ?]; [|apply Hk].
Qed.

(** A claim grants leases to the task it returns and to no other. *)
Lemma candidates_grant L worker_id expires_at now policy ids :
  triple (unclaimed L) (try_candidates worker_id expires_at now policy ids)
    (λ o s, match o with Some id => claimed_only L id s | None => unclaimed L s end)
    (λ _ s, leases_in L (committed s)).
Proof.
  induction ids as [|id ids IH]; cbn [try_candidates].
  { eapply triple_bind; [apply unclaimed_step; kept_auto|]. intros ?. by apply triple_ret. }
  eapply triple_bind; [apply unclaimed_step; kept_auto|]. intros [task|]; [|exact IH].
  eapply triple_bind.
  { apply unclaimed_step. unfold _compare_and_swap_task_lock, update_where. kept_auto; by apply kept_rows. }
  intros [|]; [|exact IH]. cbn [negb].
  eapply triple_bind; [apply unclaimed_step; kept_auto|]. intros reqs.
  eapply triple_bind; [apply acquire_grants|]. intros [|]; cbn [negb].
  - intros s [Hw Hc]. run_steps. unfold modify. run_steps. split; apply Hw.
  - eapply triple_bind; [apply unclaimed_step; kept_auto|]. intros ?.
    eapply triple_bind; [apply unclaimed_step; kept_auto|]. intros ?. exact IH.
Qed.

Lemma claim_grants L a b c d e f :
  triple (unclaimed L) (claim_next_task a b c d e f)
    (λ o s, match o with Some id => claimed_only L id s | None => unclaimed L s end)
    (λ _ s, leases_in L (committed s)).
Proof.
  unfold claim_next_task. eapply triple_bind; [apply unclaimed_step; kept_auto|]. intros now.
  eapply triple_bind; [apply unclaimed_step, unclaimed_delete|]. intros ?. eapply triple_bind.
  { apply unclaimed_step. unfold _apply_priority_aging, update_where. kept_auto; by apply kept_rows. }
  intros ?. eapply triple_bind; [apply unclaimed_step; kept_auto|]. intros ids. apply candidates_grant.
Qed.
End claims.

Section review_pass.
Context `{Runtime} `{PiAgentRuntime} `{GitWorkspace} `{Host} `{CheckoutRegistry}
  `{WorkerProviders} `{ResultSchema} `{ProviderRegistry} `{!Bystanders}.

Lemma release_run_frees id s : freed id (committed (exec (release_review_run_lock id) s)).
Proof.
  pose proof (release_frees id None s) as Hf. unfold exec, release_review_run_lock in *.
  rewrite bind_run. destruct (release_task_claim id None None None s) as [[[k|]|e] s1]; try done.
  rewrite bind_run. unfold load. rewrite bind_run. cbn [fetch gets].
  destruct (find_row k _) as [t|]; [|done]. cbn. by destruct (review_of t).
Qed.

(** A claimed run is given back whatever becomes of it. *)
Lemma process_run_frees run_id settings s t r :
  find_row run_id (tasks (work s)) = Some t → review_of t = Some r →
  freed run_id (committed (exec (process_run run_id settings) s)).
Proof.
  intros Ht Hr. unfold process_run. unfold exec at 1.
  rewrite bind_run, (load_run_known _ _ _ Ht), Hr. cbn [snd].
  destruct (negb _).
  - unfold end_run, modify. run_steps.
    match goal with |- context [(release_review_run_lock run_id ?s1)] =>
      pose proof (release_run_frees run_id s1) as Hf; unfold exec in Hf;
      by destruct (release_review_run_lock run_id s1) as [[?|?] ?] end.
  - match goal with |- freed _ (committed ((finally ?m ?c s).2)) =>
      change (freed run_id (committed (exec (finally m c) s))) end.
    rewrite exec_finally, exec_ignore. apply release_run_frees.
Qed.

(** Acquiring a run leaves the row it claimed as it is. *)
Lemma acquired_run L worker_id lock_seconds policy s :
  unclaimed L s →
  match acquire_next_review_run worker_id lock_seconds None (Some policy) s with
  | (Return (Some id), s1) => claimed_only L id s1 ∧
      ∃ t r, find_row id (tasks (work s1)) = Some t ∧ review_of t = Some r
  | (Return None, s1) => unclaimed L s1
  | (Raise _, _) => True
  end.
Proof.
  intros Hs. unfold acquire_next_review_run. rewrite bind_run.
  pose proof (claim_grants L worker_id ["review"] [] lock_seconds None (Some policy) s Hs) as Hc.
  destruct (claim_next_task _ _ _ _ _ _ s) as [[[id|]|e] s1]; [|done|done].
  rewrite bind_run. unfold load. rewrite bind_run. cbn [fetch gets].
  change (rows (work s1)) with (tasks (work s1)).
  destruct (find_row id (tasks (work s1))) as [t|] eqn:Ht; cbn; [|done].
  destruct (review_of t) as [r|] eqn:Hr; cbn; [|done]. eauto.
Qed.

End review_pass.

(** ** Retries of the agent session *)

Section retries.
Context `{Runtime}.

(** The state after the row of a run was assigned and committed, one clock reading later. *)
Definition assigned (run_id : string) (f : Task.t → Task.t) (s : Session) : Session :=
  exec (modify (R := Task.t) run_id f ;; commit) (s .[ ticks := S (ticks s) ]).

Lemma assigned_row run_id f s t :
  NoDup (Task.id <$> tasks (work s)) → find_row run_id (tasks (work s)) = Some t →
  (∀ t, Task.id (f t) = Task.id t) →
  find_row run_id (tasks (committed (assigned run_id f s))) = Some (f t).
Proof.
  intros Hnd Hf Hid. apply find_row_Some in Hf as [Hin <-].
  exact (find_updated (R := Task.t) f _ t Hnd Hin Hid).
Qed.

Lemma count_app (P : json → bool) l l' :
  length (filter (λ w, Is_true (P w)) (l ++ l')) =
  (length (filter (λ w, Is_true (P w)) l) + length (filter (λ w, Is_true (P w)) l'))%nat.
Proof. by rewrite filter_app, length_app. Qed.

Definition start_code : json → bool := has_code "pi_agent_start_retry".

Lemma session_warnings_count r :
  length (filter (λ w, Is_true (start_code w)) (session_retry_warnings r)) =
  length (filter (λ w, Is_true (start_code w)) (warnings_of r)).
Proof.
  unfold session_retry_warnings. destruct (existsb _ _); [done|]. rewrite count_app.
  match goal with |- (_ + ?n)%nat = _ => assert (n = 0%nat) as -> by done end. lia.
Qed.

Lemma start_warning_count r :
  length (filter (λ w, Is_true (start_code w)) [start_retry_warning r]) = 1%nat.
Proof. done. Qed.

(** The run of a task that goes on. *)
Lemma resumed stage warnings available_at t r :
  Task.sub t = Task.Review r →
  let t' := resume_run stage warnings available_at t in
  Task.status t' = "running" ∧ Task.stage t' = Some stage ∧ Task.available_at t' = available_at ∧
  Task.sub t' = Task.Review (r .[ ReviewRun.failure_code := None ] .[ ReviewRun.error := None ]
    .[ ReviewRun.validation_warnings_json := Some warnings ]).
Proof. destruct t. cbn. by intros ->. Qed.

Lemma resumed_id stage warnings available_at t :
  Task.id (resume_run stage warnings available_at t) = Task.id t.
Proof. by unfold resume_run; rewrite set_review_id. Qed.

(** What becomes of a run whose start is retried. *)
Definition restarted (settings : WorkerSettings.t) (now : Z) (r : ReviewRun.t) (t' : Task.t)
    : Prop :=
  Task.status t' = "running" ∧ Task.stage t' = Some "retrying_agent_start" ∧
  Task.available_at t' =
    now + WorkerSettings.retry_initial_delay_seconds settings * 2 ^ start_retries r * second ∧
  ∃ r', review_of t' = Some r' ∧ ReviewRun.agent_session_id r' = None ∧
    ReviewRun.failure_code r' = None ∧ start_retries r' = start_retries r + 1.

(** C29: the retries of an agent session are bounded and back off.  A run is retried only after
    an infrastructure failure.  Without a session, it is restarted exactly while fewer than
    [retry_max_attempts] restarts are recorded with it; each restart records itself, so there
    are never more, and waits the initial delay times two to the number of restarts before.
    With a session it is polled again, which counts for nothing.  A run that is not retried is
    not touched. *)
Theorem session_retries_are_bounded run_id settings s t r :
  NoDup (Task.id <$> tasks (work s)) →
  find_row run_id (tasks (work s)) = Some t → review_of t = Some r →
  let '(o, s') := _schedule_pi_agent_retry run_id settings s in
  let failed_by_infrastructure :=
    bool_decide (ReviewRun.failure_code r = Some "pi_agent_infrastructure_error") in
  match o with
  | Raise _ => False
  | Return false => s' = s ∧
      (failed_by_infrastructure = true → ReviewRun.agent_session_id r ∈ [None; Some ""] ∧
         WorkerSettings.retry_max_attempts settings ≤ start_retries r)
  | Return true => failed_by_infrastructure = true ∧
      ∃ t', find_row run_id (tasks (committed s')) = Some t' ∧
        if truthy (ReviewRun.agent_session_id r)
        then Task.status t' = "running" ∧
          Task.available_at t' = clock (ticks s) + WorkerSettings.worker_poll_interval settings ∧
          ∃ r', review_of t' = Some r' ∧ start_retries r' = start_retries r ∧
            ReviewRun.agent_session_id r' = ReviewRun.agent_session_id r
        else restarted settings (clock (ticks s)) r t' ∧
          start_retries r + 1 ≤ WorkerSettings.retry_max_attempts settings
  end.
Proof.
  intros Hnd Ht Hr. unfold _schedule_pi_agent_retry.
  rewrite bind_run, (load_run_known _ _ _ Ht), Hr. cbn [snd].
  destruct (bool_decide _) eqn:Hcode; cbn [negb]; [|split; [done|done]].
  assert (Hsub : Task.sub t = Task.Review r).
  { unfold review_of in Hr. destruct (Task.sub t); congruence. }
  assert (Hrow : ∀ f, (∀ t, Task.id (f t) = Task.id t) →
    find_row run_id (tasks (committed (assigned run_id f s))) = Some (f t))
    by by intros f; apply assigned_row.
  destruct (truthy (ReviewRun.agent_session_id r)) eqn:Hsess.
  - unfold modify. run_steps. split; [done|].
    eexists. split; [apply (Hrow (resume_run _ _ _)); intros; apply resumed_id|].
    destruct (resumed "waiting_for_agent" (session_retry_warnings r)
      (clock (ticks s) + WorkerSettings.worker_poll_interval settings) t r Hsub)
      as (Hst & _ & Hat & Hr').
    split; [done|]. split; [done|]. eexists. split; [unfold review_of; by rewrite Hr'|].
    split; [|done]. exact (f_equal Z.of_nat (session_warnings_count r)).
  - destruct (Z.leb_spec (WorkerSettings.retry_max_attempts settings) (start_retries r)) as [Hmax|Hmax].
    + split; [done|]. intros _. split; [|done].
      destruct (ReviewRun.agent_session_id r) as [[|]|]; [set_solver|done|set_solver].
    + unfold modify. run_steps. split; [done|].
      eexists. split; [apply (Hrow (λ t, forget_session (resume_run _ _ _ t)));
        intros; unfold forget_session; rewrite set_review_id; apply resumed_id|].
      split; [|lia].
      destruct (resumed "retrying_agent_start" (warnings_of r ++ [start_retry_warning r])
        (clock (ticks s) + WorkerSettings.retry_initial_delay_seconds settings
           * 2 ^ start_retries r * second) t r Hsub) as (Hst & Hstage & Hat & Hr').
      unfold restarted, forget_session, set_review. rewrite Hr'.
      split; [done|]. split; [done|]. split; [done|].
      eexists. split; [done|]. split; [done|]. split; [done|].
      change (Z.of_nat (length (filter (λ w, Is_true (start_code w))
        (warnings_of r ++ [start_retry_warning r]))) = start_retries r + 1).
      rewrite count_app, start_warning_count. unfold start_retries. fold start_code. lia.
Qed.
End retries.

(** ** The history a command is started with *)

Definition command_size (a : AgentTask.t) : Z :=
  text_size (default "" (AgentTask.command_text a)) + text_size (default "" (AgentTask.result_text a)).
Definition item_size (i : AgentInstructionHistoryItem.t) : Z :=
  text_size (AgentInstructionHistoryItem.command i) + text_size (AgentInstructionHistoryItem.answer i).

(** An item of the history repeats a command and its answer. *)
Definition repeats (a : AgentTask.t) (i : AgentInstructionHistoryItem.t) : Prop :=
  AgentInstructionHistoryItem.command i = default "" (AgentTask.command_text a) ∧
  AgentInstructionHistoryItem.answer i = default "" (AgentTask.result_text a).

Lemma command_size_nonneg a : 0 ≤ command_size a.
Proof. unfold command_size, text_size. lia. Qed.

Lemma select_history_spec head_sha remaining l items :
  0 ≤ remaining → select_history head_sha remaining l = Return items →
  ∃ kept, kept `sublist_of` l ∧ Forall2 repeats kept items ∧
    sum_by item_size items ≤ remaining ∧ (sum_by command_size l ≤ remaining → kept = l).
Proof.
  revert remaining items. induction l as [|a l IH]; intros remaining items Hrem; cbn [select_history].
  { intros [= <-]. exists []. cbn. by split_and!; [done|constructor|lia|]. }
  fold (command_size a). pose proof (command_size_nonneg a).
  destruct (Z.ltb_spec remaining (command_size a)) as [Hlt|Hle].
  - intros Hl. destruct (IH _ _ Hrem Hl) as (kept & Hsub & Hrep & Hsum & _). exists kept.
    split_and!; [by apply sublist_cons|done|done|]. intros Hall. exfalso.
    change (command_size a + sum_by command_size l ≤ remaining) in Hall.
    assert (0 ≤ sum_by command_size l) by (apply sum_by_nonneg; intros; apply command_size_nonneg).
    lia.
  - destruct (recorded_outcome a) as [o|]; [|done]. cbn [mbind outcome_bind].
    destruct (select_history head_sha (remaining - command_size a) l) as [rest|] eqn:Hl; [|done].
    intros [= <-]. destruct (IH (remaining - command_size a) rest) as (kept & Hsub & Hrep & Hsum & Hall);
      [lia|done|]. exists (a :: kept). split_and!.
    + by apply sublist_skip.
    + by constructor.
    + change (command_size a + sum_by item_size rest ≤ remaining). lia.
    + change (command_size a + sum_by command_size l ≤ remaining → a :: kept = a :: l).
      intros Hle'. f_equal. apply Hall. lia.
Qed.

Section history.
Context `{Runtime}.

(** The answered commands a command considers, from the oldest. *)
Definition considered (settings : WorkerSettings.t) (t : Task.t) (a : AgentTask.t) (l : list Task.t)
    : list Task.t :=
  reverse (take (Z.to_nat (WorkerSettings.agent_task_max_history_turns settings))
    (order_by most_recent (filter (λ t', Is_true (answered_before t a t')) l))).

Lemma considered_answered settings t a l t' :
  t' ∈ considered settings t a l → t' ∈ l ∧ answered_before t a t' = true.
Proof.
  unfold considered. rewrite elem_of_reverse. intros (i & Hi & _)%elem_of_take.
  apply list_elem_of_lookup_2, elem_of_order_by, list_elem_of_filter in Hi as [Hb Hin].
  split; [done|]. by apply Is_true_true.
Qed.

Lemma most_recent_first x y : lex_cmp most_recent x y → Task.created_at y ≤ Task.created_at x.
Proof.
  unfold lex_cmp. intros Hle%Is_true_true.
  apply orb_true_iff in Hle as [Hle%Z.ltb_lt|[Hle%Z.eqb_eq _]%andb_true_iff]; lia.
Qed.

Lemma sorted_reverse {A} (R : relation A) l :
  StronglySorted R l → StronglySorted (flip R) (reverse l).
Proof.
  induction 1 as [|x l Hl IH Hx]; [constructor|]. rewrite reverse_cons. apply StronglySorted_app.
  split_and!; [|done|repeat constructor]. intros y z Hy Hz. rewrite elem_of_reverse in Hy.
  apply list_elem_of_singleton in Hz. subst z. unfold flip. rewrite Forall_forall in Hx. by apply Hx.
Qed.

Lemma sorted_weaken {A} (R R' : relation A) l :
  (∀ x y, R x y → R' x y) → StronglySorted R l → StronglySorted R' l.
Proof.
  intros HR. induction 1 as [|x l _ IH Hx]; constructor; [done|]. eapply Forall_impl; [exact Hx|].
  intros y. apply HR.
Qed.

(** They are the latest ones, in the order they were made. *)
Lemma considered_recent settings t a l :
  StronglySorted (λ x y, Task.created_at x ≤ Task.created_at y) (considered settings t a l) ∧
  ∀ x y, x ∈ l → answered_before t a x = true → x ∉ considered settings t a l →
    y ∈ considered settings t a l → Task.created_at x ≤ Task.created_at y.
Proof.
  unfold considered. set (F := filter _ l). set (n := Z.to_nat _).
  pose proof (order_by_sorted most_recent F) as Hs. rewrite <- (take_drop n) in Hs.
  apply StronglySorted_app in Hs as (Hbetween & Htake & _). split.
  - eapply sorted_weaken, sorted_reverse, Htake. intros x y Hxy. by apply most_recent_first.
  - intros x y Hx Hans Hnot Hy. rewrite elem_of_reverse in Hnot, Hy.
    apply most_recent_first, Hbetween; [done|].
    assert (Hin : x ∈ order_by most_recent F).
    { apply elem_of_order_by, list_elem_of_filter. split; [by apply Is_true_true|done]. }
    rewrite <- (take_drop n) in Hin. by apply elem_of_app in Hin as [?|?].
Qed.

Lemma sublist_omap {A B} (f : A → option B) l k :
  k `sublist_of` omap f l → ∃ l', l' `sublist_of` l ∧ Forall2 (λ x y, f x = Some y) l' k.
Proof.
  revert k. induction l as [|x l IH]; intros k; cbn.
  { intros ->%sublist_nil_r. by exists []. }
  destruct (f x) as [y|] eqn:Hx.
  - intros [Hk|(k' & -> & Hk)]%sublist_cons_r.
    + destruct (IH k Hk) as (l' & Hl & H2). exists l'. by split; [apply sublist_cons|].
    + destruct (IH k' Hk) as (l' & Hl & H2). exists (x :: l'). split; [by apply sublist_skip|].
      by constructor.
  - intros Hk. destruct (IH k Hk) as (l' & Hl & H2). exists l'. by split; [apply sublist_cons|].
Qed.

Lemma omap_all {A B} (f : A → option B) l :
  Forall (λ x, is_Some (f x)) l → Forall2 (λ x y, f x = Some y) l (omap f l).
Proof. induction 1 as [|x l [y Hy] _ IH]; cbn; [constructor|]. rewrite Hy. by constructor. Qed.

Lemma answered_agent t a t' : answered_before t a t' = true → is_Some (agent_of t').
Proof. unfold answered_before. by destruct (agent_of t'). Qed.

(** C30: the history a command is started with is a bounded part of the conversation.  It repeats
    commands of the same pull request that were answered before, oldest first, all of them
    among the latest [agent_task_max_history_turns] ones, no answered command being later than
    these; its texts have at most [agent_task_max_history_chars] characters together; when all
    of these fit, all are repeated; and there are never more than six.  Building it changes
    nothing. *)
Theorem history_is_recent_and_bounded task_id context settings s s' t a i :
  find_row task_id (tasks (work s)) = Some t → agent_of t = Some a →
  0 ≤ WorkerSettings.agent_task_max_history_chars settings →
  _build_agent_instruction task_id context settings s = (Return i, s') →
  let items := AgentInstructionInput.history i in
  let latest := considered settings t a (tasks (work s)) in
  s' = s ∧
  (∃ shown agents, shown `sublist_of` latest ∧ Forall2 (λ t a, agent_of t = Some a) shown agents ∧
     Forall2 repeats agents items ∧
     (sum_by command_size (omap agent_of latest)
        ≤ WorkerSettings.agent_task_max_history_chars settings → shown = latest)) ∧
  Forall (λ t', answered_before t a t' = true) latest ∧
  StronglySorted (λ x y, Task.created_at x ≤ Task.created_at y) latest ∧
  (∀ x y, x ∈ tasks (work s) → answered_before t a x = true → x ∉ latest → y ∈ latest →
     Task.created_at x ≤ Task.created_at y) ∧
  sum_by item_size items ≤ WorkerSettings.agent_task_max_history_chars settings ∧
  (length items ≤ 6)%nat.
Proof.
  intros Ht Ha Hchars. unfold _build_agent_instruction, load_command, load.
  rewrite !bind_run. cbn [fetch gets]. change (rows (work s)) with (tasks (work s)).
  rewrite Ht. cbn. rewrite Ha. cbn. rewrite !bind_run. cbn [gets]. rewrite bind_run.
  destruct (select_history (PullRequestContext.head_sha context)
    (WorkerSettings.agent_task_max_history_chars settings)
    (recent_commands (WorkerSettings.agent_task_max_history_turns settings) t a (tasks (work s))))
    as [items|] eqn:Hsel; cbn [lift]; [|by intros [=]].
  unfold agent_instruction_input. destruct (PullRequestContext.base_sha context); [|done].
  destruct (_ && (length items <=? 6)%nat) eqn:Hvalid; [|done]. intros [= <- <-]. cbn.
  apply andb_true_iff in Hvalid as [_ Hsix%Nat.leb_le].
  set (latest := considered settings t a (tasks (work s))).
  assert (Hans : Forall (λ t', answered_before t a t' = true) latest).
  { rewrite Forall_forall. intros t' Hin. by apply considered_answered in Hin as []. }
  destruct (considered_recent settings t a (tasks (work s))) as [Hsorted Hrecent].
  destruct (select_history_spec _ _ _ _ Hchars Hsel) as (kept & Hsub & Hrep & Hsum & Hall).
  change (recent_commands _ t a (tasks (work s))) with (omap agent_of latest) in Hsub, Hall.
  split; [done|]. split; [|by split_and!].
  destruct (decide (sum_by command_size (omap agent_of latest)
    ≤ WorkerSettings.agent_task_max_history_chars settings)) as [Hfit|Hfit].
  - exists latest, kept. rewrite (Hall Hfit) in *. split_and!; [reflexivity| |done|done].
    apply omap_all. eapply Forall_impl; [exact Hans|]. apply answered_agent.
  - destruct (sublist_omap _ _ _ Hsub) as (shown & Hshown & H2). exists shown, kept. by split_and!.
Qed.
End history.

(** ** Turns *)

(** A command that has no agent session. *)
Definition sessionless (t : Task.t) : Prop :=
  ∃ a, agent_of t = Some a ∧ AgentTask.agent_session_id a = None.
Definition idle (id : string) (d : Db) : Prop := ∀ t, t ∈ tasks d → Task.id t = id → sessionless t.
Abbreviation waits id := (λ s, idle id (work s) ∧ idle id (committed s)).

Section turns.
Context `{Runtime} `{PiAgentRuntime} `{GitWorkspace} `{Host} `{CheckoutRegistry}
  `{WorkerProviders} `{TaskResultSchema} `{ProviderRegistry}.
Context (id : string).

(** Assignments that do not bind a session. *)
Lemma waits_modify k f :
  (∀ t, Task.id (f t) = Task.id t) → (∀ t, sessionless t → sessionless (f t)) →
  keeps (waits id) (modify (R := Task.t) k f).
Proof.
  intros Hid Hf s [Hw Hc]. split; [|done]. intros t (t0 & Ht0 & ->)%elem_of_update_rows.
  case_bool_decide; [rewrite Hid|]; intros Heq; [apply Hf|]; by apply Hw.
Qed.
Lemma sessionless_agent f t :
  (∀ a, AgentTask.agent_session_id (f a) = AgentTask.agent_session_id a) →
  sessionless t → sessionless (set_agent f t).
Proof.
  intros Hf (a & Ha & Hs). unfold agent_of, set_agent in *. destruct t as []; cbn in *.
  destruct sub; try done. injection Ha as ->. eexists. split; [done|]. by rewrite Hf.
Qed.
Lemma waits_clock : keeps (waits id) utc_now.
Proof. by intros s Hs. Qed.
Lemma waits_uuid : keeps (waits id) uuid4.
Proof. by intros s Hs. Qed.
Lemma waits_commit : keeps (waits id) commit.
Proof. by intros s [Hw _]. Qed.
Lemma waits_rows {R} `{Table R} (f : list R → list R) :
  (∀ l d, tasks (with_rows l d) = tasks d) → keeps (waits id) (puts (on_rows f)).
Proof. intros Hother s [Hw Hc]. split; [|done]. unfold idle. rewrite work_on_rows, Hother. apply Hw. Qed.
Lemma waits_outbox (f : list DeliveryOutbox.t → list DeliveryOutbox.t) :
  keeps (waits id) (puts (on_rows f)).
Proof. by apply waits_rows. Qed.
Lemma waits_leases (f : list ResourceLease.t → list ResourceLease.t) :
  keeps (waits id) (puts (on_rows f)).
Proof. by apply waits_rows. Qed.
Hint Resolve waits_clock waits_uuid waits_commit waits_outbox waits_leases apart_update apart_insert
  apart_delete : keeps.

(** Assignments to the columns of the task, or to those of the command but its session. *)
Ltac plain_assignment :=
  apply waits_modify;
  [ intros []; unfold set_agent; cbn; by repeat case_match
  | let x := fresh in let Hx := fresh in
    intros x Hx; repeat (apply sessionless_agent; [done|]); exact Hx ].

Lemma waits_load_command k : keeps (waits id) (load_command k).
Proof. unfold load_command, load, fetch. keeps_auto. Qed.
Lemma waits_enqueue a b c d e f g h i j : keeps (waits id) (enqueue_delivery a b c d e f g h i j).
Proof.
  unfold enqueue_delivery, new_delivery, scalar_one_or_none, load, fetch, select. keeps_auto.
  all: plain_assignment.
Qed.
Hint Resolve waits_load_command waits_enqueue : keeps.
Lemma waits_comment a b c d e f g h : keeps (waits id) (_enqueue_agent_task_comment a b c d e f g h).
Proof. unfold _enqueue_agent_task_comment. keeps_auto. Qed.
Hint Resolve waits_comment : keeps.
Lemma waits_fail k code error : keeps (waits id) (_fail_command_agent_task k code error).
Proof. unfold _fail_command_agent_task, enqueue_final_comment. keeps_auto. plain_assignment. Qed.
Lemma waits_placeholder k : keeps (waits id) (request_command_placeholder k).
Proof. unfold request_command_placeholder. keeps_auto. plain_assignment. Qed.
Lemma waits_clarification k : keeps (waits id) (ask_clarification k).
Proof.
  unfold ask_clarification, _complete_command_agent_task, enqueue_final_comment. keeps_auto.
  all: plain_assignment.
Qed.
Lemma waits_turn k : keeps (waits id) (wait_for_turn k).
Proof. unfold wait_for_turn. keeps_auto. plain_assignment. Qed.
Lemma waits_release k owner delay now : keeps (waits id) (release_task_claim k owner delay now).
Proof.
  unfold release_task_claim, or_now, fetch. keeps_auto. apply waits_modify.
  - intros []. by repeat case_match.
  - intros x Hx. by repeat case_match.
Qed.
Hint Resolve waits_fail waits_placeholder waits_clarification waits_turn waits_release : keeps.
Lemma waits_release_lock k delay : keeps (waits id) (_release_agent_task_lock k delay).
Proof. unfold _release_agent_task_lock, fetch, load, fetch. keeps_auto. Qed.
Hint Resolve waits_release_lock : keeps.

Lemma load_command_run s t a :
  find_row id (tasks (work s)) = Some t → agent_of t = Some a →
  load_command id s = (Return (t, a), s).
Proof.
  intros Ht Ha. unfold load_command. rewrite bind_run, (Models.load_run _ _ t Ht). by rewrite Ha.
Qed.

Lemma exec_load_command {A} (k : Task.t * AgentTask.t → SM A) s t a :
  find_row id (tasks (work s)) = Some t → agent_of t = Some a →
  exec (load_command id ≫= k) s = exec (k (t, a)) s.
Proof. intros Ht Ha. unfold exec. by rewrite bind_run, (load_command_run _ _ _ Ht Ha). Qed.

(** Cancelling a command that has no session asks the runtime nothing. *)
Lemma waits_cancel s t a :
  find_row id (tasks (work s)) = Some t → agent_of t = Some a →
  waits id s → waits id (exec (_cancel_command_agent_task id) s).
Proof.
  intros Ht Ha Hs. apply find_row_Some in Ht as Hin. destruct Hin as [Hin Hid].
  destruct (proj1 Hs t Hin Hid) as (a' & Ha' & Hnone). rewrite Ha in Ha'. injection Ha' as <-.
  unfold _cancel_command_agent_task. rewrite (exec_load_command _ _ _ _ Ht Ha). cbn [snd].
  rewrite Hnone. unfold enqueue_final_comment. apply (keeps_exec (waits id)); [|done]. cbn [or_none].
  keeps_auto. plain_assignment.
Qed.

End turns.
