(* ===== verification/WorkerExamples.v ===== *)
(** * The workers on concrete inputs *)
From Stdlib Require Import Ascii.
From S2P Require Import Prelude PyText Json World Models Invariants PlatformClient GitHub GitLab Registry PlatformWebhooks PlatformDiagnostics Api Scheduler SchedulerAdmin SchedulerFacts SchedulerTheorems Demo Delivery DeliveryTheorems DeliveryInvariant DeliveryExamples ReviewResults FindingsTheorems ReviewRuns Webhooks ServiceTheorems ServiceExamples PiAgent SessionArchives ArchiveTheorems AgentSessions AgentSessionExamples CommentHost Workspaces WorkspaceExamples WorkerCommon WorkerPlatforms AgentWorker ReviewWorker WorkerLoop WorkerInvariants SystemInvariants WorkerTheorems.
#[global] Open Scope Z_scope.
#[global] Open Scope orch_scope.

(** The demo runtime on a database server. *)
Definition server_runtime : Runtime := {|
  clock n := Z.of_nat n * second;
  fresh_uuid n := "uuid-" +:+ pretty n;
  sha256_hexdigest s := s;
  dialect := "postgresql";
  row_locked _ := false
|}.

(** A runtime that has finished every review at once. *)
Definition prompt_pi : PiAgentRuntime := {|
  http_send _ _ _ _ := HttpReply 200 "{}";
  response_json _ := Some (JObj []);
  validate_session _ := Return (PiAgentSession.mk "s1" None None completed "work" (Some "openai")
    (Some "m1") None [] None [] [] [] None None (Some (JObj demo_output)) None None None [])
|}.

Definition demo_lookups : WorkerProviders := {|
  offers_context _ := false;
  provider_context _ _ := mret None;
  offers_changed_files _ := true;
  provider_changed_files _ _ := mret [ChangedFile.mk "a.py" [2; 3]]
|}.

Definition demo_task_schema : TaskResultSchema := {|
  validate_task_result _ := Raise (ValueError "no result")
|}.

Definition demo_worker : WorkerSettings.t :=
  WorkerSettings.mk 300 2 None 0 100 3 5 900 300 6 8000 1800 900 demo_settings demo_roots.

#[local] Existing Instances server_runtime prompt_pi demo_git git_works demo_checkout demo_lookups
  demo_task_schema demo_schema working_registry.

#[local] Instance demo_bystanders : Bystanders.
Proof. intros I HI. split; intros; apply keeps_ret. Qed.

(** A new session on what another has committed. *)
Definition reopened (s : Session) : Session := open_session (committed s) (ticks s) (uuids s).

(** *** The application of the demo *)

(** What GitHub sends when a pull request is pushed. *)
Definition push_payload (head_sha : string) : json :=
  let repository := JObj [("full_name", JStr "octo/app")] in
  JObj [("action", JStr "synchronize"); ("repository", repository);
    ("pull_request", JObj [("number", JInt 7); ("state", JStr "open"); ("title", JStr "A change");
      ("user", JObj [("login", JStr "eve")]);
      ("head", JObj [("ref", JStr "topic"); ("sha", JStr head_sha); ("repo", repository)]);
      ("base", JObj [("ref", JStr "main"); ("sha", JStr "base000"); ("repo", repository)])])].

Definition push_library : WebhookLibrary := {|
  PlatformWebhooks.json_loads body := inl (push_payload body);
  hmac_sha256_hexdigest secret body := secret +:+ ":" +:+ body;
  fromisoformat _ := None
|}.

Definition silent_platforms : PlatformHttp := {|
  http_exchange _ _ := RequestError "offline";
  parse_json _ := None;
  validate_comment _ := Raise (ValueError "unused");
  github_token _ _ := inl None;
  github_static_token := None;
  gitlab_token := None;
  page_limit := 1
|}.
Definition silent_probes : DiagnosticsHttp := {|
  diagnostic_exchange _ _ := Unreachable;
  github_permissions _ _ := inl None
|}.
Definition github_secrets : GitHubSettings := {|
  github_client := false; github_api_base_url := ""; github_webhook_secret := Some "s3cret"
|}.
Definition no_gitlab : GitLabSettings := {|
  gitlab_client := false; gitlab_api_base_url := ""; gitlab_webhook_secret := None
|}.
#[local] Existing Instances push_library silent_platforms silent_probes github_secrets no_gitlab.

Definition demo_commands : CommandSettings.t := CommandSettings.mk (Some "bot") true None 8000.
Definition demo_app : AppState.t :=
  AppState.mk
    (ApiSettings.mk (Some "runtime-token") (Some "http://pi") (Some "core-token") demo_settings
       demo_roots demo_commands)
    (Some (Registry.mk [("github", ProviderRuntime.mk github_adapter
       (ProviderDescriptor.mk "github" "github" "GitHub") false)] false)) false None true.
Abbreviation demo_perform := (perform demo_app (λ _, None)).

(** The session after some passes of the worker. *)
Fixpoint polled (passes : nat) (s : Session) : Session :=
  match passes with
  | O => s
  | S passes =>
      polled passes (exec (demo_perform (WorkerPolls demo_worker all_handlers "w")) (reopened s))
  end.

(** A signed webhook of a push. *)
Definition push_webhook (signature : string) : system_action :=
  AskToChange (AcceptWebhook "github"
    [("X-GitHub-Delivery", "d1"); ("X-GitHub-Event", "pull_request");
     ("X-Hub-Signature-256", signature)] "head111").

(** A pull request is pushed. *)
Definition opened : Session :=
  exec (demo_perform (push_webhook "sha256=s3cret:head111")) (demo_session empty_db).

(** A push with another signature changes nothing. *)
Example unsigned_push_is_ignored :
  exec (demo_perform (push_webhook "sha256=guess:head111")) (demo_session empty_db)
    = demo_session empty_db.
Proof. vm_compute. reflexivity. Qed.

Definition phases (s : Session) : list (string * string) :=
  (λ t, (Task.status t, Task.execution_status t)) <$> tasks (committed s).

(** From the webhook to the published review: the first pass publishes the placeholder, checks
    the code out, has it reviewed and stores the findings; the second publishes the result. *)
Example push_is_reviewed :
  phases opened = [("awaiting_delivery", "pending")] ∧
  phases (polled 1 opened) = [("awaiting_delivery", "completed")] ∧
  phases (polled 2 opened) = [("completed", "completed")] ∧
  Finding.file_path <$> findings (committed (polled 2 opened)) = ["a.py"; "b.py"] ∧
  DeliveryOutbox.status <$> outbox (committed (polled 2 opened)) = ["delivered"; "delivered"] ∧
  leases (committed (polled 2 opened)) = [] ∧ phases (polled 3 opened) = phases (polled 2 opened).
Proof. split_and!; vm_compute; reflexivity. Qed.

Lemma reaches_polled n s :
  rtc (system_step demo_app (λ _, None)) empty_db (committed s) →
  rtc (system_step demo_app (λ _, None)) empty_db (committed (polled n s)).
Proof.
  revert s. induction n as [|n IH]; intros s Hs; [done|]. cbn [polled]. apply IH.
  eapply rtc_r; [exact Hs|]. constructor. exact I.
Qed.


(** The run of the push, whose placeholder is published. *)
Definition announced : Session :=
  reopened (exec (delivery_step demo_worker "w") (reopened opened)).
Definition reviewed : Session := exec (process_next_review_run demo_worker "w") announced.

Definition the_run : string := default "" (head (Task.id <$> tasks (committed opened))).

Lemma reopened_clean s : work (reopened s) = committed (reopened s).
Proof. done. Qed.
Definition worker_policy : SchedulerPolicy.t :=
  match policy_from_settings demo_worker with Return p => p | Raise _ => SchedulerPolicy.default end.
Lemma demo_policy_read : policy_from_settings demo_worker = Return worker_policy.
Proof. vm_compute. reflexivity. Qed.


(** A run whose agent could not be started, after some restarts. *)
Definition restart_warning : json := JObj [("code", JStr "pi_agent_start_retry")].
Definition failed_start (restarts : nat) : ReviewRun.t :=
  (demo_run (sha "a") 1) .[ ReviewRun.failure_code := Some "pi_agent_infrastructure_error" ]
    .[ ReviewRun.validation_warnings_json := Some (replicate restarts restart_warning) ].
Definition failed_starts (restarts : nat) : Session :=
  demo_session (with_tasks [demo_review "r" "failed" "pending" (failed_start restarts)]).

(** The third restart waits four times the initial delay, and there is no fourth. *)
Lemma session_retries_are_bounded_witness :
  (let '(o, s') := _schedule_pi_agent_retry "r" demo_worker (failed_starts 2) in
   o = Return true ∧ ∃ t', find_row "r" (tasks (committed s')) = Some t' ∧
     restarted demo_worker (clock 0) (failed_start 2) t') ∧
  (let '(o, s') := _schedule_pi_agent_retry "r" demo_worker (failed_starts 3) in
   o = Return false ∧ s' = failed_starts 3).
Proof.
  assert (Hcase : ∀ n, NoDup (Task.id <$> tasks (work (failed_starts n))))
    by by intros n; apply NoDup_singleton.
  pose proof (session_retries_are_bounded "r" demo_worker (failed_starts 2)
    (demo_review "r" "failed" "pending" (failed_start 2)) (failed_start 2) (Hcase 2%nat) eq_refl eq_refl) as H2.
  pose proof (session_retries_are_bounded "r" demo_worker (failed_starts 3)
    (demo_review "r" "failed" "pending" (failed_start 3)) (failed_start 3) (Hcase 3%nat) eq_refl eq_refl) as H3.
  destruct (_schedule_pi_agent_retry "r" demo_worker (failed_starts 2)) as [o2 s2] eqn:E2.
  destruct (_schedule_pi_agent_retry "r" demo_worker (failed_starts 3)) as [o3 s3] eqn:E3.
  assert (o2 = Return true ∧ o3 = Return false) as [-> ->].
  { apply (f_equal fst) in E2, E3. cbn [fst] in E2, E3. rewrite <- E2, <- E3.
    split; vm_compute; reflexivity. }
  split.
  - destruct H2 as (_ & t' & Ht & Hr & _). split; [reflexivity|]. exists t'. split; [exact Ht|exact Hr].
  - destruct H3 as [Hs _]. split; [reflexivity|exact Hs].
Defined.

(** Commands of one pull request. *)
Definition command (id status : string) (stage : option string) (created_at : Z)
    (request answer : option string) : Task.t :=
  Task.mk id "agent" "pr-assistant" status stage "pending" "pending" "interactive" 80 80 0 None None
    "agent-standard" None None 0 None None None None None created_at 0
    (Task.Agent (CommentHost.demo_agent .[ AgentTask.command_text := request ]
       .[ AgentTask.result_text := answer ] .[ AgentTask.response_comment_id := Some "c" ]
       .[ AgentTask.workspace_path := Some "/ws" ])).

Definition conversation : list Task.t :=
  [command "first" "completed" None 1 (Some "what is this?") (Some "a test");
   command "second" "completed" None 2 (Some "why so long?") (Some "it covers much, in many words");
   command "third" "completed" None 3 (Some "more?") (Some "yes");
   command "now" "queued" (Some "placeholder_delivered") 4 (Some "split it") None].

Definition conversation_context : PullRequestContext.t :=
  PullRequestContext.mk "ctx" "github" "octo/app" None 7 None None None None (Some "base000") None
    "head111" None false "open" None None None None None None 0.

(** Room for thirty characters of history. *)
Definition terse_worker : WorkerSettings.t :=
  WorkerSettings.mk 300 2 None 0 100 3 5 900 300 6 30 1800 900 demo_settings demo_roots.
Definition conversation_session : Session := demo_session (with_tasks conversation).
Definition now_task : Task.t := command "now" "queued" (Some "placeholder_delivered") 4 (Some "split it") None.
Definition now_agent : AgentTask.t := default CommentHost.demo_agent (agent_of now_task).

Lemma history_is_recent_and_bounded_witness :
  ∃ i, result (_build_agent_instruction "now" conversation_context terse_worker) conversation_session
      = Return i ∧
    (AgentInstructionHistoryItem.answer <$> AgentInstructionInput.history i) = ["a test"; "yes"] ∧
    sum_by item_size (AgentInstructionInput.history i) ≤ 30.
Proof.
  destruct (result (_build_agent_instruction "now" conversation_context terse_worker)
    conversation_session) as [i|e] eqn:Hi; [|exfalso; revert Hi; vm_compute; discriminate].
  exists i. split; [reflexivity|]. split; [revert Hi; vm_compute; by intros [= <-]|].
  apply run_result in Hi.
  apply (history_is_recent_and_bounded "now" conversation_context terse_worker conversation_session
    _ now_task now_agent i eq_refl eq_refl ltac:(vm_compute; discriminate) Hi).
Defined.

(** When the texts do not fit, the latest exchange is left out and an older one is kept. *)
Example history_drops_latest :
  (result (i ← _build_agent_instruction "now" conversation_context
            (WorkerSettings.mk 300 2 None 0 100 3 5 900 300 6 20 1800 900 demo_settings demo_roots);
     mret (AgentInstructionHistoryItem.answer <$> AgentInstructionInput.history i))
    conversation_session) = Return ["a test"].
Proof. vm_compute. reflexivity. Qed.

(** More than six turns may be configured, and then no command with as many short predecessors
    can be started. *)
Example long_history_is_rejected :
  let earlier (n : nat) :=
    command (pretty n) "completed" None (Z.of_nat n) (Some "q") (Some "a") in
  result (_build_agent_instruction "now" conversation_context
            (WorkerSettings.mk 300 2 None 0 100 3 5 900 300 20 8000 1800 900 demo_settings demo_roots))
    (demo_session (with_tasks (map earlier (seq 1 7)
       ++ [command "now" "queued" None 9 (Some "split it") None]))) =
    Raise (ValueError "validation error for AgentInstructionInput").
Proof. vm_compute. reflexivity. Qed.

(** A command behind an older one, which is running. *)
Definition line_up : Session :=
  demo_session (with_tasks
    [command "old" "running" (Some "waiting_for_agent") 1 (Some "look") None; now_task]).


(** *** What the examples show *)

(** On SQLite, the pass over the timeouts raises as soon as one run is active: times come back
    from the database without a time zone.  The pass of the worker raises with it. *)
Definition active_run : Session :=
  demo_session (with_tasks [demo_review "r" "running" "pending" (demo_run "head111" 1)]).
Example timeouts_raise_on_sqlite :
  let error := TypeError "can't subtract offset-naive and offset-aware datetimes" in
  result (process_review_run_timeouts (H := demo_runtime) demo_worker None) active_run = Raise error ∧
  result (worker_pass (H := demo_runtime) demo_worker all_handlers "w") active_run = Raise error.
Proof. split; vm_compute; reflexivity. Qed.

(** A mention has led to a review, and the task goes on holding its lock and its leases. *)
Definition mentioned : Session :=
  demo_session ((with_tasks
    [demo_command .[ Task.status := "queued" ] .[ Task.id := "m" ]
       .[ Task.concurrency_key := Some "octo/app:7" ]
       .[ Task.sub := Task.Agent (CommentHost.demo_agent .[ AgentTask.task_type := "mention" ]) ]])
    .[ contexts := [conversation_context] ]).
Example mentions_keep_their_claim :
  let s := exec (process_next_agent_task "w" (Some demo_worker) true) mentioned in
  (λ t, (Task.id t, Task.status t, Task.lock_owner t)) <$>
      filter (λ t, Task.id t = "m") (tasks (committed s)) = [("m", "completed", Some "w")] ∧
  ResourceLease.task_id <$> leases (committed s) = ["m"].
Proof. vm_compute. split; reflexivity. Qed.

(** A worker that is late releases the claim of another. *)
Definition taken_over : Session :=
  demo_session ((with_tasks
    [(demo_review "r" "running" "pending" (demo_run "head111" 1)) .[ Task.lock_owner := Some "w2" ]
       .[ Task.locked_until := Some (900 * second) ]])
    .[ leases := [ResourceLease.mk "lease" "r" "review" "concurrency:octo/app:7" 1 "w2" (900 * second)] ]).
Example late_release_frees_another :
  let s := exec (release_review_run_lock "r") taken_over in
  Task.lock_owner <$> tasks (committed s) = [None] ∧ leases (committed s) = [].
Proof. vm_compute. split; reflexivity. Qed.

(** A hard timeout clears the lock of its run and leaves its leases. *)
Example hard_timeout_leaves_leases :
  let s := exec (process_review_run_timeouts demo_worker (Some (4000 * second))) taken_over in
  (λ t, (Task.lock_owner t, Task.execution_status t)) <$> tasks (committed s) = [(None, "failed")] ∧
  length (leases (committed s)) = 1%nat.
Proof. vm_compute. split; reflexivity. Qed.
