(* ===== verification/ApiExamples.v ===== *)
(** * The API on concrete requests *)
From Stdlib Require Import Ascii.
From S2P Require Import Prelude PyText Json World Models Demo PlatformClient GitHub GitLab Registry PlatformWebhooks PlatformTheorems SchedulerAdmin Delivery DeliveryExamples ReviewResults FindingsTheorems ReviewRuns ReviewRequests Webhooks ServiceTheorems ServiceExamples PiAgent SessionArchives ArchiveTheorems AgentSessions AgentSessionExamples Workspaces WorkspaceExamples PlatformDiagnostics Schemas Api ApiErrors ApiTheorems WorkerCommon WorkerPlatforms WorkerExamples.
#[global] Open Scope Z_scope.
#[global] Open Scope orch_scope.

#[local] Existing Instances server_runtime prompt_pi demo_git git_works demo_checkout demo_lookups
  demo_schema working_registry push_library silent_platforms silent_probes github_secrets no_gitlab.

Abbreviation demo_change := (change demo_app (λ _, None)).

(** *** Credentials *)

Definition agent_request (credentials : bearer_credentials) : changing :=
  RequestAgentReviewAction credentials "t1" "s1" rerun.

Lemma unauthentic_requests_touch_nothing_witness :
  ¬ authentic demo_app (agent_request (Some ("Bearer", "guess"))) ∧
  exec (demo_change (agent_request (Some ("Bearer", "guess")))) opened = opened ∧
  ¬ succeeded (result (demo_change (agent_request (Some ("Bearer", "guess")))) opened).
Proof.
  assert (Hno : ¬ authentic demo_app (agent_request (Some ("Bearer", "guess")))).
  { intros (scheme & token & [= <- <-] & _ & [=] & _). }
  split; [exact Hno|]. by apply (unauthentic_requests_touch_nothing demo_app (λ _, None)).
Defined.

(** The statuses of an agent's request: unknown task with the token, wrong token, no token. *)
Example agent_requests_are_answered :
  (λ c, seen_status (result (demo_change (agent_request c)) opened)) <$>
    [Some ("Bearer", "runtime-token"); Some ("Bearer", "guess"); Some ("Basic", "runtime-token"); None]
  = [404; 401; 401; 401].
Proof. vm_compute. reflexivity. Qed.

(** A token that is not ASCII makes the comparison of the tokens raise. *)
Example foreign_token_is_a_server_error :
  result (demo_change (agent_request (Some ("Bearer", String "233" "")))) opened
    = Raise (TypeError "comparing strings with non-ASCII characters is not supported").
Proof. vm_compute. reflexivity. Qed.

(** *** Refusals *)

(** What GitHub sends for a push to a pull request that is closed meanwhile. *)
Definition closed_payload (head_sha : string) : json :=
  let repository := JObj [("full_name", JStr "octo/app")] in
  JObj [("action", JStr "synchronize"); ("repository", repository);
    ("pull_request", JObj [("number", JInt 7); ("state", JStr "closed");
      ("head", JObj [("ref", JStr "topic"); ("sha", JStr head_sha)]);
      ("base", JObj [("ref", JStr "main"); ("sha", JStr "base000")])])].

Definition closed_library : WebhookLibrary := {|
  PlatformWebhooks.json_loads body := inl (closed_payload body);
  hmac_sha256_hexdigest secret body := secret +:+ ":" +:+ body;
  fromisoformat _ := None
|}.

Definition late_push : changing :=
  AcceptWebhook "github"
    [("X-GitHub-Delivery", "d1"); ("X-GitHub-Event", "pull_request");
     ("X-Hub-Signature-256", "sha256=s3cret:head111")] "head111".

Abbreviation late_change := (change (H6 := closed_library) demo_app (λ _, None)).
Definition late_refusal : exn :=
  ReviewRequestRejected "该 PR 已关闭，不能创建审查任务。" "pull_request_closed" "uuid-0" None.

(** The refusal of its review escapes: the webhook is answered with 500 and its event is not
    kept. *)
Lemma late_push_is_refused :
  result (late_change late_push) (demo_session empty_db) = Raise late_refusal.
Proof. vm_compute. reflexivity. Qed.

Example late_push_is_lost :
  seen_status (result (late_change late_push) (demo_session empty_db)) = 500 ∧
  committed (exec (serve_changing (H6 := closed_library) demo_app (λ _, None) late_push)
    (demo_session empty_db)) = empty_db.
Proof. vm_compute. split; reflexivity. Qed.


(** *** Bodies *)

Definition urgent (priority : Z) : changing :=
  UpdateTaskScheduling "uuid-1" (TaskSchedulingUpdate.mk None (Some priority) None None None).


(** A rescheduling that names nothing, one out of bounds, and one of an unknown task. *)
Example reschedulings_are_answered :
  (λ r, seen_status (result (demo_change r) opened)) <$>
    [UpdateTaskScheduling "none" (TaskSchedulingUpdate.mk None None None None None);
     UpdateTaskScheduling "none" (TaskSchedulingUpdate.mk None (Some 101) None None None);
     UpdateTaskScheduling "none" (TaskSchedulingUpdate.mk None (Some 100) None None None)]
  = [422; 422; 404].
Proof. vm_compute. reflexivity. Qed.

(** What the patterns of the schemas accept. *)
Example repositories_are_checked :
  map (λ r, PlatformPermissionDiagnosticRequest_valid
              (PlatformPermissionDiagnosticRequest.mk "github" r (Some 7)))
    ["octo/app"; "group/sub/app"; "octo"; "octo//app"; "octo/.."; "octo/a b"; "/octo"]
  = [true; true; false; false; false; false; false].
Proof. vm_compute. reflexivity. Qed.
Example keys_are_checked :
  map UUID_valid ["123e4567-e89b-12d3-a456-426614174000"; "123e4567"; "123E4567-e89b-12d3-a456-426614174000"]
  = [true; false; false].
Proof. vm_compute. reflexivity. Qed.
