(* ===== verification/Migrations.v ===== *)
(** * The database at startup

    Model of [src/src/review_orchestrator/infrastructure/db.py]: the address of the database
    and the migrations [init_models] runs whenever the service starts.  A connection is the
    tables of the database by name, a row the values of its columns; what the models declare
    is an argument of [create_all]. *)
From Stdlib Require Import Ascii.
From S2P Require Import Prelude PyText Json Models.
#[global] Open Scope Z_scope.
#[global] Open Scope orch_scope.

Definition normalize_database_url (database_url : string) : string :=
  let drop (prefix : string) := str_drop (String.length prefix) database_url in
  if starts_with "postgres://" database_url then "postgresql+asyncpg://" +:+ drop "postgres://"
  else if starts_with "postgresql://" database_url
  then "postgresql+asyncpg://" +:+ drop "postgresql://"
  else if starts_with "sqlite:///" database_url then "sqlite+aiosqlite:///" +:+ drop "sqlite:///"
  else database_url.

(** ** Tables *)

Abbreviation row := (list (string * json)).

(** [row.get(name)]. *)
Definition cell (r : row) (name : string) : json := default JNull (fget r name).

Definition present (v : json) : bool := match v with JNull => false | _ => true end.

(** [a or b]. *)
Definition json_or (a b : json) : json := if json_truthy a then a else b.

Module DbTable.
Record t := mk {
  columns : list string;
  indexes : list (string * list string);
  rows : list row
}.
#[global] Instance eta : Eta t := λ r, mk (columns r) (indexes r) (rows r).
End DbTable.

Abbreviation Schema := (gmap string DbTable.t).

Definition table_of (db : Schema) (name : string) : outcome DbTable.t :=
  match db !! name with
  | Some t => Return t
  | None => Raise (OtherError ("NoSuchTableError: " +:+ name))
  end.

(** [Base.metadata.create_all]: the declared tables that are missing. *)
Definition create_all (declared db : Schema) : Schema := db ∪ declared.

(** ** Legacy rows become tasks *)

Definition _LEGACY_TASK_CONTROL_COLUMNS : list string :=
  ["status"; "stage"; "lock_owner"; "locked_until"; "started_at"; "completed_at"; "deadline_at";
   "created_at"; "updated_at"].

Definition _legacy_execution_status (status : string) : string :=
  if bool_decide (status = "completed") then "completed"
  else if bool_decide (status ∈ ["failed"; "cancelled"; "superseded"]) then "failed"
  else if bool_decide (status = "running") then "running"
  else "pending".

(** The tables of legacy rows, with the kind and capability of their tasks. *)
Definition legacy_specs : list (string * string * string) :=
  [("review_run", "review", "code-review"); ("agent_task", "agent", "pr-assistant")].

Definition legacy_queue (kind : string) (r : row) : string * Z :=
  if bool_decide (kind = "agent") && py_eq (cell r "task_type") (JStr "message_command")
  then ("interactive", 80)
  else if bool_decide (kind = "review") && py_eq (cell r "trigger_type") (JStr "manual")
  then ("manual-review", 60)
  else ("webhook-review", 40).

(** [":".join(str(part) for part in concurrency_parts if part is not None) or None]. *)
Definition legacy_concurrency_key (kind : string) (r : row) : json :=
  let parts := [cell r "provider"; cell r "repo_full_name"; JStr "pr"; cell r "pull_request_number"]
    ++ (if bool_decide (kind = "review") && json_truthy (cell r "head_sha")
        then [JStr "head"; cell r "head_sha"] else []) in
  let key := py_join ":" (map py_str (filter (λ part, Is_true (present part)) parts)) in
  if bool_decide (key = "") then JNull else JStr key.

(** The task a legacy row becomes. *)
Definition legacy_task (kind capability_id task_id : string) (r : row) (now : Z) : row :=
  let created_at := json_or (cell r "created_at") (JInt now) in
  let '(queue, priority) := legacy_queue kind r in
  let status := py_str (json_or (cell r "status") (JStr "queued")) in
  [("id", JStr task_id); ("kind", JStr kind); ("capability_id", JStr capability_id);
   ("status", JStr status); ("stage", cell r "stage");
   ("execution_status", JStr (_legacy_execution_status status));
   ("delivery_status", JStr "not_required"); ("queue", JStr queue); ("priority", JInt priority);
   ("effective_priority", JInt priority); ("available_at", created_at);
   ("concurrency_key", legacy_concurrency_key kind r); ("resource_class", JStr "agent-standard");
   ("max_attempts", JInt 2); ("lock_owner", cell r "lock_owner");
   ("locked_until", cell r "locked_until"); ("started_at", cell r "started_at");
   ("completed_at", cell r "completed_at"); ("deadline_at", cell r "deadline_at");
   ("created_at", created_at); ("updated_at", json_or (cell r "updated_at") created_at)].

(** The rows to insert, and the identifiers that exist then. *)
Fixpoint legacy_inserts (kind capability_id : string) (now : Z) (existing : list string)
    (rows : list row) : outcome (list row * list string) :=
  match rows with
  | [] => mret ([], existing)
  | r :: rows =>
      id ← jindex (JObj r) "id";
      let task_id := py_str id in
      if bool_decide (task_id ∈ existing) then legacy_inserts kind capability_id now existing rows
      else
        rest ← legacy_inserts kind capability_id now (task_id :: existing) rows;
        mret (legacy_task kind capability_id task_id r now :: rest.1, rest.2)
  end.

(** [ALTER TABLE ... DROP COLUMN], which the database refuses for an indexed column. *)
Definition drop_column (name : string) (t : DbTable.t) : outcome DbTable.t :=
  if existsb (λ index, bool_decide (name ∈ index.2)) (DbTable.indexes t)
  then Raise (OtherError ("OperationalError: error in index after drop column: " +:+ name))
  else Return
    (t .[ DbTable.columns := filter (λ c, c ≠ name) (DbTable.columns t) ]
       .[ DbTable.rows := map (filter (λ kv, kv.1 ≠ name)) (DbTable.rows t) ]).

Fixpoint drop_columns (names : list string) (t : DbTable.t) : outcome DbTable.t :=
  match names with
  | [] => Return t
  | name :: names => t ← drop_column name t; drop_columns names t
  end.

Definition _drop_legacy_task_control_columns (t : DbTable.t) : outcome DbTable.t :=
  let moved := filter (λ name, name ∈ DbTable.columns t) _LEGACY_TASK_CONTROL_COLUMNS in
  match moved with
  | [] => Return t
  | _ :: _ =>
      drop_columns moved
        (t .[ DbTable.indexes := filter (λ index, Forall (λ c, c ∉ moved) index.2)
                                   (DbTable.indexes t) ])
  end.

(** One of the tables of legacy rows. *)
Definition migrate_table (now : Z) (spec : string * string * string)
    (state : list string * Schema) : outcome (list string * Schema) :=
  let '(table_name, kind, capability_id) := spec in
  let '(existing, db) := state in
  match db !! table_name with
  | None => Return (existing, db)
  | Some legacy =>
      inserted ← legacy_inserts kind capability_id now existing (DbTable.rows legacy);
      let db := alter (λ t, t .[ DbTable.rows := DbTable.rows t ++ inserted.1 ]) "task" db in
      legacy ← table_of db table_name;
      legacy ← _drop_legacy_task_control_columns legacy;
      mret (inserted.2, <[table_name := legacy]> db)
  end.

Definition task_ids (t : DbTable.t) : list string :=
  map (λ r, py_str (cell r "id")) (DbTable.rows t).

Fixpoint migrate_tables (now : Z) (specs : list (string * string * string))
    (state : list string * Schema) : outcome (list string * Schema) :=
  match specs with
  | [] => Return state
  | spec :: specs => state ← migrate_table now spec state; migrate_tables now specs state
  end.

Definition _migrate_unified_tasks (now : Z) (db : Schema) : outcome Schema :=
  match db !! "task" with
  | None => Return db
  | Some task =>
      state ← migrate_tables now legacy_specs (task_ids task, db);
      mret state.2
  end.

(** ** Columns of the agent runtime *)

(** What the [DEFAULT] clause of a column type gives the rows there are. *)
Definition column_default (sql_type : string) : json :=
  match split_once " DEFAULT " sql_type with
  | Some (_, "0") => JInt 0
  | Some (_, "1") => JInt 1
  | Some (_, "TRUE") => JBool true
  | Some (_, "'pr-assistant'") => JStr "pr-assistant"
  | _ => JNull
  end.

(** [if name not in columns: ALTER TABLE ... ADD COLUMN ...], [columns] being read before. *)
Definition add_column (columns : list string) (addition : string * string) (t : DbTable.t)
    : DbTable.t :=
  let '(name, sql_type) := addition in
  if bool_decide (name ∈ columns) then t
  else t .[ DbTable.columns := DbTable.columns t ++ [name] ]
         .[ DbTable.rows := map (λ r, r ++ [(name, column_default sql_type)]) (DbTable.rows t) ].

Definition add_columns (additions : list (string * string)) (t : DbTable.t) : DbTable.t :=
  foldl (λ t' addition, add_column (DbTable.columns t) addition t') t additions.

(** [CREATE INDEX IF NOT EXISTS name ON table (column)]. *)
Definition create_index (name column : string) (t : DbTable.t) : outcome DbTable.t :=
  if bool_decide (name ∈ (DbTable.indexes t).*1) then Return t
  else if bool_decide (column ∈ DbTable.columns t)
  then Return (t .[ DbTable.indexes := DbTable.indexes t ++ [(name, [column])] ])
  else Raise (OtherError ("OperationalError: no such column: " +:+ column)).

Fixpoint repeated (values : list json) : bool :=
  match values with
  | [] => false
  | v :: values => existsb (py_eq v) values || repeated values
  end.

(** ... [UNIQUE ... WHERE column IS NOT NULL]. *)
Definition create_unique_index (name column : string) (t : DbTable.t) : outcome DbTable.t :=
  let values := filter (λ v, Is_true (present v)) (map (λ r, cell r column) (DbTable.rows t)) in
  if bool_decide (name ∈ (DbTable.indexes t).*1) || negb (repeated values)
  then create_index name column t
  else Raise (IntegrityError ("UNIQUE constraint failed: " +:+ column)).

(** [UPDATE ... SET agent_session_id = openhands_conversation_id WHERE ...], where the legacy
    column exists. *)
Definition set_cell (name : string) (v : json) : row → row :=
  map (λ kv, if bool_decide (kv.1 = name) then (name, v) else kv).

Definition carry_session (r : row) : row :=
  if negb (present (cell r "agent_session_id")) && present (cell r "openhands_conversation_id")
  then set_cell "agent_session_id" (cell r "openhands_conversation_id") r else r.

Definition carry_sessions (columns : list string) (t : DbTable.t) : DbTable.t :=
  if bool_decide ("openhands_conversation_id" ∈ columns)
  then t .[ DbTable.rows := map carry_session (DbTable.rows t) ] else t.

Definition review_run_additions : list (string * string) :=
  [("agent_session_id", "VARCHAR(128)"); ("agent_status", "VARCHAR(32)");
   ("agent_provider", "VARCHAR(64)"); ("agent_model", "VARCHAR(128)");
   ("agent_thinking_level", "VARCHAR(16)")].

Definition task_additions : list (string * string) :=
  [("source_kind", "VARCHAR(64)"); ("source_comment_id", "VARCHAR(128)"); ("source_url", "TEXT");
   ("source_author_login", "VARCHAR(255)"); ("command_text", "TEXT"); ("head_sha", "VARCHAR(80)");
   ("workspace_path", "TEXT"); ("response_comment_id", "VARCHAR(128)");
   ("response_body_hash", "VARCHAR(128)"); ("response_published_at", "TIMESTAMP");
   ("publish_attempts", "INTEGER DEFAULT 0"); ("last_publish_error", "TEXT");
   ("agent_session_id", "VARCHAR(128)"); ("agent_status", "VARCHAR(32)");
   ("agent_provider", "VARCHAR(64)"); ("agent_model", "VARCHAR(128)");
   ("agent_thinking_level", "VARCHAR(16)"); ("result_text", "TEXT");
   ("failure_code", "VARCHAR(64)"); ("attempt", "INTEGER DEFAULT 1");
   ("agent_start_attempts", "INTEGER DEFAULT 0"); ("soft_timeout_emitted_at", "TIMESTAMP");
   ("hard_timeout_emitted_at", "TIMESTAMP")].

Definition config_additions : list (string * string) :=
  [("agent_commands_enabled", "BOOLEAN DEFAULT TRUE");
   ("default_agent_command_skill", "VARCHAR(128) DEFAULT 'pr-assistant'")].

(** The statements about one table, in their order. *)
Definition migrate_review_run (t : DbTable.t) : outcome DbTable.t :=
  create_index "ix_review_run_agent_session_id" "agent_session_id"
    (carry_sessions (DbTable.columns t) (add_columns review_run_additions t)).

Definition migrate_review_session (t : DbTable.t) : outcome DbTable.t :=
  create_index "ix_review_session_agent_session_id" "agent_session_id"
    (carry_sessions (DbTable.columns t) (add_columns [("agent_session_id", "VARCHAR(128)")] t)).

Definition migrate_agent_task (t : DbTable.t) : outcome DbTable.t :=
  t ← create_unique_index "uq_agent_task_provider_event" "provider_event_id"
        (add_columns task_additions t);
  create_index "ix_agent_task_agent_session_id" "agent_session_id" t.

Definition migrate_review_config (t : DbTable.t) : outcome DbTable.t :=
  Return (add_columns config_additions t).

Definition on_table (name : string) (f : DbTable.t → outcome DbTable.t) (db : Schema)
    : outcome Schema :=
  t ← table_of db name; t ← f t; mret (<[name := t]> db).

Definition _migrate_agent_runtime_columns (db : Schema) : outcome Schema :=
  db ← on_table "review_run" migrate_review_run db;
  db ← on_table "review_session" migrate_review_session db;
  db ← on_table "agent_task" migrate_agent_task db;
  on_table "review_config" migrate_review_config db.

(** [init_models], in one transaction: when it raises nothing has changed. *)
Definition init_models (declared : Schema) (now : Z) (db : Schema) : outcome Schema :=
  db ← _migrate_unified_tasks now (create_all declared db);
  _migrate_agent_runtime_columns db.
