(* ===== verification/MigrationTheorems.v ===== *)
(** * The migrations at startup are safe to repeat

    The first start moves the lifecycle of every legacy row into exactly one task and loses
    nothing of what the migration is to keep; every later start changes nothing. *)
From Stdlib Require Import Ascii.
From S2P Require Import Prelude PyText Json Models Migrations.
#[global] Open Scope Z_scope.
#[global] Open Scope orch_scope.

(** ** Cells *)

Lemma fget_app r r' name v : fget r name = Some v → fget (r ++ r') name = Some v.
Proof. induction r as [|[k w] r IH]; cbn; [done|]. by case_bool_decide. Qed.

Lemma fget_filter (keep : string → Prop) `{∀ k, Decision (keep k)} r name :
  keep name → fget (filter (λ kv, keep kv.1) r) name = fget r name.
Proof.
  intros Hk. induction r as [|[k w] r IH]; [done|]. rewrite filter_cons. cbn.
  destruct (decide (keep k)) as [?|Hn]; cbn; [by rewrite IH|].
  rewrite IH. by rewrite bool_decide_false by (intros ->; contradiction).
Qed.

Lemma fget_set_cell name v r k : k ≠ name → fget (set_cell name v r) k = fget r k.
Proof.
  intros Hk. induction r as [|[k' w] r IH]; cbn; [done|].
  destruct (decide (k' = name)) as [->|Hn].
  - rewrite (bool_decide_true (name = name)) by done. cbn. by rewrite !(bool_decide_false (name = k)) by done.
  - rewrite (bool_decide_false (k' = name)) by done. cbn. by rewrite IH.
Qed.

Lemma set_cell_twice name v r : set_cell name v (set_cell name v r) = set_cell name v r.
Proof.
  unfold set_cell. rewrite map_map. apply map_ext. intros [k w]. cbn.
  destruct (bool_decide (k = name)) eqn:Hk; cbn; [by rewrite bool_decide_true|by rewrite Hk].
Qed.

Lemma carry_session_twice r : carry_session (carry_session r) = carry_session r.
Proof.
  unfold carry_session at 2 3. destruct (_ && _) eqn:Hc; [|unfold carry_session; by rewrite Hc].
  unfold carry_session.
  assert (Ho : cell (set_cell "agent_session_id" (cell r "openhands_conversation_id") r)
    "openhands_conversation_id" = cell r "openhands_conversation_id")
    by (unfold cell at 1; by rewrite fget_set_cell).
  rewrite Ho. match goal with |- (if ?b then _ else _) = _ => destruct b end; [|done].
  apply set_cell_twice.
Qed.

(** ** Columns *)

Lemma add_column_columns columns addition t :
  DbTable.columns (add_column columns addition t) =
  DbTable.columns t ++ (if bool_decide (addition.1 ∈ columns) then [] else [addition.1]).
Proof. destruct addition as [name sql_type]. cbn. case_bool_decide; cbn; [by rewrite app_nil_r|done]. Qed.

(** The additions, the columns being those read before the first. *)
Definition adding (columns : list string) (additions : list (string * string)) (t : DbTable.t)
    : DbTable.t := foldl (λ t' a, add_column columns a t') t additions.

Lemma adding_columns columns additions t :
  DbTable.columns (adding columns additions t) =
  DbTable.columns t ++ filter (λ name, name ∉ columns) additions.*1.
Proof.
  revert t. induction additions as [|a l IH]; intros t; [by rewrite app_nil_r|].
  change (adding columns (a :: l) t) with (adding columns l (add_column columns a t)).
  rewrite IH, add_column_columns, <- app_assoc. f_equal. rewrite fmap_cons, filter_cons. case_bool_decide as Hin; cbn.
  - by rewrite decide_False by (intros ?; contradiction).
  - by rewrite decide_True.
Qed.

Lemma adding_all additions t :
  (∀ name, name ∈ additions.*1 → name ∈ DbTable.columns t) → add_columns additions t = t.
Proof.
  intros Hall. unfold add_columns. set (columns := DbTable.columns t) in *. clearbody columns.
  induction additions as [|[name sql_type] l IH]; [done|].
  cbn [foldl add_column]. rewrite bool_decide_true by (apply Hall; cbn; left). apply IH.
  intros n Hn. apply Hall. by right.
Qed.

Lemma added additions t name :
  name ∈ additions.*1 → name ∈ DbTable.columns (add_columns additions t).
Proof.
  intros Hn. change (name ∈ DbTable.columns (adding (DbTable.columns t) additions t)).
  rewrite adding_columns. apply elem_of_app.
  destruct (decide (name ∈ DbTable.columns t)); [by left|right]. by apply list_elem_of_filter.
Qed.

Lemma add_columns_columns additions t name :
  name ∉ additions.*1 →
  (name ∈ DbTable.columns (add_columns additions t) ↔ name ∈ DbTable.columns t).
Proof.
  intros Hn. change (name ∈ DbTable.columns (adding (DbTable.columns t) additions t) ↔
    name ∈ DbTable.columns t).
  rewrite adding_columns, elem_of_app, list_elem_of_filter. naive_solver.
Qed.

(** The rows keep the cells they have. *)
Definition extends (r r' : row) : Prop := r `prefix_of` r'.
#[local] Instance extends_preorder : PreOrder extends.
Proof. unfold extends. apply _. Qed.

Lemma add_column_rows columns addition t :
  Forall2 extends (DbTable.rows t) (DbTable.rows (add_column columns addition t)).
Proof.
  destruct addition as [name sql_type]. unfold add_column. case_bool_decide; [done|].
  apply Forall2_fmap_r, Forall_Forall2_diag, Forall_true. intros r. by apply prefix_app_r.
Qed.

Lemma add_columns_rows additions t :
  Forall2 extends (DbTable.rows t) (DbTable.rows (add_columns additions t)).
Proof.
  unfold add_columns. set (columns := DbTable.columns t). clearbody columns.
  revert t. induction additions as [|a l IH]; intros t; [done|].
  etrans; [apply (add_column_rows columns a)|apply IH].
Qed.

(** ** Each statement is safe to repeat *)

Lemma create_index_spec name column t t' :
  create_index name column t = Return t' →
  DbTable.columns t' = DbTable.columns t ∧ DbTable.rows t' = DbTable.rows t ∧
  name ∈ (DbTable.indexes t').*1 ∧ (∀ n, n ∈ (DbTable.indexes t).*1 → n ∈ (DbTable.indexes t').*1).
Proof.
  unfold create_index. case_bool_decide; [by intros [= <-]|]. case_bool_decide; [|done].
  intros [= <-]. simpl. rewrite fmap_app. set_solver.
Qed.

Lemma create_index_again name column t :
  name ∈ (DbTable.indexes t).*1 → create_index name column t = Return t.
Proof. intros Hn. unfold create_index. by rewrite bool_decide_true. Qed.

Lemma create_unique_index_spec name column t t' :
  create_unique_index name column t = Return t' → create_index name column t = Return t'.
Proof. unfold create_unique_index. by destruct (_ || _). Qed.

Lemma carry_sessions_again columns t :
  carry_sessions columns (carry_sessions columns t) = carry_sessions columns t.
Proof.
  unfold carry_sessions. case_bool_decide; [|done]. destruct t as [c i rows]. simpl.
  unfold update_field. simpl. f_equal. rewrite map_map. apply map_ext, carry_session_twice.
Qed.
Lemma carry_sessions_columns columns t :
  DbTable.columns (carry_sessions columns t) = DbTable.columns t ∧
  DbTable.indexes (carry_sessions columns t) = DbTable.indexes t.
Proof. unfold carry_sessions. by case_bool_decide. Qed.

(** A table whose session column was added and filled. *)
Definition migrate_sessions (index : string) (additions : list (string * string)) (t : DbTable.t)
    : outcome DbTable.t :=
  create_index index "agent_session_id"
    (carry_sessions (DbTable.columns t) (add_columns additions t)).

Lemma carry_sessions_agree columns columns' t :
  ("openhands_conversation_id" ∈ columns ↔ "openhands_conversation_id" ∈ columns') →
  carry_sessions columns t = carry_sessions columns' t.
Proof. intros Hc. unfold carry_sessions. by rewrite (bool_decide_ext _ _ Hc). Qed.

Lemma same_table t t' :
  DbTable.columns t = DbTable.columns t' → DbTable.indexes t = DbTable.indexes t' →
  DbTable.rows t = DbTable.rows t' → t = t'.
Proof. destruct t, t'. cbn. congruence. Qed.

Lemma migrate_sessions_again index additions t t' :
  "openhands_conversation_id" ∉ additions.*1 →
  migrate_sessions index additions t = Return t' → migrate_sessions index additions t' = Return t'.
Proof.
  intros Hlegacy Hm. unfold migrate_sessions in *.
  apply create_index_spec in Hm as (Hc & Hr & Hn & _).
  rewrite (proj1 (carry_sessions_columns _ _)) in Hc.
  rewrite adding_all by (intros name Hname; rewrite Hc; by apply added).
  assert (Hcarry : carry_sessions (DbTable.columns t') t' = t').
  { apply same_table; [apply carry_sessions_columns..|].
    rewrite (carry_sessions_agree _ (DbTable.columns t))
      by (rewrite Hc; by apply add_columns_columns).
    pose proof (carry_sessions_again (DbTable.columns t) (add_columns additions t)) as Hagain.
    unfold carry_sessions in *. case_bool_decide; [|done]. simpl. rewrite Hr. simpl.
    by apply (f_equal DbTable.rows) in Hagain. }
  rewrite Hcarry. by apply create_index_again.
Qed.

Lemma migrate_agent_task_again t t' :
  migrate_agent_task t = Return t' → migrate_agent_task t' = Return t'.
Proof.
  unfold migrate_agent_task at 1. intros (t1 & Hu & Hi)%outcome_bind_Return. apply create_unique_index_spec, create_index_spec in Hu as (Hc1 & _ & Hn1 & _).
  apply create_index_spec in Hi as (Hc & _ & Hn & Hkeep).
  unfold migrate_agent_task.
  rewrite adding_all by (intros name Hname; rewrite Hc, Hc1; by apply added).
  unfold create_unique_index. rewrite bool_decide_true by by apply Hkeep. cbn [orb].
  rewrite create_index_again by by apply Hkeep. by apply create_index_again.
Qed.

Lemma migrate_review_config_again t t' :
  migrate_review_config t = Return t' → migrate_review_config t' = Return t'.
Proof.
  unfold migrate_review_config. intros [= <-]. f_equal. apply adding_all. apply added.
Qed.

(** ** The identifiers and columns that decide what is left to do *)

(** A row has an identifier, and it is the one of a task. *)
Definition entered (ids : list string) (r : row) : Prop :=
  ∃ id, fget r "id" = Some id ∧ py_str id ∈ ids.

(** Nothing is left to do for a table of legacy rows. *)
Definition settled_table (ids : list string) (t : DbTable.t) : Prop :=
  Forall (entered ids) (DbTable.rows t) ∧
  Forall (λ c, c ∉ DbTable.columns t) _LEGACY_TASK_CONTROL_COLUMNS.

Definition settled (db : Schema) : Prop :=
  ∀ task, db !! "task" = Some task →
  ∀ name kind capability t, (name, kind, capability) ∈ legacy_specs → db !! name = Some t →
    settled_table (task_ids task) t.

Lemma entered_extends ids r r' : extends r r' → entered ids r → entered ids r'.
Proof. intros [more ->] (id & Hid & Hin). exists id. split; [by apply fget_app|done]. Qed.
Lemma entered_carry ids r : entered ids r → entered ids (carry_session r).
Proof.
  intros (id & Hid & Hin). exists id. split; [|done]. unfold carry_session.
  destruct (_ && _); [by rewrite fget_set_cell|done].
Qed.

(** What a migration of columns keeps. *)
Definition keeps_settled (f : DbTable.t → outcome DbTable.t) : Prop :=
  ∀ ids t t', f t = Return t' → settled_table ids t → settled_table ids t'.

Lemma settled_add ids additions t :
  Forall (λ c, c ∉ additions.*1) _LEGACY_TASK_CONTROL_COLUMNS →
  settled_table ids t → settled_table ids (add_columns additions t).
Proof.
  intros Hnew [Hr Hc]. split.
  - pose proof (add_columns_rows additions t) as Hf. revert Hr.
    induction Hf as [|r r' l l' He _ IH]; [constructor|]. intros [Hx Hl]%Forall_cons.
    constructor; [by eapply entered_extends|by apply IH].
  - rewrite Forall_forall in *. intros c Hin Hcol.
    apply add_columns_columns in Hcol; [by apply (Hc c)|by apply Hnew].
Qed.
Lemma settled_carry ids columns t : settled_table ids t → settled_table ids (carry_sessions columns t).
Proof.
  intros [Hr Hc]. unfold carry_sessions. case_bool_decide; [|done]. split; [|done].
  simpl. apply Forall_fmap. eapply Forall_impl; [exact Hr|]. intros r. apply entered_carry.
Qed.
Lemma settled_index ids name column t t' :
  create_index name column t = Return t' → settled_table ids t → settled_table ids t'.
Proof.
  intros (Hc & Hr & _)%create_index_spec [Hrows Hcols]. split; [by rewrite Hr|by rewrite Hc].
Qed.

(** ** Rows become tasks *)

Definition row_id (r : row) : string := py_str (cell r "id").

Lemma legacy_task_id kind capability id r now : row_id (legacy_task kind capability id r now) = id.
Proof. unfold legacy_task. by destruct (legacy_queue kind r). Qed.

(** The task of a legacy row. *)
Definition task_of (kind capability : string) (now : Z) (rows : list row) (t : row) : Prop :=
  ∃ r id, r ∈ rows ∧ fget r "id" = Some id ∧ t = legacy_task kind capability (py_str id) r now.

Lemma legacy_inserts_spec kind capability now existing rows inserts existing' :
  legacy_inserts kind capability now existing rows = Return (inserts, existing') →
  (∀ id, id ∈ existing' ↔ id ∈ existing ∨ id ∈ map row_id inserts) ∧
  Forall (entered existing') rows ∧
  (NoDup (map row_id inserts) ∧ ∀ id, id ∈ map row_id inserts → id ∉ existing) ∧
  Forall (task_of kind capability now rows) inserts.
Proof.
  revert existing inserts. induction rows as [|r rows IH]; intros existing inserts; cbn [legacy_inserts].
  { intros [= <- <-]. split_and!; try constructor; set_solver. }
  unfold jindex, jget. intros (id & Hid & Hrest)%outcome_bind_Return.
  destruct (fget r "id") as [v|] eqn:Hv; [|done]. injection Hid as <-.
  assert (Hmore : ∀ ins, Forall (task_of kind capability now rows) ins →
    Forall (task_of kind capability now (r :: rows)) ins).
  { intros ins Hins. eapply Forall_impl; [exact Hins|]. intros t (r' & id & Hin & Hr').
    exists r', id. split; [by right|done]. }
  case_bool_decide as Hin.
  - apply IH in Hrest as (Hex & Hent & [Hnd Hfresh] & Htasks). split_and!; [done| |done|done|by apply Hmore].
    constructor; [|done]. exists v. split; [done|]. apply Hex. by left.
  - apply outcome_bind_Return in Hrest as ([ins ex] & Hrest & Hret).
    injection Hret as <- <-. cbn [fst snd].
    apply IH in Hrest as (Hex & Hent & [Hnd Hfresh] & Htasks). cbn [map]. rewrite legacy_task_id.
    split_and!.
    + intros id. rewrite Hex. set_solver.
    + constructor; [|done]. exists v. split; [done|]. apply Hex. set_solver.
    + constructor; [|done]. intros Hi. apply Hfresh in Hi. set_solver.
    + set_solver.
    + constructor; [|by apply Hmore]. exists r, v. split; [by left|done].
Qed.

(** ** Columns are dropped *)

Lemma filter_all {A} (P : A → Prop) `{∀ x, Decision (P x)} (l : list A) : (∀ x, x ∈ l → P x) → filter P l = l.
Proof.
  induction l as [|x l IH]; [done|]. intros Hall. rewrite filter_cons_True by (apply Hall; left).
  f_equal. apply IH. intros y Hy. apply Hall. by right.
Qed.

Definition without (names : list string) (t : DbTable.t) : DbTable.t :=
  DbTable.mk (filter (λ c, c ∉ names) (DbTable.columns t)) (DbTable.indexes t)
    (map (filter (λ kv, kv.1 ∉ names)) (DbTable.rows t)).

Lemma drop_columns_run names t :
  Forall (λ index, Forall (λ c, c ∉ names) index.2) (DbTable.indexes t) →
  drop_columns names t = Return (without names t).
Proof.
  revert t. induction names as [|name names IH]; intros t Hix; cbn [drop_columns].
  { f_equal. apply same_table; cbn; [symmetry; apply filter_all; set_solver|done|].
    symmetry. etrans; [|apply map_id]. apply map_ext. intros r. apply filter_all. set_solver. }
  unfold drop_column. destruct (existsb _ _) eqn:He.
  { exfalso. apply existsb_exists in He as (index & Hin & Hname). apply bool_decide_eq_true in Hname.
    rewrite Forall_forall in Hix. apply list_elem_of_In in Hin. specialize (Hix _ Hin).
    rewrite Forall_forall in Hix. specialize (Hix _ Hname). set_solver. }
  etrans; [apply IH|].
  - eapply Forall_impl; [exact Hix|]. intros index Hi. eapply Forall_impl; [exact Hi|]. set_solver.
  - f_equal. apply same_table; simpl; [|done|].
    + rewrite list_filter_filter. apply list_filter_iff. set_solver.
    + rewrite map_map. apply map_ext. intros r. rewrite list_filter_filter.
      apply list_filter_iff. set_solver.
Qed.

(** The lifecycle columns of a table. *)
Definition moved_columns (t : DbTable.t) : list string :=
  filter (λ name, name ∈ DbTable.columns t) _LEGACY_TASK_CONTROL_COLUMNS.

Lemma drop_legacy_run t :
  ∃ t', _drop_legacy_task_control_columns t = Return t' ∧
    DbTable.columns t' = filter (λ c, c ∉ moved_columns t) (DbTable.columns t) ∧
    DbTable.rows t' = map (filter (λ kv, kv.1 ∉ moved_columns t)) (DbTable.rows t).
Proof.
  unfold _drop_legacy_task_control_columns. fold (moved_columns t).
  destruct (moved_columns t) as [|name moved] eqn:Hm.
  - exists t. split; [done|]. split; [symmetry; apply filter_all; set_solver|].
    symmetry. etrans; [|apply map_id]. apply map_ext. intros r. apply filter_all. set_solver.
  - eexists. split; [apply drop_columns_run|done]. rewrite Forall_forall. simpl.
    intros index [Hi _]%list_elem_of_filter. exact Hi.
Qed.

Lemma drop_legacy_settles t t' ids :
  _drop_legacy_task_control_columns t = Return t' →
  Forall (entered ids) (DbTable.rows t) → settled_table ids t'.
Proof.
  destruct (drop_legacy_run t) as (t1 & -> & Hc & Hr). intros [= <-] Hent. split.
  - rewrite Hr. apply Forall_fmap. eapply Forall_impl; [exact Hent|]. intros r (id & Hid & Hin).
    exists id. split; [|done]. rewrite <- Hid.
    refine (fget_filter (λ k, k ∉ moved_columns t) r "id" _).
    unfold moved_columns. rewrite list_elem_of_filter. intros [_ Hin'].
    set_solver.
  - rewrite Forall_forall. intros c Hcontrol. rewrite Hc. intros [Hn Hcol]%list_elem_of_filter.
    apply Hn. by apply list_elem_of_filter.
Qed.

(** ** The whole migration of tasks *)

(** The task table with more rows. *)
Definition grown (task : DbTable.t) (inserts : list row) : DbTable.t :=
  task .[ DbTable.rows := DbTable.rows task ++ inserts ].
Lemma grown_ids t inserts : task_ids (grown t inserts) = task_ids t ++ map row_id inserts.
Proof. unfold task_ids, grown. simpl. by rewrite map_app. Qed.
Lemma grown_twice t l l' : grown (grown t l) l' = grown t (l ++ l').
Proof. apply same_table; [done|done|]. unfold grown. simpl. by rewrite app_assoc. Qed.

Lemma entered_more ids ids' r : (∀ id, id ∈ ids → id ∈ ids') → entered ids r → entered ids' r.
Proof. intros Hmore (id & Hid & Hin). exists id. auto. Qed.
Lemma settled_more ids ids' t :
  (∀ id, id ∈ ids → id ∈ ids') → settled_table ids t → settled_table ids' t.
Proof.
  intros Hmore [Hr Hc]. split; [|done]. eapply Forall_impl; [exact Hr|].
  intros r. by apply entered_more.
Qed.

(** The rows [inserts] of the task table, for legacy tables of [db]. *)
Definition from_legacy (now : Z) (specs : list (string * string * string)) (db : Schema) (t : row)
    : Prop :=
  ∃ name kind capability legacy, (name, kind, capability) ∈ specs ∧ db !! name = Some legacy ∧
    task_of kind capability now (DbTable.rows legacy) t.

Lemma nothing_fresh (ids : list string) : NoDup (map row_id []) ∧ ∀ id, id ∈ map row_id [] → id ∉ ids.
Proof. split; [apply NoDup_nil_2|set_solver]. Qed.

(** What handling some legacy tables does. *)
Record migrated (now : Z) (specs : list (string * string * string)) (existing : list string)
    (task : DbTable.t) (db : Schema) (existing' : list string) (inserts : list row) (db' : Schema)
    : Prop := {
  migrated_tasks : db' !! "task" = Some (grown task inserts);
  migrated_ids : ∀ id, id ∈ existing' ↔ id ∈ task_ids (grown task inserts);
  migrated_others k : k ≠ "task" → k ∉ specs.*1.*1 → db' !! k = db !! k;
  migrated_fresh : NoDup (map row_id inserts) ∧ ∀ id, id ∈ map row_id inserts → id ∉ task_ids task;
  migrated_from : Forall (from_legacy now specs db) inserts;
  migrated_legacy name kind capability t : (name, kind, capability) ∈ specs → db !! name = Some t →
    Forall (entered (task_ids (grown task inserts))) (DbTable.rows t) ∧
    ∃ t', db' !! name = Some t' ∧ _drop_legacy_task_control_columns t = Return t';
  migrated_missing name : name ∈ specs.*1.*1 → db !! name = None → db' !! name = None
}.

Lemma migrate_table_spec now name kind capability existing db task existing' db' :
  name ≠ "task" → db !! "task" = Some task → (∀ id, id ∈ existing ↔ id ∈ task_ids task) →
  migrate_table now (name, kind, capability) (existing, db) = Return (existing', db') →
  ∃ inserts, migrated now [(name, kind, capability)] existing task db existing' inserts db'.
Proof.
  intros Hn Htask Hids. unfold migrate_table. destruct (db !! name) as [legacy|] eqn:Hl.
  2:{ intros [= <- <-]. exists []. assert (Hg : grown task [] = task)
        by (apply same_table; [done|done|]; unfold grown; simpl; by rewrite app_nil_r).
      split; rewrite ?Hg; try done; [apply nothing_fresh|].
      intros name' kind' cap' t Hin Ht. apply list_elem_of_singleton in Hin. simplify_eq. }
  intros ([inserts ex] & Hins & Hrest)%outcome_bind_Return. cbn [fst snd] in Hrest.
  apply legacy_inserts_spec in Hins as (Hex & Hent & [Hnd Hfresh] & Htasks).
  unfold table_of in Hrest. rewrite lookup_alter_ne in Hrest by done. rewrite Hl in Hrest.
  apply outcome_bind_Return in Hrest as (t1 & [= <-] & Hrest).
  apply outcome_bind_Return in Hrest as (t' & Hdrop & [= <- <-]).
  assert (Hids' : ∀ id, id ∈ ex ↔ id ∈ task_ids (grown task inserts))
    by (intros id; rewrite grown_ids, elem_of_app, Hex, Hids; done).
  exists inserts. split.
  - rewrite lookup_insert_ne by done. by rewrite lookup_alter, Htask.
  - exact Hids'.
  - intros k Hk Hk'. cbn in Hk'. rewrite lookup_insert_ne by set_solver. by rewrite lookup_alter_ne.
  - split; [done|]. intros id Hid. rewrite <- Hids. by apply Hfresh.
  - eapply Forall_impl; [exact Htasks|]. intros t Ht. exists name, kind, capability, legacy.
    split; [by apply list_elem_of_singleton|done].
  - intros name' kind' cap' t Hin Ht. apply list_elem_of_singleton in Hin. simplify_eq. split.
    + eapply Forall_impl; [exact Hent|]. intros r. apply entered_more. intros id. apply Hids'.
    + exists t'. by rewrite lookup_insert_eq.
  - intros name' Hin. cbn in Hin. apply list_elem_of_singleton in Hin as ->. congruence.
Qed.

Lemma spec_name (specs : list (string * string * string)) n k c :
  (n, k, c) ∈ specs → n ∈ specs.*1.*1.
Proof. intros Hin. apply (list_elem_of_fmap_2' fst) with (n, k); [|done]. by apply (list_elem_of_fmap_2' fst) with (n, k, c). Qed.

(** Two migrations in a row enter rows that are new, and distinct, together. *)
Lemma fresh_together task ins1 ins2 :
  (NoDup (map row_id ins1) ∧ ∀ id, id ∈ map row_id ins1 → id ∉ task_ids task) →
  (NoDup (map row_id ins2) ∧ ∀ id, id ∈ map row_id ins2 → id ∉ task_ids (grown task ins1)) →
  NoDup (map row_id (ins1 ++ ins2)) ∧ ∀ id, id ∈ map row_id (ins1 ++ ins2) → id ∉ task_ids task.
Proof.
  intros [Hn1 Hf1] [Hn2 Hf2]. rewrite map_app.
  assert (Hnew : ∀ id, id ∈ map row_id ins2 → id ∉ task_ids task ∧ id ∉ map row_id ins1)
    by (intros id Hi; apply Hf2 in Hi; rewrite grown_ids in Hi; set_solver).
  split; [apply NoDup_app; set_solver|].
  intros id [Hi|Hi]%elem_of_app; [by apply Hf1|by apply Hnew].
Qed.

Lemma migrate_tables_spec now specs existing db task existing' db' :
  NoDup specs.*1.*1 → "task" ∉ specs.*1.*1 →
  db !! "task" = Some task → (∀ id, id ∈ existing ↔ id ∈ task_ids task) →
  migrate_tables now specs (existing, db) = Return (existing', db') →
  ∃ inserts, migrated now specs existing task db existing' inserts db'.
Proof.
  revert existing db task. induction specs as [|[[name kind] capability] specs IH];
    intros existing db task Hnd Hnt Htask Hids; cbn [migrate_tables].
  { intros [= <- <-]. exists []. assert (Hg : grown task [] = task)
      by (apply same_table; [done|done|]; unfold grown; simpl; by rewrite app_nil_r).
    split; rewrite ?Hg; try done; [apply nothing_fresh|set_solver]. }
  intros ([ex1 db1] & Hone & Hrest)%outcome_bind_Return.
  cbn in Hnd, Hnt. apply NoDup_cons in Hnd as [Hnew Hnd].
  apply (migrate_table_spec _ _ _ _ _ _ task) in Hone as [ins1 H1]; [|set_solver|done|done].
  apply (IH _ _ (grown task ins1)) in Hrest as [ins2 H2];
    [|done|set_solver|apply H1|apply H1].
  assert (Hsame : ∀ n, n ∈ specs.*1.*1 → db1 !! n = db !! n)
    by (intros n Hin; apply H1; cbn; set_solver).
  exists (ins1 ++ ins2). split; rewrite <- ?grown_twice.
  - apply H2.
  - apply H2.
  - intros k Hk Hk'. cbn in Hk'. rewrite (migrated_others _ _ _ _ _ _ _ _ H2) by set_solver.
    rewrite (migrated_others _ _ _ _ _ _ _ _ H1); [done|done|]. cbn. set_solver.
  - apply fresh_together; [apply H1|apply H2].
  - apply Forall_app. split.
    + eapply Forall_impl; [exact (migrated_from _ _ _ _ _ _ _ _ H1)|].
      intros t (n & k & c & l & Hin & Hl & Ht). apply list_elem_of_singleton in Hin. simplify_eq.
      exists name, kind, capability, l. split; [by left|done].
    + eapply Forall_impl; [exact (migrated_from _ _ _ _ _ _ _ _ H2)|].
      intros t (n & k & c & l & Hin & Hl & Ht). exists n, k, c, l.
      split; [by right|]. split; [|done]. rewrite <- Hl. symmetry. by eapply Hsame, spec_name.
  - intros n k c t [[= -> -> ->]|Hin]%elem_of_cons Ht.
    + destruct (migrated_legacy _ _ _ _ _ _ _ _ H1 name kind capability t) as (Hent & t' & Ht' & Hd);
        [by left|done|]. split.
      * eapply Forall_impl; [exact Hent|]. intros r. apply entered_more.
        intros id. rewrite !grown_ids. set_solver.
      * exists t'. split; [|done]. rewrite <- Ht'. apply H2; set_solver.
    + apply (migrated_legacy _ _ _ _ _ _ _ _ H2 n k c t); [done|].
      rewrite <- Ht. by eapply Hsame, spec_name.
  - intros n Hin Hmiss. cbn in Hin. apply elem_of_cons in Hin as [->|Hin].
    + rewrite (migrated_others _ _ _ _ _ _ _ _ H2) by set_solver.
      apply (migrated_missing _ _ _ _ _ _ _ _ H1); [by left|done].
    + apply (migrated_missing _ _ _ _ _ _ _ _ H2); [done|]. rewrite <- Hmiss. by apply Hsame.
Qed.

Lemma unify_spec now db db' task :
  db !! "task" = Some task → _migrate_unified_tasks now db = Return db' →
  ∃ existing' inserts, migrated now legacy_specs (task_ids task) task db existing' inserts db'.
Proof.
  intros Htask. unfold _migrate_unified_tasks. rewrite Htask.
  intros ([existing' d] & Hm & [= <-])%outcome_bind_Return.
  apply (migrate_tables_spec _ _ _ _ task) in Hm as [inserts Hm]; [by exists existing', inserts| |..|done|done];
    apply (bool_decide_unpack _); vm_compute; exact I.
Qed.

Lemma unify_settled now db db' : _migrate_unified_tasks now db = Return db' → settled db'.
Proof.
  intros Hm. destruct (db !! "task") as [task|] eqn:Htask.
  2:{ unfold _migrate_unified_tasks in Hm. rewrite Htask in Hm. injection Hm as <-. intros task.
      by rewrite Htask. }
  destruct (unify_spec now db db' task Htask Hm) as (existing' & inserts & Hmigrated).
  clear Hm. rename Hmigrated into Hm.
  intros task' Htask' name kind capability t Hin Ht.
  rewrite (migrated_tasks _ _ _ _ _ _ _ _ Hm) in Htask'. injection Htask' as <-.
  destruct (db !! name) as [t0|] eqn:Ht0.
  - destruct (migrated_legacy _ _ _ _ _ _ _ _ Hm name kind capability t0 Hin Ht0) as (Hent & t' & Ht' & Hd).
    rewrite Ht in Ht'. injection Ht' as <-. by apply (drop_legacy_settles t0).
  - rewrite (migrated_missing _ _ _ _ _ _ _ _ Hm) in Ht; [done|by eapply spec_name|done].
Qed.

Lemma legacy_inserts_none kind capability now existing rows :
  Forall (entered existing) rows → legacy_inserts kind capability now existing rows = Return ([], existing).
Proof.
  induction 1 as [|r rows (id & Hid & Hin) _ IH]; [done|]. cbn [legacy_inserts].
  unfold jindex, jget. rewrite Hid. cbn. by rewrite bool_decide_true.
Qed.

Lemma settled_table_run now name kind capability db task :
  (name, kind, capability) ∈ legacy_specs → settled db → db !! "task" = Some task →
  migrate_table now (name, kind, capability) (task_ids task, db) = Return (task_ids task, db).
Proof.
  intros Hin Hs Htask. unfold migrate_table. destruct (db !! name) as [t|] eqn:Ht; [|done].
  destruct (Hs task Htask name kind capability t Hin Ht) as [Hent Hcols].
  rewrite legacy_inserts_none by done. cbn [mbind outcome_bind fst snd].
  assert (Halter : alter (λ t, t .[ DbTable.rows := DbTable.rows t ++ [] ]) "task" db = db).
  { apply map_eq. intros k. destruct (decide (k = "task")) as [->|Hk].
    - rewrite lookup_alter_eq, Htask. cbn. f_equal.
      apply same_table; [done|done|]. simpl. apply app_nil_r.
    - by rewrite lookup_alter_ne. }
  rewrite Halter. unfold table_of. rewrite Ht. cbn [mbind outcome_bind].
  unfold _drop_legacy_task_control_columns. fold (moved_columns t).
  assert (moved_columns t = []) as ->.
  { unfold moved_columns. destruct (filter _ _) as [|c l] eqn:Hf; [done|]. exfalso.
    assert (Hc : c ∈ c :: l) by left. rewrite <- Hf in Hc. apply list_elem_of_filter in Hc as [Hc Hcon].
    rewrite Forall_forall in Hcols. by apply (Hcols c). }
  cbn. by rewrite insert_id.
Qed.

Lemma settled_unify now db : settled db → _migrate_unified_tasks now db = Return db.
Proof.
  intros Hs. unfold _migrate_unified_tasks. destruct (db !! "task") as [task|] eqn:Htask; [|done].
  assert (Hall : ∀ specs, (∀ spec, spec ∈ specs → spec ∈ legacy_specs) →
    migrate_tables now specs (task_ids task, db) = Return (task_ids task, db)).
  { induction specs as [|[[name kind] capability] specs IH]; [done|]. intros Hin.
    cbn [migrate_tables]. rewrite settled_table_run; [|apply Hin; left|done|done].
    cbn [mbind outcome_bind]. apply IH. intros spec Hspec. apply Hin. by right. }
  by rewrite Hall.
Qed.

(** ** The whole startup *)

Lemma on_table_spec name f db db' :
  on_table name f db = Return db' →
  ∃ t t', db !! name = Some t ∧ f t = Return t' ∧ db' = <[name := t']> db.
Proof.
  unfold on_table, table_of. destruct (db !! name) as [t|]; [|done].
  intros (t0 & [= <-] & (t' & Hf & [= <-])%outcome_bind_Return)%outcome_bind_Return. eauto.
Qed.

Lemma on_table_again name f db t :
  db !! name = Some t → f t = Return t → on_table name f db = Return db.
Proof.
  intros Ht Hf. unfold on_table, table_of. rewrite Ht. cbn. rewrite Hf. cbn. by rewrite insert_id.
Qed.

Lemma on_table_settled name f db db' :
  name ≠ "task" → keeps_settled f → on_table name f db = Return db' → settled db → settled db'.
Proof.
  intros Hn Hf (t & t' & Ht & Hft & ->)%on_table_spec Hs task Htask n k c t0 Hin Ht0.
  rewrite lookup_insert_ne in Htask by done.
  destruct (decide (n = name)) as [->|Hne].
  - rewrite lookup_insert_eq in Ht0. injection Ht0 as <-. eapply Hf; [exact Hft|]. by eapply Hs.
  - rewrite lookup_insert_ne in Ht0 by done. by eapply Hs.
Qed.

Lemma settled_sessions index additions :
  Forall (λ c, c ∉ additions.*1) _LEGACY_TASK_CONTROL_COLUMNS →
  keeps_settled (migrate_sessions index additions).
Proof.
  intros Hnew ids t t' Hm Hs. eapply settled_index; [exact Hm|]. by apply settled_carry, settled_add.
Qed.
Lemma settled_agent_task : keeps_settled migrate_agent_task.
Proof.
  intros ids t t' (t1 & Hu & Hi)%outcome_bind_Return Hs. eapply settled_index; [exact Hi|].
  apply create_unique_index_spec in Hu. eapply settled_index; [exact Hu|].
  apply settled_add; [decide_by_computation|done].
Qed.
Lemma settled_config : keeps_settled migrate_review_config.
Proof. intros ids t t' [= <-] Hs. apply settled_add; [decide_by_computation|done]. Qed.

Lemma runtime_run db db' :
  _migrate_agent_runtime_columns db = Return db' → settled db →
  settled db' ∧ _migrate_agent_runtime_columns db' = Return db' ∧
  ∀ k, is_Some (db !! k) → is_Some (db' !! k).
Proof.
  intros (d1 & H1 & (d2 & H2 & (d3 & H3 & H4)%outcome_bind_Return)%outcome_bind_Return)%outcome_bind_Return Hs.
  assert (Hs4 : settled db').
  { eapply on_table_settled; [|apply settled_config|exact H4|]; [done|].
    eapply on_table_settled; [|apply settled_agent_task|exact H3|]; [done|].
    eapply (on_table_settled "review_session"); [done| |exact H2|].
    { apply settled_sessions. decide_by_computation. }
    eapply (on_table_settled "review_run"); [done| |exact H1|done].
    apply settled_sessions. decide_by_computation. }
  apply on_table_spec in H1 as (t1 & t1' & _ & Hm1 & ->).
  apply on_table_spec in H2 as (t2 & t2' & _ & Hm2 & ->).
  apply on_table_spec in H3 as (t3 & t3' & _ & Hm3 & ->).
  apply on_table_spec in H4 as (t4 & t4' & _ & Hm4 & ->).
  split; [exact Hs4|]. split.
  - apply (migrate_sessions_again "ix_review_run_agent_session_id" review_run_additions)
      in Hm1; [|decide_by_computation].
    apply (migrate_sessions_again "ix_review_session_agent_session_id"
      [("agent_session_id", "VARCHAR(128)")]) in Hm2; [|decide_by_computation].
    apply migrate_agent_task_again in Hm3. apply migrate_review_config_again in Hm4.
    unfold _migrate_agent_runtime_columns.
    rewrite (on_table_again "review_run" _ _ t1'); [|by simplify_map_eq|exact Hm1].
    cbn [mbind outcome_bind]. rewrite (on_table_again "review_session" _ _ t2'); [|by simplify_map_eq|exact Hm2].
    cbn [mbind outcome_bind]. rewrite (on_table_again "agent_task" _ _ t3'); [|by simplify_map_eq|exact Hm3].
    cbn [mbind outcome_bind]. by rewrite (on_table_again "review_config" _ _ t4'); [|by simplify_map_eq|].
  - intros k Hk. rewrite !lookup_insert_is_Some'. auto.
Qed.

Lemma unify_tables now db db' k :
  _migrate_unified_tasks now db = Return db' → is_Some (db !! k) → is_Some (db' !! k).
Proof.
  intros Hm Hk. destruct (db !! "task") as [task|] eqn:Htask.
  2:{ unfold _migrate_unified_tasks in Hm. rewrite Htask in Hm. by injection Hm as <-. }
  destruct (unify_spec now db db' task Htask Hm) as (existing' & inserts & [Ht _ Hothers _ _ Hlegacy _]).
  destruct (decide (k = "task")) as [->|Hkt]; [by rewrite Ht|].
  destruct (decide (k ∈ legacy_specs.*1.*1)) as [Hin|Hout]; [|by rewrite Hothers].
  destruct Hk as [t Hk]. apply list_elem_of_fmap in Hin as ([k' kind] & -> & Hin).
  apply list_elem_of_fmap in Hin as ([[k'' kind'] capability] & [= -> ->] & Hin).
  destruct (Hlegacy k'' kind' capability t Hin Hk) as (_ & t' & Ht' & _). cbn. by rewrite Ht'.
Qed.

(** C32: starting the service again is safe: when [init_models] has succeeded on a database, every
    later run of it succeeds and leaves the database exactly as it is, whatever the legacy
    tables held before, whenever it runs, and however often. *)
Theorem startup_is_idempotent declared now now' db db' :
  init_models declared now db = Return db' → init_models declared now' db' = Return db'.
Proof.
  intros (d1 & Hunify & Hruntime)%outcome_bind_Return.
  pose proof (unify_settled _ _ _ Hunify) as Hs1.
  destruct (runtime_run d1 db' Hruntime Hs1) as (Hs & Hagain & Hdom).
  assert (Hall : create_all declared db' = db').
  { apply map_eq. intros k. unfold create_all. rewrite lookup_union.
    destruct (declared !! k) as [t|] eqn:Hd; [|by destruct (db' !! k)].
    assert (is_Some (db' !! k)) as [t' ->]; [|done].
    apply Hdom. eapply unify_tables; [exact Hunify|]. unfold create_all. rewrite lookup_union, Hd.
    by destruct (db !! k). }
  unfold init_models. rewrite Hall, (settled_unify now' db' Hs). exact Hagain.
Qed.

(** What the task of a legacy row takes over from it. *)
Definition carried (r t : row) : Prop :=
  Forall (λ name, cell t name = cell r name)
    ["stage"; "lock_owner"; "locked_until"; "started_at"; "completed_at"; "deadline_at"] ∧
  (json_truthy (cell r "status") = true → cell t "status" = JStr (py_str (cell r "status"))) ∧
  (json_truthy (cell r "created_at") = true → cell t "created_at" = cell r "created_at").

Lemma legacy_task_carries kind capability id r now : carried r (legacy_task kind capability id r now).
Proof.
  unfold legacy_task. destruct (legacy_queue kind r). split.
  { repeat (apply Forall_cons; split; [vm_compute; reflexivity|]). by apply Forall_nil. }
  split; intros Hc; cbn; unfold json_or; by rewrite Hc.
Qed.

(** C33: no legacy row is lost or doubled: the migration keeps every task there is, and adds
    exactly one for each review run and agent command whose identifier had none, with its
    stage, lock, times and status; the lifecycle columns then leave the legacy tables, whose
    rows and other columns stay, and no other table changes. *)
Theorem legacy_rows_become_tasks now db db' task :
  db !! "task" = Some task → NoDup (task_ids task) →
  _migrate_unified_tasks now db = Return db' →
  ∃ inserts, db' !! "task" = Some (grown task inserts) ∧ NoDup (task_ids (grown task inserts)) ∧
    (∀ t, t ∈ inserts → ∃ name kind capability legacy r id,
       (name, kind, capability) ∈ legacy_specs ∧ db !! name = Some legacy ∧
       r ∈ DbTable.rows legacy ∧ fget r "id" = Some id ∧
       t = legacy_task kind capability (py_str id) r now ∧ carried r t) ∧
    (∀ name kind capability legacy, (name, kind, capability) ∈ legacy_specs →
       db !! name = Some legacy →
       (∀ r, r ∈ DbTable.rows legacy → ∃ id, fget r "id" = Some id ∧
          py_str id ∈ task_ids (grown task inserts)) ∧
       ∃ legacy', db' !! name = Some legacy' ∧
         (∀ c, c ∈ DbTable.columns legacy' ↔
            c ∈ DbTable.columns legacy ∧ c ∉ _LEGACY_TASK_CONTROL_COLUMNS) ∧
         DbTable.rows legacy' =
           map (filter (λ kv, kv.1 ∉ moved_columns legacy)) (DbTable.rows legacy)) ∧
    (∀ k, k ∉ ["task"; "review_run"; "agent_task"] → db' !! k = db !! k).
Proof.
  intros Htask Hnd Hm.
  destruct (unify_spec now db db' task Htask Hm)
    as (existing' & inserts & [Ht _ Hothers [Hn Hf] Hfrom Hlegacy _]).
  exists inserts. split_and!; [exact Ht| | | |].
  - rewrite grown_ids. apply NoDup_app. split; [done|]. split; [|done].
    intros id Hold Hnew. by apply (Hf id).
  - intros t Hin. rewrite Forall_forall in Hfrom.
    destruct (Hfrom t Hin) as (name & kind & cap & legacy & Hspec & Hl & r & id & Hr & Hid & ->).
    exists name, kind, cap, legacy, r, id. split_and!; try done. apply legacy_task_carries.
  - intros name kind cap legacy Hspec Hl. destruct (Hlegacy name kind cap legacy Hspec Hl) as (He & t' & Ht' & Hd).
    split; [intros r Hr; rewrite Forall_forall in He; exact (He r Hr)|].
    destruct (drop_legacy_run legacy) as (t1 & Hd1 & Hc & Hrows). rewrite Hd in Hd1. injection Hd1 as <-.
    exists t'. split; [done|]. split; [|done]. intros c. rewrite Hc, list_elem_of_filter.
    unfold moved_columns. rewrite list_elem_of_filter. naive_solver.
  - intros k Hk. apply Hothers; [set_solver|]. cbn. set_solver.
Qed.

(** ** On concrete databases *)

Definition task_table : DbTable.t :=
  DbTable.mk ["id"; "kind"; "status"] [("ix_task_claim", ["status"])] [].

(** The tables the models declare, with the columns that matter here. *)
Definition declared_tables : Schema := list_to_map
  [("task", task_table);
   ("review_run", DbTable.mk ["id"; "agent_session_id"] [] []);
   ("agent_task", DbTable.mk ["id"; "provider_event_id"; "agent_session_id"] [] []);
   ("review_session", DbTable.mk ["id"; "agent_session_id"] [] []);
   ("review_config", DbTable.mk ["id"] [] [])].

(** A database from before tasks were unified, with a run whose index covers a lifecycle
    column. *)
Definition legacy_run : row :=
  [("id", JStr "run-1"); ("provider", JStr "github"); ("repo_full_name", JStr "octo/app");
   ("pull_request_number", JInt 7); ("head_sha", JStr "abc1234"); ("trigger_type", JStr "manual");
   ("status", JStr "running"); ("stage", JStr "waiting_for_agent"); ("lock_owner", JNull);
   ("openhands_conversation_id", JStr "conversation-1")].
Definition legacy_database : Schema := list_to_map
  [("review_run", DbTable.mk legacy_run.*1 [("ix_review_run_status", ["status"; "provider"])] [legacy_run])].

Definition cells (name : string) (columns : list string) (o : outcome Schema) : list (list json) :=
  match o with
  | Return db => match db !! name with
                 | Some t => map (λ r, map (cell r) columns) (DbTable.rows t)
                 | None => []
                 end
  | Raise _ => []
  end.

Example legacy_run_is_moved :
  let o := init_models declared_tables 5 legacy_database in
  cells "task" ["id"; "kind"; "status"; "stage"; "queue"; "priority"; "concurrency_key"] o =
    [[JStr "run-1"; JStr "review"; JStr "running"; JStr "waiting_for_agent"; JStr "manual-review";
      JInt 60; JStr "github:octo/app:pr:7:head:abc1234"]] ∧
  cells "review_run" ["id"; "status"; "agent_session_id"] o =
    [[JStr "run-1"; JNull; JStr "conversation-1"]].
Proof. vm_compute. split; reflexivity. Qed.

Lemma startup_is_idempotent_witness :
  ∃ db', init_models declared_tables 5 legacy_database = Return db' ∧
    init_models declared_tables 9 db' = Return db'.
Proof.
  destruct (init_models declared_tables 5 legacy_database) as [db'|e] eqn:Hdb.
  - exists db'. split; [reflexivity|]. exact (startup_is_idempotent declared_tables 5 9 _ _ Hdb).
  - exfalso. revert Hdb. vm_compute. discriminate.
Defined.

Lemma legacy_rows_become_tasks_witness :
  ∃ db', _migrate_unified_tasks 5 (create_all declared_tables legacy_database) = Return db' ∧
    ∃ inserts, db' !! "task" = Some (grown task_table inserts) ∧
      NoDup (task_ids (grown task_table inserts)).
Proof.
  destruct (_migrate_unified_tasks 5 (create_all declared_tables legacy_database)) as [db'|e] eqn:Hdb;
    [|exfalso; revert Hdb; vm_compute; discriminate].
  assert (Ht : create_all declared_tables legacy_database !! "task" = Some task_table)
    by (vm_compute; reflexivity).
  exists db'. split; [reflexivity|].
  destruct (legacy_rows_become_tasks 5 _ db' task_table Ht (NoDup_nil_2) Hdb)
    as (inserts & Hins & Hnd & _).
  exists inserts. split; [exact Hins|exact Hnd].
Defined.

(** The legacy column stays, so a run whose session was given up later is bound to the
    conversation of the former runtime by the next start. *)
Example forgotten_session_returns :
  let db := list_to_map
    [("review_run", DbTable.mk ["id"; "openhands_conversation_id"; "agent_session_id"]
        [("ix_review_run_agent_session_id", ["agent_session_id"])]
        [[("id", JStr "run-1"); ("openhands_conversation_id", JStr "conversation-1");
          ("agent_session_id", JNull)]])] in
  cells "review_run" ["agent_session_id"] (init_models declared_tables 5 db) =
    [[JStr "conversation-1"]].
Proof. vm_compute. reflexivity. Qed.
