(* ===== verification/DiagnosticsTheorems.v ===== *)
(** * What the permission diagnostics promise

    They only read, and they report a platform healthy exactly when everything the service
    needs was seen to be granted. *)
From Stdlib Require Import Ascii.
From S2P Require Import Prelude PyText Json World Models PlatformClient GitHubClient GitLabClient GitHub GitLab Registry PlatformDiagnostics.
#[global] Open Scope Z_scope.
#[global] Open Scope orch_scope.

(** ** Only reading *)

Definition reading (r : HttpRequest.t) : Prop :=
  HttpRequest.method r = "GET" ∧ HttpRequest.body r = None.

(** A computation that changes nothing and sends at most [n] requests, which read. *)
Definition reads {A} (n : nat) (m : SM A) : Prop :=
  ∀ s, ∃ requests, exec m s = s .[ sent := sent s ++ requests ] ∧
    (length requests ≤ n)%nat ∧ Forall reading requests.

Lemma same_sent s : s .[ sent := sent s ++ [] ] = s.
Proof. unfold update_field. cbn. rewrite app_nil_r. by destruct s. Qed.

Lemma reads_nothing {A} n (m : SM A) : (∀ s, exec m s = s) → reads n m.
Proof. intros Hm s. exists []. rewrite same_sent, Hm. split; [done|]. split; [cbn; lia|constructor]. Qed.
Lemma reads_ret {A} n (x : A) : reads n (mret x).
Proof. by apply reads_nothing. Qed.
Lemma reads_raise {A} n e : reads (A := A) n (raise e).
Proof. by apply reads_nothing. Qed.
Lemma reads_lift {A} n (o : outcome A) : reads n (lift o).
Proof. by apply reads_nothing. Qed.

Lemma reads_bind {A B} n n' (m : SM A) (k : A → SM B) :
  reads n m → (∀ x, reads n' (k x)) → reads (n + n') (x ← m; k x).
Proof.
  intros Hm Hk s. destruct (Hm s) as (l & Hl & Hn & Hf). unfold exec in *. rewrite bind_run.
  destruct (m s) as [[x|e] s1]; cbn [snd] in Hl; subst s1.
  - destruct (Hk x (s .[ sent := sent s ++ l ])) as (l' & Hl' & Hn' & Hf').
    unfold exec in Hl'. rewrite Hl'. exists (l ++ l'). split.
    + unfold update_field. cbn. by rewrite app_assoc.
    + rewrite length_app, Forall_app. split; [lia|done].
  - exists l. split; [done|]. split; [lia|done].
Qed.

Section reading.
Context `{PlatformHttp} `{DiagnosticsHttp} `{GitHubSettings}.

Lemma reads_get service path token : reads 1 (_safe_get service path token).
Proof.
  intros s. eexists. split; [reflexivity|]. split; [cbn; lia|]. by constructor.
Qed.

Lemma reads_pull_request payload resource get :
  (∀ n, reads 1 (get n)) → reads 1 (pull_request_check payload resource get).
Proof.
  intros Hget. unfold pull_request_check. destruct (PlatformPermissionDiagnosticRequest.pull_request_number _).
  - apply (reads_bind 1 0); [apply Hget|intros; apply reads_ret].
  - apply reads_ret.
Qed.

Lemma reads_credentials repository : reads 0 (github_credentials repository).
Proof.
  apply reads_nothing. intros s. unfold github_credentials, exec, try_except, get_token, get_permissions.
  rewrite bind_run. unfold gets. rewrite bind_run. cbn [fst snd].
  destruct (github_token _ _); [|done]. cbn [mret M_ret]. rewrite bind_run. cbn.
  rewrite bind_run. cbn. by destruct (github_permissions _ _).
Qed.

Lemma reads_github payload : reads 2 (diagnose_github_permissions payload).
Proof.
  apply (reads_bind 0 2); [apply reads_credentials|]. intros [[token permissions]|]; [|apply reads_ret].
  destruct (or_none token) as [t|]; [|apply reads_ret].
  apply (reads_bind 1 1); [apply reads_get|]. intros [|code headers content]; [apply reads_ret|].
  cbv zeta. destruct (negb _); [apply reads_ret|].
  apply (reads_bind 1 0); [|intros; apply reads_ret].
  apply reads_pull_request. intros; apply reads_get.
Qed.

Lemma reads_gitlab payload : reads 2 (diagnose_gitlab_permissions payload).
Proof.
  unfold diagnose_gitlab_permissions. destruct (or_none gitlab_token) as [t|]; [|apply reads_ret].
  apply (reads_bind 1 1); [apply reads_get|]. intros [|code headers content]; [apply reads_ret|].
  cbv zeta. destruct (negb _); [apply reads_ret|].
  apply (reads_bind 1 0); [|intros; apply reads_ret].
  apply reads_pull_request. intros; apply reads_get.
Qed.

Lemma reads_diagnosis registry configured payload :
  reads 2 (diagnose_platform_permissions registry configured payload).
Proof.
  apply (reads_bind 0 2); [apply reads_lift|]. intros _.
  case_bool_decide; [|case_bool_decide; [|apply reads_raise]].
  - unfold github_diagnose. destruct configured; [|apply reads_raise].
    apply (reads_bind 0 2); [|intros; apply reads_github].
    unfold GitHub.require_client. destruct github_client; [apply reads_ret|apply reads_raise].
  - unfold gitlab_diagnose. destruct configured; [apply reads_gitlab|apply reads_raise].
Qed.

(** Diagnosing permissions only reads: whatever the provider, the credentials and the answers,
    and also when it raises, nothing of the database or the machine changes, no probe is
    written, and at most two requests are sent, each of them a GET without a body. *)
Theorem diagnostics_only_read registry configured payload s :
  let s' := exec (diagnose_platform_permissions registry configured payload) s in
  work s' = work s ∧ committed s' = committed s ∧ shell s' = shell s ∧
  ∃ requests, sent s' = sent s ++ requests ∧ (length requests ≤ 2)%nat ∧
    Forall (λ r, HttpRequest.method r = "GET" ∧ HttpRequest.body r = None) requests.
Proof.
  destruct (reads_diagnosis registry configured payload s) as (requests & -> & Hn & Hf).
  split_and!; try done. by exists requests.
Qed.
End reading.

(** ** Health is earned *)

(** A response is healthy when every required check passed. *)
Lemma response_healthy payload checks a b c d :
  Forall (λ c, PlatformPermissionCheck.required c = true ∧
     PlatformPermissionCheck.status c ∈ ["passed"; "failed"; "unknown"; "skipped"]) checks →
  (PlatformPermissionDiagnosticResponse.status (_response payload checks a b c d) = "healthy" ↔
   Forall (λ c, PlatformPermissionCheck.status c = "passed") checks).
Proof.
  intros Hchecks. unfold _response. cbn [PlatformPermissionDiagnosticResponse.status].
  set (statuses := map _ _).
  assert (Hs : ∀ st, st ∈ statuses ↔ ∃ c, c ∈ checks ∧ PlatformPermissionCheck.status c = st).
  { intros st. unfold statuses. rewrite list_elem_of_fmap. setoid_rewrite list_elem_of_filter.
    rewrite Forall_forall in Hchecks. split.
    - intros (c0 & -> & _ & Hc). by exists c0.
    - intros (c0 & Hc & <-). exists c0. split; [done|]. split; [|done].
      by rewrite (proj1 (Hchecks c0 Hc)). }
  rewrite Forall_forall. rewrite Forall_forall in Hchecks.
  case_bool_decide as Hf; [|destruct (bool_decide ("unknown" ∈ statuses)) eqn:Hu; cbn [orb];
    [|destruct (bool_decide ("skipped" ∈ statuses)) eqn:Hk]].
  - split; [done|]. intros Hall. apply Hs in Hf as (c0 & Hc & Hst). rewrite Hall in Hst; done.
  - split; [done|]. intros Hall. apply bool_decide_eq_true, Hs in Hu as (c0 & Hc & Hst).
    rewrite Hall in Hst; done.
  - split; [done|]. intros Hall. apply bool_decide_eq_true, Hs in Hk as (c0 & Hc & Hst).
    rewrite Hall in Hst; done.
  - split; [|done]. intros _ c0 Hc. destruct (Hchecks c0 Hc) as [_ Hst].
    apply bool_decide_eq_false in Hu, Hk. rewrite Hs in Hf, Hu, Hk.
    assert (Hno : ∀ st, PlatformPermissionCheck.status c0 = st → (∃ c, c ∈ checks ∧ PlatformPermissionCheck.status c = st))
      by (intros st <-; by exists c0).
    repeat (apply elem_of_cons in Hst as [Hst|Hst]; [first [exact Hst|exfalso; eauto]|]).
    by apply elem_of_nil in Hst.
Qed.

Section health.
Context `{PlatformHttp} `{DiagnosticsHttp}.
Abbreviation repository := PlatformPermissionDiagnosticRequest.repo_full_name.
Abbreviation health d := (PlatformPermissionDiagnosticResponse.status d).

Definition probe (service path token : string) : HttpRequest.t :=
  HttpRequest.mk service "GET" path [] (Some token) None.

(** The repository and the pull request were both read, the headers being those of the
    repository. *)
Definition both_read (service path pull token : string) (sent : list HttpRequest.t)
    (headers : list (string * string)) (content : string) : Prop :=
  diagnostic_exchange sent (probe service path token) = Reply 200 headers content ∧
  ∃ headers' content',
    diagnostic_exchange (sent ++ [probe service path token]) (probe service pull token)
      = Reply 200 headers' content'.

(** Everything the service needs of GitHub was seen to be granted. *)
Definition github_verified (payload : Payload) (s : Session) : Prop :=
  let path := quoted_path (repository payload) in
  ∃ token permissions number headers content,
    github_token (sent s) (repository payload) = inl (Some token) ∧ token ≠ "" ∧
    github_permissions (sent s) (repository payload) = inl permissions ∧
    PlatformPermissionDiagnosticRequest.pull_request_number payload = Some number ∧
    both_read "github" ("/repos/" +:+ path) ("/repos/" +:+ path +:+ "/pulls/" +:+ str_int number) token
      (sent s) headers content ∧
    match permissions with
    | Some app =>
        permission app "contents" ∈ [Some "read"; Some "write"] ∧
        permission app "issues" = Some "write" ∧ permission app "pull_requests" = Some "write"
    | None => token_may_write (_header_list headers "x-oauth-scopes")
    end.

(** ... and of GitLab. *)
Definition gitlab_verified (payload : Payload) (s : Session) : Prop :=
  let path := _quoted (repository payload) in
  ∃ token number headers content,
    gitlab_token = Some token ∧ token ≠ "" ∧
    PlatformPermissionDiagnosticRequest.pull_request_number payload = Some number ∧
    both_read "gitlab" ("/projects/" +:+ path)
      ("/projects/" +:+ path +:+ "/merge_requests/" +:+ str_int number) token (sent s) headers content ∧
    gitlab_may_write (_header_list headers "x-oauth-scopes")
      (_gitlab_access_level (jget (_json_object content) "permissions")).

Abbreviation proper c := (PlatformPermissionCheck.required c = true ∧
  PlatformPermissionCheck.status c ∈ ["passed"; "failed"; "unknown"; "skipped"]).

Lemma check_proper name status message :
  status ∈ ["passed"; "failed"; "unknown"; "skipped"] → proper (check name status message).
Proof. done. Qed.
Lemma granted_proper name verified otherwise yes no :
  otherwise ∈ ["failed"; "unknown"] → proper (granted name verified otherwise yes no).
Proof.
  intros Ho. unfold granted. destruct verified; apply check_proper; [set_solver|].
  repeat (apply elem_of_cons in Ho as [->|Ho]; [set_solver|]). by apply elem_of_nil in Ho.
Qed.
Lemma read_check_proper name resource r : proper (_read_check name resource r).
Proof. destruct r as [|code h c]; [by apply check_proper; set_solver|]. cbn. destruct (code =? 200); apply check_proper; set_solver. Qed.

Lemma granted_passed name (verified : bool) otherwise yes no :
  otherwise ∈ ["failed"; "unknown"] →
  (PlatformPermissionCheck.status (granted name verified otherwise yes no) = "passed" ↔ verified).
Proof.
  intros Ho. unfold granted. destruct verified; cbn; [done|]. split; [|done]. intros ->.
  by repeat (apply elem_of_cons in Ho as [Ho|Ho]; [done|]); apply elem_of_nil in Ho.
Qed.
Lemma read_check_passed name resource r :
  PlatformPermissionCheck.status (_read_check name resource r) = "passed" ↔
  ∃ headers content, r = Reply 200 headers content.
Proof.
  destruct r as [|code h c]; cbn; [split; [done|by intros (? & ? & ?)]|].
  destruct (Z.eqb_spec code 200) as [->|Hne]; cbn; (split; [|done || (by intros (? & ? & [= -> _ _]))]); [|done].
  intros _. by exists h, c.
Qed.

Lemma or_none_Some o t : or_none o = Some t ↔ o = Some t ∧ t ≠ "".
Proof. destruct o as [[|c s]|]; cbn; split; naive_solver. Qed.

Lemma credentials_run repo s :
  github_credentials repo s =
    (Return (match github_token (sent s) repo, github_permissions (sent s) repo with
             | inl token, inl permissions => Some (token, permissions)
             | _, _ => None
             end), s).
Proof.
  unfold github_credentials, try_except, get_token, get_permissions.
  rewrite bind_run. unfold gets. rewrite bind_run. cbn [fst snd].
  destruct (github_token _ _); [|done]. cbn [mret M_ret]. rewrite bind_run. rewrite bind_run. cbn.
  by destruct (github_permissions _ _).
Qed.

Lemma pull_request_check_run payload resource service (path : Z → string) token s :
  ∃ pr s', pull_request_check payload resource (λ n, _safe_get service (path n) token) s
      = (Return pr, s') ∧ proper pr ∧
    (PlatformPermissionCheck.status pr = "passed" ↔
     ∃ number headers content,
       PlatformPermissionDiagnosticRequest.pull_request_number payload = Some number ∧
       diagnostic_exchange (sent s) (probe service (path number) token) = Reply 200 headers content).
Proof.
  unfold pull_request_check.
  destruct (PlatformPermissionDiagnosticRequest.pull_request_number payload) as [number|].
  - rewrite bind_run. cbn [_safe_get]. eexists _, _. split; [reflexivity|].
    split; [apply read_check_proper|]. rewrite read_check_passed. naive_solver.
  - eexists _, _. split; [reflexivity|]. split; [by apply check_proper; set_solver|].
    split; [done|naive_solver].
Qed.

Definition app_may (app : list (string * string)) : Prop :=
  permission app "contents" ∈ [Some "read"; Some "write"] ∧
  permission app "issues" = Some "write" ∧ permission app "pull_requests" = Some "write".

Lemma readable_proper message : proper (check "repository_read" "passed" message).
Proof. apply check_proper. set_solver. Qed.

(** The checks of an App installation, and of a token. *)
Lemma app_checks_healthy payload pr grants scopes role rate message :
  proper pr →
  (health (_response payload
     ([check "repository_read" "passed" message; contents_check grants; pr] ++ github_app_write_checks grants)
     true scopes role rate) = "healthy" ↔
   PlatformPermissionCheck.status pr = "passed" ∧ app_may grants).
Proof.
  intros Hpr. rewrite response_healthy.
  - unfold github_app_write_checks, contents_check, app_may. cbn [map app]. rewrite !Forall_cons, Forall_nil.
    rewrite !granted_passed by set_solver. rewrite !bool_decide_spec. naive_solver.
  - unfold github_app_write_checks, contents_check. cbn [map app].
    repeat (apply Forall_cons; split); try done; try (apply granted_proper; set_solver).
    apply readable_proper.
Qed.

Lemma token_checks_healthy payload pr oauth_scopes scopes role role' rate message :
  proper pr →
  (health (_response payload
     ([check "repository_read" "passed" message; pr] ++ github_token_write_checks oauth_scopes role)
     true scopes role' rate) = "healthy" ↔
   PlatformPermissionCheck.status pr = "passed" ∧ token_may_write oauth_scopes).
Proof.
  intros Hpr. rewrite response_healthy.
  - unfold github_token_write_checks. cbn [map app]. rewrite !Forall_cons, Forall_nil.
    rewrite !granted_passed by set_solver. naive_solver.
  - unfold github_token_write_checks. cbn [map app].
    repeat (apply Forall_cons; split); try done; try (apply granted_proper; set_solver).
    apply readable_proper.
Qed.

Lemma gitlab_checks_healthy payload mr verified scopes role rate message :
  proper mr →
  (health (_response payload
     ([check "repository_read" "passed" message; mr] ++ gitlab_write_checks verified)
     true scopes role rate) = "healthy" ↔
   PlatformPermissionCheck.status mr = "passed" ∧ verified).
Proof.
  intros Hmr. rewrite response_healthy.
  - unfold gitlab_write_checks. cbn [app]. rewrite !Forall_cons, Forall_nil.
    rewrite !granted_passed by set_solver. naive_solver.
  - unfold gitlab_write_checks. cbn [app].
    repeat (apply Forall_cons; split); try done; try (apply granted_proper; set_solver).
    apply readable_proper.
Qed.

(** A repository that was read or not. *)
Lemma get_run service path token s :
  _safe_get service path token s =
    (Return (diagnostic_exchange (sent s) (probe service path token)),
     s .[ sent := sent s ++ [probe service path token] ]).
Proof. done. Qed.

Lemma github_healthy payload s d s' :
  diagnose_github_permissions payload s = (Return d, s') →
  (health d = "healthy" ↔ github_verified payload s).
Proof.
  unfold diagnose_github_permissions, github_verified. rewrite bind_run, credentials_run.
  destruct (github_token (sent s) (repository payload)) as [token|] eqn:Ht;
    [|intros [= <- <-]; split; [done|naive_solver]].
  destruct (github_permissions (sent s) (repository payload)) as [permissions|] eqn:Hp;
    [|intros [= <- <-]; split; [done|naive_solver]].
  destruct (or_none token) as [t|] eqn:Hor.
  2:{ intros [= <- <-]. split; [done|]. intros (t & ? & ? & ? & ? & [= ->] & Hne & _).
      destruct t; done. }
  apply or_none_Some in Hor as [-> Hne]. rewrite bind_run, get_run.
  destruct (diagnostic_exchange (sent s) _) as [|code headers content] eqn:Hx.
  { intros [= <- <-]. split; [done|]. intros (? & ? & ? & ? & ? & [= ->] & _ & _ & _ & [Hy _] & _).
    unfold probe in *. congruence. }
  destruct (Z.eqb_spec code 200) as [->|Hcode]; cbn [negb].
  2:{ intros [= <- <-]. split; [done|]. intros (? & ? & ? & ? & ? & [= ->] & _ & _ & _ & [Hy _] & _).
      unfold probe in *. congruence. }
  cbv zeta. unfold diagnose_github_repository. rewrite bind_run.
  edestruct (pull_request_check_run payload "pull request" "github"
    (λ n, "/repos/" +:+ quoted_path (repository payload) +:+ "/pulls/" +:+ str_int n) t)
    as (pr & s1 & Hpr & Hproper & Hpassed).
  unfold _append_github_pr_check. rewrite Hpr. cbn [sent] in Hpassed.
  intros [= <- <-].
  transitivity (PlatformPermissionCheck.status pr = "passed" ∧
    match permissions with
    | Some grants => app_may grants
    | None => token_may_write (_header_list headers "x-oauth-scopes")
    end).
  { destruct permissions; [by apply app_checks_healthy|by apply token_checks_healthy]. }
  rewrite Hpassed. split.
  - intros [(number & h & c & Hn & Hx2) Hmay]. exists t, permissions, number, headers, content.
    split_and!; try done. split; [exact Hx|by exists h, c].
  - intros (t' & permissions' & number & headers' & content' & [= <-] & _ & [= <-] & Hn & [Hx' (h & c & Hx2)] & Hmay).
    rewrite Hx in Hx'. simplify_eq. split; [by exists number, h, c|exact Hmay].
Qed.

Lemma gitlab_healthy payload s d s' :
  diagnose_gitlab_permissions payload s = (Return d, s') →
  (health d = "healthy" ↔ gitlab_verified payload s).
Proof.
  unfold diagnose_gitlab_permissions, gitlab_verified.
  destruct (or_none gitlab_token) as [t|] eqn:Hor.
  2:{ intros [= <- <-]. split; [done|]. intros (t & ? & ? & ? & Ht & Hne & _).
      assert (or_none gitlab_token = Some t) by by apply or_none_Some. congruence. }
  apply or_none_Some in Hor as [Ht Hne]. rewrite bind_run, get_run.
  destruct (diagnostic_exchange (sent s) _) as [|code headers content] eqn:Hx.
  { intros [= <- <-]. split; [done|]. intros (? & ? & ? & ? & Ht' & _ & _ & [Hy _] & _).
    unfold probe in *. congruence. }
  destruct (Z.eqb_spec code 200) as [->|Hcode]; cbn [negb].
  2:{ intros [= <- <-]. split; [done|]. intros (? & ? & ? & ? & Ht' & _ & _ & [Hy _] & _).
      unfold probe in *. congruence. }
  cbv zeta. rewrite bind_run.
  edestruct (pull_request_check_run payload "merge request" "gitlab"
    (λ n, "/projects/" +:+ _quoted (repository payload) +:+ "/merge_requests/" +:+ str_int n) t)
    as (mr & s1 & Hmr & Hproper & Hpassed).
  unfold _append_gitlab_mr_check. rewrite Hmr. cbn [sent] in Hpassed. intros [= <- <-].
  etrans; [by apply gitlab_checks_healthy|]. rewrite Hpassed. split.
  - intros [(number & h & c & Hn & Hx2) Hmay]. exists t, number, headers, content.
    split_and!; try done. split; [exact Hx|by exists h, c].
  - intros (t' & number & headers' & content' & Ht' & _ & Hn & [Hx' (h & c & Hx2)] & Hmay).
    rewrite Ht in Ht'. injection Ht' as <-. rewrite Hx in Hx'. simplify_eq.
    split; [by exists number, h, c|exact Hmay].
Qed.

(** C34: a platform is reported healthy exactly when everything the service needs was seen to be
    granted: the repository and the pull request were both read with the configured
    credential; and for GitHub the App installation grants reading contents and writing
    issues and pull requests, or the token reports a scope that permits comments; for GitLab
    the token reports the api scope or at least the role of a developer.  Without a pull
    request to read, or where a grant cannot be seen, the report is never healthy. *)
Theorem health_is_earned payload s d s' :
  (diagnose_github_permissions payload s = (Return d, s') →
   (health d = "healthy" ↔ github_verified payload s)) ∧
  (diagnose_gitlab_permissions payload s = (Return d, s') →
   (health d = "healthy" ↔ gitlab_verified payload s)).
Proof.
  split; [apply github_healthy|apply gitlab_healthy].
Qed.
End health.

(** ** On concrete answers *)

Definition diagnosed_platform : PlatformHttp := {|
  http_exchange _ _ := RequestError "unused";
  parse_json _ := Some (JObj [("permissions", JObj [("push", JBool true)])]);
  validate_comment _ := Raise (ValueError "unused");
  github_token _ _ := inl (Some "tok");
  github_static_token := Some "tok";
  gitlab_token := None;
  page_limit := 1
|}.

(** A platform that reports the given scopes, or grants. *)
Definition answers (scopes : string) (grants : option (list (string * string))) : DiagnosticsHttp := {|
  diagnostic_exchange _ _ := Reply 200 [("X-OAuth-Scopes", scopes); ("X-RateLimit-Remaining", "41")] "{}";
  github_permissions _ _ := inl grants
|}.

Definition asked_about (number : option Z) : Payload :=
  PlatformPermissionDiagnosticRequest.mk "github" "octo/app" number.

Definition nothing_yet : Session := mkSession empty_db empty_db 0 0 [] [].

Abbreviation diagnosis scopes grants number :=
  (diagnose_github_permissions (H := diagnosed_platform) (H0 := answers scopes grants)
     (asked_about number)).
Definition summary (o : outcome Diagnosis) : string * list string :=
  match o with
  | Return d => (PlatformPermissionDiagnosticResponse.status d,
                 map PlatformPermissionCheck.status (PlatformPermissionDiagnosticResponse.checks d))
  | Raise _ => ("", [])
  end.

Example diagnoses :
  summary (result (diagnosis "repo, workflow" None (Some 7)) nothing_yet) =
    ("healthy", ["passed"; "passed"; "passed"; "passed"]) ∧
  summary (result (diagnosis "" None (Some 7)) nothing_yet) =
    ("degraded", ["passed"; "passed"; "unknown"; "unknown"]) ∧
  summary (result (diagnosis "" (Some [("contents", "read"); ("issues", "write")]) (Some 7)) nothing_yet) =
    ("failed", ["passed"; "passed"; "passed"; "passed"; "failed"]).
Proof. vm_compute. split_and!; reflexivity. Qed.

Lemma health_is_earned_witness :
  ∃ d, result (diagnosis "repo, workflow" None (Some 7)) nothing_yet = Return d ∧
    PlatformPermissionDiagnosticResponse.status d = "healthy" ∧
    github_verified (H := diagnosed_platform) (H0 := answers "repo, workflow" None)
      (asked_about (Some 7)) nothing_yet.
Proof.
  destruct (result (diagnosis "repo, workflow" None (Some 7)) nothing_yet) as [d|e] eqn:Hd;
    [|exfalso; revert Hd; vm_compute; discriminate].
  exists d. split; [reflexivity|].
  assert (Hs : PlatformPermissionDiagnosticResponse.status d = "healthy")
    by (revert Hd; vm_compute; by intros [= <-]).
  split; [exact Hs|].
  pose proof (proj1 (health_is_earned (H := diagnosed_platform) (H0 := answers "repo, workflow" None)
    (asked_about (Some 7)) nothing_yet d _) (run_result _ _ _ Hd)) as Hiff.
  exact (proj1 Hiff Hs).
Defined.
