(* ===== verification/PermissionCheck.v ===== *)
(** * The permission check from outside

    Model of [src/scripts/check_platform_permissions.py], the command that asks a deployed
    service to diagnose the permissions of a provider and turns the answer into an exit code.
    The connection and the JSON library are the class [CheckLibrary]; the arguments arrive as
    the argument parser leaves them. *)
From Stdlib Require Import Ascii.
From S2P Require Import Prelude PyText Json SchedulerAdmin ProviderCore PlatformWebhooks PlatformDiagnostics Schemas.
#[global] Open Scope Z_scope.
#[global] Open Scope orch_scope.

Definition EXIT_HEALTHY : Z := 0.
Definition EXIT_DEGRADED : Z := 1.
Definition EXIT_FAILED : Z := 2.
Definition EXIT_REQUEST_ERROR : Z := 3.

(** [^[a-z0-9][a-z0-9_-]{0,63}$]. *)
Definition PROVIDER_KEY_PATTERN (value : string) : bool :=
  provider_pattern value && (Z.of_nat (String.length value) <=? 64).

(** The type of [--provider]: the parser reports the error and exits. *)
Definition provider_key (value : string) : outcome string :=
  let normalized := py_lower (py_strip value) in
  if PROVIDER_KEY_PATTERN normalized then Return normalized
  else Raise (ValueError "provider must match ^[a-z0-9][a-z0-9_-]{0,63}$").

(** The parsed arguments; the time limit in microseconds. *)
Module Args.
Record t := mk {
  base_url : string;
  provider : string;
  repository : string;
  pull_request : option Z;
  timeout : Z;
  json : bool
}.
End Args.

Module Request.
Record t := mk { url : string; headers : list (string * string); data : json }.
End Request.

Inductive urlopen_result :=
  | Opened (content : string)
  | HTTPError (code : Z)
  | URLError (reason : string)
  | TimeoutError (message : string)
  | OtherFailure (e : exn).

Inductive loads_result :=
  | Parsed (value : json)
  | JSONDecodeError (message : string)
  | UnicodeDecodeError (message : string).

Class CheckLibrary := {
  urlopen : Request.t → Z → urlopen_result;
  loads : string → loads_result;
  (** [json.dumps(value, indent=2, sort_keys=True)] *)
  dumps_pretty : json → string;
  (** [REVIEW_PROXY_TOKEN] *)
  operator_token : option string
}.

(** A line printed on one of the two streams. *)
Inductive line := StdOut (text : string) | StdErr (text : string).

Section check.
Context `{CheckLibrary}.

Abbreviation CM := (M (list line)).
Definition print (l : line) : CM () := puts (λ printed, printed ++ [l]).
Definition request_error (message : string) : CM Z :=
  print (StdErr ("error: " +:+ message)) ;; mret EXIT_REQUEST_ERROR.

Definition check_payload (args : Args.t) : json :=
  JObj ([("provider", JStr (Args.provider args)); ("repo_full_name", JStr (Args.repository args))] ++
        match Args.pull_request args with
        | Some number => [("pull_request_number", JInt number)]
        | None => []
        end).

Definition check_request (args : Args.t) : Request.t :=
  Request.mk (rstrip_by (λ c, char_eqb c "/") (Args.base_url args)
                +:+ "/api/v1/diagnostics/platform-permissions")
    ([("Accept", "application/json"); ("Content-Type", "application/json");
      ("User-Agent", "review-orchestrator-permission-check/1.0")] ++
     match or_none operator_token with Some token => [("X-Review-Token", token)] | None => [] end)
    (check_payload args).

(** [", ".join(value)] of a JSON value: text by character, an object by key. *)
Definition join_json (value : json) : outcome string :=
  match value with
  | JStr s => Return (py_join ", " (map (λ c, String c "") (String.list_ascii_of_string s)))
  | JObj fields => Return (py_join ", " fields.*1)
  | JList items =>
      texts ← outcome_concat
        (λ item, match item with
                 | JStr s => Return [s]
                 | _ => Raise (TypeError "sequence item: expected str instance")
                 end) items;
      mret (py_join ", " texts)
  | _ => Raise (TypeError "can only join an iterable")
  end.

(** What [for check in value] goes through; the characters of a text and the keys of an object
    are no objects, so they are left out. *)
Definition listed_checks (value : json) : outcome (list json) :=
  match value with
  | JList items => Return items
  | JStr _ | JObj _ => Return []
  | _ => Raise (TypeError "object is not iterable")
  end.

Definition field_or (result : json) (key fallback : string) : string :=
  match jget result key with Some value => py_str value | None => fallback end.

Definition print_check (check : json) : CM () :=
  match check with
  | JObj _ =>
      print (StdOut ("  [" +:+ py_upper (field_or check "status" "unknown") +:+ "] "
        +:+ field_or check "name" "-" +:+ ": " +:+ field_or check "message" ""))
  | _ => mret tt
  end.

Definition print_human_summary (result : json) : CM () :=
  print (StdOut ("Provider: " +:+ field_or result "provider" "-")) ;;
  print (StdOut ("Repository: " +:+ field_or result "repo_full_name" "-")) ;;
  print (StdOut ("Status: " +:+ py_upper (field_or result "status" ""))) ;;
  print (StdOut ("Token configured: " +:+ field_or result "token_configured" "False")) ;;
  when (json_truthy (get_json result "repository_role"))
    (print (StdOut ("Repository role: " +:+ field_or result "repository_role" ""))) ;;
  when (json_truthy (get_json result "reported_scopes"))
    (scopes ← lift (join_json (get_json result "reported_scopes"));
     print (StdOut ("Reported scopes: " +:+ scopes))) ;;
  when (match get_json result "rate_limit_remaining" with JNull => false | _ => true end)
    (print (StdOut ("Rate limit remaining: " +:+ field_or result "rate_limit_remaining" ""))) ;;
  print (StdOut "Checks:") ;;
  checks ← lift (listed_checks (default (JList []) (jget result "checks")));
  for_each checks print_check.

(** The exit code of a status, if it is one of the contract.  Asking whether a list or an object
    is in a set raises. *)
Definition exit_code_of (status : option json) : outcome (option Z) :=
  match status with
  | Some (JStr "healthy") => Return (Some EXIT_HEALTHY)
  | Some (JStr "degraded") => Return (Some EXIT_DEGRADED)
  | Some (JStr "failed") => Return (Some EXIT_FAILED)
  | Some (JList _) => Raise (TypeError "unhashable type: 'list'")
  | Some (JObj _) => Raise (TypeError "unhashable type: 'dict'")
  | _ => Return None
  end.

Definition print_result (args : Args.t) (result : json) : CM () :=
  if Args.json args then print (StdOut (dumps_pretty result)) else print_human_summary result.

(** [main] after a reply. *)
Definition report (args : Args.t) (result : json) : CM Z :=
  let mismatch := request_error "response does not match the diagnostic contract" in
  match result with
  | JObj _ =>
      known ← lift (exit_code_of (jget result "status"));
      match known with
      | None => mismatch
      | Some code =>
          print_result args result ;; mret code
      end
  | _ => mismatch
  end.

Definition main (args : Args.t) : CM Z :=
  if bool_decide (is_Some (Args.pull_request args)) && negb (positive (Args.pull_request args)) then
    request_error "--pull-request must be greater than zero"
  else if Args.timeout args <=? 0 then request_error "--timeout must be greater than zero"
  else
    match urlopen (check_request args) (Args.timeout args) with
    | HTTPError code => request_error ("diagnostic endpoint returned HTTP " +:+ str_int code)
    | URLError reason => request_error ("cannot reach diagnostic endpoint: " +:+ reason)
    | OtherFailure e => raise e
    | TimeoutError message => request_error ("invalid diagnostic response: " +:+ message)
    | Opened content =>
        match loads content with
        | JSONDecodeError message => request_error ("invalid diagnostic response: " +:+ message)
        | UnicodeDecodeError message => raise (ValueError message)
        | Parsed result => report args result
        end
    end.

(** [raise SystemExit(main())]: a process that ends with an exception exits with 1. *)
Definition exit_code (args : Args.t) : Z :=
  match result (main args) [] with Return code => code | Raise _ => 1 end.
End check.

(** ** What the exit code tells *)

Section promises.
Context `{CheckLibrary}.

(** A result whose summary can be printed. *)
Definition printable (result : json) : Prop :=
  (json_truthy (get_json result "reported_scopes") = true →
   ∃ text, join_json (get_json result "reported_scopes") = Return text) ∧
  ∃ checks, listed_checks (default (JList []) (jget result "checks")) = Return checks.

(** What the arguments must satisfy for a request to be sent. *)
Definition sendable (args : Args.t) : bool :=
  positive (Args.pull_request args) && (0 <? Args.timeout args).

(** The reply to the request, read. *)
Definition replied (args : Args.t) (reply : json) : Prop :=
  ∃ content, urlopen (check_request args) (Args.timeout args) = Opened content ∧
             loads content = Parsed reply.

Definition returns {A} (m : M (list line) A) : Prop := ∀ s, ∃ a, result m s = Return a.

Lemma returns_ret {A} (a : A) : returns (mret a).
Proof. intros s. by exists a. Qed.
Lemma returns_print l : returns (print l).
Proof. intros s. by exists (). Qed.
Lemma returns_bind {A B} (m : M (list line) A) (k : A → M (list line) B) :
  returns m → (∀ a, returns (k a)) → returns (m ≫= k).
Proof.
  intros Hm Hk s. destruct (Hm s) as [a Ha]. unfold result in *. rewrite bind_run.
  destruct (m s) as [[a'|e] s']; [|done]. apply Hk.
Qed.
Lemma returns_when b (m : M (list line) ()) : (b = true → returns m) → returns (when b m).
Proof. intros Hm. destruct b; [by apply Hm|apply returns_ret]. Qed.
Lemma returns_lift {A} (o : outcome A) a : o = Return a → returns (lift o).
Proof. intros -> s. by exists a. Qed.
Lemma returns_for_each {A} (l : list A) (body : A → M (list line) ()) :
  (∀ x, returns (body x)) → returns (for_each l body).
Proof. intros Hb. induction l as [|x l IH]; [apply returns_ret|]. by apply returns_bind. Qed.

Lemma summary_returns result : printable result → returns (print_human_summary result).
Proof.
  intros [Hscopes [checks Hchecks]]. unfold print_human_summary.
  do 4 (apply returns_bind; [apply returns_print|intros _]).
  apply returns_bind; [apply returns_when; intros; apply returns_print|intros _].
  apply returns_bind.
  { apply returns_when. intros [text Ht]%Hscopes.
    apply returns_bind; [by eapply returns_lift|intros scopes; apply returns_print]. }
  intros _. apply returns_bind; [apply returns_when; intros; apply returns_print|intros _].
  apply returns_bind; [apply returns_print|intros _].
  apply returns_bind; [by eapply returns_lift|]. intros found. apply returns_for_each.
  intros check. unfold print_check. destruct check; first [apply returns_ret|apply returns_print].
Qed.

(** *** The codes *)

Lemma request_error_code message s : result (request_error message) s = Return EXIT_REQUEST_ERROR.
Proof. done. Qed.

Lemma exit_code_healthy status : exit_code_of status = Return (Some EXIT_HEALTHY) → status = Some (JStr "healthy").
Proof.
  unfold exit_code_of. intros Hc. repeat case_match; simplify_eq; done.
Qed.

Lemma report_code args reply s code :
  result (report args reply) s = Return code →
  code = EXIT_REQUEST_ERROR ∨
  ∃ fields, reply = JObj fields ∧ exit_code_of (jget reply "status") = Return (Some code).
Proof.
  unfold report. destruct reply as [| | | | |fields]; try (intros [= <-]; by left).
  unfold result. rewrite bind_run. unfold lift.
  destruct (exit_code_of _) as [[known|]|e] eqn:He; [|intros [= <-]; by left|done].
  rewrite bind_run. destruct (print_result args _ s) as [[u|e] s']; [|done].
  intros [= <-]. right. by exists fields.
Qed.

Lemma report_returns args fields code s :
  exit_code_of (jget (JObj fields) "status") = Return (Some code) →
  Args.json args = true ∨ printable (JObj fields) →
  result (report args (JObj fields)) s = Return code.
Proof.
  intros He Hp. unfold report, result. rewrite bind_run. unfold lift at 1. rewrite He, bind_run.
  assert (Hr : returns (print_result args (JObj fields))).
  { unfold print_result. destruct (Args.json args); [apply returns_print|].
    destruct Hp as [|Hp]; [done|]. by apply summary_returns. }
  destruct (Hr s) as [u Hu]. unfold result in Hu.
  destruct (print_result args (JObj fields) s) as [o s']. cbn in Hu. by subst o.
Qed.

Lemma main_sendable args :
  (bool_decide (is_Some (Args.pull_request args)) && negb (positive (Args.pull_request args)) = false ∧
   (Args.timeout args <=? 0) = false) ↔ sendable args = true.
Proof.
  unfold sendable. destruct (Args.pull_request args) as [n|]; cbn [positive].
  - rewrite bool_decide_true by eauto. cbn. rewrite andb_true_iff, negb_false_iff, Z.leb_gt, Z.ltb_lt. lia.
  - rewrite bool_decide_false by (by intros []). cbn. rewrite Z.leb_gt, Z.ltb_lt. tauto.
Qed.

(** The command exits with 0 exactly when its arguments are in bounds and the service answered
    its request with a JSON object whose status is "healthy" - if, unless JSON is printed, the
    answer can be printed. *)
Theorem zero_means_healthy args :
  (∀ reply, replied args reply → Args.json args = true ∨ printable reply) →
  exit_code args = EXIT_HEALTHY ↔
  sendable args = true ∧
  ∃ fields, replied args (JObj fields) ∧ jget (JObj fields) "status" = Some (JStr "healthy").
Proof.
  intros Hprint. unfold exit_code, main. rewrite <- main_sendable. split.
  - destruct (bool_decide _ && _); [by rewrite request_error_code|].
    destruct (Args.timeout args <=? 0); [by rewrite request_error_code|]. intros Hcode. split; [done|].
    destruct (urlopen _ _) as [content| | | |] eqn:Hu; try done.
    destruct (loads content) as [reply| |] eqn:Hl; try done.
    destruct (result (report args reply) []) as [code|e] eqn:Hr; [|done]. subst code.
    destruct (report_code _ _ _ _ Hr) as [|(fields & -> & He)]; [done|].
    exists fields. split; [by exists content|]. by apply exit_code_healthy.
  - intros [[-> ->] (fields & (content & Hu & Hl) & Hs)]. rewrite Hu, Hl.
    rewrite (report_returns args fields EXIT_HEALTHY); [done| |].
    + by rewrite Hs.
    + apply Hprint. by exists content.
Qed.

(** *** The request *)

(** The request as the service reads it. *)
Definition payload_of (args : Args.t) : Payload :=
  PlatformPermissionDiagnosticRequest.mk (Args.provider args) (Args.repository args)
    (Args.pull_request args).

Lemma provider_pattern_nonempty value : provider_pattern value = true → 1 ≤ Z.of_nat (String.length value).
Proof. destruct value; [done|]. cbn [String.length]. lia. Qed.

(** What the command sends is refused by the schema of the service for its repository only. *)
Lemma only_the_repository_can_be_refused args value :
  provider_key value = Return (Args.provider args) → sendable args = true →
  PlatformPermissionDiagnosticRequest_valid (payload_of args)
  = text_bounds 3 512 (Args.repository args) && repository_pattern (Args.repository args)
    && validate_repository_path (Args.repository args).
Proof.
  unfold provider_key, sendable. intros Hkey [Hnumber _]%andb_true_iff.
  destruct (PROVIDER_KEY_PATTERN _) eqn:Hp; [|done]. injection Hkey as Hkey. rewrite Hkey in Hp.
  apply andb_true_iff in Hp as [Hpattern Hlen]. pose proof (provider_pattern_nonempty _ Hpattern).
  assert (Hbounds : text_bounds 1 64 (Args.provider args) = true)
    by (unfold text_bounds; cbn [text_within]; rewrite Hlen, andb_true_r; by apply Z.leb_le).
  unfold PlatformPermissionDiagnosticRequest_valid, payload_of.
  cbn [PlatformPermissionDiagnosticRequest.provider PlatformPermissionDiagnosticRequest.repo_full_name
       PlatformPermissionDiagnosticRequest.pull_request_number].
  by rewrite Hbounds, Hpattern, Hnumber, !andb_true_r.
Qed.
End promises.

(** ** On concrete replies *)

Definition demo_check (reply : urlopen_result) (value : loads_result) : CheckLibrary := {|
  urlopen _ _ := reply;
  loads _ := value;
  dumps_pretty _ := "{...}";
  operator_token := None
|}.

Definition demo_args : Args.t := Args.mk "http://localhost:8000/" "github" "octo/app" (Some 7) 15000000 false.

Definition reply_with (status : json) : json :=
  JObj [("provider", JStr "github"); ("status", status); ("reported_scopes", JList [JStr "repo"; JStr "user"]);
        ("checks", JList [JObj [("name", JStr "pull_request"); ("status", JStr "passed")]])].

Lemma zero_means_healthy_witness :
  let c := demo_check (Opened "") (Parsed (reply_with (JStr "healthy"))) in
  exit_code (H := c) demo_args = EXIT_HEALTHY.
Proof.
  intros c. apply (zero_means_healthy (H := c) demo_args).
  - intros reply (content & _ & Hl). right. injection Hl as <-.
    split; [intros _; eexists; vm_compute; reflexivity|]. eexists. vm_compute. reflexivity.
  - split; [reflexivity|]. eexists. split; [exists ""; split; reflexivity|reflexivity].
Defined.

Example summary_is_printed :
  let c := demo_check (Opened "") (Parsed (reply_with (JStr "degraded"))) in
  main (H := c) demo_args [] =
    (Return EXIT_DEGRADED,
     [StdOut "Provider: github"; StdOut "Repository: -"; StdOut "Status: DEGRADED";
      StdOut "Token configured: False"; StdOut "Reported scopes: repo, user"; StdOut "Checks:";
      StdOut "  [PASSED] pull_request: "]).
Proof. vm_compute. reflexivity. Qed.

(** A reply outside the contract is reported with 3, but one whose status is a list, or that is no
    text, ends the process with an exception, whose exit code means "degraded". *)
Example broken_replies_look_degraded :
  map (λ value, exit_code (H := demo_check (Opened "") value) demo_args)
    [Parsed (JList []); Parsed (reply_with (JStr "fine")); Parsed (reply_with (JList []));
     UnicodeDecodeError "invalid start byte"; JSONDecodeError "Expecting value"]
  = [EXIT_REQUEST_ERROR; EXIT_REQUEST_ERROR; EXIT_DEGRADED; EXIT_DEGRADED; EXIT_REQUEST_ERROR].
Proof. vm_compute. reflexivity. Qed.
