(* ===== verification/Startup.v ===== *)
(** * Starting and stopping the processes

    Model of what the two processes of the program do around their work: [create_app] of
    [src/src/review_orchestrator/presentation/main.py] and [run_worker] of
    [application/worker_cli.py] create the engine, migrate the database, build the registry of
    providers from the settings ([integrations/provider_plugins.py], [create_github_client] of
    [integrations/github.py] and [GitHubAppTokenProvider] of [integrations/github_auth.py]),
    work, and close what they opened.  Files, the client libraries and the work itself are the
    class [Deployment]. *)
From Stdlib Require Import Ascii.
From S2P Require Import Prelude PyText Json Registry Migrations.
#[global] Open Scope Z_scope.
#[global] Open Scope orch_scope.

Module Settings.
Record t := mk {
  database_url : string;
  providers_enabled : string;
  github_app_id : option string;
  github_private_key_path : option string;
  github_installation_id : option Z;
  github_installation_token : option string;
  github_api_base_url : string
}.
End Settings.

Class Deployment := {
  (** [Path(path).read_text(encoding="utf-8")] *)
  read_text : string → outcome string;
  (** signing a first token with the App's identifier and its private key *)
  app_auth : string → string → outcome ();
  (** the installed plugins by the name of their entry point *)
  entry_points : list (string * outcome ProviderPlugin.t);
  create_async_engine : string → outcome ();
  (** [init_models] *)
  migrate : outcome ();
  (** what the process does between its start and its end *)
  work : Registry.t → outcome ();
  (** closing the client of a provider, and the engine *)
  close_client : string → outcome ();
  dispose_engine : outcome ()
}.

(** ** Clients from the settings *)

Inductive TokenProvider :=
  | StaticGitHubTokenProvider (token : option string)
  | GitHubAppTokenProvider (app_id private_key base_url : string) (installation_id : option Z).

Section clients.
Context `{Deployment}.

(** The constructor of [GitHubAppTokenProvider]. *)
Definition github_app_token_provider (app_id private_key_path api_base_url : string)
    (installation_id : option Z) : outcome TokenProvider :=
  match read_text private_key_path with
  | Raise (OSError _) =>
      Raise (GitHubAuthenticationError
        ("Unable to read GitHub App private key: " +:+ private_key_path))
  | Raise e => Raise e
  | Return private_key =>
      match app_auth app_id private_key with
      | Raise _ =>
          Raise (GitHubAuthenticationError
            ("Unable to create a GitHub App JWT; check GITHUB_APP_ID and the " +:+
             "private key PEM."))
      | Return _ =>
          Return (GitHubAppTokenProvider app_id private_key
            (rstrip_by (λ c, char_eqb c "/") api_base_url) installation_id)
      end
  end.

(** The token provider of the client that is created. *)
Definition create_github_client (settings : Settings.t) : outcome TokenProvider :=
  match or_none (Settings.github_app_id settings),
        or_none (Settings.github_private_key_path settings) with
  | Some app_id, Some private_key_path =>
      github_app_token_provider app_id private_key_path (Settings.github_api_base_url settings)
        (Settings.github_installation_id settings)
  | None, None => Return (StaticGitHubTokenProvider (Settings.github_installation_token settings))
  | _, _ =>
      Raise (GitHubAuthenticationError
        "GITHUB_APP_ID and GITHUB_PRIVATE_KEY_PATH must be configured together.")
  end.

(** [GitHubProviderPlugin.build] and [GitLabProviderPlugin.build]: a client that was injected is
    not closed by the registry. *)
Definition github_build (settings : Settings.t) (injected : bool) : outcome ProviderRuntime.t :=
  _ ← (if injected then Return tt else _ ← create_github_client settings; mret tt);
  provider_runtime (Some github_adapter) None
    (Some (ProviderDescriptor.mk "github" "github" "GitHub")) (negb injected).

Definition gitlab_build (injected : bool) : outcome ProviderRuntime.t :=
  provider_runtime (Some gitlab_adapter) None
    (Some (ProviderDescriptor.mk "gitlab" "gitlab" "GitLab")) (negb injected).

Definition builtin_provider_plugins (settings : Settings.t) (injected : string → bool)
    : list ProviderPlugin.t :=
  [ProviderPlugin.mk "github" (github_build settings (injected "github"));
   ProviderPlugin.mk "gitlab" (gitlab_build (injected "gitlab"))].

(** The plugins of the selected entry points, each under its own name. *)
Definition discover_provider_plugins (enabled : list string) : outcome (list ProviderPlugin.t) :=
  outcome_concat
    (λ entry_point,
      let name := py_lower entry_point.1 in
      if negb (bool_decide (name ∈ enabled)) then Return []
      else
        plugin ← entry_point.2;
        if bool_decide (py_lower (ProviderPlugin.provider plugin) = name) then mret [plugin]
        else
          Raise (ValueError ("Provider entry point " +:+ repr_string entry_point.1 +:+
            " loaded plugin " +:+ repr_string (ProviderPlugin.provider plugin) +:+
            "; the keys must match.")))
    entry_points.

(** [create_provider_registry(settings)]. *)
Definition configured_registry (settings : Settings.t) : outcome Registry.t :=
  let providers_enabled := Settings.providers_enabled settings in
  discovered ← discover_provider_plugins (enabled_provider_keys providers_enabled);
  create_provider_registry providers_enabled
    (builtin_provider_plugins settings (λ _, false) ++ discovered).
End clients.

(** ** A process *)

(** What is kept of a process: what it did that others can see. *)
Inductive event :=
  | EngineCreated
  | Migrated
  | RegistryCreated
  | Worked
  | ClientClosed (key : string)
  | EngineDisposed.
#[export] Instance event_eq_dec : EqDecision event.
Proof. solve_decision. Defined.

(** The variable [provider_registry], and the events so far. *)
Module Process.
Record t := mk { provider_registry : option Registry.t; events : list event }.
#[global] Instance eta : Eta t := λ p, mk (provider_registry p) (events p).
End Process.

Definition new_process : Process.t := Process.mk None [].

Section process.
Context `{Deployment}.
Context (settings : Settings.t).

Abbreviation PM := (M Process.t).

Definition did (e : event) : PM () :=
  puts (λ p, p .[ Process.events := Process.events p ++ [e] ]).

Definition create_engine : PM () :=
  lift (create_async_engine (normalize_database_url (Settings.database_url settings))) ;;
  did EngineCreated.

Definition init_database : PM () := lift migrate ;; did Migrated.

Definition open_registry : PM () :=
  registry ← lift (configured_registry settings);
  puts (λ p, p .[ Process.provider_registry := Some registry ]) ;;
  did RegistryCreated.

Definition do_work : PM () :=
  registry ← gets Process.provider_registry;
  match registry with
  | Some registry => lift (work registry) ;; did Worked
  | None => raise (AssertionError "")
  end.

(** [if provider_registry is not None: await provider_registry.aclose()]. *)
Definition close_registry : PM () :=
  opened ← gets Process.provider_registry;
  match opened with
  | None => mret tt
  | Some registry =>
      let '(called, closed, _) := aclose close_client registry in
      puts (λ p, p .[ Process.events := Process.events p ++ map ClientClosed called ]) ;;
      lift closed
  end.

Definition close_engine : PM () := did EngineDisposed ;; lift dispose_engine.

(** The [finally] of both processes. *)
Definition shut_down : PM () := finally close_registry close_engine.

(** [lifespan] of [create_app]. *)
Definition lifespan : PM () :=
  create_engine ;;
  finally (open_registry ;; init_database ;; do_work) shut_down.

(** [run_worker], which creates the registry after the migrations. *)
Definition worker_lifespan : PM () :=
  create_engine ;;
  finally (init_database ;; open_registry ;; do_work) shut_down.
End process.

(** ** What was opened is closed *)

Definition closed_clients (l : list event) : list string :=
  omap (λ e, match e with ClientClosed key => Some key | _ => None end) l.

(** The providers whose client the registry owns. *)
Definition owned (r : Registry.t) : list string :=
  (filter (λ kr, ProviderRuntime.close kr.2) (Registry.runtimes r)).*1.

Lemma filter_reverse {A} (P : A → Prop) `{∀ x, Decision (P x)} (l : list A) :
  filter P (reverse l) = reverse (filter P l).
Proof.
  induction l as [|x l IH]; [done|]. rewrite reverse_cons, filter_app, IH, !filter_cons, filter_nil.
  case_decide; [by rewrite reverse_cons|by rewrite app_nil_r].
Qed.

Lemma close_all_called close l :
  (∀ key, close key = Return tt) →
  close_all close l = ((filter (λ kr, ProviderRuntime.close kr.2) l).*1, Return tt).
Proof.
  intros Hc. induction l as [|[key runtime] l IH]; cbn [close_all]; [done|].
  rewrite filter_cons. cbn [snd].
  destruct (ProviderRuntime.close runtime); case_decide as Hd; try done. by rewrite Hc, IH.
Qed.

Lemma closed_calls l : closed_clients (map ClientClosed l) = l.
Proof. unfold closed_clients. induction l as [|k l IH]; [done|]. cbn. by f_equal. Qed.

Section shutdown.
Context `{Deployment} (settings : Settings.t).

(** The orders in which the two processes start. *)
Inductive starts : M Process.t () → Prop :=
  | service_starts : starts (lifespan settings)
  | worker_starts : starts (worker_lifespan settings).

(** What the end of a process adds to what it did, given the registry it had opened. *)
Definition ending (opened : option Registry.t) : list event :=
  match opened with
  | Some registry => map ClientClosed (aclose close_client registry).1.1
  | None => []
  end ++ [EngineDisposed].

Lemma close_engine_run p :
  Process.events (exec close_engine p) = Process.events p ++ [EngineDisposed].
Proof. unfold exec, close_engine, did, lift. rewrite bind_run. cbn. by destruct dispose_engine. Qed.
Lemma close_registry_run p :
  Process.events (exec close_registry p) =
  Process.events p ++ match Process.provider_registry p with
                      | Some registry => map ClientClosed (aclose close_client registry).1.1
                      | None => []
                      end.
Proof.
  unfold exec, close_registry. rewrite bind_run. cbn.
  destruct (Process.provider_registry p) as [registry|]; [|by rewrite app_nil_r].
  by destruct (aclose close_client registry) as [[called closed] r].
Qed.
Lemma shut_down_run p :
  Process.events (exec shut_down p)
  = Process.events p ++ ending (Process.provider_registry p).
Proof.
  unfold shut_down, ending. by rewrite exec_finally, close_engine_run, close_registry_run, app_assoc.
Qed.

(** What a process does between the engine and the end, by what fails. *)
Inductive middle : list event → option Registry.t → Prop :=
  | nothing_done : middle [] None
  | only_migrated : middle [Migrated] None
  | only_registry r : configured_registry settings = Return r → middle [RegistryCreated] (Some r)
  | both l r w :
      configured_registry settings = Return r →
      l ∈ [[RegistryCreated; Migrated]; [Migrated; RegistryCreated]] → w ∈ [[]; [Worked]] →
      middle (l ++ w) (Some r).

Definition engine_made : Process.t := Process.mk None [EngineCreated].

Ltac run_process := cbn; repeat (rewrite bind_run; cbn).

Lemma service_middle :
  ∃ l opened, middle l opened ∧
    exec (open_registry settings ;; init_database ;; do_work) engine_made
    = Process.mk opened (EngineCreated :: l).
Proof.
  unfold exec, open_registry, init_database, do_work, did, lift, engine_made. run_process.
  destruct (configured_registry settings) as [r|x] eqn:Hr; run_process; [|by exists [], None; split; [constructor|]].
  destruct migrate as [[]|x]; run_process; [|by exists [RegistryCreated], (Some r); split; [constructor|]].
  destruct (work r) as [[]|x]; run_process.
  - exists ([RegistryCreated; Migrated] ++ [Worked]), (Some r). split; [|done]. constructor; [done|set_solver..].
  - exists ([RegistryCreated; Migrated] ++ []), (Some r). split; [|done]. constructor; [done|set_solver..].
Qed.

Lemma worker_middle :
  ∃ l opened, middle l opened ∧
    exec (init_database ;; open_registry settings ;; do_work) engine_made
    = Process.mk opened (EngineCreated :: l).
Proof.
  unfold exec, open_registry, init_database, do_work, did, lift, engine_made. run_process.
  destruct migrate as [[]|x]; run_process; [|by exists [], None; split; [constructor|]].
  destruct (configured_registry settings) as [r|x] eqn:Hr; run_process;
    [|by exists [Migrated], None; split; [constructor|]].
  destruct (work r) as [[]|x]; run_process.
  - exists ([Migrated; RegistryCreated] ++ [Worked]), (Some r). split; [|done]. constructor; [done|set_solver..].
  - exists ([Migrated; RegistryCreated] ++ []), (Some r). split; [|done]. constructor; [done|set_solver..].
Qed.

(** A process that cannot make its engine does nothing else. *)
Lemma engine_first (body : M Process.t ()) :
  exec (create_engine settings ;; finally body shut_down) new_process = new_process ∨
  exec (create_engine settings ;; finally body shut_down) new_process
    = exec shut_down (exec body engine_made).
Proof.
  rewrite <- exec_finally. unfold exec, create_engine, did, lift.
  destruct (create_async_engine _) as [[]|x]; [right|left]; run_process; done.
Qed.

Lemma process_ran start :
  starts start →
  let e := Process.events (exec start new_process) in
  e = [] ∨ ∃ l opened, middle l opened ∧ e = EngineCreated :: l ++ ending opened.
Proof.
  intros Hstart. cbv zeta.
  assert (Hbody : ∃ body, start = (create_engine settings ;; finally body shut_down) ∧
    ∃ l opened, middle l opened ∧ exec body engine_made = Process.mk opened (EngineCreated :: l)).
  { destruct Hstart; eexists; (split; [done|apply service_middle || apply worker_middle]). }
  destruct Hbody as (body & -> & l & opened & Hl & Hb).
  destruct (engine_first body) as [->| ->]; [by left|right].
  exists l, opened. split; [done|]. by rewrite Hb, shut_down_run.
Qed.

(** *** What a process did, piece by piece *)

Lemma middle_plain l opened : middle l opened →
  EngineCreated ∉ l ∧ EngineDisposed ∉ l ∧ closed_clients l = [] ∧
  (Worked ∈ l → Migrated ∈ l ∧ RegistryCreated ∈ l) ∧
  (opened = None ↔ RegistryCreated ∉ l) ∧
  (∀ r, opened = Some r → configured_registry settings = Return r).
Proof.
  intros Hl. destruct Hl as [| |r Hr|l r w Hr Hl Hw].
  1-3: split_and!; try (intros; simplify_eq); try set_solver; done.
  apply list_elem_of_In in Hl, Hw. destruct Hl as [<-|[<-|[]]], Hw as [<-|[<-|[]]];
    (split_and!; try (intros; simplify_eq); try set_solver; done).
Qed.

Lemma closed_ending opened :
  closed_clients (ending opened) = match opened with
                                   | Some r => (aclose close_client r).1.1
                                   | None => []
                                   end.
Proof.
  unfold ending, closed_clients. rewrite omap_app. cbn. rewrite app_nil_r.
  destruct opened; [apply closed_calls|done].
Qed.
End shutdown.

(** ** The registry *)

Lemma close_all_prefix close l :
  (close_all close l).1 `prefix_of` (filter (λ kr, ProviderRuntime.close kr.2) l).*1.
Proof.
  induction l as [|[key runtime] l IH]; cbn [close_all]; [done|]. rewrite filter_cons. cbn [snd].
  destruct (ProviderRuntime.close runtime); case_decide as Hd; try done.
  destruct (close key); [|by apply prefix_cons, prefix_nil].
  destruct (close_all close l) as [called o]. by apply prefix_cons.
Qed.

(** The key a runtime is registered under. *)
Definition runtime_key (runtime : ProviderRuntime.t) : outcome string :=
  _provider_key (ProviderRuntime.provider runtime).

Lemma register_runtime_spec r runtime r' :
  _register_runtime r runtime = Return r' →
  ∃ key, runtime_key runtime = Return key ∧ get_runtime r key = None ∧
    r' = Registry.mk (Registry.runtimes r ++ [(key, runtime)]) (Registry.closed r).
Proof.
  unfold _register_runtime, runtime_key. intros (key & Hkey & Hr)%outcome_bind_Return.
  case_bool_decide as Hnew; [done|]. destruct (negb _); [done|]. injection Hr as <-.
  exists key. split; [done|]. split; [|done]. by apply eq_None_not_Some.
Qed.

Lemma register_all_spec runtimes : ∀ r r',
  register_all r runtimes = Return r' →
  ∃ keys, Forall2 (λ key runtime, runtime_key runtime = Return key) keys runtimes ∧
    r' = Registry.mk (Registry.runtimes r ++ zip keys runtimes) (Registry.closed r).
Proof.
  induction runtimes as [|runtime runtimes IH]; intros r r'; cbn [register_all].
  - intros [= <-]. exists []. split; [constructor|]. rewrite app_nil_r. by destruct r.
  - intros (r1 & (key & Hkey & _ & ->)%register_runtime_spec & (keys & Hkeys & ->)%IH)%outcome_bind_Return.
    exists (key :: keys). split; [by constructor|]. cbn. by rewrite <- app_assoc.
Qed.

Lemma created_registry providers_enabled plugins r :
  create_provider_registry providers_enabled plugins = Return r →
  ∃ catalog runtimes keys, plugin_catalog [] plugins = Return catalog ∧
    Forall2 (λ key runtime, ∃ plugin, find_plugin key catalog = Some plugin ∧
               ProviderPlugin.build plugin = Return runtime)
      (enabled_provider_keys providers_enabled) runtimes ∧
    Forall2 (λ key runtime, runtime_key runtime = Return key) keys runtimes ∧
    r = Registry.mk (zip keys runtimes) false.
Proof.
  unfold create_provider_registry. intros (catalog & Hcat & Hr)%outcome_bind_Return.
  destruct (filter _ _) as [|u unknown] eqn:Hu; [|done].
  apply outcome_bind_Return in Hr as (runtimes & Hrt & (keys & Hkeys & ->)%register_all_spec).
  exists catalog, runtimes, keys. split_and!; try done. clear Hkeys.
  revert runtimes Hrt Hu. induction (enabled_provider_keys providers_enabled) as [|key l IH];
    intros runtimes; cbn [outcome_concat]; [intros [= <-] _; constructor|].
  rewrite filter_cons. case_decide as Hk; [done|]. intros Hrt Hu.
  apply outcome_bind_Return in Hrt as (ys & Hy & (zs & Hz & [= <-])%outcome_bind_Return).
  destruct (find_plugin key catalog) as [plugin|] eqn:Hf; [|done].
  apply outcome_bind_Return in Hy as (runtime & Hb & [= <-]).
  constructor; [by exists plugin|by apply IH].
Qed.

Definition plugin_key (plugin : ProviderPlugin.t) : string := py_lower (ProviderPlugin.provider plugin).

Lemma plugin_catalog_spec plugins : ∀ catalog catalog',
  plugin_catalog catalog plugins = Return catalog' →
  catalog' = catalog ++ map (λ plugin, (plugin_key plugin, plugin)) plugins.
Proof.
  induction plugins as [|plugin plugins IH]; intros catalog catalog'; cbn [plugin_catalog map].
  - intros [= <-]. by rewrite app_nil_r.
  - case_bool_decide; [done|]. intros ->%IH. by rewrite <- app_assoc.
Qed.

Lemma find_plugin_Some key catalog plugin :
  find_plugin key catalog = Some plugin → (key, plugin) ∈ catalog.
Proof.
  unfold find_plugin. destruct (filter _ catalog) as [|[k p] l] eqn:Hf; [done|]. intros [= <-].
  assert (Hin : (k, p) ∈ filter (λ kp : string * ProviderPlugin.t, kp.1 = key) catalog)
    by (rewrite Hf; set_solver).
  apply list_elem_of_filter in Hin as [Hk Hin]. cbn in Hk. by subst k.
Qed.

(** A plugin builds a provider with the plugin's key. *)
Definition honest (plugin : ProviderPlugin.t) : Prop :=
  ∀ runtime, ProviderPlugin.build plugin = Return runtime →
             runtime_key runtime = Return (plugin_key plugin).

Lemma unique_keys_NoDup l : NoDup (unique_keys l).
Proof.
  induction l as [|k l IH]; cbn [unique_keys]; constructor.
  - intros [Hk _]%list_elem_of_filter. done.
  - by apply NoDup_filter.
Qed.

Section registry.
Context `{Deployment}.

Lemma builtin_honest settings injected plugin :
  plugin ∈ builtin_provider_plugins settings injected → honest plugin.
Proof.
  intros Hin runtime. unfold builtin_provider_plugins in Hin.
  rewrite !elem_of_cons in Hin. destruct Hin as [->|[->|Hin]]; [| |by apply not_elem_of_nil in Hin];
    cbn [ProviderPlugin.build]; unfold github_build, gitlab_build.
  - intros (u & _ & [= <-])%outcome_bind_Return. done.
  - by intros [= <-].
Qed.

Lemma built_keys catalog enabled runtimes keys :
  (∀ key plugin, (key, plugin) ∈ catalog → key = plugin_key plugin ∧ honest plugin) →
  Forall2 (λ key runtime, ∃ plugin, find_plugin key catalog = Some plugin ∧
             ProviderPlugin.build plugin = Return runtime) enabled runtimes →
  Forall2 (λ key runtime, runtime_key runtime = Return key) keys runtimes →
  keys = enabled.
Proof.
  intros Hcat Hbuilt. revert keys.
  induction Hbuilt as [|key runtime l rts (plugin & Hf & Hb) _ IH]; intros keys Hkeys.
  - by inversion Hkeys.
  - inversion Hkeys as [|key' ? keys' ? Hk Hrest]; subst. f_equal; [|by apply IH].
    apply find_plugin_Some, Hcat in Hf as [-> Hp]. apply Hp in Hb. congruence.
Qed.

Lemma configured_registry_open settings r :
  configured_registry settings = Return r → Registry.closed r = false.
Proof.
  unfold configured_registry.
  by intros (discovered & _ & (c & rt & k & _ & _ & _ & ->)%created_registry)%outcome_bind_Return.
Qed.

(** The registry a process starts with has exactly the enabled providers, each once, in the
    order the setting names them, whether they are built in or installed as plugins that
    build the provider they are named after. *)
Theorem registry_has_the_enabled_providers settings r :
  (∀ discovered plugin,
     discover_provider_plugins (enabled_provider_keys (Settings.providers_enabled settings))
       = Return discovered → plugin ∈ discovered → honest plugin) →
  configured_registry settings = Return r →
  (Registry.runtimes r).*1 = enabled_provider_keys (Settings.providers_enabled settings) ∧
  NoDup (Registry.runtimes r).*1 ∧
  Forall (λ kr, runtime_key kr.2 = Return kr.1) (Registry.runtimes r).
Proof.
  intros Hhon. unfold configured_registry.
  intros (discovered & Hd & (catalog & runtimes & keys & Hcat & Hbuilt & Hkeys & ->)%created_registry)%outcome_bind_Return.
  apply plugin_catalog_spec in Hcat as ->. cbn [app Registry.runtimes].
  assert (Hen : keys = enabled_provider_keys (Settings.providers_enabled settings)).
  { eapply built_keys; [|done..]. intros key plugin (p & [= -> ->] & Hin)%list_elem_of_fmap.
    split; [done|]. apply elem_of_app in Hin as [Hin|Hin]; [by eapply builtin_honest|by eapply Hhon]. }
  rewrite fst_zip by (rewrite (Forall2_length _ _ _ Hkeys); done). split; [done|]. split.
  - rewrite Hen. apply unique_keys_NoDup.
  - clear -Hkeys. induction Hkeys as [|key runtime keys runtimes Hk _ IH]; [constructor|].
    by constructor.
Qed.
(** *** Providers that are not enabled *)

(** Two plugins that differ in how GitHub is built at most. *)
Definition alike (p q : ProviderPlugin.t) : Prop :=
  ProviderPlugin.provider p = ProviderPlugin.provider q ∧
  (plugin_key p ≠ "github" → p = q).
Definition entries_alike (a b : string * ProviderPlugin.t) : Prop :=
  a.1 = b.1 ∧ (a.1 ≠ "github" → a = b).

Lemma find_plugin_alike key c d :
  Forall2 entries_alike c d →
  (is_Some (find_plugin key c) ↔ is_Some (find_plugin key d)) ∧
  (key ≠ "github" → find_plugin key c = find_plugin key d).
Proof.
  induction 1 as [|[k p] [k' q] c d [Hk Hp] _ IH]; [done|]. cbn in Hk, Hp. subst k'.
  unfold find_plugin in *. rewrite !filter_cons. cbn [fst].
  destruct (decide (k = key)) as [->|].
  - cbn. split; [by split; intros _; eexists|]. intros Hne. by injection (Hp Hne) as ->.
  - exact IH.
Qed.

Lemma plugin_catalog_alike ps qs : Forall2 alike ps qs → ∀ c d,
  Forall2 entries_alike c d →
  match plugin_catalog c ps, plugin_catalog d qs with
  | Return c', Return d' => Forall2 entries_alike c' d'
  | Raise e, Raise e' => e = e'
  | _, _ => False
  end.
Proof.
  induction 1 as [|p q ps qs [Hkey Hpq] _ IH]; intros c d Hcd; cbn [plugin_catalog]; [done|].
  rewrite <- Hkey. destruct (find_plugin_alike (py_lower (ProviderPlugin.provider p)) c d Hcd) as [Hsome _].
  destruct (decide (is_Some (find_plugin (py_lower (ProviderPlugin.provider p)) c))) as [Hs|Hs].
  { by rewrite !bool_decide_true by (done || by apply Hsome). }
  rewrite !bool_decide_false by (done || by rewrite <- Hsome). apply IH, Forall2_app; [done|]. constructor; [|constructor]. split; [done|]. cbn. intros Hne.
  by rewrite (Hpq Hne).
Qed.

Lemma outcome_concat_agree {A B} (f g : A → outcome (list B)) l :
  (∀ x, x ∈ l → f x = g x) → outcome_concat f l = outcome_concat g l.
Proof.
  induction l as [|x l IH]; intros Hfg; cbn [outcome_concat]; [done|].
  by rewrite (Hfg x), IH by set_solver.
Qed.

Lemma create_registry_alike enabled ps qs :
  Forall2 alike ps qs → "github" ∉ enabled_provider_keys enabled →
  create_provider_registry enabled ps = create_provider_registry enabled qs.
Proof.
  intros Halike Hoff. unfold create_provider_registry.
  assert (Hnil : Forall2 entries_alike [] []) by constructor.
  pose proof (plugin_catalog_alike _ _ Halike [] [] Hnil) as Hcat.
  destruct (plugin_catalog [] ps) as [c|e], (plugin_catalog [] qs) as [d|e']; [|done|done|by subst e'].
  assert (Hfind : ∀ key, key ∈ enabled_provider_keys enabled → find_plugin key c = find_plugin key d).
  { intros key Hin. destruct (find_plugin_alike key c d Hcat) as [_ Hsame]. apply Hsame. by intros ->. }
  unfold mbind, outcome_bind.
  rewrite (filter_agree _ (λ key, find_plugin key d = None)) by (intros key Hin; by rewrite Hfind).
  destruct (filter _ _); [|done]. erewrite outcome_concat_agree; [done|].
  intros key Hin. cbn. by rewrite Hfind.
Qed.

(** What GitHub is configured with is not looked at, let alone checked, unless GitHub is enabled. *)
Lemma disabled_github_is_not_configured s s' :
  Settings.providers_enabled s = Settings.providers_enabled s' →
  "github" ∉ enabled_provider_keys (Settings.providers_enabled s) →
  configured_registry s = configured_registry s'.
Proof.
  intros He Hoff. unfold configured_registry. rewrite <- He.
  destruct (discover_provider_plugins _) as [discovered|]; [|done].
  apply create_registry_alike; [|done].
  apply Forall2_app; [|by apply Forall_Forall2_diag, Forall_true; intros].
  repeat constructor. by intros [].
Qed.

(** A GitHub App of which only a part is configured, or whose key cannot be read or used. *)
Definition unusable (s : Settings.t) : Prop := ∀ client, create_github_client s ≠ Return client.

Lemma unusable_github_is_told s r :
  unusable s → "github" ∈ enabled_provider_keys (Settings.providers_enabled s) →
  configured_registry s ≠ Return r.
Proof.
  intros Hun Hon. unfold configured_registry.
  intros (discovered & Hd & (catalog & runtimes & keys & Hcat & Hbuilt & _ & _)%created_registry)%outcome_bind_Return.
  apply list_elem_of_lookup in Hon as [i Hi].
  destruct (Forall2_lookup_l _ _ _ _ _ Hbuilt Hi) as (runtime & _ & plugin & Hf & Hb).
  apply plugin_catalog_spec in Hcat as ->.
  change (Some (ProviderPlugin.mk "github" (github_build s false)) = Some plugin) in Hf.
  injection Hf as <-. cbn [ProviderPlugin.build] in Hb. unfold github_build in Hb.
  apply outcome_bind_Return in Hb as (u & Hu & _).
  apply outcome_bind_Return in Hu as (client & Hc & _). by destruct (Hun client).
Qed.
End registry.

(** ** The two processes *)

Section processes.
Context `{Deployment} (settings : Settings.t).

Lemma aclose_calls r :
  Registry.closed r = false →
  (aclose close_client r).1.1 `prefix_of` reverse (owned r) ∧
  ((∀ key, close_client key = Return tt) → (aclose close_client r).1.1 = reverse (owned r)).
Proof.
  intros Hopen. unfold aclose, owned. rewrite Hopen. cbn [fst snd].
  rewrite <- fmap_reverse, <- filter_reverse. split; [apply close_all_prefix|].
  intros Hc. by rewrite close_all_called.
Qed.

(** C40: the service and the worker close what they opened, wherever they fail - in reading the
    settings, in the migrations, at work or in closing: the engine is disposed of once and last;
    in between the clients of the registry are closed, from the last provider to the first and
    all of them unless closing one fails; nothing is closed that was not opened.  The work
    begins only when the database is migrated and every enabled provider was built, so not with
    credentials of GitHub that cannot be used. *)
Theorem processes_close_what_they_open start :
  starts settings start →
  let e := Process.events (exec start new_process) in
  e = [] ∨
  ∃ l closed, e = EngineCreated :: l ++ map ClientClosed closed ++ [EngineDisposed] ∧
    EngineCreated ∉ l ∧ EngineDisposed ∉ l ∧ closed_clients l = [] ∧
    (Worked ∈ l → Migrated ∈ l ∧ RegistryCreated ∈ l) ∧
    (RegistryCreated ∉ l → closed = []) ∧
    (RegistryCreated ∈ l → ∃ r, configured_registry settings = Return r ∧
       closed `prefix_of` reverse (owned r) ∧
       ((∀ key, close_client key = Return tt) → closed = reverse (owned r))) ∧
    (unusable settings → "github" ∈ enabled_provider_keys (Settings.providers_enabled settings) →
     Worked ∉ l).
Proof.
  intros Hstart. cbv zeta. destruct (process_ran settings start Hstart) as [|(l & opened & Hl & ->)];
    [by left|right].
  exists l, (match opened with Some r => (aclose close_client r).1.1 | None => [] end).
  destruct (middle_plain settings l opened Hl) as (Hc & Hd & Hcl & Hw & Hreg & Hr).
  split; [unfold ending; by destruct opened|]. split_and!; try done.
  - by intros ->%Hreg.
  - intros Hin. destruct opened as [r|]; [|by destruct (proj1 Hreg eq_refl)].
    specialize (Hr r eq_refl). exists r. split; [done|]. apply aclose_calls.
    by eapply configured_registry_open.
  - intros Hun Hon [_ Hin]%Hw. destruct opened as [r|]; [|by destruct (proj1 Hreg eq_refl)].
    by apply (unusable_github_is_told settings r Hun Hon), Hr.
Qed.
End processes.

(** ** On concrete settings *)

Definition demo_settings : Settings.t :=
  Settings.mk "sqlite:///reviews.db" " GitLab, github,,gitlab" (Some "7") (Some "app.pem") None None
    "https://api.github.com/".

(** A machine on which everything works but the migrations, perhaps. *)
Definition demo_deployment (migrated : outcome ()) (key_file : outcome string) : Deployment := {|
  read_text _ := key_file;
  app_auth _ _ := Return tt;
  entry_points := [("Acme", Raise (OtherError "not selected"))];
  create_async_engine _ := Return tt;
  migrate := migrated;
  work _ := Return tt;
  close_client _ := Return tt;
  dispose_engine := Return tt
|}.

Abbreviation good_key := (Return "-----BEGIN").

Lemma processes_close_what_they_open_witness :
  let d := demo_deployment (Raise (OtherError "locked")) good_key in
  starts (H := d) demo_settings (lifespan (H := d) demo_settings) ∧
  Process.events (exec (lifespan (H := d) demo_settings) new_process)
    = [EngineCreated; RegistryCreated; ClientClosed "github"; ClientClosed "gitlab"; EngineDisposed] ∧
  ∃ l closed, Process.events (exec (lifespan (H := d) demo_settings) new_process)
                = EngineCreated :: l ++ map ClientClosed closed ++ [EngineDisposed].
Proof.
  intros d. split; [constructor|]. split; [vm_compute; reflexivity|].
  destruct (processes_close_what_they_open (H := d) demo_settings (lifespan (H := d) demo_settings)
    (service_starts (H := d) demo_settings)) as [He|(l & closed & He & _)].
  - vm_compute in He. discriminate He.
  - exists l, closed. exact He.
Defined.

Lemma registry_has_the_enabled_providers_witness :
  let d := demo_deployment (Return tt) good_key in
  ∃ r, configured_registry (H := d) demo_settings = Return r ∧
       (Registry.runtimes r).*1 = ["gitlab"; "github"].
Proof.
  intros d. destruct (configured_registry (H := d) demo_settings) as [r|e] eqn:Hr;
    [|vm_compute in Hr; discriminate Hr].
  exists r. split; [reflexivity|].
  destruct (registry_has_the_enabled_providers (H := d) demo_settings r) as [Hk _].
  - intros discovered plugin Hd Hin. vm_compute in Hd. injection Hd as <-.
    by apply not_elem_of_nil in Hin.
  - exact Hr.
  - rewrite Hk. vm_compute. reflexivity.
Defined.

(** Half of the credentials of a GitHub App: the service does not start, the worker neither. *)
Example half_an_app_does_not_start :
  let d := demo_deployment (Return tt) good_key in
  let s := Settings.mk "sqlite:///reviews.db" "github" (Some "7") None None None "" in
  (λ start, let '(o, p) := start new_process in (o, Process.events p)) <$>
    [lifespan (H := d) s; worker_lifespan (H := d) s]
  = [(Raise (GitHubAuthenticationError
        "GITHUB_APP_ID and GITHUB_PRIVATE_KEY_PATH must be configured together."),
      [EngineCreated; EngineDisposed]);
     (Raise (GitHubAuthenticationError
        "GITHUB_APP_ID and GITHUB_PRIVATE_KEY_PATH must be configured together."),
      [EngineCreated; Migrated; EngineDisposed])].
Proof. vm_compute. reflexivity. Qed.

(** A key file that is no UTF-8 text, a DER file say, is not told as what it is: the exception
    of decoding it is a [ValueError] and passes the handlers of the constructor. *)
Example binary_key_is_not_an_authentication_error :
  let d := demo_deployment (Return tt) (Raise (ValueError "invalid start byte")) in
  create_github_client (H := d) demo_settings = Raise (ValueError "invalid start byte").
Proof. vm_compute. reflexivity. Qed.
