(* ===== verification/GitHubAuth.v ===== *)
(** * Authentication with GitHub

    Model of [src/src/review_orchestrator/integrations/github_auth.py]: a provider of tokens
    that resolves repositories to installations of a GitHub App and keeps what it resolved.
    GitHub, reached through its client library, is the class [GitHubApp]; each question is
    asked at an instant, the number of questions before it.  The lock around the caches makes
    each access atomic. *)
From Stdlib Require Import Ascii.
From S2P Require Import Prelude PyText Json.
#[global] Open Scope Z_scope.
#[global] Open Scope orch_scope.

(** [AppInstallationAuth]: the object that fetches and refreshes the token of an installation,
    and when it was made. *)
Module InstallationAuth.
Record t := mk { installation_id : Z; made_at : nat }.
End InstallationAuth.

Class GitHubApp := {
  (** the installation of the App for a repository *)
  get_installation : nat → string → string → option Z;
  (** the token such an object gives *)
  auth_token : nat → InstallationAuth.t → option string;
  (** the permissions of an installation *)
  get_app_installation : nat → Z → option json
}.

(** The caches of [GitHubAppTokenProvider], and the number of questions asked. *)
Module TokenCache.
Record t := mk {
  installation_ids : gmap string Z;
  installation_auth : gmap Z InstallationAuth.t;
  asked : nat
}.
#[global] Instance eta : Eta t := λ c, mk (installation_ids c) (installation_auth c) (asked c).
End TokenCache.

Definition new_cache : TokenCache.t := TokenCache.mk ∅ ∅ 0.

(** [get_token] and [get_permissions] of [StaticGitHubTokenProvider]. *)
Definition static_token (token : option string) (repo_full_name : string) : option string := token.
Definition static_permissions (repo_full_name : string) : option (list (string * string)) := None.

(** The permissions that are names of levels. *)
Definition _installation_permission_map (permissions : json) : list (string * string) :=
  match permissions with
  | JObj fields => omap (λ kv, match kv.2 with JStr level => Some (kv.1, level) | _ => None end) fields
  | _ => []
  end.

Section app.
Context `{GitHubApp}.
(** The installation the App is pinned to, if any. *)
Context (default_installation_id : option Z).

Abbreviation AM := (M TokenCache.t).

Definition ask {A} (question : nat → option A) : AM A := λ c,
  (match question (TokenCache.asked c) with
   | Some answer => Return answer
   | None => Raise (OtherError "GithubException")
   end, c .[ TokenCache.asked := S (TokenCache.asked c) ]).

(** [except Exception as exc: raise GitHubAuthenticationError(...)]. *)
Definition or_authentication_error {A} (m : AM A) (message : string) : AM A :=
  try_except m (λ _, raise (GitHubAuthenticationError message)).

Definition normalized (repo_full_name : string) : string := py_lower (py_strip repo_full_name).

Definition _token_for_installation (installation_id : Z) : AM string :=
  cached ← gets (λ c, TokenCache.installation_auth c !! installation_id);
  auth ← (match cached with
          | Some auth => mret auth
          | None =>
              made_at ← gets TokenCache.asked;
              let auth := InstallationAuth.mk installation_id made_at in
              puts (λ c, c .[ TokenCache.installation_auth :=
                                <[installation_id := auth]> (TokenCache.installation_auth c) ]) ;;
              mret auth
          end);
  ask (λ n, auth_token n auth).

Definition _installation_id (repo_full_name : string) : AM Z :=
  match default_installation_id with
  | Some id => mret id
  | None =>
      let key := normalized repo_full_name in
      cached ← gets (λ c, TokenCache.installation_ids c !! key);
      match cached with
      | Some id => mret id
      | None =>
          let '(owner, separator, repo) := py_partition "/" repo_full_name in
          if negb separator || bool_decide (owner = "") || bool_decide (repo = "") then
            raise (GitHubAuthenticationError ("Invalid GitHub repository name: " +:+ repo_full_name))
          else
            id ← or_authentication_error (ask (λ n, get_installation n owner repo))
                   ("Unable to resolve GitHub App installation for " +:+ repo_full_name +:+ ".");
            puts (λ c, c .[ TokenCache.installation_ids := <[key := id]> (TokenCache.installation_ids c) ]) ;;
            mret id
      end
  end.

(** What is known of a repository and its installation is forgotten. *)
Definition forget (repo_full_name : string) (installation_id : Z) (c : TokenCache.t) : TokenCache.t :=
  c .[ TokenCache.installation_ids := delete (normalized repo_full_name) (TokenCache.installation_ids c) ]
    .[ TokenCache.installation_auth := delete installation_id (TokenCache.installation_auth c) ].

Definition app_token (repo_full_name : string) : AM string :=
  installation_id ← _installation_id repo_full_name;
  try_except (_token_for_installation installation_id)
    (λ _, match default_installation_id with
          | Some _ =>
              raise (GitHubAuthenticationError
                ("Unable to obtain a GitHub App token for installation " +:+ str_int installation_id +:+ "."))
          | None =>
              puts (forget repo_full_name installation_id) ;;
              replacement_id ← _installation_id repo_full_name;
              or_authentication_error (_token_for_installation replacement_id)
                ("Unable to obtain a GitHub App token for repository " +:+ repo_full_name +:+ ".")
          end).

Definition app_permissions (repo_full_name : string) : AM (list (string * string)) :=
  installation_id ← _installation_id repo_full_name;
  installation ← or_authentication_error (ask (λ n, get_app_installation n installation_id))
    ("Unable to read GitHub App permissions for installation " +:+ str_int installation_id +:+ ".");
  mret (_installation_permission_map installation).
End app.
