(* ===== verification/GitHubAuthTheorems.v ===== *)
(** * The tokens of a GitHub App

    Fetching a token is bounded, fails in one way only, and survives the App being
    installed anew. *)
From Stdlib Require Import Ascii.
From S2P Require Import Prelude PyText Json GitHubAuth.
#[global] Open Scope Z_scope.
#[global] Open Scope orch_scope.

Section app.
Context `{GitHubApp} (pinned : option Z).
Abbreviation questions := TokenCache.asked.

(** Every cached object belongs to the installation it is filed under. *)
Definition coherent (c : TokenCache.t) : Prop :=
  map_Forall (λ id a, InstallationAuth.installation_id a = id) (TokenCache.installation_auth c).

(** A token that some object of an installation gave between two instants. *)
Definition given (n n' : nat) (id : Z) (token : string) : Prop :=
  ∃ i a, (n ≤ i < n')%nat ∧ InstallationAuth.installation_id a = id ∧ auth_token i a = Some token.

Definition answer {A} (o : option A) : outcome A :=
  match o with Some x => Return x | None => Raise (OtherError "GithubException") end.

(** Asking for the token of an installation is one question. *)
Lemma token_run id c :
  coherent c →
  ∃ a c', InstallationAuth.installation_id a = id ∧
    _token_for_installation id c = (answer (auth_token (questions c) a), c') ∧
    questions c' = S (questions c) ∧ coherent c' ∧
    TokenCache.installation_ids c' = TokenCache.installation_ids c.
Proof.
  intros Hc. unfold _token_for_installation. rewrite bind_run. cbn [gets].
  destruct (TokenCache.installation_auth c !! id) as [a|] eqn:Ha.
  - exists a. eexists. split; [by apply (Hc id)|]. split; [reflexivity|]. by split_and!.
  - set (a := InstallationAuth.mk id (questions c)). exists a. eexists. split; [done|].
    split; [reflexivity|]. split_and!; [done| |done].
    unfold coherent. simpl. by apply map_Forall_insert_2.
Qed.

Definition pieces (repo : string) (owner name : string) : Prop :=
  py_partition "/" repo = (owner, true, name) ∧ owner ≠ "" ∧ name ≠ "".

(** Resolving a repository is at most one question. *)
Lemma resolve_run repo c :
  coherent c →
  ∃ o c', _installation_id pinned repo c = (o, c') ∧ coherent c' ∧
    TokenCache.installation_auth c' = TokenCache.installation_auth c ∧
    (questions c ≤ questions c' ≤ S (questions c))%nat ∧
    match o with
    | Raise e => ∃ message, e = GitHubAuthenticationError message
    | Return id => pinned = Some id ∨
        pinned = None ∧ TokenCache.installation_ids c' !! normalized repo = Some id
    end ∧
    (∀ owner name id, pinned = None → TokenCache.installation_ids c !! normalized repo = None →
       pieces repo owner name → get_installation (questions c) owner name = Some id → o = Return id).
Proof.
  intros Hc. unfold _installation_id. destruct pinned as [id|].
  { exists (Return id), c. split_and!; try done; [lia..|by left]. }
  rewrite bind_run. cbn [gets].
  destruct (TokenCache.installation_ids c !! normalized repo) as [id|] eqn:Hid.
  { exists (Return id), c. split_and!; try done; [lia..|by right]. }
  destruct (py_partition "/" repo) as [[owner separator] name] eqn:Hp.
  destruct (negb separator || bool_decide (owner = "") || bool_decide (name = "")) eqn:Hinvalid.
  { eexists _, c. split; [reflexivity|]. split_and!; try done; [lia..|by eexists|].
    intros owner' name' id' _ _ (Hp' & Ho & Hn) _. rewrite Hp in Hp'. injection Hp' as -> -> ->.
    cbn in Hinvalid. by rewrite !bool_decide_false in Hinvalid. }
  unfold or_authentication_error, try_except, ask. rewrite bind_run.
  destruct (get_installation (questions c) owner name) as [id|] eqn:Hi.
  - eexists _, _. split; [reflexivity|]. split_and!; try done; [simpl; lia..| |].
    + right. split; [done|]. apply lookup_insert_eq.
    + intros owner' name' id' _ _ (Hp' & _) Hi'. rewrite Hp in Hp'. injection Hp' as -> _ ->. congruence.
  - eexists _, _. split; [reflexivity|]. split_and!; try done; [simpl; lia..|by eexists|].
    intros owner' name' id' _ _ (Hp' & _) Hi'. rewrite Hp in Hp'. injection Hp' as -> _ ->. congruence.
Qed.

Lemma forget_coherent repo id c : coherent c → coherent (forget repo id c).
Proof. intros Hc. unfold coherent, forget. simpl. by apply map_Forall_delete. Qed.
Lemma forget_unknown repo id c : TokenCache.installation_ids (forget repo id c) !! normalized repo = None.
Proof. unfold forget. simpl. apply lookup_delete_eq. Qed.

(** The installation a token was fetched for. *)
Definition current (repo : string) (id : Z) (c : TokenCache.t) : Prop :=
  pinned = Some id ∨ pinned = None ∧ TokenCache.installation_ids c !! normalized repo = Some id.

(** The App is installed for a repository, and its tokens can be had, from some instant on. *)
Definition installed_from (n0 : nat) (repo : string) (id : Z) : Prop :=
  pinned = None ∧
  ∃ owner name, pieces repo owner name ∧
    (∀ n, (n0 ≤ n)%nat → get_installation n owner name = Some id) ∧
    (∀ n a, (n0 ≤ n)%nat → InstallationAuth.installation_id a = id → is_Some (auth_token n a)).

(** The second attempt, for a repository that is not cached. *)
Lemma second_attempt repo message c :
  coherent c → TokenCache.installation_ids c !! normalized repo = None →
  ∃ o c', (id ← _installation_id pinned repo;
           or_authentication_error (_token_for_installation id) message) c = (o, c') ∧
    coherent c' ∧ (questions c ≤ questions c' ≤ questions c + 2)%nat ∧
    match o with
    | Return token => ∃ id, given (questions c) (questions c') id token ∧ current repo id c'
    | Raise e => ∃ m, e = GitHubAuthenticationError m
    end ∧
    ((∃ n0 id, (n0 ≤ questions c)%nat ∧ installed_from n0 repo id) → ∃ token, o = Return token).
Proof.
  intros Hc Hnone. rewrite bind_run.
  destruct (resolve_run repo c Hc) as (o1 & c1 & -> & Hc1 & _ & Hq1 & Ho1 & Hfresh).
  destruct o1 as [id|e].
  - destruct (token_run id c1 Hc1) as (a & c2 & Ha & Hrun & Hq2 & Hc2 & Hids).
    unfold or_authentication_error, try_except. rewrite Hrun.
    destruct (auth_token (questions c1) a) as [token|] eqn:Ht; cbn [answer].
    + exists (Return token), c2. split_and!; try done; [lia..| |by exists token].
      exists id. split; [|unfold current; by rewrite Hids]. exists (questions c1), a. split_and!; try done; lia.
    + eexists _, c2. split_and!; try done; [lia..|by eexists|].
      intros (n0 & id' & Hn0 & Hp & owner & name & Hpieces & Hfind & Htok). exfalso.
      assert (Return id = Return id') as [= <-] by (apply (Hfresh owner name); auto).
      destruct (Htok (questions c1) a) as [? ?]; [lia|done|congruence].
  - exists (Raise e), c1. split_and!; try done; [lia..|].
    intros (n0 & id' & Hn0 & Hp & owner & name & Hpieces & Hfind & Htok). exfalso.
    assert (Raise e = Return id') by (apply (Hfresh owner name); auto). done.
Qed.

(** C35: the tokens of a GitHub App are fetched in at most four questions to GitHub, of which a
    failure leaves the caches coherent and is always the one exception the client expects.  A
    token was given, during the call, by an object of the installation the repository is then
    cached for, or the App is pinned to.  And the provider recovers: when the App was installed
    anew, whatever is cached of its former installation, the very next call succeeds. *)
Theorem tokens_recover repo c o c' :
  coherent c → app_token pinned repo c = (o, c') →
  coherent c' ∧ (questions c' ≤ questions c + 4)%nat ∧
  match o with
  | Return token => ∃ id, given (questions c) (questions c') id token ∧ current repo id c'
  | Raise e => ∃ m, e = GitHubAuthenticationError m
  end ∧
  ((∃ id, installed_from (questions c) repo id) → ∃ token, o = Return token).
Proof.
  intros Hc. unfold app_token. rewrite bind_run.
  destruct (resolve_run repo c Hc) as (o1 & c1 & Hrun1 & Hc1 & _ & Hq1 & Ho1 & Hfresh).
  rewrite Hrun1. destruct o1 as [id|e].
  - destruct (token_run id c1 Hc1) as (a & c2 & Ha & Hrun & Hq2 & Hc2 & Hids).
    unfold try_except at 1. rewrite Hrun.
    destruct (auth_token (questions c1) a) as [token|] eqn:Ht; cbn [answer].
    { intros [= <- <-]. split_and!; [done|lia| |by exists token].
      exists id. split; [|unfold current; by rewrite Hids]. exists (questions c1), a. split_and!; try done; lia. }
    destruct pinned as [k|] eqn:Hpin.
    { intros [= <- <-]. split_and!; [done|lia|by eexists|]. intros (id' & Hp & _). congruence. }
    rewrite <- Hpin. rewrite bind_run. cbn [puts].
    set (c3 := forget repo id c2).
    destruct (second_attempt repo ("Unable to obtain a GitHub App token for repository " +:+ repo +:+ ".") c3)
      as (o4 & c4 & Hrun4 & Hc4 & Hq4 & Ho4 & Hrec); [by apply forget_coherent|apply forget_unknown|].
    rewrite Hrun4. intros [= <- <-]. change (questions c3) with (questions c2) in *.
    split_and!; [done|lia| |].
    + destruct o4 as [token|]; [|done]. destruct Ho4 as (id' & (n & a' & Hn & Ha' & Htok) & Hcur).
      exists id'. split; [|done]. exists n, a'. split_and!; try done; lia.
    + intros (id' & Hinst). apply Hrec. exists (questions c), id'. split; [lia|]. by rewrite Hpin in *.
  - intros [= <- <-]. split_and!; [done|lia|done|].
    intros (id' & Hp & owner & name & Hpieces & Hfind & Htok).
    destruct (TokenCache.installation_ids c !! normalized repo) as [k|] eqn:Hk.
    + unfold _installation_id in Hrun1. rewrite Hp in Hrun1. rewrite bind_run in Hrun1. cbn [gets] in Hrun1.
      by rewrite Hk in Hrun1.
    + assert (Raise e = Return id') by (apply (Hfresh owner name); auto). done.
Qed.
End app.

(** ** On a concrete App *)

(** An App whose installation 5 was replaced by 7. *)
Definition reinstalled : GitHubApp := {|
  get_installation _ _ _ := Some 7;
  auth_token n a :=
    if InstallationAuth.installation_id a =? 7 then Some ("token-" +:+ pretty n) else None;
  get_app_installation _ _ := Some (JObj [])
|}.

(** What is cached from before. *)
Definition stale_cache : TokenCache.t :=
  TokenCache.mk {["octo/app" := 5]} {[5 := InstallationAuth.mk 5 0]} 10.

Example stale_installation_is_replaced :
  let m := app_token (H := reinstalled) None "Octo/App" in
  result m stale_cache = Return "token-12" ∧
  TokenCache.installation_ids (exec m stale_cache) !! "octo/app" = Some 7.
Proof. vm_compute. split; reflexivity. Qed.

Lemma tokens_recover_witness :
  ∃ token c', app_token (H := reinstalled) None "Octo/App" stale_cache = (Return token, c') ∧
    coherent c' ∧ (TokenCache.asked c' ≤ 14)%nat.
Proof.
  destruct (app_token (H := reinstalled) None "Octo/App" stale_cache) as [o c'] eqn:Hrun.
  assert (Hstale : coherent stale_cache) by by apply map_Forall_singleton.
  destruct (tokens_recover (H := reinstalled) None "Octo/App" stale_cache o c' Hstale Hrun)
    as (Hc & Hq & _ & Hrec).
  destruct Hrec as [token Ho].
  { exists 7. split; [reflexivity|]. exists "Octo", "App".
    split; [split_and!; [vm_compute; reflexivity|discriminate|discriminate]|].
    split; [reflexivity|]. intros n a _ Ha. cbn. rewrite Ha. cbn. by eexists. }
  exists token, c'. split; [by rewrite Ho|]. split; [exact Hc|exact Hq].
Defined.
